(** * Turn-taking engine of the voice interview session

    A shallow embedding of [frontend/src/components/InterviewSession.jsx]:
    the React component that speaks a question, captures the spoken answer,
    decides when the answer is done and submits it.

    The component is event driven.  Every callback the browser can dispatch
    (a timer firing, a recognition result, the end of a recognition session,
    the settling of a network promise, a click) is one constructor of
    [Event]; the synchronous body of the callback is one state-passing
    function named after the source function.  What the source keeps in
    [useState] cells is the record [View], what it keeps in [useRef] cells is
    the record [Refs], and what lives in the browser (timers, recognition
    objects, pending promises, the speech synthesiser) is the record [Host].

    Strings are the byte strings of the UTF-8 encoding; [trim] removes the
    white space and the line terminators that JavaScript's
    [String.prototype.trim] removes.

    After the session come, embedded in the same way, the resume uploader
    ([ResumeUploader]), the first version of the session ([Legacy]), whose
    handlers read the question and the histories from their closures, and
    the application that shows one after the other ([App]). *)

From Stdlib Require Import String Ascii List ZArith Bool Arith Lia.
Import ListNotations.
Local Open Scope list_scope.
Local Open Scope string_scope.

(** ** Constants of the module *)

Definition TOTAL_QUESTIONS : Z := 5.
Definition MAX_RECORD_SECONDS : Z := 120.
Definition SILENCE_TIMEOUT_MS : Z := 12000.

(** Delay of the false-start restart and of the start-up pause. *)
Definition RESTART_DELAY_MS : Z := 2000.
Definition INIT_DELAY_MS : Z := 500.

Definition msg_no_speech : string := "No speech detected. Listening again…".
Definition msg_failed : string := "Something went wrong. Please try again.".
Definition msg_unsupported : string :=
  "Speech recognition not supported. Please use Chrome.".
Definition msg_complete : string :=
  "Great job! Your interview is complete. Here are your results.".

(** ** Strings as JavaScript uses them here *)

(** The strings of JavaScript are held as the bytes of their UTF-8
    encoding. *)
Definition bytes (l : list nat) : string :=
  fold_right (fun n s => String (ascii_of_nat n) s) EmptyString l.

(** What [String.prototype.trim] removes: the white space of ECMAScript
    (TAB, VT, FF, U+FEFF and the space separators of Unicode) and its line
    terminators (LF, CR, U+2028, U+2029), each as the bytes of its
    encoding. *)
Definition js_whitespace : list string :=
  Eval cbv in
    map bytes
      [[9]; [10]; [11]; [12]; [13]; [32];
       [194; 160];                              (* U+00A0 *)
       [225; 154; 128];                         (* U+1680 *)
       [226; 128; 128]; [226; 128; 129]; [226; 128; 130];
       [226; 128; 131]; [226; 128; 132]; [226; 128; 133];
       [226; 128; 134]; [226; 128; 135]; [226; 128; 136];
       [226; 128; 137]; [226; 128; 138];        (* U+2000 .. U+200A *)
       [226; 128; 168]; [226; 128; 169];        (* U+2028, U+2029 *)
       [226; 128; 175];                         (* U+202F *)
       [226; 129; 159];                         (* U+205F *)
       [227; 128; 128];                         (* U+3000 *)
       [239; 187; 191]].                        (* U+FEFF *)

(** [s] without its prefix [p], if it starts with [p]. *)
Fixpoint drop_prefix (p s : string) : option string :=
  match p, s with
  | EmptyString, _ => Some s
  | String a p', String b s' => if Ascii.eqb a b then drop_prefix p' s' else None
  | String _ _, EmptyString => None
  end.

(** [p] is a prefix of [s]. *)
Definition is_prefix (p s : string) : bool :=
  match drop_prefix p s with Some _ => true | None => false end.

(** [s] without the white space it starts with, if it starts with one of
    [ws]. *)
Fixpoint drop_space (ws : list string) (s : string) : option string :=
  match ws with
  | [] => None
  | w :: ws' =>
      match drop_prefix w s with
      | Some r => Some r
      | None => drop_space ws' s
      end
  end.

Fixpoint trimStart_upto (n : nat) (s : string) : string :=
  match n with
  | O => s
  | S n' =>
      match drop_space js_whitespace s with
      | Some r => trimStart_upto n' r
      | None => s
      end
  end.

(** [String.prototype.trimStart]: every white space at the start goes, and
    there are at most as many as the string has bytes. *)
Definition trimStart (s : string) : string := trimStart_upto (String.length s) s.

(** [String.prototype.trimEnd]: the string is cut where nothing but white
    space follows. *)
Fixpoint trimEnd (s : string) : string :=
  match s with
  | EmptyString => EmptyString
  | String a r => if trimStart s =? "" then EmptyString else String a (trimEnd r)
  end.

Definition trim (s : string) : string := trimEnd (trimStart s).

(** A string of white space only, as the specification has it: white
    space after white space. *)
Inductive whitespace_only : string -> Prop :=
| whitespace_nil : whitespace_only ""
| whitespace_cons w s :
    In w js_whitespace -> whitespace_only s -> whitespace_only (w ++ s).

(** The string starts, or ends, with a white space. *)
Definition starts_with_space (s : string) : Prop :=
  exists w r, In w js_whitespace /\ s = w ++ r.
Definition ends_with_space (s : string) : Prop :=
  exists u w, In w js_whitespace /\ s = u ++ w.

Arguments trim s : simpl never.

(** Truthiness of a string: [!answer] holds exactly for the empty string. *)
Definition falsy (s : string) : bool := (s =? "").

(** [a || b] on strings that may be undefined. *)
Definition or_default (m : option string) (d : string) : string :=
  match m with
  | Some x => if falsy x then d else x
  | None => d
  end.

(** ** Numbers as JavaScript has them

    A number of JavaScript is an IEEE 754 double.  The counts of the
    component are integers, and an integer stands for the double nearest to
    it: itself up to 2^53, and beyond that the nearest integer with a
    mantissa of 53 bits, the even mantissa where two are as near.  The
    integers are taken within the range of the finite doubles. *)
Definition to_double (n : Z) : Z :=
  let a := Z.abs n in
  let shift := (Z.log2 a - 52)%Z in
  if (shift <=? 0)%Z then n
  else
    let q := Z.shiftr a shift in
    let rest := (a - Z.shiftl q shift)%Z in
    let half := Z.shiftl 1 (shift - 1) in
    let q' := if (half <? rest)%Z || ((rest =? half)%Z && Z.odd q)
              then (q + 1)%Z else q in
    (Z.sgn n * Z.shiftl q' shift)%Z.

(** [a + b] on numbers. *)
Definition js_add (a b : Z) : Z := to_double (to_double a + to_double b).

(** ** Data *)

Inductive Status := speaking | recording | processing | idle.

(** The final report is an opaque payload of the service. *)
Definition Report := string.

(** One entry of [event.results]; [alt_transcript] is [result[0].transcript]. *)
Record SpeechRecognitionResult := {
  isFinal : bool;
  alt_transcript : string
}.

Record SpeechRecognitionEvent := {
  resultIndex : nat;
  results : list SpeechRecognitionResult
}.

(** A recognition object.  A handler is the identifier of the activation of
    [startListeningFn] whose closure it is: the three handlers of one
    activation share its local variables. *)
Inductive RecState := RecCreated | RecStarted | RecAborted | RecEnded.

Record Recognition := {
  continuous : bool;
  interimResults : bool;
  lang : string;
  onresult : option nat;
  onerror : option nat;
  onend : option nat;
  rec_state : RecState
}.

(** The local variables of one activation of [startListeningFn]. *)
Record Activation := {
  finalTranscript : string;
  recognition : nat
}.

Inductive Callback := CbInitDelay | CbSilence | CbRestart.

Record Timeout := {
  t_id : nat;
  t_delay : Z;
  t_cb : Callback
}.

Record Interval := {
  i_id : nat;
  i_period : Z
}.

(** Body of the request passed to [submitAnswer]. *)
Record Request := {
  session_id : string;
  current_question : string;
  current_answer : string;
  previous_questions : list string;
  previous_answers : list string
}.

(** What the rest of [doSubmit] holds in its local constants while it waits
    for the service. *)
Record SubmitKont := {
  k_q : string;
  k_answer : string;
  k_prevQ : list string;
  k_prevA : list string
}.

(** What runs after an utterance has been spoken. *)
Inductive SpeakKont := KInit | KFinal (report : Report) | KNext.

(** Modelled from the spec: what a reply of the service carries.  The
    report is absent or a payload, and the component tests it for truthiness
    ([truthy]); the count is the integer that the reply gives, which the
    component holds as a double and to which it adds as doubles are added
    ([js_add]). *)
Record Data := {
  final_report : option Report;
  next_question : string;
  question_count : Z
}.

(** Truthiness of a report that may be absent, as [if (data.final_report)]
    tests it: an empty payload counts as none. *)
Definition truthy (o : option Report) : option Report :=
  match o with
  | Some r => if falsy r then None else Some r
  | None => None
  end.

Inductive Reply := Resolved (data : Data) | Rejected (message : option string).

(** ** The three parts of the state

    [View] holds, for every [useState] cell, the value its setter was last
    called with.  That is the value React holds and displays as long as the
    component is mounted; React discards the updates of a component that is
    no longer mounted, so a field of [View] is what is displayed only while
    [mounted] holds. *)

Record View := {
  currentQuestion : string;
  questionNumber : Z;
  transcript : string;
  isRecording : bool;
  isSpeaking : bool;
  status : Status;
  error : string;
  timer : Z;
  speechSupported : bool
}.

Record Refs := {
  recognitionRef : option nat;
  timerIntervalRef : option nat;
  silenceTimeoutRef : option nat;
  transcriptRef : string;
  isSubmittingRef : bool;
  shouldListenRef : bool;
  currentQuestionRef : string;
  previousQuestionsRef : list string;
  previousAnswersRef : list string;
  questionNumberRef : Z
}.

Record Host := {
  has_SR : bool;             (* window.SpeechRecognition || webkitSpeechRecognition *)
  has_synth : bool;          (* window.speechSynthesis *)
  synth_speaking : bool;     (* window.speechSynthesis.speaking *)
  next_id : nat;             (* source of fresh identifiers *)
  timeouts : list Timeout;   (* pending setTimeout callbacks *)
  intervals : list Interval; (* live setInterval callbacks *)
  recognizers : list (nat * Recognition);
  activations : list (nat * Activation);
  utterances : list (nat * (string * SpeakKont));
  inflight : list (nat * SubmitKont);  (* unsettled submitAnswer promises *)
  requests : list Request;   (* every call of submitAnswer, oldest first *)
  completed : list Report;   (* every call of onComplete, oldest first *)
  cancelled : bool           (* the flag of the mount effect *)
}.

Record Props := {
  sessionId : string;
  firstQuestion : string
}.

Record State := {
  props : Props;
  view : View;
  refs : Refs;
  host : Host
}.

Definition with_view (f : View -> View) (s : State) : State :=
  {| props := props s; view := f (view s); refs := refs s; host := host s |}.
Definition with_refs (f : Refs -> Refs) (s : State) : State :=
  {| props := props s; view := view s; refs := f (refs s); host := host s |}.
Definition with_host (f : Host -> Host) (s : State) : State :=
  {| props := props s; view := view s; refs := refs s; host := f (host s) |}.

(** *** The [useState] setters *)

Definition setCurrentQuestion (x : string) : State -> State :=
  with_view (fun v =>
    {| currentQuestion := x; questionNumber := questionNumber v;
       transcript := transcript v; isRecording := isRecording v;
       isSpeaking := isSpeaking v; status := status v; error := error v;
       timer := timer v; speechSupported := speechSupported v |}).

Definition setQuestionNumber (x : Z) : State -> State :=
  with_view (fun v =>
    {| currentQuestion := currentQuestion v; questionNumber := x;
       transcript := transcript v; isRecording := isRecording v;
       isSpeaking := isSpeaking v; status := status v; error := error v;
       timer := timer v; speechSupported := speechSupported v |}).

Definition setTranscript (x : string) : State -> State :=
  with_view (fun v =>
    {| currentQuestion := currentQuestion v; questionNumber := questionNumber v;
       transcript := x; isRecording := isRecording v;
       isSpeaking := isSpeaking v; status := status v; error := error v;
       timer := timer v; speechSupported := speechSupported v |}).

Definition setIsRecording (x : bool) : State -> State :=
  with_view (fun v =>
    {| currentQuestion := currentQuestion v; questionNumber := questionNumber v;
       transcript := transcript v; isRecording := x;
       isSpeaking := isSpeaking v; status := status v; error := error v;
       timer := timer v; speechSupported := speechSupported v |}).

Definition setIsSpeaking (x : bool) : State -> State :=
  with_view (fun v =>
    {| currentQuestion := currentQuestion v; questionNumber := questionNumber v;
       transcript := transcript v; isRecording := isRecording v;
       isSpeaking := x; status := status v; error := error v;
       timer := timer v; speechSupported := speechSupported v |}).

Definition setStatus (x : Status) : State -> State :=
  with_view (fun v =>
    {| currentQuestion := currentQuestion v; questionNumber := questionNumber v;
       transcript := transcript v; isRecording := isRecording v;
       isSpeaking := isSpeaking v; status := x; error := error v;
       timer := timer v; speechSupported := speechSupported v |}).

Definition setError (x : string) : State -> State :=
  with_view (fun v =>
    {| currentQuestion := currentQuestion v; questionNumber := questionNumber v;
       transcript := transcript v; isRecording := isRecording v;
       isSpeaking := isSpeaking v; status := status v; error := x;
       timer := timer v; speechSupported := speechSupported v |}).

Definition setTimer (x : Z) : State -> State :=
  with_view (fun v =>
    {| currentQuestion := currentQuestion v; questionNumber := questionNumber v;
       transcript := transcript v; isRecording := isRecording v;
       isSpeaking := isSpeaking v; status := status v; error := error v;
       timer := x; speechSupported := speechSupported v |}).

Definition setSpeechSupported (x : bool) : State -> State :=
  with_view (fun v =>
    {| currentQuestion := currentQuestion v; questionNumber := questionNumber v;
       transcript := transcript v; isRecording := isRecording v;
       isSpeaking := isSpeaking v; status := status v; error := error v;
       timer := timer v; speechSupported := x |}).

(** *** Assignments to the [.current] of a ref *)

Definition set_recognitionRef (x : option nat) : State -> State :=
  with_refs (fun r =>
    {| recognitionRef := x; timerIntervalRef := timerIntervalRef r;
       silenceTimeoutRef := silenceTimeoutRef r; transcriptRef := transcriptRef r;
       isSubmittingRef := isSubmittingRef r; shouldListenRef := shouldListenRef r;
       currentQuestionRef := currentQuestionRef r;
       previousQuestionsRef := previousQuestionsRef r;
       previousAnswersRef := previousAnswersRef r;
       questionNumberRef := questionNumberRef r |}).

Definition set_timerIntervalRef (x : option nat) : State -> State :=
  with_refs (fun r =>
    {| recognitionRef := recognitionRef r; timerIntervalRef := x;
       silenceTimeoutRef := silenceTimeoutRef r; transcriptRef := transcriptRef r;
       isSubmittingRef := isSubmittingRef r; shouldListenRef := shouldListenRef r;
       currentQuestionRef := currentQuestionRef r;
       previousQuestionsRef := previousQuestionsRef r;
       previousAnswersRef := previousAnswersRef r;
       questionNumberRef := questionNumberRef r |}).

Definition set_silenceTimeoutRef (x : option nat) : State -> State :=
  with_refs (fun r =>
    {| recognitionRef := recognitionRef r; timerIntervalRef := timerIntervalRef r;
       silenceTimeoutRef := x; transcriptRef := transcriptRef r;
       isSubmittingRef := isSubmittingRef r; shouldListenRef := shouldListenRef r;
       currentQuestionRef := currentQuestionRef r;
       previousQuestionsRef := previousQuestionsRef r;
       previousAnswersRef := previousAnswersRef r;
       questionNumberRef := questionNumberRef r |}).

Definition set_transcriptRef (x : string) : State -> State :=
  with_refs (fun r =>
    {| recognitionRef := recognitionRef r; timerIntervalRef := timerIntervalRef r;
       silenceTimeoutRef := silenceTimeoutRef r; transcriptRef := x;
       isSubmittingRef := isSubmittingRef r; shouldListenRef := shouldListenRef r;
       currentQuestionRef := currentQuestionRef r;
       previousQuestionsRef := previousQuestionsRef r;
       previousAnswersRef := previousAnswersRef r;
       questionNumberRef := questionNumberRef r |}).

Definition set_isSubmittingRef (x : bool) : State -> State :=
  with_refs (fun r =>
    {| recognitionRef := recognitionRef r; timerIntervalRef := timerIntervalRef r;
       silenceTimeoutRef := silenceTimeoutRef r; transcriptRef := transcriptRef r;
       isSubmittingRef := x; shouldListenRef := shouldListenRef r;
       currentQuestionRef := currentQuestionRef r;
       previousQuestionsRef := previousQuestionsRef r;
       previousAnswersRef := previousAnswersRef r;
       questionNumberRef := questionNumberRef r |}).

Definition set_shouldListenRef (x : bool) : State -> State :=
  with_refs (fun r =>
    {| recognitionRef := recognitionRef r; timerIntervalRef := timerIntervalRef r;
       silenceTimeoutRef := silenceTimeoutRef r; transcriptRef := transcriptRef r;
       isSubmittingRef := isSubmittingRef r; shouldListenRef := x;
       currentQuestionRef := currentQuestionRef r;
       previousQuestionsRef := previousQuestionsRef r;
       previousAnswersRef := previousAnswersRef r;
       questionNumberRef := questionNumberRef r |}).

Definition set_currentQuestionRef (x : string) : State -> State :=
  with_refs (fun r =>
    {| recognitionRef := recognitionRef r; timerIntervalRef := timerIntervalRef r;
       silenceTimeoutRef := silenceTimeoutRef r; transcriptRef := transcriptRef r;
       isSubmittingRef := isSubmittingRef r; shouldListenRef := shouldListenRef r;
       currentQuestionRef := x;
       previousQuestionsRef := previousQuestionsRef r;
       previousAnswersRef := previousAnswersRef r;
       questionNumberRef := questionNumberRef r |}).

Definition set_previousQuestionsRef (x : list string) : State -> State :=
  with_refs (fun r =>
    {| recognitionRef := recognitionRef r; timerIntervalRef := timerIntervalRef r;
       silenceTimeoutRef := silenceTimeoutRef r; transcriptRef := transcriptRef r;
       isSubmittingRef := isSubmittingRef r; shouldListenRef := shouldListenRef r;
       currentQuestionRef := currentQuestionRef r;
       previousQuestionsRef := x;
       previousAnswersRef := previousAnswersRef r;
       questionNumberRef := questionNumberRef r |}).

Definition set_previousAnswersRef (x : list string) : State -> State :=
  with_refs (fun r =>
    {| recognitionRef := recognitionRef r; timerIntervalRef := timerIntervalRef r;
       silenceTimeoutRef := silenceTimeoutRef r; transcriptRef := transcriptRef r;
       isSubmittingRef := isSubmittingRef r; shouldListenRef := shouldListenRef r;
       currentQuestionRef := currentQuestionRef r;
       previousQuestionsRef := previousQuestionsRef r;
       previousAnswersRef := x;
       questionNumberRef := questionNumberRef r |}).

Definition set_questionNumberRef (x : Z) : State -> State :=
  with_refs (fun r =>
    {| recognitionRef := recognitionRef r; timerIntervalRef := timerIntervalRef r;
       silenceTimeoutRef := silenceTimeoutRef r; transcriptRef := transcriptRef r;
       isSubmittingRef := isSubmittingRef r; shouldListenRef := shouldListenRef r;
       currentQuestionRef := currentQuestionRef r;
       previousQuestionsRef := previousQuestionsRef r;
       previousAnswersRef := previousAnswersRef r;
       questionNumberRef := x |}).

(** *** Updates of the browser side *)

Definition set_synth_speaking (x : bool) : State -> State :=
  with_host (fun h =>
    {| has_SR := has_SR h; has_synth := has_synth h; synth_speaking := x;
       next_id := next_id h; timeouts := timeouts h; intervals := intervals h;
       recognizers := recognizers h; activations := activations h;
       utterances := utterances h; inflight := inflight h;
       requests := requests h; completed := completed h;
       cancelled := cancelled h |}).

Definition set_next_id (x : nat) : State -> State :=
  with_host (fun h =>
    {| has_SR := has_SR h; has_synth := has_synth h;
       synth_speaking := synth_speaking h;
       next_id := x; timeouts := timeouts h; intervals := intervals h;
       recognizers := recognizers h; activations := activations h;
       utterances := utterances h; inflight := inflight h;
       requests := requests h; completed := completed h;
       cancelled := cancelled h |}).

Definition set_timeouts (x : list Timeout) : State -> State :=
  with_host (fun h =>
    {| has_SR := has_SR h; has_synth := has_synth h;
       synth_speaking := synth_speaking h;
       next_id := next_id h; timeouts := x; intervals := intervals h;
       recognizers := recognizers h; activations := activations h;
       utterances := utterances h; inflight := inflight h;
       requests := requests h; completed := completed h;
       cancelled := cancelled h |}).

Definition set_intervals (x : list Interval) : State -> State :=
  with_host (fun h =>
    {| has_SR := has_SR h; has_synth := has_synth h;
       synth_speaking := synth_speaking h;
       next_id := next_id h; timeouts := timeouts h; intervals := x;
       recognizers := recognizers h; activations := activations h;
       utterances := utterances h; inflight := inflight h;
       requests := requests h; completed := completed h;
       cancelled := cancelled h |}).

Definition set_recognizers (x : list (nat * Recognition)) : State -> State :=
  with_host (fun h =>
    {| has_SR := has_SR h; has_synth := has_synth h;
       synth_speaking := synth_speaking h;
       next_id := next_id h; timeouts := timeouts h; intervals := intervals h;
       recognizers := x; activations := activations h;
       utterances := utterances h; inflight := inflight h;
       requests := requests h; completed := completed h;
       cancelled := cancelled h |}).

Definition set_activations (x : list (nat * Activation)) : State -> State :=
  with_host (fun h =>
    {| has_SR := has_SR h; has_synth := has_synth h;
       synth_speaking := synth_speaking h;
       next_id := next_id h; timeouts := timeouts h; intervals := intervals h;
       recognizers := recognizers h; activations := x;
       utterances := utterances h; inflight := inflight h;
       requests := requests h; completed := completed h;
       cancelled := cancelled h |}).

Definition set_utterances (x : list (nat * (string * SpeakKont))) : State -> State :=
  with_host (fun h =>
    {| has_SR := has_SR h; has_synth := has_synth h;
       synth_speaking := synth_speaking h;
       next_id := next_id h; timeouts := timeouts h; intervals := intervals h;
       recognizers := recognizers h; activations := activations h;
       utterances := x; inflight := inflight h;
       requests := requests h; completed := completed h;
       cancelled := cancelled h |}).

Definition set_inflight (x : list (nat * SubmitKont)) : State -> State :=
  with_host (fun h =>
    {| has_SR := has_SR h; has_synth := has_synth h;
       synth_speaking := synth_speaking h;
       next_id := next_id h; timeouts := timeouts h; intervals := intervals h;
       recognizers := recognizers h; activations := activations h;
       utterances := utterances h; inflight := x;
       requests := requests h; completed := completed h;
       cancelled := cancelled h |}).

Definition set_requests (x : list Request) : State -> State :=
  with_host (fun h =>
    {| has_SR := has_SR h; has_synth := has_synth h;
       synth_speaking := synth_speaking h;
       next_id := next_id h; timeouts := timeouts h; intervals := intervals h;
       recognizers := recognizers h; activations := activations h;
       utterances := utterances h; inflight := inflight h;
       requests := x; completed := completed h;
       cancelled := cancelled h |}).

Definition set_completed (x : list Report) : State -> State :=
  with_host (fun h =>
    {| has_SR := has_SR h; has_synth := has_synth h;
       synth_speaking := synth_speaking h;
       next_id := next_id h; timeouts := timeouts h; intervals := intervals h;
       recognizers := recognizers h; activations := activations h;
       utterances := utterances h; inflight := inflight h;
       requests := requests h; completed := x;
       cancelled := cancelled h |}).

Definition set_cancelled (x : bool) : State -> State :=
  with_host (fun h =>
    {| has_SR := has_SR h; has_synth := has_synth h;
       synth_speaking := synth_speaking h;
       next_id := next_id h; timeouts := timeouts h; intervals := intervals h;
       recognizers := recognizers h; activations := activations h;
       utterances := utterances h; inflight := inflight h;
       requests := requests h; completed := completed h;
       cancelled := x |}).

(** ** Browser primitives *)

Module Store.
(** Objects and pending promises are kept by identifier. *)
Section WithValue.
Context {V : Type}.

Fixpoint get (k : nat) (l : list (nat * V)) : option V :=
  match l with
  | [] => None
  | (k', v) :: l' => if Nat.eqb k k' then Some v else get k l'
  end.

Fixpoint put (k : nat) (v : V) (l : list (nat * V)) : list (nat * V) :=
  match l with
  | [] => [(k, v)]
  | (k', v') :: l' =>
      if Nat.eqb k k' then (k, v) :: l' else (k', v') :: put k v l'
  end.

Fixpoint remove (k : nat) (l : list (nat * V)) : list (nat * V) :=
  match l with
  | [] => []
  | (k', v') :: l' =>
      if Nat.eqb k k' then remove k l' else (k', v') :: remove k l'
  end.

(** Change the object stored under [k], if there is one. *)
Fixpoint update (k : nat) (f : V -> V) (l : list (nat * V)) : list (nat * V) :=
  match l with
  | [] => []
  | (k', v) :: l' =>
      if Nat.eqb k k' then (k, f v) :: l' else (k', v) :: update k f l'
  end.
End WithValue.
End Store.

(** Identifiers of timers, objects and promises are drawn from one counter;
    like the browser's timer identifiers they are never reused. *)
Definition fresh (s : State) : nat * State :=
  let id := next_id (host s) in (id, set_next_id (S id) s).

Definition setTimeout (cb : Callback) (delay : Z) (s : State) : nat * State :=
  let '(id, s) := fresh s in
  (id, set_timeouts
         (timeouts (host s) ++ [{| t_id := id; t_delay := delay; t_cb := cb |}]) s).

Definition clearTimeout (id : nat) (s : State) : State :=
  set_timeouts (filter (fun t => negb (Nat.eqb (t_id t) id)) (timeouts (host s))) s.

Definition setInterval (period : Z) (s : State) : nat * State :=
  let '(id, s) := fresh s in
  (id, set_intervals (intervals (host s) ++ [{| i_id := id; i_period := period |}]) s).

Definition clearInterval (id : nat) (s : State) : State :=
  set_intervals (filter (fun i => negb (Nat.eqb (i_id i) id)) (intervals (host s))) s.

Definition find_timeout (id : nat) (s : State) : option Timeout :=
  find (fun t => Nat.eqb (t_id t) id) (timeouts (host s)).

Definition find_interval (id : nat) (s : State) : option Interval :=
  find (fun i => Nat.eqb (i_id i) id) (intervals (host s)).

(** [new SpeechRecognition()]: a new object, not started, without handlers. *)
Definition new_SpeechRecognition (s : State) : nat * State :=
  let '(id, s) := fresh s in
  (id, set_recognizers
         (Store.put id
            {| continuous := false; interimResults := false; lang := "";
               onresult := None; onerror := None; onend := None;
               rec_state := RecCreated |}
            (recognizers (host s))) s).

Definition update_recognition (id : nat) (f : Recognition -> Recognition)
    (s : State) : State :=
  set_recognizers (Store.update id f (recognizers (host s))) s.

(** The assignments [r.continuous = true; r.interimResults = true;
    r.lang = 'en-US'] followed by the three handler assignments. *)
Definition configure (id : nat) (hres herr hend : option nat) : State -> State :=
  update_recognition id (fun r =>
    {| continuous := true; interimResults := true; lang := "en-US";
       onresult := hres; onerror := herr; onend := hend;
       rec_state := rec_state r |}).

Definition set_rec_state (st : RecState) (r : Recognition) : Recognition :=
  {| continuous := continuous r; interimResults := interimResults r;
     lang := lang r; onresult := onresult r; onerror := onerror r;
     onend := onend r; rec_state := st |}.

(** [r.start()].  The component starts only objects it has just constructed,
    for which the call does not throw. *)
Definition rec_start (id : nat) : State -> State :=
  update_recognition id (set_rec_state RecStarted).

(** [r.abort()]: a started object stops delivering results and will only
    report its end; on any other object the call does nothing. *)
Definition rec_abort (id : nat) : State -> State :=
  update_recognition id (fun r =>
    match rec_state r with
    | RecStarted => set_rec_state RecAborted r
    | _ => r
    end).

Definition speechSynthesis_speaking (s : State) : bool :=
  has_synth (host s) && synth_speaking (host s).

(** ** The component *)

(** [cleanupRecording]: release every recording resource. *)
Definition cleanupRecording (s : State) : State :=
  let s := set_shouldListenRef false s in
  let s := match recognitionRef (refs s) with
           | Some r => set_recognitionRef None (rec_abort r s)
           | None => s
           end in
  let s := match timerIntervalRef (refs s) with
           | Some i => set_timerIntervalRef None (clearInterval i s)
           | None => s
           end in
  let s := match silenceTimeoutRef (refs s) with
           | Some t => set_silenceTimeoutRef None (clearTimeout t s)
           | None => s
           end in
  setIsRecording false s.

(** Modelled from the spec: [submitAnswer] of [../api], which is not part of
    the sources.  The call sends one request to the scoring service and
    returns a promise; the promise is kept in [inflight] together with the
    code that awaits it, until the service settles it. *)
Definition submitAnswer (req : Request) (k : SubmitKont) (s : State) : State :=
  let '(p, s) := fresh s in
  let s := set_requests (requests (host s) ++ [req]) s in
  set_inflight (inflight (host s) ++ [(p, k)]) s.

(** [doSubmit], up to its first [await]. *)
Definition doSubmit (s : State) : State :=
  if isSubmittingRef (refs s) then s else
  let answer := trim (transcriptRef (refs s)) in
  if falsy answer then
    let s := setError msg_no_speech s in
    let s := cleanupRecording s in
    snd (setTimeout CbRestart RESTART_DELAY_MS s)
  else
    let s := set_isSubmittingRef true s in
    let s := cleanupRecording s in
    let s := setStatus processing s in
    let s := setError "" s in
    let q := currentQuestionRef (refs s) in
    let prevQ := previousQuestionsRef (refs s) in
    let prevA := previousAnswersRef (refs s) in
    submitAnswer
      {| session_id := sessionId (props s); current_question := q;
         current_answer := answer; previous_questions := prevQ;
         previous_answers := prevA |}
      {| k_q := q; k_answer := answer; k_prevQ := prevQ; k_prevA := prevA |}
      s.

(** [resetSilenceTimer], local to [startListeningFn]. *)
Definition resetSilenceTimer (s : State) : State :=
  let s := match silenceTimeoutRef (refs s) with
           | Some t => clearTimeout t s
           | None => s
           end in
  let '(t, s) := setTimeout CbSilence SILENCE_TIMEOUT_MS s in
  set_silenceTimeoutRef (Some t) s.

(** The function passed to [setTimeout] by [resetSilenceTimer]. *)
Definition silenceTimeout_callback (s : State) : State :=
  if speechSynthesis_speaking s then resetSilenceTimer s
  else if negb (isSubmittingRef (refs s)) && shouldListenRef (refs s)
       then doSubmit s
       else s.

(** The function passed to [setInterval]: the updater given to [setTimer]
    runs on the current value of [timer]. *)
Definition countdown_callback (s : State) : State :=
  let prev := timer (view s) in
  if (prev <=? 1)%Z then
    let s := if negb (isSubmittingRef (refs s)) then doSubmit s else s in
    setTimer 0 s
  else setTimer (prev - 1) s.

(** The loop of [recognition.onresult]:
    [for (let i = event.resultIndex; i < event.results.length; i++)].
    The accumulator is the pair ([finalTranscript], [interim]). *)
Fixpoint for_results (n i : nat) (rs : list SpeechRecognitionResult)
    (acc : string * string) : string * string :=
  match n with
  | O => acc
  | S n' =>
      match nth_error rs i with
      | Some result =>
          let acc' :=
            if isFinal result
            then (fst acc ++ alt_transcript result ++ " ", snd acc)
            else (fst acc, snd acc ++ alt_transcript result) in
          for_results n' (S i) rs acc'
      | None => acc
      end
  end.

Definition recognition_onresult (c : nat) (event : SpeechRecognitionEvent)
    (s : State) : State :=
  match Store.get c (activations (host s)) with
  | None => s
  | Some a =>
      let '(fin, interim) :=
        for_results (length (results event) - resultIndex event)
          (resultIndex event) (results event) (finalTranscript a, "") in
      let s := set_activations
                 (Store.put c {| finalTranscript := fin;
                                 recognition := recognition a |}
                    (activations (host s))) s in
      let full := fin ++ interim in
      let s := set_transcriptRef full s in
      let s := setTranscript full s in
      resetSilenceTimer s
  end.

Definition recognition_onerror (err : string) (s : State) : State :=
  if negb (err =? "aborted") && negb (err =? "no-speech")
  then setError ("Speech error: " ++ err) s
  else s.

(** [recognition.onend] of activation [c].  The constructor throws when the
    browser has no recognition engine; the [catch] swallows it. *)
Definition recognition_onend (c : nat) (s : State) : State :=
  if shouldListenRef (refs s) && negb (isSubmittingRef (refs s)) then
    if has_SR (host s) then
      match Store.get c (activations (host s)) with
      | None => s
      | Some a =>
          let original := Store.get (recognition a) (recognizers (host s)) in
          let '(fresh_r, s) := new_SpeechRecognition s in
          let s := configure fresh_r
                     (match original with Some o => onresult o | None => None end)
                     (match original with Some o => onerror o | None => None end)
                     (match original with Some o => onend o | None => None end)
                     s in
          let s := set_recognitionRef (Some fresh_r) s in
          rec_start fresh_r s
      end
    else s
  else s.

(** [startListeningFn]. *)
Definition startListeningFn (s : State) : State :=
  if negb (has_SR (host s)) then setError msg_unsupported s else
  let s := cleanupRecording s in
  let s := setTranscript "" s in
  let s := set_transcriptRef "" s in
  let s := setError "" s in
  let s := setTimer MAX_RECORD_SECONDS s in
  let s := set_isSubmittingRef false s in
  let s := set_shouldListenRef true s in
  let '(r, s) := new_SpeechRecognition s in
  let '(c, s) := fresh s in
  let s := set_activations
             (Store.put c {| finalTranscript := ""; recognition := r |}
                (activations (host s))) s in
  let s := configure r (Some c) (Some c) (Some c) s in
  let s := set_recognitionRef (Some r) s in
  let s := rec_start r s in
  let s := setIsRecording true s in
  let s := setStatus recording s in
  let s := resetSilenceTimer s in
  let '(i, s) := setInterval 1000 s in
  set_timerIntervalRef (Some i) s.

(** The function passed to [setTimeout] on the false-start path of
    [doSubmit]. *)
Definition restart_callback (s : State) : State :=
  startListeningFn (setError "" s).

Definition onComplete (report : Report) (s : State) : State :=
  set_completed (completed (host s) ++ [report]) s.

(** What follows [await speakQuestion(...)] at its three call sites. *)
Definition resume_speak (k : SpeakKont) (s : State) : State :=
  match k with
  | KInit => if cancelled (host s) then s else startListeningFn s
  | KFinal report => set_isSubmittingRef false (onComplete report s)
  | KNext => startListeningFn s
  end.

(** [speakQuestion]: without a synthesiser the promise resolves at once;
    otherwise the utterance is queued and the promise resolves when the
    utterance ends or fails. *)
Definition speakQuestion (text : string) (k : SpeakKont) (s : State) : State :=
  if negb (has_synth (host s)) then resume_speak k s
  else
    let '(u, s) := fresh s in
    set_utterances (utterances (host s) ++ [(u, (text, k))]) s.

(** [doSubmit], from the point where [submitAnswer] settles. *)
Definition resume_submit (k : SubmitKont) (reply : Reply) (s : State) : State :=
  match reply with
  | Resolved data =>
      match truthy (final_report data) with
      | Some report => speakQuestion msg_complete (KFinal report) s
      | None =>
          let nextQ := next_question data in
          let newQNum := js_add (question_count data) 1 in
          let s := set_previousQuestionsRef (k_prevQ k ++ [k_q k])%list s in
          let s := set_previousAnswersRef (k_prevA k ++ [k_answer k])%list s in
          let s := set_currentQuestionRef nextQ s in
          let s := set_questionNumberRef newQNum s in
          let s := setCurrentQuestion nextQ s in
          let s := setQuestionNumber newQNum s in
          let s := setTranscript "" s in
          let s := set_transcriptRef "" s in
          let s := set_isSubmittingRef false s in
          let s := setStatus speaking s in
          speakQuestion nextQ KNext s
      end
  | Rejected message =>
      let s := setError (or_default message msg_failed) s in
      let s := setStatus idle s in
      set_isSubmittingRef false s
  end.

Definition handleDoneClick (s : State) : State :=
  if negb (isSubmittingRef (refs s)) then doSubmit s else s.

(** The mount effect after its start-up pause. *)
Definition init_after_delay (s : State) : State :=
  if cancelled (host s) then s
  else speakQuestion (firstQuestion (props s)) KInit (setStatus speaking s).

(** The clean-up of the mount effect. *)
Definition unmount (s : State) : State :=
  cleanupRecording (set_cancelled true s).

(** The component is on the page until the clean-up of its mount effect
    has run, which sets [cancelled]. *)
Definition mounted (s : State) : bool := negb (cancelled (host s)).

(** The component as first rendered, its mount effects run. *)
Definition mount (p : Props) (sr synth : bool) : State :=
  let s :=
    {| props := p;
       view := {| currentQuestion := firstQuestion p; questionNumber := 1;
                  transcript := ""; isRecording := false; isSpeaking := false;
                  status := speaking; error := "";
                  timer := MAX_RECORD_SECONDS; speechSupported := true |};
       refs := {| recognitionRef := None; timerIntervalRef := None;
                  silenceTimeoutRef := None; transcriptRef := "";
                  isSubmittingRef := false; shouldListenRef := false;
                  currentQuestionRef := firstQuestion p;
                  previousQuestionsRef := []; previousAnswersRef := [];
                  questionNumberRef := 1 |};
       host := {| has_SR := sr; has_synth := synth; synth_speaking := false;
                  next_id := 1; timeouts := []; intervals := [];
                  recognizers := []; activations := []; utterances := [];
                  inflight := []; requests := []; completed := [];
                  cancelled := false |} |} in
  let s := if negb sr then setSpeechSupported false s else s in
  snd (setTimeout CbInitDelay INIT_DELAY_MS s).

(** ** Events *)

Inductive Event :=
| TimeoutFires (id : nat)
| IntervalFires (id : nat)
| RecResult (r : nat) (event : SpeechRecognitionEvent)
| RecError (r : nat) (err : string)
| RecEnd (r : nat)
| SynthSpeaking (b : bool)
| UtteranceStart (u : nat)
| UtteranceSettled (u : nat)
| Settled (p : nat) (reply : Reply)
| DoneClick
| Unmount.

Definition run_callback (cb : Callback) (s : State) : State :=
  match cb with
  | CbInitDelay => init_after_delay s
  | CbSilence => silenceTimeout_callback s
  | CbRestart => restart_callback s
  end.

Definition is_recording (st : Status) : bool :=
  match st with recording => true | _ => false end.

(** One turn of the event loop.  An event that the browser cannot deliver in
    the current state (a timer that was cleared, a result of an object that
    is not started, a click on a button that is not rendered or whose
    component is no longer mounted, a second unmount) leaves the state as it
    is. *)
Definition step (e : Event) (s : State) : State :=
  match e with
  | TimeoutFires id =>
      match find_timeout id s with
      | Some t => run_callback (t_cb t) (clearTimeout id s)
      | None => s
      end
  | IntervalFires id =>
      match find_interval id s with
      | Some _ => countdown_callback s
      | None => s
      end
  | RecResult r event =>
      match Store.get r (recognizers (host s)) with
      | Some o =>
          match rec_state o, onresult o with
          | RecStarted, Some c => recognition_onresult c event s
          | _, _ => s
          end
      | None => s
      end
  | RecError r err =>
      match Store.get r (recognizers (host s)) with
      | Some o =>
          match rec_state o, onerror o with
          | RecStarted, Some _ | RecAborted, Some _ => recognition_onerror err s
          | _, _ => s
          end
      | None => s
      end
  | RecEnd r =>
      match Store.get r (recognizers (host s)) with
      | Some o =>
          match rec_state o with
          | RecStarted | RecAborted =>
              let s := update_recognition r (set_rec_state RecEnded) s in
              match onend o with
              | Some c => recognition_onend c s
              | None => s
              end
          | _ => s
          end
      | None => s
      end
  | SynthSpeaking b => set_synth_speaking b s
  | UtteranceStart u =>
      match Store.get u (utterances (host s)) with
      | Some _ => setIsSpeaking true s
      | None => s
      end
  | UtteranceSettled u =>
      match Store.get u (utterances (host s)) with
      | Some (_, k) =>
          let s := set_utterances (Store.remove u (utterances (host s))) s in
          resume_speak k (setIsSpeaking false s)
      | None => s
      end
  | Settled p reply =>
      match Store.get p (inflight (host s)) with
      | Some k =>
          let s := set_inflight (Store.remove p (inflight (host s))) s in
          resume_submit k reply s
      | None => s
      end
  | DoneClick =>
      if mounted s && speechSupported (view s) && is_recording (status (view s))
      then handleDoneClick s
      else s
  | Unmount => if mounted s then unmount s else s
  end.

Definition run (es : list Event) (s : State) : State :=
  fold_left (fun s e => step e s) es s.

(** ** The transcript as the specification words it

    These three definitions follow the text of the specification, not the
    code: the fragments an event delivers are the entries of its result list
    from [resultIndex] on; the finalized text is every finalized fragment
    followed by one space, in arrival order; the interim tail is made of the
    interim fragments of one event. *)

Definition delivered (event : SpeechRecognitionEvent) : list SpeechRecognitionResult :=
  skipn (resultIndex event) (results event).

Fixpoint join (l : list string) : string :=
  match l with
  | [] => ""
  | x :: l' => x ++ join l'
  end.

Definition spec_finalized (events : list SpeechRecognitionEvent) : string :=
  join (map (fun r => alt_transcript r ++ " ")
          (filter isFinal (flat_map delivered events))).

Definition spec_interim (event : SpeechRecognitionEvent) : string :=
  join (map alt_transcript (filter (fun r => negb (isFinal r)) (delivered event))).

(** ** Notions used in the statements *)

(** The body of the loop of [recognition.onresult]. *)
Definition accumulate (acc : string * string) (r : SpeechRecognitionResult) :=
  if isFinal r
  then (fst acc ++ alt_transcript r ++ " ", snd acc)
  else (fst acc, snd acc ++ alt_transcript r).

(** The result handler of activation [c] run on a sequence of events. *)
Definition deliver_all (c : nat) (events : list SpeechRecognitionEvent)
    (s : State) : State :=
  fold_left (fun st e => recognition_onresult c e st) events s.

(** The request that [doSubmit] sends from the state [s]: the question and
    the histories held by the refs, and the trimmed transcript. *)
Definition request_of (s : State) : Request :=
  {| session_id := sessionId (props s);
     current_question := currentQuestionRef (refs s);
     current_answer := trim (transcriptRef (refs s));
     previous_questions := previousQuestionsRef (refs s);
     previous_answers := previousAnswersRef (refs s) |}.

(** The local constants that the continuation of [doSubmit] keeps across
    its [await]. *)
Definition kont_of (s : State) : SubmitKont :=
  {| k_q := currentQuestionRef (refs s);
     k_answer := trim (transcriptRef (refs s));
     k_prevQ := previousQuestionsRef (refs s);
     k_prevA := previousAnswersRef (refs s) |}.

(** What [recognition.abort()] does to an object: only a started object
    changes. *)
Definition aborted (r : Recognition) : Recognition :=
  match rec_state r with
  | RecStarted => set_rec_state RecAborted r
  | _ => r
  end.

(** The pending timeouts after [clearTimeout] of the identifier a ref
    holds, if it holds one. *)
Definition without_timeout (o : option nat) (l : list Timeout) : list Timeout :=
  match o with
  | Some id => filter (fun t => negb (Nat.eqb (t_id t) id)) l
  | None => l
  end.

(** The same for [clearInterval]. *)
Definition without_interval (o : option nat) (l : list Interval) : list Interval :=
  match o with
  | Some id => filter (fun i => negb (Nat.eqb (i_id i) id)) l
  | None => l
  end.

(** The recognition objects after the one a ref holds, if any, has been
    aborted. *)
Definition with_aborted (o : option nat) (l : list (nat * Recognition)) :=
  match o with
  | Some id => Store.update id aborted l
  | None => l
  end.

(** The turn: the question and its number, as displayed and as held by the
    refs, and the histories of questions and answers. *)
Record Turn := {
  turn_question : string;
  turn_number : Z;
  turn_questionRef : string;
  turn_numberRef : Z;
  turn_previousQuestions : list string;
  turn_previousAnswers : list string
}.

(** The turn of a state. *)
Definition turn_of (s : State) : Turn :=
  {| turn_question := currentQuestion (view s);
     turn_number := questionNumber (view s);
     turn_questionRef := currentQuestionRef (refs s);
     turn_numberRef := questionNumberRef (refs s);
     turn_previousQuestions := previousQuestionsRef (refs s);
     turn_previousAnswers := previousAnswersRef (refs s) |}.

(** The utterances handed to the synthesiser and the reports handed to
    [onComplete]. *)
Definition spoken_of (s : State) : list (nat * (string * SpeakKont)) * list Report :=
  (utterances (host s), completed (host s)).

(** The utterance whose end calls [onComplete]. *)
Definition is_final_kont (k : SpeakKont) : bool :=
  match k with KFinal _ => true | _ => false end.

(** [onComplete] has not been called and no utterance is going to call
    it. *)
Definition no_final (s : State) : Prop :=
  completed (host s) = [] /\
  Forall (fun u => is_final_kont (snd (snd u)) = false) (utterances (host s)).

(** A reply of the service that carries a final report. *)
Definition carries_final_report (e : Event) : bool :=
  match e with
  | Settled _ (Resolved data) =>
      match truthy (final_report data) with Some _ => true | None => false end
  | _ => false
  end.

(** A reply without a final report whose question count is at least 0 and
    below the total. *)
Definition count_in_range (e : Event) : Prop :=
  match e with
  | Settled _ (Resolved data) =>
      truthy (final_report data) = None ->
      (0 <= question_count data < TOTAL_QUESTIONS)%Z
  | _ => True
  end.

(** The turn number, displayed and in the ref alike, is between 1 and the
    total. *)
Definition turn_in_range (s : State) : Prop :=
  (1 <= turn_number (turn_of s) <= TOTAL_QUESTIONS)%Z /\
  turn_numberRef (turn_of s) = turn_number (turn_of s).

(** Every identifier the browser has handed out is below [n]. *)
Definition ids_below (n : nat) (h : Host) : Prop :=
  Forall (fun t => t_id t < n) (timeouts h) /\
  Forall (fun i => i_id i < n) (intervals h) /\
  Forall (fun r => fst r < n) (recognizers h) /\
  Forall (fun a => fst a < n) (activations h) /\
  Forall (fun u => fst u < n) (utterances h) /\
  Forall (fun q => fst q < n) (inflight h).

(** The next identifier has not been handed out yet. *)
Definition ids_fresh (s : State) : Prop := ids_below (next_id (host s)) (host s).

(** What the browser supports: a recognition engine, a synthesiser. *)
Definition browser_of (s : State) : bool * bool :=
  (has_SR (host s), has_synth (host s)).

(** The requests sent so far and the promises still pending. *)
Definition posted_of (s : State) : list Request * list (nat * SubmitKont) :=
  (requests (host s), inflight (host s)).

(** A handler read from [recognition], the constant of the activation, when
    [recognition.onend] attaches it to the new object. *)
Definition handler_of (proj : Recognition -> option nat)
    (original : option Recognition) : option nat :=
  match original with Some o => proj o | None => None end.

(** A recognition object whose three handlers are the closures of the
    activation [c] of [startListeningFn]. *)
Definition handlers_are (c : nat) (o : Recognition) : Prop :=
  onresult o = Some c /\ onerror o = Some c /\ onend o = Some c.

(** A recognition object is wired when its handlers belong to an activation
    that exists, and the [recognition] constant of that activation is an
    object with the same handlers. *)
Definition wired (recs : list (nat * Recognition))
    (acts : list (nat * Activation)) (o : Recognition) : Prop :=
  exists c,
    handlers_are c o /\
    exists a o0,
      Store.get c acts = Some a /\
      Store.get (recognition a) recs = Some o0 /\
      handlers_are c o0.

(** The capture is well formed when every recognition object is wired. *)
Definition capture_wf (s : State) : Prop :=
  forall r o,
    Store.get r (recognizers (host s)) = Some o ->
    wired (recognizers (host s)) (activations (host s)) o.

(** The part of the state that [capture_wf] reads. *)
Definition engine_of (s : State) :
    list (nat * Recognition) * list (nat * Activation) :=
  (recognizers (host s), activations (host s)).

(** A change of a recognition object that leaves its handlers alone. *)
Definition keeps_handlers (f : Recognition -> Recognition) : Prop :=
  forall o, onresult (f o) = onresult o /\ onerror (f o) = onerror o /\
            onend (f o) = onend o.

(** The recognition objects after a new one, configured and started, has
    been added under the identifier [n]. *)
Definition installed (n : nat) (hres herr hend : option nat)
    (l : list (nat * Recognition)) : list (nat * Recognition) :=
  Store.update n (set_rec_state RecStarted)
    (Store.update n
       (fun r => {| continuous := true; interimResults := true; lang := "en-US";
                    onresult := hres; onerror := herr; onend := hend;
                    rec_state := rec_state r |})
       (Store.put n
          {| continuous := false; interimResults := false; lang := "";
             onresult := None; onerror := None; onend := None;
             rec_state := RecCreated |} l)).

(** What the capture engine does during a listening phase: it delivers a
    result, or it stops by itself. *)
Inductive Heard := Fragment (event : SpeechRecognitionEvent) | EngineStop.

(** The engine acts through the recognition object that the ref holds. *)
Definition hear (s : State) (h : Heard) : State :=
  match recognitionRef (refs s) with
  | Some r =>
      match h with
      | Fragment event => step (RecResult r event) s
      | EngineStop => step (RecEnd r) s
      end
  | None => s
  end.

(** The results among the doings of the engine. *)
Definition fragments (hs : list Heard) : list SpeechRecognitionEvent :=
  flat_map (fun h => match h with Fragment e => [e] | EngineStop => [] end) hs.

(** A listening phase under way: the ref holds a started recognition object
    whose handlers are those of the activation [c], which has accumulated
    the finalized text [fin]; the controller wants input and no submission
    is in flight. *)
Definition listening (c : nat) (fin : string) (s : State) : Prop :=
  has_SR (host s) = true /\
  ids_fresh s /\
  capture_wf s /\
  shouldListenRef (refs s) = true /\
  isSubmittingRef (refs s) = false /\
  (exists r o, recognitionRef (refs s) = Some r /\
               Store.get r (recognizers (host s)) = Some o /\
               rec_state o = RecStarted /\
               handlers_are c o) /\
  (exists n0, Store.get c (activations (host s)) =
              Some {| finalTranscript := fin; recognition := n0 |}) /\
  transcript (view s) = transcriptRef (refs s).

(** The interval [i] is registered. *)
Definition alive (i : nat) (s : State) : Prop := find_interval i s <> None.

(** The listening phase whose countdown interval is [i], after [n] firings
    of it: while the interval is registered the ref holds it, no submission
    is in flight and the counter has gone down by at least [n]. *)
Definition phase (i n : nat) (s : State) : Prop :=
  i < next_id (host s) /\
  (alive i s ->
   timerIntervalRef (refs s) = Some i /\
   isSubmittingRef (refs s) = false /\
   (timer (view s) <= MAX_RECORD_SECONDS - Z.of_nat n)%Z).

(** 1 for a firing of the interval [i], 0 for any other event. *)
Definition fires (i : nat) (e : Event) : nat :=
  match e with
  | IntervalFires j => if Nat.eqb j i then 1 else 0
  | _ => 0
  end.

(** The number of firings of the interval [i] in a sequence of events. *)
Fixpoint count_fires (i : nat) (es : list Event) : nat :=
  match es with
  | [] => 0
  | e :: es' => fires i e + count_fires i es'
  end.

(** At most one submission is in flight, and the flag is set while it
    is. *)
Definition single_flight (s : State) : Prop :=
  inflight (host s) = [] \/
  (isSubmittingRef (refs s) = true /\ length (inflight (host s)) = 1).

(** The events that may ask for a submission, with those of the capture
    engine and of the synthesiser; the timers that start listening again are
    not among them. *)
Definition is_trigger (e : Event) (s : State) : Prop :=
  match e with
  | DoneClick | IntervalFires _ | RecResult _ _ | RecError _ _ | RecEnd _
  | SynthSpeaking _ => True
  | TimeoutFires id =>
      match find_timeout id s with
      | Some t => t_cb t = CbSilence
      | None => True
      end
  | _ => False
  end.

(** Every event of the sequence is one of those, in the state it meets. *)
Fixpoint triggers (es : list Event) (s : State) : Prop :=
  match es with
  | [] => True
  | e :: es' => is_trigger e s /\ triggers es' (step e s)
  end.

(** Nothing is pending and nothing is shown that could call the submit
    operation: the status is [idle], so the done button is not rendered; no
    timer, utterance or promise is pending; and no recognition object is
    started or will be restarted. *)
Definition quiescent (s : State) : Prop :=
  status (view s) = idle /\
  shouldListenRef (refs s) = false /\
  timeouts (host s) = [] /\
  intervals (host s) = [] /\
  utterances (host s) = [] /\
  inflight (host s) = [] /\
  Forall (fun r => rec_state (snd r) <> RecStarted) (recognizers (host s)).

(** The flag and the pending promises. *)
Definition flight_of (s : State) : bool * list (nat * SubmitKont) :=
  (isSubmittingRef (refs s), inflight (host s)).

(** ** An example session *)

Definition example_props : Props :=
  {| sessionId := "session-1"; firstQuestion := "Tell me about yourself." |}.

(** An event that delivers one finalized fragment. *)
Definition final_fragment (text : string) : SpeechRecognitionEvent :=
  {| resultIndex := 0;
     results := [{| isFinal := true; alt_transcript := text |}] |}.

(** The start-up pause elapses (timer 1) and the first question has been
    spoken (utterance 2): listening starts with recognition object 3,
    activation 4, silence timer 5 and countdown interval 6. *)
Definition listening_started : list Event := [TimeoutFires 1; UtteranceSettled 2].

(** The component, listening for the first answer. *)
Definition example_listening : State :=
  run listening_started (mount example_props true true).

(** The same after the candidate said Hello. *)
Definition example_answered : State :=
  step (RecResult 3 (final_fragment "Hello")) example_listening.

(** The same after the recognizer delivered white space only: a no-break
    space (U+00A0) and an ideographic space (U+3000). *)
Definition example_blank : State :=
  step (RecResult 3 (final_fragment (bytes [194; 160] ++ bytes [227; 128; 128])))
       example_listening.

(** The same after the candidate said Hello, delivered between a no-break
    space and an ideographic space. *)
Definition example_padded : State :=
  step (RecResult 3 (final_fragment
                       (bytes [194; 160] ++ "Hello" ++ bytes [227; 128; 128])))
       example_listening.

(** The first answer is submitted and the service rejects the request. *)
Definition example_rejected : State :=
  run [DoneClick; Settled 8 (Rejected None)] example_answered.

(** Two clicks on the done button before anything was said schedule two
    restarts (timers 7 and 8); the recognition object that the first click
    aborts ends.  After the first restart the candidate answers and clicks:
    request 14 is in flight, and the aborted recognition object ends.  Then
    the second restart fires; the candidate speaks and clicks again. *)
Definition first_answer : list Event :=
  [DoneClick; RecEnd 3; DoneClick; TimeoutFires 7;
   RecResult 9 (final_fragment "Hello"); DoneClick; RecEnd 9].

Definition second_answer : list Event :=
  [RecResult 15 (final_fragment "again"); DoneClick].

(** The first answer is submitted and the service replies with a question
    count equal to the total. *)
Definition over_count : list Event :=
  [RecResult 3 (final_fragment "Hello"); DoneClick;
   Settled 8 (Resolved {| final_report := None; next_question := "Next?";
                          question_count := 5 |})].

(** The first answer is submitted and the service replies with a final
    report, which is spoken. *)
Definition early_report : list Event :=
  [RecResult 3 (final_fragment "Hello"); DoneClick;
   Settled 8 (Resolved {| final_report := Some "report"; next_question := "";
                          question_count := 1 |});
   UtteranceSettled 9].

(** The first answer is submitted and the service replies with the second
    question. *)
Definition in_range : list Event :=
  [RecResult 3 (final_fragment "Hello"); DoneClick;
   Settled 8 (Resolved {| final_report := None; next_question := "Next?";
                          question_count := 1 |})].

(** * Invariants of sessions *)

(** ** The display and the refs *)

Definition is_some {A} (o : option A) : bool :=
  match o with Some _ => true | None => false end.

(** The displayed state and the refs tell the same story. *)
Definition in_step (s : State) : Prop :=
  currentQuestion (view s) = currentQuestionRef (refs s) /\
  questionNumber (view s) = questionNumberRef (refs s) /\
  transcript (view s) = transcriptRef (refs s) /\
  isRecording (view s) = shouldListenRef (refs s) /\
  is_some (recognitionRef (refs s)) = shouldListenRef (refs s) /\
  is_some (timerIntervalRef (refs s)) = shouldListenRef (refs s) /\
  (0 <= timer (view s) <= MAX_RECORD_SECONDS)%Z.

(** ** The timers and the refs *)

Definition is_silence (cb : Callback) : bool :=
  match cb with CbSilence => true | _ => false end.

(** The pending timeouts that were armed by [resetSilenceTimer]. *)
Definition silence_timers (ts : list Timeout) : list Timeout :=
  filter (fun t => is_silence (t_cb t)) ts.

(** At most one silence timer is pending, armed for the full duration and
    held by its ref; at most one countdown interval is registered, with a
    period of one second and held by its ref. *)
Definition tracked (ts : list Timeout) (ivs : list Interval)
    (sref iref : option nat) : Prop :=
  (silence_timers ts = [] \/
   exists id, sref = Some id /\
     silence_timers ts =
       [{| t_id := id; t_delay := SILENCE_TIMEOUT_MS; t_cb := CbSilence |}]) /\
  (ivs = [] \/
   exists id, iref = Some id /\ ivs = [{| i_id := id; i_period := 1000 |}]).

Definition timers_tracked (s : State) : Prop :=
  tracked (timeouts (host s)) (intervals (host s))
    (silenceTimeoutRef (refs s)) (timerIntervalRef (refs s)).

(** The part of the state that [timers_tracked] reads. *)
Definition timing_of (s : State) :
    list Timeout * list Interval * option nat * option nat :=
  (timeouts (host s), intervals (host s),
   silenceTimeoutRef (refs s), timerIntervalRef (refs s)).

(** ** The requests *)

(** A request as the component sends them for the props [p]. *)
Definition request_ok (p : Props) (r : Request) : Prop :=
  session_id r = sessionId p /\
  current_answer r <> "" /\
  length (previous_questions r) = length (previous_answers r).

(** Every request sent so far is such a request, and the histories, in the
    refs and in the continuations that await a reply, pair every question
    with an answer. *)
Definition requests_ok (p : Props) (s : State) : Prop :=
  props s = p /\
  Forall (request_ok p) (requests (host s)) /\
  Forall (fun q => length (k_prevQ (snd q)) = length (k_prevA (snd q)))
    (inflight (host s)) /\
  length (previousQuestionsRef (refs s)) = length (previousAnswersRef (refs s)).

(** The part of the state that [requests_ok] reads. *)
Definition sending_of (s : State) :
    Props * list Request * list (nat * SubmitKont) * list string * list string :=
  (props s, requests (host s), inflight (host s),
   previousQuestionsRef (refs s), previousAnswersRef (refs s)).

(** ** The reports *)

(** The final reports that the replies of a sequence of events carry. *)
Definition reports_of (es : list Event) : list Report :=
  flat_map (fun e =>
              match e with
              | Settled _ (Resolved data) =>
                  match final_report data with Some r => [r] | None => [] end
              | _ => []
              end) es.

Definition report_of_kont (k : SpeakKont) : list Report :=
  match k with KFinal r => [r] | _ => [] end.

(** Every report handed to [onComplete], and every report that an utterance
    is going to hand to it, is among the reports [R]. *)
Definition reported (R : list Report) (s : State) : Prop :=
  Forall (fun r => In r R) (completed (host s)) /\
  Forall (fun u => Forall (fun r => In r R) (report_of_kont (snd (snd u))))
    (utterances (host s)).

(** ** A browser without a recognition engine *)

(** The component in a browser without a recognition engine: it shows
    itself as unsupported, holds no recognition object, no countdown and no
    request, and the only things pending are the start-up pause and the
    first question being spoken. *)
Definition unsupported (s : State) : Prop :=
  has_SR (host s) = false /\
  speechSupported (view s) = false /\
  isRecording (view s) = false /\
  recognitionRef (refs s) = None /\
  shouldListenRef (refs s) = false /\
  recognizers (host s) = [] /\
  intervals (host s) = [] /\
  requests (host s) = [] /\
  inflight (host s) = [] /\
  completed (host s) = [] /\
  Forall (fun t => t_cb t = CbInitDelay) (timeouts (host s)) /\
  Forall (fun u => snd (snd u) = KInit) (utterances (host s)).

(** ** The order of turns *)

Definition is_init (cb : Callback) : bool :=
  match cb with CbInitDelay => true | _ => false end.

Definition is_restart (cb : Callback) : bool :=
  match cb with CbRestart => true | _ => false end.

(** The pending start-up pauses. *)
Definition init_timers (ts : list Timeout) : list Timeout :=
  filter (fun t => is_init (t_cb t)) ts.

(** What the component is waiting for before it listens again: the start-up
    pause, an utterance, the reply to a request. *)
Definition tokens (s : State) : nat :=
  length (init_timers (timeouts (host s))) +
  length (utterances (host s)) +
  length (inflight (host s)).

(** Nothing can call the submit operation: the done button is not rendered,
    the silence timer would find [shouldListenRef] cleared, and no countdown
    is registered. *)
Definition quiet (s : State) : Prop :=
  is_recording (status (view s)) = false /\
  shouldListenRef (refs s) = false /\
  intervals (host s) = [].

(** The component waits for one thing at a time, and is quiet while it
    waits. *)
Definition orderly (s : State) : Prop :=
  tokens s <= 1 /\
  (tokens s = 1 -> quiet s) /\
  (inflight (host s) <> [] -> isSubmittingRef (refs s) = true) /\
  (init_timers (timeouts (host s)) <> [] ->
   Forall (fun t => is_restart (t_cb t) = false) (timeouts (host s))).

(** A restart timer that fires finds nothing pending: no request in flight
    and no utterance queued. *)
Definition safe_event (e : Event) (s : State) : Prop :=
  match e with
  | TimeoutFires id =>
      match find_timeout id s with
      | Some t =>
          t_cb t = CbRestart ->
          inflight (host s) = [] /\ utterances (host s) = []
      | None => True
      end
  | _ => True
  end.

Fixpoint safe_restarts (es : list Event) (s : State) : Prop :=
  match es with
  | [] => True
  | e :: es' => safe_event e s /\ safe_restarts es' (step e s)
  end.

(** The part of the state that [orderly] reads. *)
Definition order_of (s : State) :=
  (timeouts (host s), utterances (host s), inflight (host s),
   isSubmittingRef (refs s), status (view s), shouldListenRef (refs s),
   intervals (host s)).

(** ** The histories *)

(** The question was sent with the answer in one of the requests. *)
Definition sent_pair (reqs : list Request) (qa : string * string) : Prop :=
  exists r, In r reqs /\ current_question r = fst qa /\ current_answer r = snd qa.

(** Two histories that pair every question with an answer it was sent
    with. *)
Definition pairs_sent (reqs : list Request) (qs answers : list string) : Prop :=
  length qs = length answers /\ Forall (sent_pair reqs) (combine qs answers).

(** The histories in the refs, in the continuations that await a reply and
    in the requests themselves are such histories. *)
Definition history_ok (s : State) : Prop :=
  pairs_sent (requests (host s))
    (previousQuestionsRef (refs s)) (previousAnswersRef (refs s)) /\
  Forall (fun k => pairs_sent (requests (host s))
                     (k_prevQ (snd k)) (k_prevA (snd k)) /\
                   sent_pair (requests (host s)) (k_q (snd k), k_answer (snd k)))
    (inflight (host s)) /\
  Forall (fun r => pairs_sent (requests (host s))
                     (previous_questions r) (previous_answers r))
    (requests (host s)).

(** ** Example sessions *)

(** One false start, its restart, then an answer and a click. *)
Definition false_start_then_answer : list Event :=
  [TimeoutFires 1; UtteranceSettled 2; DoneClick; RecEnd 3; TimeoutFires 7;
   RecResult 8 (final_fragment "Hello"); DoneClick].

(** Two false starts; the first restart starts listening (recognition
    object 9), the second starts it again and aborts object 9 on the way
    (the new object is 13). *)
Definition restarted_twice : list Event :=
  (listening_started ++
   [DoneClick; RecEnd 3; DoneClick; TimeoutFires 7; TimeoutFires 8])%list.

(** Nothing is pending or active beyond what the refs hold: no utterance, no
    request, no timer but the silence timer of [silenceTimeoutRef], no
    interval but the countdown of [timerIntervalRef], no started recognition
    object but the one of [recognitionRef]. *)
Definition sole_listener (s : State) : Prop :=
  utterances (host s) = [] /\
  inflight (host s) = [] /\
  without_timeout (silenceTimeoutRef (refs s)) (timeouts (host s)) = [] /\
  without_interval (timerIntervalRef (refs s)) (intervals (host s)) = [] /\
  Forall (fun r => rec_state (snd r) <> RecStarted)
    (with_aborted (recognitionRef (refs s)) (recognizers (host s))).

(** * The resume uploader

    A shallow embedding of the component [ResumeUploader]
    ([unnamed/part_000]), which the application shows before the interview:
    the candidate chooses a file, the file is uploaded, and the data that
    the service returns start the interview. *)

(** [String.prototype.split] with a separator of one character: the pieces
    between the separators, of which there is always at least one. *)
Fixpoint split (sep : ascii) (s : string) : list string :=
  match s with
  | EmptyString => [EmptyString]
  | String c r =>
      if Ascii.eqb c sep then EmptyString :: split sep r
      else match split sep r with
           | x :: xs => String c x :: xs
           | [] => [String c EmptyString]
           end
  end.

(** [Array.prototype.pop] as an expression: the last element. *)
Definition pop (l : list string) : string := last l EmptyString.

(** [String.prototype.toLowerCase] on the letters A to Z; no other
    character has one of the letters of [pdf], [docx] or [doc] as its lower
    case. *)
Definition lower (a : ascii) : ascii :=
  let n := nat_of_ascii a in
  if ((65 <=? n) && (n <=? 90))%nat then ascii_of_nat (n + 32) else a.

Fixpoint toLowerCase (s : string) : string :=
  match s with
  | EmptyString => EmptyString
  | String c r => String (lower c) (toLowerCase r)
  end.

(** [Array.prototype.includes] on strings. *)
Definition includes (l : list string) (x : string) : bool :=
  existsb (String.eqb x) l.

Module ResumeUploader.

Definition msg_wrong_type : string := "Please upload a PDF or DOCX file.".
Definition msg_no_file : string := "Please select a file first.".
Definition msg_upload_failed : string := "Upload failed. Please try again.".

(** A [File] of the browser. *)
Record File := { name : string; size : N }.

(** Modelled from the spec: what the session-start call returns, a session
    identifier and the first question. *)
Record UploadData := { session_id : string; first_question : string }.

(** How the promise of [uploadResume] settles. *)
Inductive Reply :=
| Resolved (data : UploadData)
| Rejected (message : option string).

(** The [useState] cells and the ref of the component, and what it has
    handed to its environment: the uploads awaiting their reply, the files
    sent so far, and the calls of [onUploadSuccess]. *)
Record State := {
  file : option File;
  loading : bool;
  error : string;
  parsed : bool;
  dragActive : bool;
  fileRef : option UploadData;
  next_id : nat;
  pending : list (nat * File);
  sent : list File;
  started : list UploadData
}.

Definition setFile (x : option File) (s : State) : State :=
  {| file := x; loading := loading s; error := error s; parsed := parsed s;
     dragActive := dragActive s; fileRef := fileRef s; next_id := next_id s;
     pending := pending s; sent := sent s; started := started s |}.

Definition setLoading (x : bool) (s : State) : State :=
  {| file := file s; loading := x; error := error s; parsed := parsed s;
     dragActive := dragActive s; fileRef := fileRef s; next_id := next_id s;
     pending := pending s; sent := sent s; started := started s |}.

Definition setError (x : string) (s : State) : State :=
  {| file := file s; loading := loading s; error := x; parsed := parsed s;
     dragActive := dragActive s; fileRef := fileRef s; next_id := next_id s;
     pending := pending s; sent := sent s; started := started s |}.

Definition setParsed (x : bool) (s : State) : State :=
  {| file := file s; loading := loading s; error := error s; parsed := x;
     dragActive := dragActive s; fileRef := fileRef s; next_id := next_id s;
     pending := pending s; sent := sent s; started := started s |}.

Definition setDragActive (x : bool) (s : State) : State :=
  {| file := file s; loading := loading s; error := error s; parsed := parsed s;
     dragActive := x; fileRef := fileRef s; next_id := next_id s;
     pending := pending s; sent := sent s; started := started s |}.

Definition set_fileRef (x : option UploadData) (s : State) : State :=
  {| file := file s; loading := loading s; error := error s; parsed := parsed s;
     dragActive := dragActive s; fileRef := x; next_id := next_id s;
     pending := pending s; sent := sent s; started := started s |}.

(** Modelled from the spec: [uploadResume] of [../api], which is not part of
    the sources.  The call sends the file and returns a promise, kept in
    [pending] until the service settles it. *)
Definition uploadResume (f : File) (s : State) : State :=
  {| file := file s; loading := loading s; error := error s; parsed := parsed s;
     dragActive := dragActive s; fileRef := fileRef s; next_id := S (next_id s);
     pending := (pending s ++ [(next_id s, f)])%list;
     sent := (sent s ++ [f])%list; started := started s |}.

Definition onUploadSuccess (data : UploadData) (s : State) : State :=
  {| file := file s; loading := loading s; error := error s; parsed := parsed s;
     dragActive := dragActive s; fileRef := fileRef s; next_id := next_id s;
     pending := pending s; sent := sent s;
     started := (started s ++ [data])%list |}.

(** The extension that [validateFile] looks at:
    [selected.name.split('.').pop().toLowerCase()]. *)
Definition extension (f : File) : string :=
  toLowerCase (pop (split "." (name f))).

(** [validateFile]: the state it leaves and the boolean it returns. *)
Definition validateFile (selected : File) (s : State) : bool * State :=
  let ext := extension selected in
  if negb (includes ["pdf"; "docx"; "doc"] ext) then
    let s := setError msg_wrong_type s in
    let s := setFile None s in
    (false, s)
  else
    let s := setFile (Some selected) s in
    let s := setError "" s in
    (true, s).

(** [handleFileChange], given [e.target.files[0]]. *)
Definition handleFileChange (selected : option File) (s : State) : State :=
  match selected with
  | Some f => snd (validateFile f s)
  | None => s
  end.

Inductive DragType := dragenter | dragover | dragleave | dragother.

Definition handleDrag (type : DragType) (s : State) : State :=
  match type with
  | dragenter | dragover => setDragActive true s
  | dragleave => setDragActive false s
  | dragother => s
  end.

(** [handleDrop], given [e.dataTransfer.files[0]]. *)
Definition handleDrop (dropped : option File) (s : State) : State :=
  let s := setDragActive false s in
  match dropped with
  | Some f => snd (validateFile f s)
  | None => s
  end.

(** [handleUpload], up to its first [await].  The import of [../api] and
    the call of [uploadResume] are awaited one after the other inside one
    [try]; they are one awaited operation here, which sends the file that
    was chosen when the button was clicked. *)
Definition handleUpload (s : State) : State :=
  match file s with
  | None => setError msg_no_file s
  | Some f =>
      let s := setLoading true s in
      let s := setError "" s in
      uploadResume f s
  end.

(** [handleUpload], from the point where the upload settles. *)
Definition resume_upload (reply : Reply) (s : State) : State :=
  match reply with
  | Resolved data =>
      let s := setParsed true s in
      let s := setLoading false s in
      set_fileRef (Some data) s
  | Rejected message =>
      let s := setError (or_default message msg_upload_failed) s in
      setLoading false s
  end.

Definition handleStart (s : State) : State :=
  match fileRef s with
  | Some data => onUploadSuccess data s
  | None => s
  end.

Definition currentStep (s : State) : nat := if parsed s then 1 else 0.

(** The component as first rendered. *)
Definition mount : State :=
  {| file := None; loading := false; error := ""; parsed := false;
     dragActive := false; fileRef := None; next_id := 1;
     pending := []; sent := []; started := [] |}.

(** What the candidate and the service can do.  The upload button is
    rendered while [parsed] is false and is disabled while no file is chosen
    or an upload is under way; the start button is rendered once [parsed] is
    true. *)
Inductive Event :=
| FileChange (selected : option File)
| Drag (type : DragType)
| Drop (dropped : option File)
| UploadClick
| UploadSettled (p : nat) (reply : Reply)
| StartClick.

Definition upload_enabled (s : State) : bool :=
  negb (parsed s) &&
  negb (match file s with Some _ => false | None => true end || loading s).

Definition step (e : Event) (s : State) : State :=
  match e with
  | FileChange selected => handleFileChange selected s
  | Drag type => handleDrag type s
  | Drop dropped => handleDrop dropped s
  | UploadClick => if upload_enabled s then handleUpload s else s
  | UploadSettled p reply =>
      match Store.get p (pending s) with
      | Some _ =>
          resume_upload reply
            {| file := file s; loading := loading s; error := error s;
               parsed := parsed s; dragActive := dragActive s;
               fileRef := fileRef s; next_id := next_id s;
               pending := Store.remove p (pending s);
               sent := sent s; started := started s |}
      | None => s
      end
  | StartClick => if parsed s then handleStart s else s
  end.

Definition run (es : list Event) (s : State) : State :=
  fold_left (fun s e => step e s) es s.

End ResumeUploader.

(** A name without a full stop. *)
Fixpoint dotless (s : string) : bool :=
  match s with
  | EmptyString => true
  | String c r => negb (Ascii.eqb c ".") && dotless r
  end.

(** The replies with data among the events of the uploader. *)
Definition uploads_resolved (es : list ResumeUploader.Event) :
    list ResumeUploader.UploadData :=
  flat_map (fun e =>
              match e with
              | ResumeUploader.UploadSettled _ (ResumeUploader.Resolved data) =>
                  [data]
              | _ => []
              end) es.

(** What the uploader keeps true: a chosen file has an accepted extension,
    as every file sent has; [loading] is set exactly while an upload is
    awaited, and at most one is; once the resume is parsed nothing is
    awaited any more; and [fileRef] holds data exactly when the resume is
    parsed. *)
Definition uploader_ok (s : ResumeUploader.State) : Prop :=
  (forall f, ResumeUploader.file s = Some f ->
             includes ["pdf"; "docx"; "doc"] (ResumeUploader.extension f) = true) /\
  Forall (fun f => includes ["pdf"; "docx"; "doc"] (ResumeUploader.extension f) = true)
    (ResumeUploader.sent s) /\
  length (ResumeUploader.pending s) <= 1 /\
  (ResumeUploader.loading s = true <-> ResumeUploader.pending s <> []) /\
  (ResumeUploader.parsed s = true -> ResumeUploader.pending s = []) /\
  (ResumeUploader.parsed s = true <-> ResumeUploader.fileRef s <> None).

(** A file with an accepted name. *)
Definition example_resume : ResumeUploader.File :=
  {| ResumeUploader.name := "My.Resume.PDF"; ResumeUploader.size := 2048 |}.

(** The candidate has chosen a file. *)
Definition example_chosen : ResumeUploader.State :=
  ResumeUploader.step (ResumeUploader.FileChange (Some example_resume))
    ResumeUploader.mount.

(** * The first version of the session

    A shallow embedding of the first version of [InterviewSession]
    ([unnamed/part_001]).  It keeps the question and the two histories in
    [useState] cells only, and its handlers read them from the closure in
    which they were created.

    [handleSubmit] is memoised on the question and the two histories, and
    [startListening] on [handleSubmit]; [handleSubmit] calls the
    [startListening] of the render in which it was created and
    [startListening] the [handleSubmit] of its own.  So a handler is
    determined by the values of the three cells in the render that created
    it: these are its [Env].  A timer, a recognition handler or a
    continuation that one of the two functions creates carries the [Env] of
    its creator; the mount effect uses the handlers of the first render, and
    the done button those of the latest render. *)

Module Legacy.

Definition MAX_RECORD_SECONDS : Z := 90.
Definition SILENCE_TIMEOUT_MS : Z := 6000.

(** Delays of the false-start restart, of the pause that shows the
    evaluation, and of the start-up pause. *)
Definition RESTART_DELAY_MS : Z := 1500.
Definition NEXT_DELAY_MS : Z := 2500.
Definition INIT_DELAY_MS : Z := 500.

Definition msg_no_speech : string := "No speech detected. Listening again...".
Definition msg_failed : string := "Evaluation failed. Retrying...".
Definition msg_unsupported : string :=
  "Speech recognition not supported. Please use Chrome.".
Definition msg_complete : string :=
  "Great job! Your interview is complete. Here are your results.".

(** ** Data *)

Inductive Status := speaking | recording | evaluating | idle.

(** The evaluation of an answer is an opaque payload of the service. *)
Definition Evaluation := string.

(** What a handler reads from its closure. *)
Record Env := {
  e_currentQuestion : string;
  e_previousQuestions : list string;
  e_previousAnswers : list string
}.

(** A recognition object; [stop()] leaves a started object stopping, in
    which state it may still deliver a result before it ends. *)
Inductive RecState := RecCreated | RecStarted | RecStopping | RecEnded.

Record Recognition := {
  continuous : bool;
  interimResults : bool;
  lang : string;
  onresult : option nat;
  onerror : option nat;
  onend : option nat;
  rec_state : RecState
}.

(** The local variables of one activation of [startListening], and the
    closure of the [startListening] that was called. *)
Record Activation := {
  finalTranscript : string;
  recognition : nat;
  closure : Env
}.

Inductive Callback :=
| CbInitDelay
| CbSilence (env : Env)
| CbRestart (env : Env)
| CbNext (env : Env) (nextQ : string).

Record Timeout := {
  t_id : nat;
  t_delay : Z;
  t_cb : Callback
}.

Record Interval := {
  i_id : nat;
  i_period : Z;
  i_env : Env
}.

(** What the rest of [handleSubmit] holds while it waits for the service. *)
Record SubmitKont := {
  k_env : Env;
  k_answer : string
}.

(** What runs after an utterance has been spoken. *)
Inductive SpeakKont := KListen (env : Env) | KFinal (report : Report).

Record Data := {
  final_report : option Report;
  data_evaluation : option Evaluation;
  next_question : string;
  question_count : Z
}.

Inductive Reply := Resolved (data : Data) | Rejected (message : option string).

(** ** The three parts of the state *)

Record View := {
  currentQuestion : string;
  questionNumber : Z;
  transcript : string;
  isRecording : bool;
  isSpeaking : bool;
  status : Status;
  evaluation : option Evaluation;
  error : string;
  previousQuestions : list string;
  previousAnswers : list string;
  timer : Z;
  speechSupported : bool
}.

Record Refs := {
  recognitionRef : option nat;
  timerRef : option nat;
  silenceRef : option nat;
  transcriptRef : string;
  isSubmittingRef : bool;
  shouldListenRef : bool
}.

Record Host := {
  has_SR : bool;             (* window.SpeechRecognition || webkitSpeechRecognition *)
  has_synth : bool;          (* window.speechSynthesis *)
  mounted : bool;            (* the component is on the page *)
  next_id : nat;             (* source of fresh identifiers *)
  timeouts : list Timeout;   (* pending setTimeout callbacks *)
  intervals : list Interval; (* live setInterval callbacks *)
  recognizers : list (nat * Recognition);
  activations : list (nat * Activation);
  utterances : list (nat * (string * SpeakKont));
  inflight : list (nat * SubmitKont);  (* unsettled evaluateAnswer promises *)
  requests : list Request;   (* every call of evaluateAnswer, oldest first *)
  completed : list Report    (* every call of onComplete, oldest first *)
}.

Record State := {
  props : Props;
  view : View;
  refs : Refs;
  host : Host
}.

Definition with_view (f : View -> View) (s : State) : State :=
  {| props := props s; view := f (view s); refs := refs s; host := host s |}.
Definition with_refs (f : Refs -> Refs) (s : State) : State :=
  {| props := props s; view := view s; refs := f (refs s); host := host s |}.
Definition with_host (f : Host -> Host) (s : State) : State :=
  {| props := props s; view := view s; refs := refs s; host := f (host s) |}.

(** *** The [useState] setters *)

Definition setCurrentQuestion (x : string) : State -> State :=
  with_view (fun v =>
    {| currentQuestion := x; questionNumber := questionNumber v;
       transcript := transcript v; isRecording := isRecording v;
       isSpeaking := isSpeaking v; status := status v;
       evaluation := evaluation v; error := error v;
       previousQuestions := previousQuestions v;
       previousAnswers := previousAnswers v; timer := timer v;
       speechSupported := speechSupported v |}).

Definition setQuestionNumber (x : Z) : State -> State :=
  with_view (fun v =>
    {| currentQuestion := currentQuestion v; questionNumber := x;
       transcript := transcript v; isRecording := isRecording v;
       isSpeaking := isSpeaking v; status := status v;
       evaluation := evaluation v; error := error v;
       previousQuestions := previousQuestions v;
       previousAnswers := previousAnswers v; timer := timer v;
       speechSupported := speechSupported v |}).

Definition setTranscript (x : string) : State -> State :=
  with_view (fun v =>
    {| currentQuestion := currentQuestion v;
       questionNumber := questionNumber v; transcript := x;
       isRecording := isRecording v; isSpeaking := isSpeaking v;
       status := status v; evaluation := evaluation v; error := error v;
       previousQuestions := previousQuestions v;
       previousAnswers := previousAnswers v; timer := timer v;
       speechSupported := speechSupported v |}).

Definition setIsRecording (x : bool) : State -> State :=
  with_view (fun v =>
    {| currentQuestion := currentQuestion v;
       questionNumber := questionNumber v; transcript := transcript v;
       isRecording := x; isSpeaking := isSpeaking v; status := status v;
       evaluation := evaluation v; error := error v;
       previousQuestions := previousQuestions v;
       previousAnswers := previousAnswers v; timer := timer v;
       speechSupported := speechSupported v |}).

Definition setIsSpeaking (x : bool) : State -> State :=
  with_view (fun v =>
    {| currentQuestion := currentQuestion v;
       questionNumber := questionNumber v; transcript := transcript v;
       isRecording := isRecording v; isSpeaking := x; status := status v;
       evaluation := evaluation v; error := error v;
       previousQuestions := previousQuestions v;
       previousAnswers := previousAnswers v; timer := timer v;
       speechSupported := speechSupported v |}).

Definition setStatus (x : Status) : State -> State :=
  with_view (fun v =>
    {| currentQuestion := currentQuestion v;
       questionNumber := questionNumber v; transcript := transcript v;
       isRecording := isRecording v; isSpeaking := isSpeaking v; status := x;
       evaluation := evaluation v; error := error v;
       previousQuestions := previousQuestions v;
       previousAnswers := previousAnswers v; timer := timer v;
       speechSupported := speechSupported v |}).

Definition setEvaluation (x : option Evaluation) : State -> State :=
  with_view (fun v =>
    {| currentQuestion := currentQuestion v;
       questionNumber := questionNumber v; transcript := transcript v;
       isRecording := isRecording v; isSpeaking := isSpeaking v;
       status := status v; evaluation := x; error := error v;
       previousQuestions := previousQuestions v;
       previousAnswers := previousAnswers v; timer := timer v;
       speechSupported := speechSupported v |}).

Definition setError (x : string) : State -> State :=
  with_view (fun v =>
    {| currentQuestion := currentQuestion v;
       questionNumber := questionNumber v; transcript := transcript v;
       isRecording := isRecording v; isSpeaking := isSpeaking v;
       status := status v; evaluation := evaluation v; error := x;
       previousQuestions := previousQuestions v;
       previousAnswers := previousAnswers v; timer := timer v;
       speechSupported := speechSupported v |}).

Definition setPreviousQuestions (x : list string) : State -> State :=
  with_view (fun v =>
    {| currentQuestion := currentQuestion v;
       questionNumber := questionNumber v; transcript := transcript v;
       isRecording := isRecording v; isSpeaking := isSpeaking v;
       status := status v; evaluation := evaluation v; error := error v;
       previousQuestions := x; previousAnswers := previousAnswers v;
       timer := timer v; speechSupported := speechSupported v |}).

Definition setPreviousAnswers (x : list string) : State -> State :=
  with_view (fun v =>
    {| currentQuestion := currentQuestion v;
       questionNumber := questionNumber v; transcript := transcript v;
       isRecording := isRecording v; isSpeaking := isSpeaking v;
       status := status v; evaluation := evaluation v; error := error v;
       previousQuestions := previousQuestions v; previousAnswers := x;
       timer := timer v; speechSupported := speechSupported v |}).

Definition setTimer (x : Z) : State -> State :=
  with_view (fun v =>
    {| currentQuestion := currentQuestion v;
       questionNumber := questionNumber v; transcript := transcript v;
       isRecording := isRecording v; isSpeaking := isSpeaking v;
       status := status v; evaluation := evaluation v; error := error v;
       previousQuestions := previousQuestions v;
       previousAnswers := previousAnswers v; timer := x;
       speechSupported := speechSupported v |}).

Definition setSpeechSupported (x : bool) : State -> State :=
  with_view (fun v =>
    {| currentQuestion := currentQuestion v;
       questionNumber := questionNumber v; transcript := transcript v;
       isRecording := isRecording v; isSpeaking := isSpeaking v;
       status := status v; evaluation := evaluation v; error := error v;
       previousQuestions := previousQuestions v;
       previousAnswers := previousAnswers v; timer := timer v;
       speechSupported := x |}).

(** *** Assignments to the [.current] of a ref *)

Definition set_recognitionRef (x : option nat) : State -> State :=
  with_refs (fun r =>
    {| recognitionRef := x; timerRef := timerRef r;
       silenceRef := silenceRef r; transcriptRef := transcriptRef r;
       isSubmittingRef := isSubmittingRef r;
       shouldListenRef := shouldListenRef r |}).

Definition set_timerRef (x : option nat) : State -> State :=
  with_refs (fun r =>
    {| recognitionRef := recognitionRef r; timerRef := x;
       silenceRef := silenceRef r; transcriptRef := transcriptRef r;
       isSubmittingRef := isSubmittingRef r;
       shouldListenRef := shouldListenRef r |}).

Definition set_silenceRef (x : option nat) : State -> State :=
  with_refs (fun r =>
    {| recognitionRef := recognitionRef r; timerRef := timerRef r;
       silenceRef := x; transcriptRef := transcriptRef r;
       isSubmittingRef := isSubmittingRef r;
       shouldListenRef := shouldListenRef r |}).

Definition set_transcriptRef (x : string) : State -> State :=
  with_refs (fun r =>
    {| recognitionRef := recognitionRef r; timerRef := timerRef r;
       silenceRef := silenceRef r; transcriptRef := x;
       isSubmittingRef := isSubmittingRef r;
       shouldListenRef := shouldListenRef r |}).

Definition set_isSubmittingRef (x : bool) : State -> State :=
  with_refs (fun r =>
    {| recognitionRef := recognitionRef r; timerRef := timerRef r;
       silenceRef := silenceRef r; transcriptRef := transcriptRef r;
       isSubmittingRef := x; shouldListenRef := shouldListenRef r |}).

Definition set_shouldListenRef (x : bool) : State -> State :=
  with_refs (fun r =>
    {| recognitionRef := recognitionRef r; timerRef := timerRef r;
       silenceRef := silenceRef r; transcriptRef := transcriptRef r;
       isSubmittingRef := isSubmittingRef r; shouldListenRef := x |}).

(** *** Updates of the browser side *)

Definition set_mounted (x : bool) : State -> State :=
  with_host (fun h =>
    {| has_SR := has_SR h; has_synth := has_synth h; mounted := x;
       next_id := next_id h; timeouts := timeouts h; intervals := intervals h;
       recognizers := recognizers h; activations := activations h;
       utterances := utterances h; inflight := inflight h;
       requests := requests h; completed := completed h |}).

Definition set_next_id (x : nat) : State -> State :=
  with_host (fun h =>
    {| has_SR := has_SR h; has_synth := has_synth h; mounted := mounted h;
       next_id := x; timeouts := timeouts h; intervals := intervals h;
       recognizers := recognizers h; activations := activations h;
       utterances := utterances h; inflight := inflight h;
       requests := requests h; completed := completed h |}).

Definition set_timeouts (x : list Timeout) : State -> State :=
  with_host (fun h =>
    {| has_SR := has_SR h; has_synth := has_synth h; mounted := mounted h;
       next_id := next_id h; timeouts := x; intervals := intervals h;
       recognizers := recognizers h; activations := activations h;
       utterances := utterances h; inflight := inflight h;
       requests := requests h; completed := completed h |}).

Definition set_intervals (x : list Interval) : State -> State :=
  with_host (fun h =>
    {| has_SR := has_SR h; has_synth := has_synth h; mounted := mounted h;
       next_id := next_id h; timeouts := timeouts h; intervals := x;
       recognizers := recognizers h; activations := activations h;
       utterances := utterances h; inflight := inflight h;
       requests := requests h; completed := completed h |}).

Definition set_recognizers (x : list (nat * Recognition)) : State -> State :=
  with_host (fun h =>
    {| has_SR := has_SR h; has_synth := has_synth h; mounted := mounted h;
       next_id := next_id h; timeouts := timeouts h; intervals := intervals h;
       recognizers := x; activations := activations h;
       utterances := utterances h; inflight := inflight h;
       requests := requests h; completed := completed h |}).

Definition set_activations (x : list (nat * Activation)) : State -> State :=
  with_host (fun h =>
    {| has_SR := has_SR h; has_synth := has_synth h; mounted := mounted h;
       next_id := next_id h; timeouts := timeouts h; intervals := intervals h;
       recognizers := recognizers h; activations := x;
       utterances := utterances h; inflight := inflight h;
       requests := requests h; completed := completed h |}).

Definition set_utterances (x : list (nat * (string * SpeakKont))) : State -> State :=
  with_host (fun h =>
    {| has_SR := has_SR h; has_synth := has_synth h; mounted := mounted h;
       next_id := next_id h; timeouts := timeouts h; intervals := intervals h;
       recognizers := recognizers h; activations := activations h;
       utterances := x; inflight := inflight h; requests := requests h;
       completed := completed h |}).

Definition set_inflight (x : list (nat * SubmitKont)) : State -> State :=
  with_host (fun h =>
    {| has_SR := has_SR h; has_synth := has_synth h; mounted := mounted h;
       next_id := next_id h; timeouts := timeouts h; intervals := intervals h;
       recognizers := recognizers h; activations := activations h;
       utterances := utterances h; inflight := x; requests := requests h;
       completed := completed h |}).

Definition set_requests (x : list Request) : State -> State :=
  with_host (fun h =>
    {| has_SR := has_SR h; has_synth := has_synth h; mounted := mounted h;
       next_id := next_id h; timeouts := timeouts h; intervals := intervals h;
       recognizers := recognizers h; activations := activations h;
       utterances := utterances h; inflight := inflight h; requests := x;
       completed := completed h |}).

Definition set_completed (x : list Report) : State -> State :=
  with_host (fun h =>
    {| has_SR := has_SR h; has_synth := has_synth h; mounted := mounted h;
       next_id := next_id h; timeouts := timeouts h; intervals := intervals h;
       recognizers := recognizers h; activations := activations h;
       utterances := utterances h; inflight := inflight h;
       requests := requests h; completed := x |}).

(** ** The browser *)

Definition fresh (s : State) : nat * State :=
  let id := next_id (host s) in (id, set_next_id (S id) s).

Definition setTimeout (cb : Callback) (delay : Z) (s : State) : nat * State :=
  let '(id, s) := fresh s in
  (id, set_timeouts
         (timeouts (host s) ++ [{| t_id := id; t_delay := delay; t_cb := cb |}]) s).

Definition clearTimeout (id : nat) (s : State) : State :=
  set_timeouts (filter (fun t => negb (Nat.eqb (t_id t) id)) (timeouts (host s))) s.

Definition setInterval (env : Env) (period : Z) (s : State) : nat * State :=
  let '(id, s) := fresh s in
  (id, set_intervals
         (intervals (host s) ++
          [{| i_id := id; i_period := period; i_env := env |}]) s).

Definition clearInterval (id : nat) (s : State) : State :=
  set_intervals (filter (fun i => negb (Nat.eqb (i_id i) id)) (intervals (host s))) s.

Definition find_timeout (id : nat) (s : State) : option Timeout :=
  find (fun t => Nat.eqb (t_id t) id) (timeouts (host s)).

Definition find_interval (id : nat) (s : State) : option Interval :=
  find (fun i => Nat.eqb (i_id i) id) (intervals (host s)).

(** [new SpeechRecognition()]: a new object, not started, without handlers. *)
Definition new_SpeechRecognition (s : State) : nat * State :=
  let '(id, s) := fresh s in
  (id, set_recognizers
         (Store.put id
            {| continuous := false; interimResults := false; lang := "";
               onresult := None; onerror := None; onend := None;
               rec_state := RecCreated |}
            (recognizers (host s))) s).

Definition update_recognition (id : nat) (f : Recognition -> Recognition)
    (s : State) : State :=
  set_recognizers (Store.update id f (recognizers (host s))) s.

(** The assignments [recognition.continuous = true;
    recognition.interimResults = true; recognition.lang = 'en-US'] followed
    by the three handler assignments. *)
Definition configure (id : nat) (hres herr hend : option nat) : State -> State :=
  update_recognition id (fun r =>
    {| continuous := true; interimResults := true; lang := "en-US";
       onresult := hres; onerror := herr; onend := hend;
       rec_state := rec_state r |}).

Definition set_rec_state (st : RecState) (r : Recognition) : Recognition :=
  {| continuous := continuous r; interimResults := interimResults r;
     lang := lang r; onresult := onresult r; onerror := onerror r;
     onend := onend r; rec_state := st |}.

(** [r.start()]: an object that is not started starts; on an object that
    is started, or stopping and not yet ended, the call throws, and where
    the component calls it so, it swallows the exception. *)
Definition rec_start (id : nat) : State -> State :=
  update_recognition id (fun r =>
    match rec_state r with
    | RecCreated | RecEnded => set_rec_state RecStarted r
    | _ => r
    end).

(** [r.stop()]: a started object stops listening and will report its
    end; on any other object the call does nothing. *)
Definition rec_stop (id : nat) : State -> State :=
  update_recognition id (fun r =>
    match rec_state r with
    | RecStarted => set_rec_state RecStopping r
    | _ => r
    end).

(** ** The component *)

(** The closure of the handlers of the current render. *)
Definition current_env (s : State) : Env :=
  {| e_currentQuestion := currentQuestion (view s);
     e_previousQuestions := previousQuestions (view s);
     e_previousAnswers := previousAnswers (view s) |}.

(** [stopRecording]. *)
Definition stopRecording (s : State) : State :=
  let s := set_shouldListenRef false s in
  let s := match recognitionRef (refs s) with
           | Some r => set_recognitionRef None (rec_stop r s)
           | None => s
           end in
  let s := match timerRef (refs s) with
           | Some i => set_timerRef None (clearInterval i s)
           | None => s
           end in
  let s := match silenceRef (refs s) with
           | Some t => set_silenceRef None (clearTimeout t s)
           | None => s
           end in
  setIsRecording false s.

(** Modelled from the spec: [evaluateAnswer] of [../api], which is not part
    of the sources.  The call sends one request to the scoring service and
    returns a promise; the promise is kept in [inflight] together with the
    code that awaits it, until the service settles it. *)
Definition evaluateAnswer (req : Request) (k : SubmitKont) (s : State) : State :=
  let '(p, s) := fresh s in
  let s := set_requests (requests (host s) ++ [req]) s in
  set_inflight (inflight (host s) ++ [(p, k)]) s.

(** [handleSubmit] of the closure [env], up to its first [await]. *)
Definition handleSubmit (env : Env) (s : State) : State :=
  if isSubmittingRef (refs s) then s else
  let answer := trim (transcriptRef (refs s)) in
  if falsy answer then
    let s := setError msg_no_speech s in
    snd (setTimeout (CbRestart env) RESTART_DELAY_MS s)
  else
    let s := set_isSubmittingRef true s in
    let s := stopRecording s in
    let s := setStatus evaluating s in
    let s := setError "" s in
    evaluateAnswer
      {| session_id := sessionId (props s);
         current_question := e_currentQuestion env;
         current_answer := answer;
         previous_questions := e_previousQuestions env;
         previous_answers := e_previousAnswers env |}
      {| k_env := env; k_answer := answer |}
      s.

(** [resetSilenceTimer], local to [startListening]. *)
Definition resetSilenceTimer (env : Env) (s : State) : State :=
  let s := match silenceRef (refs s) with
           | Some t => clearTimeout t s
           | None => s
           end in
  let '(t, s) := setTimeout (CbSilence env) SILENCE_TIMEOUT_MS s in
  set_silenceRef (Some t) s.

(** The function passed to [setTimeout] by [resetSilenceTimer]. *)
Definition silenceTimeout_callback (env : Env) (s : State) : State :=
  if negb (falsy (trim (transcriptRef (refs s)))) &&
     negb (isSubmittingRef (refs s))
  then handleSubmit env (stopRecording s)
  else s.

(** The function passed to [setInterval]: the updater given to [setTimer]
    runs on the current value of [timer]. *)
Definition countdown_callback (env : Env) (s : State) : State :=
  let prev := timer (view s) in
  if (prev <=? 1)%Z then
    let s := stopRecording s in
    let s := handleSubmit env s in
    setTimer 0 s
  else setTimer (prev - 1) s.

Definition recognition_onresult (c : nat) (event : SpeechRecognitionEvent)
    (s : State) : State :=
  match Store.get c (activations (host s)) with
  | None => s
  | Some a =>
      let '(fin, interim) :=
        for_results (length (results event) - resultIndex event)
          (resultIndex event) (results event) (finalTranscript a, "") in
      let s := set_activations
                 (Store.put c {| finalTranscript := fin;
                                 recognition := recognition a;
                                 closure := closure a |}
                    (activations (host s))) s in
      let full := fin ++ interim in
      let s := set_transcriptRef full s in
      let s := setTranscript full s in
      resetSilenceTimer (closure a) s
  end.

Definition recognition_onerror (err : string) (s : State) : State :=
  if negb (err =? "aborted") && negb (err =? "no-speech")
  then setError ("Speech error: " ++ err) s
  else s.

(** [recognition.onend] of activation [c]: the object of the activation
    is started again. *)
Definition recognition_onend (c : nat) (s : State) : State :=
  if shouldListenRef (refs s) && negb (isSubmittingRef (refs s)) then
    match Store.get c (activations (host s)) with
    | None => s
    | Some a => rec_start (recognition a) s
    end
  else s.

(** [startListening] of the closure [env]. *)
Definition startListening (env : Env) (s : State) : State :=
  if negb (has_SR (host s)) then setError msg_unsupported s else
  let s := setTranscript "" s in
  let s := set_transcriptRef "" s in
  let s := setError "" s in
  let s := setTimer MAX_RECORD_SECONDS s in
  let s := set_isSubmittingRef false s in
  let s := set_shouldListenRef true s in
  let '(r, s) := new_SpeechRecognition s in
  let '(c, s) := fresh s in
  let s := set_activations
             (Store.put c {| finalTranscript := ""; recognition := r;
                             closure := env |}
                (activations (host s))) s in
  let s := configure r (Some c) (Some c) (Some c) s in
  let s := set_recognitionRef (Some r) s in
  let s := rec_start r s in
  let s := setIsRecording true s in
  let s := setStatus recording s in
  let s := resetSilenceTimer env s in
  let '(i, s) := setInterval env 1000 s in
  set_timerRef (Some i) s.

Definition onComplete (report : Report) (s : State) : State :=
  set_completed (completed (host s) ++ [report]) s.

(** What follows [await speakQuestion(...)] at its three call sites. *)
Definition resume_speak (k : SpeakKont) (s : State) : State :=
  match k with
  | KListen env => startListening env s
  | KFinal report => set_isSubmittingRef false (onComplete report s)
  end.

(** [speakQuestion]: without a synthesiser the promise resolves at once;
    otherwise the utterance is queued and the promise resolves when the
    utterance ends or fails. *)
Definition speakQuestion (text : string) (k : SpeakKont) (s : State) : State :=
  if negb (has_synth (host s)) then resume_speak k s
  else
    let '(u, s) := fresh s in
    set_utterances (utterances (host s) ++ [(u, (text, k))]) s.

(** [handleSubmit] of the closure in [k], from the point where
    [evaluateAnswer] settles.  The two histories are extended by updater
    functions, which run on the latest value of the cell; the question they
    append is the one of the closure. *)
Definition resume_submit (k : SubmitKont) (reply : Reply) (s : State) : State :=
  let env := k_env k in
  match reply with
  | Resolved data =>
      match truthy (final_report data) with
      | Some report =>
          let s := setEvaluation (data_evaluation data) s in
          speakQuestion msg_complete (KFinal report) s
      | None =>
          let s := setEvaluation (data_evaluation data) s in
          let s := setPreviousQuestions
                     (previousQuestions (view s) ++ [e_currentQuestion env])%list s in
          let s := setPreviousAnswers
                     (previousAnswers (view s) ++ [k_answer k])%list s in
          let nextQ := next_question data in
          let s := setCurrentQuestion nextQ s in
          let s := setQuestionNumber (js_add (question_count data) 1) s in
          let s := setTranscript "" s in
          let s := set_transcriptRef "" s in
          let s := set_isSubmittingRef false s in
          let s := setStatus idle s in
          snd (setTimeout (CbNext env nextQ) NEXT_DELAY_MS s)
      end
  | Rejected message =>
      let s := setError (or_default message msg_failed) s in
      let s := setStatus idle s in
      set_isSubmittingRef false s
  end.

(** The function passed to [setTimeout] when the next question has
    arrived. *)
Definition next_callback (env : Env) (nextQ : string) (s : State) : State :=
  let s := setEvaluation None s in
  let s := setStatus speaking s in
  speakQuestion nextQ (KListen env) s.

(** The done button: [() => { stopRecording(); handleSubmit(); }], with
    the [handleSubmit] of the latest render. *)
Definition handleDoneClick (s : State) : State :=
  handleSubmit (current_env s) (stopRecording s).

(** The closure of the first render. *)
Definition mount_env (p : Props) : Env :=
  {| e_currentQuestion := firstQuestion p;
     e_previousQuestions := []; e_previousAnswers := [] |}.

(** The mount effect after its start-up pause; it was created in the first
    render. *)
Definition init_after_delay (s : State) : State :=
  let s := setStatus speaking s in
  speakQuestion (firstQuestion (props s)) (KListen (mount_env (props s))) s.

(** The clean-up of the mount effect.  It stops what the refs hold and
    leaves the refs as they are. *)
Definition unmount (s : State) : State :=
  let s := set_mounted false s in
  let s := match recognitionRef (refs s) with
           | Some r => rec_stop r s
           | None => s
           end in
  let s := match timerRef (refs s) with
           | Some i => clearInterval i s
           | None => s
           end in
  match silenceRef (refs s) with
  | Some t => clearTimeout t s
  | None => s
  end.

(** The component as first rendered, its mount effects run. *)
Definition mount (p : Props) (sr synth : bool) : State :=
  let s :=
    {| props := p;
       view := {| currentQuestion := firstQuestion p; questionNumber := 1;
                  transcript := ""; isRecording := false; isSpeaking := false;
                  status := speaking; evaluation := None; error := "";
                  previousQuestions := []; previousAnswers := [];
                  timer := MAX_RECORD_SECONDS; speechSupported := true |};
       refs := {| recognitionRef := None; timerRef := None;
                  silenceRef := None; transcriptRef := "";
                  isSubmittingRef := false; shouldListenRef := false |};
       host := {| has_SR := sr; has_synth := synth; mounted := true;
                  next_id := 1; timeouts := []; intervals := [];
                  recognizers := []; activations := []; utterances := [];
                  inflight := []; requests := []; completed := [] |} |} in
  let s := if negb sr then setSpeechSupported false s else s in
  snd (setTimeout CbInitDelay INIT_DELAY_MS s).

(** ** Events *)

Inductive Event :=
| TimeoutFires (id : nat)
| IntervalFires (id : nat)
| RecResult (r : nat) (event : SpeechRecognitionEvent)
| RecError (r : nat) (err : string)
| RecEnd (r : nat)
| UtteranceStart (u : nat)
| UtteranceSettled (u : nat)
| Settled (p : nat) (reply : Reply)
| DoneClick
| Unmount.

Definition run_callback (cb : Callback) (s : State) : State :=
  match cb with
  | CbInitDelay => init_after_delay s
  | CbSilence env => silenceTimeout_callback env s
  | CbRestart env => startListening env s
  | CbNext env nextQ => next_callback env nextQ s
  end.

Definition is_recording (st : Status) : bool :=
  match st with recording => true | _ => false end.

Definition is_live (st : RecState) : bool :=
  match st with RecStarted | RecStopping => true | _ => false end.

(** One turn of the event loop.  An event that the browser cannot deliver in
    the current state (a timer that was cleared, an event of an object that
    is neither started nor stopping, a click on a button that is not
    rendered) leaves the state as it is. *)
Definition step (e : Event) (s : State) : State :=
  match e with
  | TimeoutFires id =>
      match find_timeout id s with
      | Some t => run_callback (t_cb t) (clearTimeout id s)
      | None => s
      end
  | IntervalFires id =>
      match find_interval id s with
      | Some i => countdown_callback (i_env i) s
      | None => s
      end
  | RecResult r event =>
      match Store.get r (recognizers (host s)) with
      | Some o =>
          match is_live (rec_state o), onresult o with
          | true, Some c => recognition_onresult c event s
          | _, _ => s
          end
      | None => s
      end
  | RecError r err =>
      match Store.get r (recognizers (host s)) with
      | Some o =>
          match is_live (rec_state o), onerror o with
          | true, Some _ => recognition_onerror err s
          | _, _ => s
          end
      | None => s
      end
  | RecEnd r =>
      match Store.get r (recognizers (host s)) with
      | Some o =>
          if is_live (rec_state o) then
            let s := update_recognition r (set_rec_state RecEnded) s in
            match onend o with
            | Some c => recognition_onend c s
            | None => s
            end
          else s
      | None => s
      end
  | UtteranceStart u =>
      match Store.get u (utterances (host s)) with
      | Some _ => setIsSpeaking true s
      | None => s
      end
  | UtteranceSettled u =>
      match Store.get u (utterances (host s)) with
      | Some (_, k) =>
          let s := set_utterances (Store.remove u (utterances (host s))) s in
          resume_speak k (setIsSpeaking false s)
      | None => s
      end
  | Settled p reply =>
      match Store.get p (inflight (host s)) with
      | Some k =>
          let s := set_inflight (Store.remove p (inflight (host s))) s in
          resume_submit k reply s
      | None => s
      end
  | DoneClick =>
      if mounted (host s) && speechSupported (view s) &&
         is_recording (status (view s))
      then handleDoneClick s
      else s
  | Unmount => if mounted (host s) then unmount s else s
  end.

Definition run (es : list Event) (s : State) : State :=
  fold_left (fun s e => step e s) es s.

End Legacy.

(** ** The closures that a state holds *)

Definition callback_in (P : Legacy.Env -> Prop) (cb : Legacy.Callback) : Prop :=
  match cb with
  | Legacy.CbInitDelay => True
  | Legacy.CbSilence env | Legacy.CbRestart env | Legacy.CbNext env _ => P env
  end.

Definition kont_in (P : Legacy.Env -> Prop) (k : Legacy.SpeakKont) : Prop :=
  match k with
  | Legacy.KListen env => P env
  | Legacy.KFinal _ => True
  end.

(** The request carries the question and the histories of the closure. *)
Definition carries (env : Legacy.Env) (sid : string) (r : Request) : Prop :=
  session_id r = sid /\
  current_question r = Legacy.e_currentQuestion env /\
  previous_questions r = Legacy.e_previousQuestions env /\
  previous_answers r = Legacy.e_previousAnswers env.

(** What the closures of a state are made of. *)
Definition held_of (s : Legacy.State) :=
  (Legacy.props s,
   Legacy.timeouts (Legacy.host s), Legacy.intervals (Legacy.host s),
   Legacy.activations (Legacy.host s), Legacy.utterances (Legacy.host s),
   Legacy.inflight (Legacy.host s), Legacy.requests (Legacy.host s)).

(** Every closure held by a timer, a handler or a continuation satisfies
    [P], and every request was sent from such a closure. *)
Definition closures_held (P : Legacy.Env -> Prop)
    (h : Props * list Legacy.Timeout * list Legacy.Interval *
         list (nat * Legacy.Activation) *
         list (nat * (string * Legacy.SpeakKont)) *
         list (nat * Legacy.SubmitKont) * list Request) : Prop :=
  let '(p, tos, ivs, acts, uts, inf, reqs) := h in
  Forall (fun t => callback_in P (Legacy.t_cb t)) tos /\
  Forall (fun i => P (Legacy.i_env i)) ivs /\
  Forall (fun a => P (Legacy.closure (snd a))) acts /\
  Forall (fun u => kont_in P (snd (snd u))) uts /\
  Forall (fun k => P (Legacy.k_env (snd k))) inf /\
  Forall (fun r => exists env, P env /\ carries env (sessionId p) r) reqs.

Definition closures_in (P : Legacy.Env -> Prop) (s : Legacy.State) : Prop :=
  closures_held P (held_of s).

(** The closures of the renders in which the done button was clicked. *)
Fixpoint clicked (es : list Legacy.Event) (s : Legacy.State) : list Legacy.Env :=
  match es with
  | [] => []
  | e :: es' =>
      match e with
      | Legacy.DoneClick => [Legacy.current_env s]
      | _ => []
      end ++ clicked es' (Legacy.step e s)
  end.

Definition is_click (e : Legacy.Event) : bool :=
  match e with Legacy.DoneClick => true | _ => false end.

(** A session in which no closure but the first was ever used: what is
    sent and what is appended to the questions asked is the first
    question. *)
Definition stale (p : Props) (s : Legacy.State) : Prop :=
  Legacy.props s = p /\
  closures_in (eq (Legacy.mount_env p)) s /\
  Forall (eq (firstQuestion p)) (Legacy.previousQuestions (Legacy.view s)).

(** The service asks a second question. *)
Definition second_question : Legacy.Data :=
  {| Legacy.final_report := None; Legacy.data_evaluation := Some "good";
     Legacy.next_question := "Why this role?"; Legacy.question_count := 1 |}.

(** Two answers, each submitted by the silence timer. *)
Definition two_silent_turns : list Legacy.Event :=
  [Legacy.TimeoutFires 1; Legacy.UtteranceSettled 2;
   Legacy.RecResult 3 (final_fragment "Hello"); Legacy.TimeoutFires 7;
   Legacy.Settled 8 (Legacy.Resolved second_question);
   Legacy.TimeoutFires 9; Legacy.UtteranceSettled 10;
   Legacy.RecResult 11 (final_fragment "World"); Legacy.TimeoutFires 15].

(** The component is listening with the recognition object [r], whose
    handlers are those of the activation [c]. *)
Definition hearing (r c : nat) (s : Legacy.State) : Prop :=
  Legacy.recognitionRef (Legacy.refs s) = Some r /\
  Legacy.shouldListenRef (Legacy.refs s) = true /\
  Legacy.isSubmittingRef (Legacy.refs s) = false /\
  (exists o, Store.get r (Legacy.recognizers (Legacy.host s)) = Some o /\
             Legacy.rec_state o = Legacy.RecStarted /\
             Legacy.onresult o = Some c /\ Legacy.onend o = Some c) /\
  (exists a, Store.get c (Legacy.activations (Legacy.host s)) = Some a /\
             Legacy.recognition a = r).

(** The first question has been spoken and the first answer is awaited. *)
Definition legacy_listening : Legacy.State :=
  Legacy.run [Legacy.TimeoutFires 1; Legacy.UtteranceSettled 2]
    (Legacy.mount example_props true true).

(** The done button is clicked twice before anything was said, and the
    first of the two restarts has taken place. *)
Definition two_clicks : list Legacy.Event :=
  [Legacy.TimeoutFires 1; Legacy.UtteranceSettled 2;
   Legacy.DoneClick; Legacy.DoneClick; Legacy.TimeoutFires 7].

(** * The application

    A shallow embedding of the component [App], whose source follows that
    of the session in [frontend/src/components/InterviewSession.jsx]; it
    shows the resume uploader, then the interview session, then the final
    report.  The
    two children are the components embedded above; [App] gives them its
    handlers as [onUploadSuccess] and [onComplete], so that a call of one of
    these props recorded by a child is a call of the handler. *)

Module App.

Inductive Phase := upload | interview | report.

(** The session component of the first part, under names that the cells of
    [App] do not hide. *)
Definition Session : Type := State.
Definition SessionEvent : Type := Event.
Definition mount_session : Props -> bool -> bool -> Session := mount.
Definition step_session : SessionEvent -> Session -> Session := step.

(** The props that [App] passes to [InterviewSession]. *)
Definition session_props (sid q : string) : Props :=
  {| sessionId := sid; firstQuestion := q |}.

(** The [useState] cells of [App], its two children, and what the browser
    offers.  The session is kept from the moment it is mounted: its timers,
    recognition objects and promises outlive its unmounting. *)
Record State := {
  phase : Phase;
  sessionId : string;
  firstQuestion : string;
  finalReport : option Report;
  uploader : ResumeUploader.State;
  interviewSession : option Session;
  speechRecognition : bool;
  speechSynthesis : bool
}.

Definition setPhase (x : Phase) (a : State) : State :=
  {| phase := x; sessionId := sessionId a; firstQuestion := firstQuestion a;
     finalReport := finalReport a; uploader := uploader a;
     interviewSession := interviewSession a;
     speechRecognition := speechRecognition a;
     speechSynthesis := speechSynthesis a |}.

Definition setSessionId (x : string) (a : State) : State :=
  {| phase := phase a; sessionId := x; firstQuestion := firstQuestion a;
     finalReport := finalReport a; uploader := uploader a;
     interviewSession := interviewSession a;
     speechRecognition := speechRecognition a;
     speechSynthesis := speechSynthesis a |}.

Definition setFirstQuestion (x : string) (a : State) : State :=
  {| phase := phase a; sessionId := sessionId a; firstQuestion := x;
     finalReport := finalReport a; uploader := uploader a;
     interviewSession := interviewSession a;
     speechRecognition := speechRecognition a;
     speechSynthesis := speechSynthesis a |}.

Definition setFinalReport (x : option Report) (a : State) : State :=
  {| phase := phase a; sessionId := sessionId a;
     firstQuestion := firstQuestion a;
     finalReport := x; uploader := uploader a;
     interviewSession := interviewSession a;
     speechRecognition := speechRecognition a;
     speechSynthesis := speechSynthesis a |}.

Definition set_uploader (x : ResumeUploader.State) (a : State) : State :=
  {| phase := phase a; sessionId := sessionId a;
     firstQuestion := firstQuestion a;
     finalReport := finalReport a; uploader := x;
     interviewSession := interviewSession a;
     speechRecognition := speechRecognition a;
     speechSynthesis := speechSynthesis a |}.

Definition set_interviewSession (x : option Session) (a : State) : State :=
  {| phase := phase a; sessionId := sessionId a;
     firstQuestion := firstQuestion a;
     finalReport := finalReport a; uploader := uploader a;
     interviewSession := x;
     speechRecognition := speechRecognition a;
     speechSynthesis := speechSynthesis a |}.

Definition handleUploadSuccess (data : ResumeUploader.UploadData) (a : State) : State :=
  let a := setSessionId (ResumeUploader.session_id data) a in
  let a := setFirstQuestion (ResumeUploader.first_question data) a in
  setPhase interview a.

Definition handleInterviewComplete (r : Report) (a : State) : State :=
  let a := setFinalReport (Some r) a in
  setPhase report a.

(** [App] as first rendered: the uploader is shown. *)
Definition mount (sr synth : bool) : State :=
  {| phase := upload; sessionId := ""; firstQuestion := "";
     finalReport := None; uploader := ResumeUploader.mount;
     interviewSession := None;
     speechRecognition := sr; speechSynthesis := synth |}.

(** The render that follows a change of [phase]: the child of the phase
    that was left is unmounted and the child of the new phase is mounted
    with the props of this render. *)
Definition render (before : Phase) (a : State) : State :=
  match before, phase a with
  | upload, interview =>
      set_interviewSession
        (Some (mount_session (session_props (sessionId a) (firstQuestion a))
                 (speechRecognition a) (speechSynthesis a))) a
  | interview, report =>
      set_interviewSession
        (option_map (step_session Unmount) (interviewSession a)) a
  | _, _ => a
  end.

(** What happens is an event of one of the two children. *)
Inductive Event :=
| InUploader (e : ResumeUploader.Event)
| InSession (e : SessionEvent).

Definition is_interview (ph : Phase) : bool :=
  match ph with interview => true | _ => false end.

(** The events that can reach the session in a phase: the click on the
    done button while the session is shown, the events of the browser
    (timers, recognition, speech, replies) at any time, and the unmounting
    never, since only [App] brings it about. *)
Definition reaches (ph : Phase) (e : SessionEvent) : bool :=
  match e with
  | Unmount => false
  | DoneClick => is_interview ph
  | _ => true
  end.

(** One turn of the event loop.  The uploader receives events while it is
    shown, the session those that reach it.  The calls of [onUploadSuccess]
    and [onComplete] that the child makes during the event run the handlers
    of [App], and the render follows. *)
Definition step (e : Event) (a : State) : State :=
  match e with
  | InUploader e' =>
      match phase a with
      | upload =>
          let u := uploader a in
          let u' := ResumeUploader.step e' u in
          let calls := skipn (length (ResumeUploader.started u))
                         (ResumeUploader.started u') in
          let a := set_uploader u' a in
          render upload (fold_left (fun a d => handleUploadSuccess d a) calls a)
      | _ => a
      end
  | InSession e' =>
      match interviewSession a with
      | None => a
      | Some ss =>
          if reaches (phase a) e' then
            let ss' := step_session e' ss in
            let calls := skipn (length (completed (host ss)))
                           (completed (host ss')) in
            let before := phase a in
            let a := set_interviewSession (Some ss') a in
            render before
              (fold_left (fun a r => handleInterviewComplete r a) calls a)
          else a
      end
  end.

Definition run (es : list Event) (a : State) : State :=
  fold_left (fun a e => step e a) es a.

End App.

(** The events of each child among the events of the application. *)
Definition uploader_events (es : list App.Event) : list ResumeUploader.Event :=
  flat_map (fun e => match e with App.InUploader e' => [e'] | _ => [] end) es.

Definition session_events (es : list App.Event) : list Event :=
  flat_map (fun e => match e with App.InSession e' => [e'] | _ => [] end) es.

(** What the application keeps true, given the data [U] that uploads have
    returned and the reports [R] that replies have carried: the session
    exists from the moment the uploader is left, runs with the identifier
    and the first question of such data, and sends its requests under that
    identifier; the report shown is one of [R], and is shown exactly in the
    last phase. *)
Definition app_ok (U : list ResumeUploader.UploadData) (R : list Report)
    (a : App.State) : Prop :=
  (uploader_ok (App.uploader a) /\
   Forall (fun d => ResumeUploader.fileRef (App.uploader a) = Some d)
     (ResumeUploader.started (App.uploader a)) /\
   (forall d, ResumeUploader.fileRef (App.uploader a) = Some d -> In d U)) /\
  (App.phase a = App.upload ->
   App.interviewSession a = None /\ App.finalReport a = None) /\
  (App.phase a <> App.upload ->
   exists d ss,
     In d U /\
     App.sessionId a = ResumeUploader.session_id d /\
     App.firstQuestion a = ResumeUploader.first_question d /\
     App.interviewSession a = Some ss /\
     requests_ok (App.session_props (App.sessionId a) (App.firstQuestion a)) ss /\
     reported R ss) /\
  (forall r, App.finalReport a = Some r -> In r R) /\
  (App.phase a = App.report <-> App.finalReport a <> None).

(** * Properties *)

Section StoreFacts.

Context {V : Type}.
Implicit Types (l : list (nat * V)) (k : nat).

Lemma get_update_same k f l :
  Store.get k (Store.update k f l) = option_map f (Store.get k l).
Proof.
  induction l as [|[k' v'] l IH]; simpl; [reflexivity|].
  destruct (Nat.eqb k k') eqn:E; simpl.
  - now rewrite Nat.eqb_refl.
  - now rewrite E.
Qed.

Lemma get_update_other k k' f l :
  k <> k' -> Store.get k (Store.update k' f l) = Store.get k l.
Proof.
  intros Hne. induction l as [|[k2 v2] l IH]; simpl; [reflexivity|].
  destruct (Nat.eqb k' k2) eqn:E2; simpl.
  - apply Nat.eqb_eq in E2; subst k2.
    destruct (Nat.eqb k k') eqn:E; [apply Nat.eqb_eq in E; contradiction | reflexivity].
  - destruct (Nat.eqb k k2); [reflexivity | exact IH].
Qed.

Lemma get_put_same k v l : Store.get k (Store.put k v l) = Some v.
Proof.
  induction l as [|[k' v'] l IH]; simpl.
  - now rewrite Nat.eqb_refl.
  - destruct (Nat.eqb k k') eqn:E; simpl.
    + now rewrite Nat.eqb_refl.
    + now rewrite E.
Qed.

Lemma get_put_other k k' v l : k <> k' -> Store.get k (Store.put k' v l) = Store.get k l.
Proof.
  intros Hne. induction l as [|[k2 v2] l IH]; simpl.
  - destruct (Nat.eqb k k') eqn:E; [apply Nat.eqb_eq in E; contradiction | reflexivity].
  - destruct (Nat.eqb k' k2) eqn:E2; simpl.
    + apply Nat.eqb_eq in E2; subst k2.
      destruct (Nat.eqb k k') eqn:E; [apply Nat.eqb_eq in E; contradiction | reflexivity].
    + destruct (Nat.eqb k k2); [reflexivity | exact IH].
Qed.

Lemma get_remove_same k l : Store.get k (Store.remove k l) = None.
Proof.
  induction l as [|[k' v'] l IH]; simpl; [reflexivity|].
  destruct (Nat.eqb k k') eqn:E; simpl; [exact IH | now rewrite E].
Qed.

Lemma Forall_remove (P : nat * V -> Prop) k l :
  Forall P l -> Forall P (Store.remove k l).
Proof.
  induction 1 as [|[k' v] l Hx Hl IH]; simpl; [constructor|].
  destruct (Nat.eqb k k'); [exact IH | now constructor].
Qed.

Lemma get_In k (v : V) l : Store.get k l = Some v -> In (k, v) l.
Proof.
  induction l as [|[k' v'] l IH]; simpl; [discriminate|].
  destruct (Nat.eqb k k') eqn:E.
  - intros H. inversion H; subst. apply Nat.eqb_eq in E. subst. now left.
  - intros H. right. now apply IH.
Qed.

Lemma Forall_put n k (v : V) l :
  k < n -> Forall (fun r => fst r < n) l ->
  Forall (fun r => fst r < n) (Store.put k v l).
Proof.
  intros Hk. induction 1 as [|[k' v'] l Hx Hl IH]; simpl.
  - now repeat constructor.
  - destruct (Nat.eqb k k'); constructor; auto.
Qed.

Lemma Forall_update n k (f : V -> V) l :
  Forall (fun r => fst r < n) l ->
  Forall (fun r => fst r < n) (Store.update k f l).
Proof.
  induction 1 as [|[k' v'] l Hx Hl IH]; simpl; [constructor|].
  destruct (Nat.eqb k k') eqn:E; constructor; auto.
  apply Nat.eqb_eq in E. subst. exact Hx.
Qed.

Lemma get_below n k (v : V) l :
  Forall (fun r => fst r < n) l -> Store.get k l = Some v -> k < n.
Proof.
  intros Hl Hg. apply get_In in Hg. rewrite Forall_forall in Hl.
  exact (Hl _ Hg).
Qed.

Lemma get_fresh_none n (l : list (nat * V)) :
  Forall (fun r => fst r < n) l -> Store.get n l = None.
Proof.
  intros Hl. destruct (Store.get n l) eqn:E; [|reflexivity].
  pose proof (get_below _ _ _ _ Hl E). lia.
Qed.

Lemma get_app_last n (v : V) l :
  Forall (fun r => fst r < n) l ->
  Store.get n (l ++ [(n, v)]) = Some v.
Proof.
  induction 1 as [|[k' v'] l Hx Hl IH]; simpl.
  - now rewrite Nat.eqb_refl.
  - destruct (Nat.eqb n k') eqn:E; [|exact IH].
    apply Nat.eqb_eq in E. simpl in Hx. lia.
Qed.

Lemma remove_app_last n (v : V) l :
  Forall (fun r => fst r < n) l ->
  Store.remove n (l ++ [(n, v)]) = l.
Proof.
  induction 1 as [|[k' v'] l Hx Hl IH]; simpl.
  - now rewrite Nat.eqb_refl.
  - destruct (Nat.eqb n k') eqn:E; [|now rewrite IH].
    apply Nat.eqb_eq in E. simpl in Hx. lia.
Qed.

End StoreFacts.

Arguments Store.get {V} k l : simpl nomatch.
Arguments Store.put {V} k v l : simpl nomatch.
Arguments Store.remove {V} k l : simpl nomatch.
Arguments Store.update {V} k f l : simpl nomatch.

(** A fact about one callback is settled by taking the state apart and
    computing, once the refs the callback tests are known. *)
Ltac destruct_state s := destruct s as [? [] [] []]; cbn in *.

Section StringFacts.

Lemma append_assoc (a b c : string) : (a ++ b) ++ c = a ++ (b ++ c).
Proof. induction a as [|x a IH]; simpl; [reflexivity | now rewrite IH]. Qed.

Lemma append_nil_r (a : string) : a ++ "" = a.
Proof. induction a as [|x a IH]; simpl; [reflexivity | now rewrite IH]. Qed.

Lemma join_app (l1 l2 : list string) : join (l1 ++ l2)%list = join l1 ++ join l2.
Proof.
  induction l1 as [|x l1 IH]; simpl; [reflexivity|].
  now rewrite IH, append_assoc.
Qed.

Lemma falsy_true (x : string) : falsy x = true <-> x = "".
Proof. unfold falsy. apply String.eqb_eq. Qed.

Lemma or_default_not_empty (m : option string) (d : string) :
  d <> "" -> or_default m d <> "".
Proof.
  intros Hd. destruct m as [x|]; simpl; [|exact Hd].
  destruct (falsy x) eqn:E; [exact Hd|].
  intros ->. discriminate E.
Qed.

End StringFacts.

(** ** Trimming

[trim] is characterised by what the specification calls white space: it
removes the white space around a string and nothing else. *)

Section Trimming.

Lemma length_append (a b : string) :
  String.length (a ++ b) = String.length a + String.length b.
Proof. induction a as [|x a IH]; cbn; [reflexivity | now rewrite IH]. Qed.

Lemma drop_prefix_app p r : drop_prefix p (p ++ r) = Some r.
Proof.
  induction p as [|a p IH]; cbn; [now destruct r|].
  now rewrite Ascii.eqb_refl.
Qed.

Lemma drop_prefix_some p : forall s r, drop_prefix p s = Some r -> s = p ++ r.
Proof.
  induction p as [|a p IH]; intros s r H.
  - destruct s; cbn in H; now inversion H.
  - destruct s as [|b s]; cbn in H; [discriminate|].
    destruct (Ascii.eqb a b) eqn:E; [|discriminate].
    apply Ascii.eqb_eq in E. subst b. cbn. f_equal. now apply IH.
Qed.

(** One of two prefixes of a string is a prefix of the other. *)
Lemma prefixes_nest p : forall q r r',
  p ++ r = q ++ r' ->
  (exists t, q = p ++ t) \/ (exists t, p = q ++ t).
Proof.
  induction p as [|a p IH]; intros q r r' H.
  - left. now exists q.
  - destruct q as [|b q].
    + right. now exists (String a p).
    + cbn in H. inversion H as [[Hab Hrest]]. subst b.
      destruct (IH q r r' Hrest) as [[t Ht]|[t Ht]].
      * left. exists t. cbn. now rewrite Ht.
      * right. exists t. cbn. now rewrite Ht.
Qed.

Lemma is_prefix_app p t : is_prefix p (p ++ t) = true.
Proof. unfold is_prefix. now rewrite drop_prefix_app. Qed.

(** No white space is empty, and none starts with another. *)
Lemma js_whitespace_table :
  forall w1, In w1 js_whitespace ->
    w1 <> "" /\
    forall w2, In w2 js_whitespace -> is_prefix w1 w2 = true -> w1 = w2.
Proof.
  assert (H : forallb (fun w1 =>
                negb (w1 =? "") &&
                forallb (fun w2 => negb (is_prefix w1 w2) || (w1 =? w2))
                  js_whitespace) js_whitespace = true)
    by (vm_compute; reflexivity).
  rewrite forallb_forall in H. intros w1 H1.
  apply H in H1. apply andb_prop in H1. destruct H1 as (Hne & Hall).
  split.
  - intros E. rewrite E in Hne. discriminate Hne.
  - rewrite forallb_forall in Hall. intros w2 H2 Hp.
    apply Hall in H2. rewrite Hp in H2. cbn in H2.
    now apply String.eqb_eq.
Qed.

Lemma whitespace_not_empty w : In w js_whitespace -> 1 <= String.length w.
Proof.
  intros H. destruct (js_whitespace_table w H) as (Hne & _).
  destruct w; [now destruct Hne | cbn; lia].
Qed.

(** A string starts with one white space at most. *)
Lemma whitespace_unique w1 w2 r1 r2 :
  In w1 js_whitespace -> In w2 js_whitespace ->
  w1 ++ r1 = w2 ++ r2 -> w1 = w2 /\ r1 = r2.
Proof.
  intros H1 H2 E.
  assert (Hw : w1 = w2).
  { destruct (prefixes_nest _ _ _ _ E) as [[t Ht]|[t Ht]].
    - destruct (js_whitespace_table w1 H1) as (_ & K). apply K; [exact H2|].
      rewrite Ht. apply is_prefix_app.
    - destruct (js_whitespace_table w2 H2) as (_ & K). symmetry.
      apply K; [exact H1|]. rewrite Ht. apply is_prefix_app. }
  subst w2. split; [reflexivity|].
  pose proof (drop_prefix_app w1 r1) as D1. rewrite E, drop_prefix_app in D1.
  now inversion D1.
Qed.

Lemma drop_space_some ws : forall s r,
  drop_space ws s = Some r -> exists w, In w ws /\ s = w ++ r.
Proof.
  induction ws as [|w ws IH]; intros s r H; [discriminate|].
  cbn in H. destruct (drop_prefix w s) as [r'|] eqn:E.
  - inversion H; subst r'. exists w. split; [now left|].
    now apply drop_prefix_some.
  - destruct (IH s r H) as (w' & Hw' & Hs). exists w'. split; [now right | exact Hs].
Qed.

Lemma drop_space_none ws : forall s,
  drop_space ws s = None -> forall w r, In w ws -> s <> w ++ r.
Proof.
  induction ws as [|w0 ws IH]; intros s H w r Hw E; [destruct Hw|].
  cbn in H. destruct (drop_prefix w0 s) eqn:D; [discriminate|].
  destruct Hw as [<-|Hw].
  - rewrite E, drop_prefix_app in D. discriminate D.
  - exact (IH s H w r Hw E).
Qed.

Lemma drop_space_app w r :
  In w js_whitespace -> drop_space js_whitespace (w ++ r) = Some r.
Proof.
  intros Hw. destruct (drop_space js_whitespace (w ++ r)) as [r'|] eqn:E.
  - destruct (drop_space_some _ _ _ E) as (w' & Hw' & Hs).
    destruct (whitespace_unique w w' r r' Hw Hw' Hs) as (_ & Hr). now subst r'.
  - exfalso. exact (drop_space_none _ _ E w r Hw eq_refl).
Qed.

Lemma starts_with_space_drop s :
  starts_with_space s <-> drop_space js_whitespace s <> None.
Proof.
  split.
  - intros (w & r & Hw & ->). rewrite drop_space_app by exact Hw. discriminate.
  - intros H. destruct (drop_space js_whitespace s) as [r|] eqn:E; [|now destruct H].
    destruct (drop_space_some _ _ _ E) as (w & Hw & Hs). now exists w, r.
Qed.

Lemma whitespace_only_app a b :
  whitespace_only a -> whitespace_only b -> whitespace_only (a ++ b).
Proof.
  induction 1 as [|w s Hw Hs IH]; intros Hb; [exact Hb|].
  rewrite append_assoc. constructor; [exact Hw | now apply IH].
Qed.

Lemma whitespace_only_one w : In w js_whitespace -> whitespace_only w.
Proof.
  intros H. rewrite <- (append_nil_r w). constructor; [exact H | constructor].
Qed.

Lemma trimStart_upto_spec n : forall s,
  exists pre, whitespace_only pre /\ s = pre ++ trimStart_upto n s.
Proof.
  induction n as [|n IH]; intros s.
  - exists "". split; [constructor | reflexivity].
  - cbn [trimStart_upto].
    destruct (drop_space js_whitespace s) as [r|] eqn:E.
    + destruct (drop_space_some _ _ _ E) as (w & Hw & Hs).
      destruct (IH r) as (pre & Hpre & Hr).
      exists (w ++ pre). split; [now constructor|].
      rewrite append_assoc, <- Hr. exact Hs.
    + exists "". split; [constructor | reflexivity].
Qed.

Lemma trimStart_upto_clean n : forall s,
  String.length s <= n -> drop_space js_whitespace (trimStart_upto n s) = None.
Proof.
  induction n as [|n IH]; intros s Hl.
  - destruct s; [reflexivity | cbn in Hl; lia].
  - cbn [trimStart_upto].
    destruct (drop_space js_whitespace s) as [r|] eqn:E; [|exact E].
    apply IH. destruct (drop_space_some _ _ _ E) as (w & Hw & Hs).
    subst s. rewrite length_append in Hl.
    pose proof (whitespace_not_empty w Hw). lia.
Qed.

Lemma trimStart_upto_app pre : whitespace_only pre -> forall n t,
  String.length (pre ++ t) <= n -> drop_space js_whitespace t = None ->
  trimStart_upto n (pre ++ t) = t.
Proof.
  induction 1 as [|w s Hw Hs IH]; intros n t Hl Ht.
  - cbn [append]. destruct n; cbn [trimStart_upto]; [reflexivity | now rewrite Ht].
  - rewrite append_assoc in *. rewrite length_append in Hl.
    pose proof (whitespace_not_empty w Hw).
    destruct n as [|n]; [lia|]. cbn [trimStart_upto].
    rewrite drop_space_app by exact Hw. apply IH; [lia | exact Ht].
Qed.

(** [trimStart] removes a prefix of white space and leaves a string that
    does not start with one. *)
Lemma trimStart_spec s :
  (exists pre, whitespace_only pre /\ s = pre ++ trimStart s) /\
  ~ starts_with_space (trimStart s).
Proof.
  split; [apply trimStart_upto_spec|].
  rewrite starts_with_space_drop. intros H. apply H.
  now apply trimStart_upto_clean.
Qed.

Lemma trimStart_whitespace s : trimStart s = "" <-> whitespace_only s.
Proof.
  split.
  - intros H. destruct (trimStart_spec s) as ((pre & Hpre & Hs) & _).
    rewrite H, append_nil_r in Hs. now subst s.
  - intros H. unfold trimStart. rewrite <- (append_nil_r s) at 2.
    apply trimStart_upto_app; [exact H | now rewrite append_nil_r | reflexivity].
Qed.

Lemma trimStart_clean s : ~ starts_with_space s -> trimStart s = s.
Proof.
  intros H. unfold trimStart. destruct (String.length s); [reflexivity|].
  cbn [trimStart_upto].
  destruct (drop_space js_whitespace s) eqn:E; [|reflexivity].
  exfalso. apply H. apply starts_with_space_drop. now rewrite E.
Qed.

(** [trimEnd] removes a suffix of white space and leaves a string that
    does not end with one. *)
Lemma trimEnd_spec s :
  (exists post, whitespace_only post /\ s = trimEnd s ++ post) /\
  ~ ends_with_space (trimEnd s).
Proof.
  induction s as [|a r ((post & Hpost & Hr) & Hclean)].
  - split; [exists ""; split; [constructor | reflexivity]|].
    intros (u & w & Hw & E). pose proof (whitespace_not_empty w Hw) as Hl.
    apply (f_equal String.length) in E. rewrite length_append in E. cbn in E. lia.
  - cbn [trimEnd]. destruct (trimStart (String a r) =? "") eqn:E.
    + apply String.eqb_eq in E. apply trimStart_whitespace in E. split.
      * exists (String a r). split; [exact E | reflexivity].
      * intros (u & w & Hw & E'). pose proof (whitespace_not_empty w Hw) as Hl.
        apply (f_equal String.length) in E'. rewrite length_append in E'. cbn in E'. lia.
    + split.
      * exists post. split; [exact Hpost|]. cbn. now rewrite <- Hr.
      * intros (u & w & Hw & E').
        destruct u as [|b u].
        -- cbn [append] in E'.
           assert (Hall : whitespace_only (String a r)).
           { rewrite Hr. change (String a (trimEnd r ++ post))
               with (String a (trimEnd r) ++ post). rewrite E'.
             apply whitespace_only_app; [now apply whitespace_only_one | exact Hpost]. }
           apply trimStart_whitespace in Hall. rewrite Hall in E. discriminate E.
        -- cbn in E'. inversion E' as [[Hab Hrest]].
           apply Hclean. now exists u, w.
Qed.

Lemma trimEnd_whitespace s : trimEnd s = "" <-> whitespace_only s.
Proof.
  split.
  - intros H. destruct (trimEnd_spec s) as ((post & Hpost & Hs) & _).
    rewrite H in Hs. cbn in Hs. now subst s.
  - intros H. destruct s as [|a r]; [reflexivity|]. cbn [trimEnd].
    apply trimStart_whitespace in H. now rewrite H.
Qed.

(** [trim] gives the empty string exactly on the strings of white space
    only. *)
Lemma trim_whitespace s : trim s = "" <-> whitespace_only s.
Proof.
  unfold trim. rewrite trimEnd_whitespace. split.
  - intros H. destruct (trimStart_spec s) as ((pre & Hpre & Hs) & _).
    rewrite Hs. now apply whitespace_only_app.
  - intros H. apply trimStart_whitespace in H. rewrite H. constructor.
Qed.

(** What [trim] returns: the string without the white space around it. *)
Lemma trim_spec s :
  exists pre post,
    whitespace_only pre /\ whitespace_only post /\
    s = pre ++ trim s ++ post /\
    ~ starts_with_space (trim s) /\ ~ ends_with_space (trim s).
Proof.
  destruct (trimStart_spec s) as ((pre & Hpre & Hs) & Hstart).
  destruct (trimEnd_spec (trimStart s)) as ((post & Hpost & Ht) & Hend).
  exists pre, post. unfold trim.
  split; [exact Hpre|]. split; [exact Hpost|].
  split; [now rewrite <- Ht|]. split; [|exact Hend].
  intros (w & r & Hw & E). apply Hstart. exists w, (r ++ post).
  split; [exact Hw|]. rewrite Ht, E. apply append_assoc.
Qed.

End Trimming.

(** ** Numbers *)

Lemma to_double_exact n : (Z.abs n < 2 ^ 53)%Z -> to_double n = n.
Proof.
  intros H. unfold to_double. cbv zeta.
  assert (Hl : (Z.log2 (Z.abs n) - 52 <= 0)%Z).
  { destruct (Z.eq_dec (Z.abs n) 0) as [E|E]; [rewrite E; cbn; lia|].
    assert (Z.log2 (Z.abs n) < 53)%Z by (apply Z.log2_lt_pow2; lia). lia. }
  apply Z.leb_le in Hl. now rewrite Hl.
Qed.

Lemma js_add_exact a b :
  (Z.abs a < 2 ^ 52)%Z -> (Z.abs b < 2 ^ 52)%Z -> js_add a b = (a + b)%Z.
Proof.
  intros Ha Hb. unfold js_add.
  rewrite (to_double_exact a), (to_double_exact b) by lia.
  apply to_double_exact. lia.
Qed.

(** A report that passes the test of [doSubmit] is the report of the
    reply. *)
Lemma truthy_some o r : truthy o = Some r -> o = Some r.
Proof.
  destruct o as [x|]; cbn; [|discriminate].
  destruct (falsy x); [discriminate | exact (fun H => H)].
Qed.

(** Beyond 2^53 adding one is lost in the rounding. *)
Lemma js_add_rounds : js_add (2 ^ 53) 1 = (2 ^ 53)%Z.
Proof. vm_compute. reflexivity. Qed.

(** ** Branch-free forms

[cleanupRecording] and [resetSilenceTimer] test refs before they release
a resource.  Both equal a plain sequence of assignments in which the
tests have moved into the lists that are assigned. *)

Section Flat.

Lemma cleanupRecording_flat s :
  cleanupRecording s =
  setIsRecording false
    (set_silenceTimeoutRef None
       (set_timerIntervalRef None
          (set_recognitionRef None
             (set_shouldListenRef false
                (set_timeouts
                   (without_timeout (silenceTimeoutRef (refs s)) (timeouts (host s)))
                   (set_intervals
                      (without_interval (timerIntervalRef (refs s))
                         (intervals (host s)))
                      (set_recognizers
                         (with_aborted (recognitionRef (refs s))
                            (recognizers (host s))) s))))))).
Proof.
  destruct_state s.
  destruct recognitionRef0, timerIntervalRef0, silenceTimeoutRef0; reflexivity.
Qed.

Lemma resetSilenceTimer_flat s :
  resetSilenceTimer s =
  set_silenceTimeoutRef (Some (next_id (host s)))
    (set_timeouts
       (without_timeout (silenceTimeoutRef (refs s)) (timeouts (host s)) ++
        [{| t_id := next_id (host s); t_delay := SILENCE_TIMEOUT_MS;
            t_cb := CbSilence |}])%list
       (set_next_id (S (next_id (host s))) s)).
Proof.
  destruct_state s. destruct silenceTimeoutRef0; reflexivity.
Qed.

Lemma startListeningFn_unsupported s :
  has_SR (host s) = false -> startListeningFn s = setError msg_unsupported s.
Proof. intros H. unfold startListeningFn. now rewrite H. Qed.

Lemma silenceTimeout_callback_speaking s :
  speechSynthesis_speaking s = true ->
  silenceTimeout_callback s = resetSilenceTimer s.
Proof. intros H. unfold silenceTimeout_callback. now rewrite H. Qed.

Lemma silenceTimeout_callback_silent s :
  speechSynthesis_speaking s = false ->
  silenceTimeout_callback s =
  if negb (isSubmittingRef (refs s)) && shouldListenRef (refs s)
  then doSubmit s else s.
Proof. intros H. unfold silenceTimeout_callback. now rewrite H. Qed.

Lemma next_id_cleanupRecording s :
  next_id (host (cleanupRecording s)) = next_id (host s).
Proof. now rewrite cleanupRecording_flat. Qed.

Lemma silenceTimeoutRef_cleanupRecording s :
  silenceTimeoutRef (refs (cleanupRecording s)) = None.
Proof. now rewrite cleanupRecording_flat. Qed.

End Flat.

(** ** Fragment delivery *)

Section Transcript.

Lemma skipn_nth_error {A} (l : list A) : forall i x,
  nth_error l i = Some x -> skipn i l = x :: skipn (S i) l.
Proof.
  induction l as [|y l IH]; intros [|i] x H; simpl in *; try discriminate.
  - now inversion H.
  - rewrite (IH i x H). reflexivity.
Qed.

(** The indexed loop visits exactly the delivered fragments, in order. *)
Lemma for_results_delivered rs : forall n i acc,
  n = length rs - i ->
  for_results n i rs acc = fold_left accumulate (skipn i rs) acc.
Proof.
  induction n as [|n IH]; intros i acc Hn; simpl.
  - rewrite skipn_all2 by lia. reflexivity.
  - destruct (nth_error rs i) as [x|] eqn:E.
    + rewrite (skipn_nth_error rs i x E). simpl.
      rewrite IH by lia. reflexivity.
    + apply nth_error_None in E. lia.
Qed.

Lemma fold_accumulate l : forall fin interim,
  fold_left accumulate l (fin, interim) =
  (fin ++ join (map (fun r => alt_transcript r ++ " ") (filter isFinal l)),
   interim ++ join (map alt_transcript (filter (fun r => negb (isFinal r)) l))).
Proof.
  induction l as [|r l IH]; intros fin interim; simpl.
  - now rewrite !append_nil_r.
  - unfold accumulate at 2. destruct (isFinal r); simpl; rewrite IH; simpl;
      now rewrite ?append_assoc.
Qed.

Lemma activations_resetSilenceTimer s :
  activations (host (resetSilenceTimer s)) = activations (host s).
Proof. unfold resetSilenceTimer. destruct (silenceTimeoutRef (refs s)); reflexivity. Qed.

Lemma transcriptRef_resetSilenceTimer s :
  transcriptRef (refs (resetSilenceTimer s)) = transcriptRef (refs s).
Proof. unfold resetSilenceTimer. destruct (silenceTimeoutRef (refs s)); reflexivity. Qed.

Lemma transcript_resetSilenceTimer s :
  transcript (view (resetSilenceTimer s)) = transcript (view s).
Proof. unfold resetSilenceTimer. destruct (silenceTimeoutRef (refs s)); reflexivity. Qed.

(** One delivery, in terms of the delivered fragments. *)
Lemma recognition_onresult_spec c event s a :
  Store.get c (activations (host s)) = Some a ->
  let s' := recognition_onresult c event s in
  let fin := finalTranscript a ++ spec_finalized [event] in
  Store.get c (activations (host s')) =
    Some {| finalTranscript := fin; recognition := recognition a |} /\
  transcriptRef (refs s') = fin ++ spec_interim event /\
  transcript (view s') = fin ++ spec_interim event.
Proof.
  intros Ha. unfold recognition_onresult. rewrite Ha.
  rewrite for_results_delivered by reflexivity.
  rewrite fold_accumulate. cbv zeta.
  rewrite activations_resetSilenceTimer, transcriptRef_resetSilenceTimer,
    transcript_resetSilenceTimer.
  unfold spec_finalized, spec_interim, delivered. simpl.
  rewrite app_nil_r. rewrite get_put_same. auto.
Qed.

Lemma spec_finalized_app l1 l2 :
  spec_finalized (l1 ++ l2)%list = spec_finalized l1 ++ spec_finalized l2.
Proof.
  unfold spec_finalized. now rewrite flat_map_app, filter_app, map_app, join_app.
Qed.

Lemma deliver_all_final c events : forall s a,
  Store.get c (activations (host s)) = Some a ->
  Store.get c (activations (host (deliver_all c events s))) =
    Some {| finalTranscript := finalTranscript a ++ spec_finalized events;
            recognition := recognition a |}.
Proof.
  induction events as [|e events IH]; intros s a Ha; simpl.
  - unfold spec_finalized. simpl. rewrite append_nil_r. destruct a; exact Ha.
  - destruct (recognition_onresult_spec c e s a Ha) as (H1 & _ & _).
    rewrite (IH _ _ H1). simpl.
    change (e :: events) with ([e] ++ events)%list.
    now rewrite spec_finalized_app, append_assoc.
Qed.

End Transcript.

(** The event loop hands every result of a started object to the handler
    of its activation. *)
Section Delivery.

Lemma recognizers_recognition_onresult c event s :
  recognizers (host (recognition_onresult c event s)) = recognizers (host s).
Proof.
  unfold recognition_onresult.
  destruct (Store.get c (activations (host s))); [|reflexivity].
  destruct (for_results _ _ _ _) as [fin interim].
  unfold resetSilenceTimer. cbn.
  destruct (silenceTimeoutRef (refs s)); reflexivity.
Qed.

Lemma run_results r o c events : forall s,
  Store.get r (recognizers (host s)) = Some o ->
  rec_state o = RecStarted ->
  onresult o = Some c ->
  run (map (RecResult r) events) s = deliver_all c events s.
Proof.
  induction events as [|e events IH]; intros s Hr Hst Hc; [reflexivity|].
  unfold run, deliver_all in *. simpl. rewrite Hr, Hst, Hc.
  apply IH; [|assumption|assumption].
  now rewrite recognizers_recognition_onresult.
Qed.

End Delivery.

(** ** What [startListeningFn] sets up *)

Section ListeningPhase.

Lemma get_update_recognition id f s :
  Store.get id (recognizers (host (update_recognition id f s))) =
  option_map f (Store.get id (recognizers (host s))).
Proof. apply get_update_same. Qed.

(** The state in which [startListeningFn] leaves a browser that has a
    recognition engine: a new started object whose three handlers belong
    to a new activation with an empty finalized text, both timers armed,
    the flags set for listening. *)
Lemma startListeningFn_spec s :
  has_SR (host s) = true ->
  let s' := startListeningFn s in
  let r := next_id (host s) in
  let c := S r in
  recognitionRef (refs s') = Some r /\
  Store.get r (recognizers (host s')) =
    Some {| continuous := true; interimResults := true; lang := "en-US";
            onresult := Some c; onerror := Some c; onend := Some c;
            rec_state := RecStarted |} /\
  Store.get c (activations (host s')) =
    Some {| finalTranscript := ""; recognition := r |} /\
  silenceTimeoutRef (refs s') = Some (S c) /\
  timerIntervalRef (refs s') = Some (S (S c)) /\
  next_id (host s') = S (S (S c)) /\
  shouldListenRef (refs s') = true /\
  isSubmittingRef (refs s') = false /\
  transcriptRef (refs s') = "" /\
  status (view s') = recording /\
  isRecording (view s') = true /\
  timer (view s') = MAX_RECORD_SECONDS /\
  error (view s') = "".
Proof.
  intros HSR. destruct_state s. subst.
  destruct recognitionRef0, timerIntervalRef0, silenceTimeoutRef0;
    cbn; rewrite ?get_update_same, ?get_put_same; cbn;
    rewrite ?get_update_same, ?get_put_same; cbn;
    repeat split; reflexivity.
Qed.

End ListeningPhase.

(** C5.  In a listening phase, after every delivery of the recognition
    object that [startListeningFn] started, the running transcript (the ref
    and the displayed copy alike) is every finalized fragment delivered so
    far, each followed by one space, in arrival order, followed by the
    interim fragments of the latest delivery only. *)
Theorem transcript_is_finalized_then_latest_interim :
  forall s events event,
    has_SR (host s) = true ->
    exists r,
      recognitionRef (refs (startListeningFn s)) = Some r /\
      let s' := run (map (RecResult r) (events ++ [event])%list) (startListeningFn s) in
      transcriptRef (refs s') =
        spec_finalized (events ++ [event])%list ++ spec_interim event /\
      transcript (view s') = transcriptRef (refs s').
Proof.
  intros s events event HSR.
  destruct (startListeningFn_spec s HSR) as (Hr & Ho & Hc & _).
  exists (next_id (host s)). split; [exact Hr|].
  cbv zeta. rewrite (run_results _ _ _ _ _ Ho eq_refl eq_refl).
  unfold deliver_all. rewrite fold_left_app. cbn [fold_left].
  pose proof (deliver_all_final _ events _ _ Hc) as Hmid.
  destruct (recognition_onresult_spec _ event _ _ Hmid) as (_ & H2 & H3).
  fold (deliver_all (S (next_id (host s))) events (startListeningFn s)) in *.
  cbn in H2, H3. rewrite H3, H2. split; [|reflexivity].
  now rewrite spec_finalized_app, !append_assoc.
Qed.

(** ** The submit operation, up to its first [await] *)

Section Submit.

(** The three ways through [doSubmit]. *)
Lemma doSubmit_guarded s :
  isSubmittingRef (refs s) = true -> doSubmit s = s.
Proof. intros H. unfold doSubmit. now rewrite H. Qed.

Lemma doSubmit_false_start s :
  isSubmittingRef (refs s) = false ->
  trim (transcriptRef (refs s)) = "" ->
  doSubmit s =
  snd (setTimeout CbRestart RESTART_DELAY_MS
         (cleanupRecording (setError msg_no_speech s))).
Proof. intros H1 H2. unfold doSubmit. rewrite H1, H2. reflexivity. Qed.

Lemma cleanupRecording_refs s :
  refs (cleanupRecording s) =
  {| recognitionRef := None; timerIntervalRef := None;
     silenceTimeoutRef := None; transcriptRef := transcriptRef (refs s);
     isSubmittingRef := isSubmittingRef (refs s); shouldListenRef := false;
     currentQuestionRef := currentQuestionRef (refs s);
     previousQuestionsRef := previousQuestionsRef (refs s);
     previousAnswersRef := previousAnswersRef (refs s);
     questionNumberRef := questionNumberRef (refs s) |}.
Proof.
  destruct_state s.
  destruct recognitionRef0, timerIntervalRef0, silenceTimeoutRef0; reflexivity.
Qed.

Lemma cleanupRecording_view s :
  view (cleanupRecording s) = view (setIsRecording false s).
Proof.
  destruct_state s.
  destruct recognitionRef0, timerIntervalRef0, silenceTimeoutRef0; reflexivity.
Qed.

Lemma cleanupRecording_props s : props (cleanupRecording s) = props s.
Proof.
  destruct_state s.
  destruct recognitionRef0, timerIntervalRef0, silenceTimeoutRef0; reflexivity.
Qed.

(** What [cleanupRecording] leaves alone in the browser. *)
Lemma cleanupRecording_host s :
  let h := host s in
  let h' := host (cleanupRecording s) in
  has_SR h' = has_SR h /\ has_synth h' = has_synth h /\
  synth_speaking h' = synth_speaking h /\ next_id h' = next_id h /\
  activations h' = activations h /\ utterances h' = utterances h /\
  inflight h' = inflight h /\ requests h' = requests h /\
  completed h' = completed h /\ cancelled h' = cancelled h.
Proof.
  destruct_state s.
  destruct recognitionRef0, timerIntervalRef0, silenceTimeoutRef0;
    cbn; repeat split; reflexivity.
Qed.

Lemma doSubmit_submits s :
  isSubmittingRef (refs s) = false ->
  trim (transcriptRef (refs s)) <> "" ->
  doSubmit s =
  submitAnswer (request_of s) (kont_of s)
    (setError "" (setStatus processing
       (cleanupRecording (set_isSubmittingRef true s)))).
Proof.
  intros H1 H2. unfold doSubmit. rewrite H1.
  destruct (falsy (trim (transcriptRef (refs s)))) eqn:E.
  - apply falsy_true in E. contradiction.
  - cbv zeta. unfold request_of, kont_of.
    change (refs (setError "" (setStatus processing
              (cleanupRecording (set_isSubmittingRef true s)))))
      with (refs (cleanupRecording (set_isSubmittingRef true s))).
    change (props (setError "" (setStatus processing
              (cleanupRecording (set_isSubmittingRef true s)))))
      with (props (cleanupRecording (set_isSubmittingRef true s))).
    rewrite cleanupRecording_refs, cleanupRecording_props. reflexivity.
Qed.

End Submit.

(** ** What only a reply of the service may change

The turn: the question, its number, the histories, in the displayed
state and in the refs.  Every callback except the continuation of a
submission leaves it alone. *)

Section TurnFrame.

Lemma turn_cleanupRecording s : turn_of (cleanupRecording s) = turn_of s.
Proof. rewrite cleanupRecording_flat. reflexivity. Qed.

Lemma turn_resetSilenceTimer s : turn_of (resetSilenceTimer s) = turn_of s.
Proof. rewrite resetSilenceTimer_flat. reflexivity. Qed.

Lemma turn_doSubmit s : turn_of (doSubmit s) = turn_of s.
Proof.
  unfold doSubmit. destruct (isSubmittingRef (refs s)); [reflexivity|].
  destruct (falsy _); cbv zeta; rewrite cleanupRecording_flat; reflexivity.
Qed.

Lemma turn_silenceTimeout_callback s :
  turn_of (silenceTimeout_callback s) = turn_of s.
Proof.
  unfold silenceTimeout_callback.
  destruct (speechSynthesis_speaking s); [apply turn_resetSilenceTimer|].
  destruct (_ && _); [apply turn_doSubmit | reflexivity].
Qed.

Lemma turn_countdown_callback s : turn_of (countdown_callback s) = turn_of s.
Proof.
  unfold countdown_callback. cbv zeta.
  destruct (_ <=? _)%Z; [|reflexivity].
  destruct (negb _); [|reflexivity].
  change (turn_of (setTimer 0 (doSubmit s))) with (turn_of (doSubmit s)).
  apply turn_doSubmit.
Qed.

Lemma turn_recognition_onresult c e s :
  turn_of (recognition_onresult c e s) = turn_of s.
Proof.
  unfold recognition_onresult.
  destruct (Store.get c _); [|reflexivity].
  destruct (for_results _ _ _ _). cbv zeta.
  now rewrite turn_resetSilenceTimer.
Qed.

Lemma turn_recognition_onerror err s :
  turn_of (recognition_onerror err s) = turn_of s.
Proof. unfold recognition_onerror. destruct (_ && _); reflexivity. Qed.

Lemma turn_recognition_onend c s : turn_of (recognition_onend c s) = turn_of s.
Proof.
  unfold recognition_onend.
  destruct (_ && _); [|reflexivity].
  destruct (has_SR _); [|reflexivity].
  destruct (Store.get c _); reflexivity.
Qed.

Lemma turn_startListeningFn s : turn_of (startListeningFn s) = turn_of s.
Proof.
  unfold startListeningFn. destruct (has_SR (host s)); cbn [negb]; [|reflexivity].
  rewrite cleanupRecording_flat. reflexivity.
Qed.

Lemma turn_resume_speak k s : turn_of (resume_speak k s) = turn_of s.
Proof.
  destruct k; cbn [resume_speak]; try apply turn_startListeningFn.
  - destruct (cancelled (host s)); [reflexivity | apply turn_startListeningFn].
  - reflexivity.
Qed.

Lemma turn_speakQuestion text k s : turn_of (speakQuestion text k s) = turn_of s.
Proof.
  unfold speakQuestion. destruct (has_synth (host s)); cbn [negb].
  - reflexivity.
  - apply turn_resume_speak.
Qed.

Lemma turn_run_callback cb s : turn_of (run_callback cb s) = turn_of s.
Proof.
  destruct cb; cbn [run_callback].
  - unfold init_after_delay. destruct (cancelled (host s)); [reflexivity|].
    now rewrite turn_speakQuestion.
  - apply turn_silenceTimeout_callback.
  - unfold restart_callback. now rewrite turn_startListeningFn.
Qed.

Lemma turn_unmount s : turn_of (unmount s) = turn_of s.
Proof. unfold unmount. now rewrite turn_cleanupRecording. Qed.

Lemma turn_handleDoneClick s : turn_of (handleDoneClick s) = turn_of s.
Proof.
  unfold handleDoneClick. destruct (negb _); [apply turn_doSubmit | reflexivity].
Qed.

End TurnFrame.

Section TurnSteps.

(** Every event but the settling of a submission leaves the turn alone. *)
Lemma turn_step e s :
  (forall p reply, e <> Settled p reply) ->
  turn_of (step e s) = turn_of s.
Proof.
  intros Hne. destruct e; cbn [step].
  - destruct (find_timeout id s); [|reflexivity].
    now rewrite turn_run_callback.
  - destruct (find_interval id s); [|reflexivity].
    apply turn_countdown_callback.
  - destruct (Store.get r _) as [o|]; [|reflexivity].
    destruct (rec_state o), (onresult o); try reflexivity.
    apply turn_recognition_onresult.
  - destruct (Store.get r _) as [o|]; [|reflexivity].
    destruct (rec_state o), (onerror o); try reflexivity;
      apply turn_recognition_onerror.
  - destruct (Store.get r _) as [o|]; [|reflexivity].
    destruct (rec_state o); try reflexivity;
      destruct (onend o); try reflexivity;
      now rewrite turn_recognition_onend.
  - reflexivity.
  - destruct (Store.get u _); reflexivity.
  - destruct (Store.get u _) as [[text k]|]; [|reflexivity].
    now rewrite turn_resume_speak.
  - exfalso. now apply (Hne p reply).
  - destruct (_ && _); [apply turn_handleDoneClick | reflexivity].
  - destruct (mounted s); [apply turn_unmount | reflexivity].
Qed.

Lemma turn_resume_submit_rejected k message s :
  turn_of (resume_submit k (Rejected message) s) = turn_of s.
Proof. reflexivity. Qed.

Lemma turn_resume_submit_final k data report s :
  truthy (final_report data) = Some report ->
  turn_of (resume_submit k (Resolved data) s) = turn_of s.
Proof.
  intros H. cbn [resume_submit]. rewrite H. apply turn_speakQuestion.
Qed.

(** A reply with the next question starts the next turn: the pair that
    the submission captured is appended to the histories, and the turn
    number is the count reported by the service plus one. *)
Lemma turn_resume_submit_next k data s :
  truthy (final_report data) = None ->
  turn_of (resume_submit k (Resolved data) s) =
  {| turn_question := next_question data;
     turn_number := js_add (question_count data) 1;
     turn_questionRef := next_question data;
     turn_numberRef := js_add (question_count data) 1;
     turn_previousQuestions := (k_prevQ k ++ [k_q k])%list;
     turn_previousAnswers := (k_prevA k ++ [k_answer k])%list |}.
Proof.
  intros H. cbn [resume_submit]. rewrite H. cbv zeta.
  rewrite turn_speakQuestion. reflexivity.
Qed.

End TurnSteps.

(** ** What only a final report may change

The completion callback runs only from the utterance that announces the
end of the interview, and that utterance is queued only by a reply that
carries a final report. *)

Section SpokenFrame.

Lemma spoken_cleanupRecording s : spoken_of (cleanupRecording s) = spoken_of s.
Proof. rewrite cleanupRecording_flat. reflexivity. Qed.

Lemma spoken_resetSilenceTimer s : spoken_of (resetSilenceTimer s) = spoken_of s.
Proof. rewrite resetSilenceTimer_flat. reflexivity. Qed.

Lemma spoken_doSubmit s : spoken_of (doSubmit s) = spoken_of s.
Proof.
  unfold doSubmit. destruct (isSubmittingRef (refs s)); [reflexivity|].
  destruct (falsy _); cbv zeta; rewrite cleanupRecording_flat; reflexivity.
Qed.

Lemma spoken_silenceTimeout_callback s :
  spoken_of (silenceTimeout_callback s) = spoken_of s.
Proof.
  unfold silenceTimeout_callback.
  destruct (speechSynthesis_speaking s); [apply spoken_resetSilenceTimer|].
  destruct (_ && _); [apply spoken_doSubmit | reflexivity].
Qed.

Lemma spoken_countdown_callback s :
  spoken_of (countdown_callback s) = spoken_of s.
Proof.
  unfold countdown_callback. cbv zeta.
  destruct (_ <=? _)%Z; [|reflexivity].
  destruct (negb _); [|reflexivity].
  change (spoken_of (setTimer 0 (doSubmit s))) with (spoken_of (doSubmit s)).
  apply spoken_doSubmit.
Qed.

Lemma spoken_recognition_onresult c e s :
  spoken_of (recognition_onresult c e s) = spoken_of s.
Proof.
  unfold recognition_onresult.
  destruct (Store.get c _); [|reflexivity].
  destruct (for_results _ _ _ _). cbv zeta.
  now rewrite spoken_resetSilenceTimer.
Qed.

Lemma spoken_recognition_onerror err s :
  spoken_of (recognition_onerror err s) = spoken_of s.
Proof. unfold recognition_onerror. destruct (_ && _); reflexivity. Qed.

Lemma spoken_recognition_onend c s :
  spoken_of (recognition_onend c s) = spoken_of s.
Proof.
  unfold recognition_onend.
  destruct (_ && _); [|reflexivity].
  destruct (has_SR _); [|reflexivity].
  destruct (Store.get c _); reflexivity.
Qed.

Lemma spoken_startListeningFn s : spoken_of (startListeningFn s) = spoken_of s.
Proof.
  unfold startListeningFn. destruct (has_SR (host s)); cbn [negb]; [|reflexivity].
  rewrite cleanupRecording_flat. reflexivity.
Qed.

Lemma no_final_spoken s s' : spoken_of s' = spoken_of s -> no_final s -> no_final s'.
Proof.
  unfold spoken_of, no_final. intros H. inversion H as [[H1 H2]].
  now rewrite H1, H2.
Qed.

Lemma no_final_resume_speak k s :
  is_final_kont k = false -> no_final s -> no_final (resume_speak k s).
Proof.
  destruct k; cbn [resume_speak is_final_kont]; intros Hk H; try discriminate.
  - destruct (cancelled (host s)); [exact H|].
    eapply no_final_spoken; [apply spoken_startListeningFn | exact H].
  - eapply no_final_spoken; [apply spoken_startListeningFn | exact H].
Qed.

Lemma no_final_speakQuestion text k s :
  is_final_kont k = false -> no_final s -> no_final (speakQuestion text k s).
Proof.
  intros Hk H. unfold speakQuestion. destruct (has_synth (host s)); cbn [negb].
  - destruct H as [H1 H2]. split; [exact H1|]. cbn.
    apply Forall_app. split; [exact H2|]. now constructor.
  - now apply no_final_resume_speak.
Qed.

Lemma no_final_run_callback cb s : no_final s -> no_final (run_callback cb s).
Proof.
  intros H. destruct cb; cbn [run_callback].
  - unfold init_after_delay. destruct (cancelled (host s)); [exact H|].
    apply no_final_speakQuestion; [reflexivity | exact H].
  - eapply no_final_spoken; [apply spoken_silenceTimeout_callback | exact H].
  - unfold restart_callback.
    eapply no_final_spoken; [apply spoken_startListeningFn | exact H].
Qed.

Lemma no_final_step e s :
  carries_final_report e = false -> no_final s -> no_final (step e s).
Proof.
  intros He H. destruct e; cbn [step].
  - destruct (find_timeout id s); [|exact H].
    apply no_final_run_callback.
    eapply no_final_spoken; [|exact H]. reflexivity.
  - destruct (find_interval id s); [|exact H].
    eapply no_final_spoken; [apply spoken_countdown_callback | exact H].
  - destruct (Store.get r _) as [o|]; [|exact H].
    destruct (rec_state o), (onresult o); try exact H.
    eapply no_final_spoken; [apply spoken_recognition_onresult | exact H].
  - destruct (Store.get r _) as [o|]; [|exact H].
    destruct (rec_state o), (onerror o); try exact H;
      (eapply no_final_spoken; [apply spoken_recognition_onerror | exact H]).
  - destruct (Store.get r _) as [o|]; [|exact H].
    destruct (rec_state o); try exact H;
      (destruct (onend o);
       [eapply no_final_spoken; [rewrite spoken_recognition_onend; reflexivity | exact H]
       |eapply no_final_spoken; [reflexivity | exact H]]).
  - exact H.
  - destruct (Store.get u _); [|exact H].
    eapply no_final_spoken; [reflexivity | exact H].
  - destruct (Store.get u _) as [[text k]|] eqn:E; [|exact H].
    destruct H as [H1 H2].
    assert (Hk : is_final_kont k = false).
    { apply get_In in E. rewrite Forall_forall in H2. exact (H2 _ E). }
    apply no_final_resume_speak; [exact Hk|].
    split; [exact H1|]. cbn. now apply Forall_remove.
  - destruct (Store.get p _) as [k|]; [|exact H].
    assert (H' : no_final (set_inflight (Store.remove p (inflight (host s))) s))
      by (eapply no_final_spoken; [reflexivity | exact H]).
    destruct reply as [data|message]; cbn [resume_submit].
    + cbn [carries_final_report] in He.
      destruct (truthy (final_report data)); [discriminate|]. cbv zeta.
      apply no_final_speakQuestion; [reflexivity|].
      eapply no_final_spoken; [reflexivity | exact H'].
    + eapply no_final_spoken; [reflexivity | exact H'].
  - destruct (_ && _); [|exact H]. unfold handleDoneClick.
    destruct (negb _); [|exact H].
    eapply no_final_spoken; [apply spoken_doSubmit | exact H].
  - destruct (mounted s); [|exact H]. unfold unmount.
    eapply no_final_spoken; [rewrite spoken_cleanupRecording; reflexivity | exact H].
Qed.

End SpokenFrame.

(** ** Turn numbers over whole sessions *)

Section Sessions.

Lemma run_cons e es s : run (e :: es) s = run es (step e s).
Proof. reflexivity. Qed.

Lemma run_app es1 es2 s : run (es1 ++ es2)%list s = run es2 (run es1 s).
Proof. unfold run. apply fold_left_app. Qed.

Lemma run_invariant (I : State -> Prop) (ok : Event -> Prop) :
  (forall e s, ok e -> I s -> I (step e s)) ->
  forall es s, Forall ok es -> I s -> I (run es s).
Proof.
  intros Hstep. induction es as [|e es IH]; intros s Hes Hs; [exact Hs|].
  inversion Hes; subst. rewrite run_cons. apply IH; [assumption|].
  now apply Hstep.
Qed.

Lemma turn_in_range_step e s :
  count_in_range e -> turn_in_range s -> turn_in_range (step e s).
Proof.
  intros He Hs. unfold turn_in_range in *.
  destruct e as [| | | | | | | |p reply| |];
    try (rewrite turn_step by discriminate; exact Hs).
  cbn [step]. destruct (Store.get p _) as [k|]; [|exact Hs].
  destruct reply as [data|message].
  - destruct (truthy (final_report data)) as [report|] eqn:E.
    + rewrite (turn_resume_submit_final _ _ report) by exact E. exact Hs.
    + rewrite turn_resume_submit_next by exact E. cbn.
      cbn in He. specialize (He E).
      rewrite js_add_exact by (unfold TOTAL_QUESTIONS in He; cbn; lia).
      split; [lia | reflexivity].
  - rewrite turn_resume_submit_rejected. exact Hs.
Qed.

Lemma turn_in_range_mount p sr synth : turn_in_range (mount p sr synth).
Proof.
  unfold turn_in_range, mount. destruct sr; cbn; (split; [|reflexivity]);
    unfold TOTAL_QUESTIONS; lia.
Qed.

Lemma no_final_mount p sr synth : no_final (mount p sr synth).
Proof. unfold no_final, mount. destruct sr; cbn; split; constructor. Qed.

End Sessions.

(** C9, as the code has it.  The turn number is 1-based: it starts at 1 in
    the ref and in the displayed state.  A reply that carries the next
    question sets the ref to the question count the service reports plus
    one, added as JavaScript adds numbers; the displayed number is set to
    the same value, which React holds while the component is mounted.  For
    a count below 2 ^ 52 in absolute value the sum is exactly the count
    plus one.  So in every session in which the service reports counts
    between 0 and [TOTAL_QUESTIONS - 1] the number in the ref stays within
    1 .. [TOTAL_QUESTIONS], and the displayed number equals it while the
    component is mounted.  The loop goes on until the service returns a
    final report: as long as no reply carries one the completion callback
    has not run. *)
Theorem turn_number_follows_service :
  forall p sr synth es,
    let s0 := mount p sr synth in
    let s := run es s0 in
    (questionNumberRef (refs s0) = 1%Z /\ questionNumber (view s0) = 1%Z) /\
    (forall k data,
       truthy (final_report data) = None ->
       let s' := resume_submit k (Resolved data) s in
       questionNumberRef (refs s') = js_add (question_count data) 1 /\
       (mounted s' = true ->
        questionNumber (view s') = js_add (question_count data) 1) /\
       ((Z.abs (question_count data) < 2 ^ 52)%Z ->
        js_add (question_count data) 1 = (question_count data + 1)%Z)) /\
    (Forall count_in_range es ->
       (1 <= questionNumberRef (refs s) <= TOTAL_QUESTIONS)%Z /\
       (mounted s = true ->
        questionNumber (view s) = questionNumberRef (refs s))) /\
    (Forall (fun e => carries_final_report e = false) es ->
       completed (host s) = []).
Proof.
  intros p sr synth es s0 s. subst s s0.
  split; [unfold mount; destruct sr; split; reflexivity|].
  split; [|split].
  - intros k data H. cbv zeta.
    pose proof (turn_resume_submit_next k data (run es (mount p sr synth)) H) as E.
    split; [exact (f_equal turn_numberRef E)|].
    split; [intros _; exact (f_equal turn_number E)|].
    intros Hc. apply js_add_exact; [exact Hc | reflexivity].
  - intros H.
    destruct (run_invariant turn_in_range count_in_range turn_in_range_step
                es _ H (turn_in_range_mount p sr synth)) as [Hr He].
    cbn [turn_of turn_number turn_numberRef] in Hr, He.
    split; [rewrite He; exact Hr | intros _; symmetry; exact He].
  - intros H.
    apply (run_invariant no_final _ no_final_step es _ H (no_final_mount p sr synth)).
Qed.

(** ** Identifiers are never reused

Every identifier held by the browser lies below the counter from which
the next one is drawn.  This holds when the component is mounted and is
kept by every event, so that a newly drawn identifier names nothing
yet. *)

Section Freshness.

Lemma Forall_lt_le {A} (f : A -> nat) n m l :
  n <= m -> Forall (fun x => f x < n) l -> Forall (fun x => f x < m) l.
Proof. intros Hle. apply Forall_impl. intros a Ha. lia. Qed.

Lemma Forall_filter_keep {A} (P : A -> Prop) g l :
  Forall P l -> Forall P (filter g l).
Proof.
  induction 1 as [|x l Hx Hl IH]; simpl; [constructor|].
  destruct (g x); [now constructor | exact IH].
Qed.

Lemma ids_below_le n m h : n <= m -> ids_below n h -> ids_below m h.
Proof.
  intros Hle (H1 & H2 & H3 & H4 & H5 & H6).
  repeat split; eapply Forall_lt_le; eassumption.
Qed.

Ltac fresh_tac :=
  unfold ids_fresh, ids_below in *; cbn in *; intuition idtac;
  repeat first
    [ apply Forall_nil
    | apply Forall_app; split
    | apply Forall_cons
    | apply Forall_filter_keep
    | apply Forall_update
    | apply Forall_remove
    | apply Forall_put
    | (eapply Forall_lt_le; [|eassumption]; lia)
    | cbn; lia ].

Lemma fresh_fresh s : ids_fresh s -> ids_fresh (snd (fresh s)).
Proof. intros H. fresh_tac. Qed.

Lemma fresh_setTimeout cb d s : ids_fresh s -> ids_fresh (snd (setTimeout cb d s)).
Proof. intros H. fresh_tac. Qed.

Lemma fresh_setInterval d s : ids_fresh s -> ids_fresh (snd (setInterval d s)).
Proof. intros H. fresh_tac. Qed.

Lemma fresh_clearTimeout id s : ids_fresh s -> ids_fresh (clearTimeout id s).
Proof. intros H. fresh_tac. Qed.

Lemma fresh_clearInterval id s : ids_fresh s -> ids_fresh (clearInterval id s).
Proof. intros H. fresh_tac. Qed.

Lemma fresh_new_SpeechRecognition s :
  ids_fresh s -> ids_fresh (snd (new_SpeechRecognition s)).
Proof. intros H. fresh_tac. Qed.

Lemma fresh_update_recognition id f s :
  ids_fresh s -> ids_fresh (update_recognition id f s).
Proof. intros H. fresh_tac. Qed.

Lemma fresh_submitAnswer req k s : ids_fresh s -> ids_fresh (submitAnswer req k s).
Proof. intros H. fresh_tac. Qed.

Lemma fresh_cleanupRecording s : ids_fresh s -> ids_fresh (cleanupRecording s).
Proof.
  intros H. rewrite cleanupRecording_flat.
  unfold without_timeout, without_interval, with_aborted.
  destruct (recognitionRef (refs s)), (timerIntervalRef (refs s)),
    (silenceTimeoutRef (refs s)); fresh_tac.
Qed.

Lemma fresh_resetSilenceTimer s : ids_fresh s -> ids_fresh (resetSilenceTimer s).
Proof.
  intros H. rewrite resetSilenceTimer_flat. unfold without_timeout.
  destruct (silenceTimeoutRef (refs s)); fresh_tac.
Qed.

Lemma fresh_doSubmit s : ids_fresh s -> ids_fresh (doSubmit s).
Proof.
  intros H. unfold doSubmit. destruct (isSubmittingRef (refs s)); [exact H|].
  destruct (falsy _); cbv zeta.
  - apply fresh_setTimeout, fresh_cleanupRecording. exact H.
  - apply fresh_submitAnswer.
    change (ids_fresh (cleanupRecording (set_isSubmittingRef true s))).
    apply fresh_cleanupRecording. exact H.
Qed.

Lemma fresh_silenceTimeout_callback s :
  ids_fresh s -> ids_fresh (silenceTimeout_callback s).
Proof.
  intros H. unfold silenceTimeout_callback.
  destruct (speechSynthesis_speaking s); [now apply fresh_resetSilenceTimer|].
  destruct (_ && _); [now apply fresh_doSubmit | exact H].
Qed.

Lemma fresh_countdown_callback s : ids_fresh s -> ids_fresh (countdown_callback s).
Proof.
  intros H. unfold countdown_callback. cbv zeta.
  destruct (_ <=? _)%Z; [|exact H].
  destruct (negb _); [|exact H].
  change (ids_fresh (doSubmit s)). now apply fresh_doSubmit.
Qed.

Lemma fresh_recognition_onresult c e s :
  ids_fresh s -> ids_fresh (recognition_onresult c e s).
Proof.
  intros H. unfold recognition_onresult.
  destruct (Store.get c _) eqn:E; [|exact H].
  destruct (for_results _ _ _ _). cbv zeta.
  apply fresh_resetSilenceTimer.
  assert (c < next_id (host s)).
  { destruct H as (_ & _ & _ & H4 & _). eapply get_below; eassumption. }
  fresh_tac.
Qed.

Lemma fresh_recognition_onerror err s :
  ids_fresh s -> ids_fresh (recognition_onerror err s).
Proof. intros H. unfold recognition_onerror. destruct (_ && _); exact H. Qed.

Lemma fresh_recognition_onend c s :
  ids_fresh s -> ids_fresh (recognition_onend c s).
Proof.
  intros H. unfold recognition_onend.
  destruct (_ && _); [|exact H].
  destruct (has_SR _); [|exact H].
  destruct (Store.get c _); [|exact H].
  fresh_tac.
Qed.

Lemma fresh_startListeningFn s : ids_fresh s -> ids_fresh (startListeningFn s).
Proof.
  intros H. unfold startListeningFn.
  destruct (has_SR (host s)); cbn [negb]; [|exact H].
  apply fresh_cleanupRecording in H. revert H.
  generalize (cleanupRecording s) as s1. intros s1 H.
  destruct s1 as [? [] [] []]. destruct silenceTimeoutRef0; fresh_tac.
Qed.

Lemma fresh_resume_speak k s : ids_fresh s -> ids_fresh (resume_speak k s).
Proof.
  intros H. destruct k; cbn [resume_speak].
  - destruct (cancelled (host s)); [exact H | now apply fresh_startListeningFn].
  - exact H.
  - now apply fresh_startListeningFn.
Qed.

Lemma fresh_speakQuestion text k s :
  ids_fresh s -> ids_fresh (speakQuestion text k s).
Proof.
  intros H. unfold speakQuestion. destruct (has_synth (host s)); cbn [negb].
  - fresh_tac.
  - now apply fresh_resume_speak.
Qed.

Lemma fresh_resume_submit k reply s :
  ids_fresh s -> ids_fresh (resume_submit k reply s).
Proof.
  intros H. destruct reply as [data|message]; cbn [resume_submit]; [|exact H].
  destruct (truthy (final_report data)); [now apply fresh_speakQuestion|].
  cbv zeta. apply fresh_speakQuestion. exact H.
Qed.

Lemma fresh_run_callback cb s : ids_fresh s -> ids_fresh (run_callback cb s).
Proof.
  intros H. destruct cb; cbn [run_callback].
  - unfold init_after_delay. destruct (cancelled (host s)); [exact H|].
    apply fresh_speakQuestion. exact H.
  - now apply fresh_silenceTimeout_callback.
  - unfold restart_callback. apply fresh_startListeningFn. exact H.
Qed.

Lemma fresh_step e s : ids_fresh s -> ids_fresh (step e s).
Proof.
  intros H. destruct e; cbn [step].
  - destruct (find_timeout id s); [|exact H].
    now apply fresh_run_callback, fresh_clearTimeout.
  - destruct (find_interval id s); [|exact H].
    now apply fresh_countdown_callback.
  - destruct (Store.get r _) as [o|]; [|exact H].
    destruct (rec_state o), (onresult o); try exact H.
    now apply fresh_recognition_onresult.
  - destruct (Store.get r _) as [o|]; [|exact H].
    destruct (rec_state o), (onerror o); try exact H;
      now apply fresh_recognition_onerror.
  - destruct (Store.get r _) as [o|]; [|exact H].
    destruct (rec_state o); try exact H;
      (destruct (onend o);
       [apply fresh_recognition_onend|]; now apply fresh_update_recognition).
  - exact H.
  - destruct (Store.get u _); exact H.
  - destruct (Store.get u _) as [[text k]|]; [|exact H].
    apply fresh_resume_speak. fresh_tac.
  - destruct (Store.get p _) as [k|]; [|exact H].
    apply fresh_resume_submit. fresh_tac.
  - destruct (_ && _); [|exact H]. unfold handleDoneClick.
    destruct (negb _); [now apply fresh_doSubmit | exact H].
  - destruct (mounted s); [|exact H]. unfold unmount.
    change (ids_fresh (cleanupRecording (set_cancelled true s))).
    apply fresh_cleanupRecording. exact H.
Qed.

Lemma fresh_mount p sr synth : ids_fresh (mount p sr synth).
Proof. unfold mount. destruct sr; fresh_tac. Qed.

(** Every state of every session has fresh identifiers. *)
Lemma fresh_run es : forall s, ids_fresh s -> ids_fresh (run es s).
Proof.
  intros s. apply (run_invariant ids_fresh (fun _ => True)).
  - intros e s' _. apply fresh_step.
  - now apply Forall_forall.
Qed.

End Freshness.

(** ** What only [doSubmit] and a reply may change: the calls to the service *)

Section PostedFrame.

Lemma posted_cleanupRecording s : posted_of (cleanupRecording s) = posted_of s.
Proof. rewrite cleanupRecording_flat. reflexivity. Qed.

Lemma posted_resetSilenceTimer s : posted_of (resetSilenceTimer s) = posted_of s.
Proof. rewrite resetSilenceTimer_flat. reflexivity. Qed.

Lemma posted_startListeningFn s : posted_of (startListeningFn s) = posted_of s.
Proof.
  unfold startListeningFn. destruct (has_SR (host s)); cbn [negb]; [|reflexivity].
  rewrite cleanupRecording_flat. reflexivity.
Qed.

Lemma posted_recognition_onresult c e s :
  posted_of (recognition_onresult c e s) = posted_of s.
Proof.
  unfold recognition_onresult.
  destruct (Store.get c _); [|reflexivity].
  destruct (for_results _ _ _ _). cbv zeta.
  now rewrite posted_resetSilenceTimer.
Qed.

Lemma posted_recognition_onerror err s :
  posted_of (recognition_onerror err s) = posted_of s.
Proof. unfold recognition_onerror. destruct (_ && _); reflexivity. Qed.

Lemma posted_recognition_onend c s :
  posted_of (recognition_onend c s) = posted_of s.
Proof.
  unfold recognition_onend.
  destruct (_ && _); [|reflexivity].
  destruct (has_SR _); [|reflexivity].
  destruct (Store.get c _); reflexivity.
Qed.

Lemma posted_doSubmit_false_start s :
  isSubmittingRef (refs s) = false ->
  trim (transcriptRef (refs s)) = "" ->
  posted_of (doSubmit s) = posted_of s.
Proof.
  intros H1 H2. rewrite doSubmit_false_start by assumption.
  rewrite cleanupRecording_flat. reflexivity.
Qed.

End PostedFrame.

(** ** What the browser supports *)

Section BrowserFrame.

Lemma browser_cleanupRecording s : browser_of (cleanupRecording s) = browser_of s.
Proof. rewrite cleanupRecording_flat. reflexivity. Qed.

Lemma browser_resetSilenceTimer s : browser_of (resetSilenceTimer s) = browser_of s.
Proof. rewrite resetSilenceTimer_flat. reflexivity. Qed.

Lemma browser_startListeningFn s : browser_of (startListeningFn s) = browser_of s.
Proof.
  unfold startListeningFn. destruct (has_SR (host s)) eqn:E; cbn [negb]; [|reflexivity].
  rewrite cleanupRecording_flat. reflexivity.
Qed.

Lemma browser_doSubmit s : browser_of (doSubmit s) = browser_of s.
Proof.
  unfold doSubmit. destruct (isSubmittingRef (refs s)); [reflexivity|].
  destruct (falsy _); cbv zeta.
  - change (browser_of (cleanupRecording (setError msg_no_speech s)) = browser_of s).
    now rewrite browser_cleanupRecording.
  - change (browser_of (cleanupRecording (set_isSubmittingRef true s)) = browser_of s).
    now rewrite browser_cleanupRecording.
Qed.

Lemma browser_silenceTimeout_callback s :
  browser_of (silenceTimeout_callback s) = browser_of s.
Proof.
  unfold silenceTimeout_callback.
  destruct (speechSynthesis_speaking s); [apply browser_resetSilenceTimer|].
  destruct (_ && _); [apply browser_doSubmit | reflexivity].
Qed.

Lemma browser_countdown_callback s :
  browser_of (countdown_callback s) = browser_of s.
Proof.
  unfold countdown_callback. cbv zeta.
  destruct (_ <=? _)%Z; [|reflexivity].
  destruct (negb _); [|reflexivity].
  change (browser_of (doSubmit s) = browser_of s). apply browser_doSubmit.
Qed.

Lemma browser_recognition_onresult c e s :
  browser_of (recognition_onresult c e s) = browser_of s.
Proof.
  unfold recognition_onresult.
  destruct (Store.get c _); [|reflexivity].
  destruct (for_results _ _ _ _). cbv zeta.
  now rewrite browser_resetSilenceTimer.
Qed.

Lemma browser_recognition_onerror err s :
  browser_of (recognition_onerror err s) = browser_of s.
Proof. unfold recognition_onerror. destruct (_ && _); reflexivity. Qed.

Lemma browser_recognition_onend c s :
  browser_of (recognition_onend c s) = browser_of s.
Proof.
  unfold recognition_onend.
  destruct (_ && _); [|reflexivity].
  destruct (has_SR _) eqn:E; [|reflexivity].
  destruct (Store.get c _); reflexivity.
Qed.

Lemma browser_resume_speak k s : browser_of (resume_speak k s) = browser_of s.
Proof.
  destruct k; cbn [resume_speak].
  - destruct (cancelled (host s)); [reflexivity | apply browser_startListeningFn].
  - reflexivity.
  - apply browser_startListeningFn.
Qed.

Lemma browser_speakQuestion text k s :
  browser_of (speakQuestion text k s) = browser_of s.
Proof.
  unfold speakQuestion. destruct (has_synth (host s)) eqn:E; cbn [negb].
  - reflexivity.
  - apply browser_resume_speak.
Qed.

Lemma browser_resume_submit k reply s :
  browser_of (resume_submit k reply s) = browser_of s.
Proof.
  destruct reply as [data|message]; cbn [resume_submit]; [|reflexivity].
  destruct (truthy (final_report data)); [apply browser_speakQuestion|].
  cbv zeta. now rewrite browser_speakQuestion.
Qed.

Lemma browser_run_callback cb s : browser_of (run_callback cb s) = browser_of s.
Proof.
  destruct cb; cbn [run_callback].
  - unfold init_after_delay. destruct (cancelled (host s)); [reflexivity|].
    now rewrite browser_speakQuestion.
  - apply browser_silenceTimeout_callback.
  - unfold restart_callback. now rewrite browser_startListeningFn.
Qed.

(** No event changes what the browser supports. *)
Lemma browser_step e s : browser_of (step e s) = browser_of s.
Proof.
  destruct e; cbn [step].
  - destruct (find_timeout id s); [|reflexivity]. now rewrite browser_run_callback.
  - destruct (find_interval id s); [|reflexivity]. apply browser_countdown_callback.
  - destruct (Store.get r _) as [o|]; [|reflexivity].
    destruct (rec_state o), (onresult o); try reflexivity.
    apply browser_recognition_onresult.
  - destruct (Store.get r _) as [o|]; [|reflexivity].
    destruct (rec_state o), (onerror o); try reflexivity;
      apply browser_recognition_onerror.
  - destruct (Store.get r _) as [o|]; [|reflexivity].
    destruct (rec_state o), (onend o); try reflexivity;
      now rewrite browser_recognition_onend.
  - reflexivity.
  - destruct (Store.get u _); reflexivity.
  - destruct (Store.get u _) as [[text k]|]; [|reflexivity].
    now rewrite browser_resume_speak.
  - destruct (Store.get p _) as [k|]; [|reflexivity].
    now rewrite browser_resume_submit.
  - destruct (_ && _); [|reflexivity]. unfold handleDoneClick.
    destruct (negb _); [apply browser_doSubmit | reflexivity].
  - destruct (mounted s); [|reflexivity]. unfold unmount.
    change (browser_of (cleanupRecording (set_cancelled true s)) = browser_of s).
    now rewrite browser_cleanupRecording.
Qed.

Lemma browser_run es : forall s, browser_of (run es s) = browser_of s.
Proof.
  induction es as [|e es IH]; intros s; [reflexivity|].
  rewrite run_cons, IH. apply browser_step.
Qed.

Lemma browser_mount p sr synth : browser_of (mount p sr synth) = (sr, synth).
Proof. unfold mount. destruct sr; reflexivity. Qed.

End BrowserFrame.

(** ** Pending timers *)

Section Timers.

Lemma find_app_none {A} (f : A -> bool) l1 l2 :
  find f l1 = None -> find f (l1 ++ l2)%list = find f l2.
Proof.
  induction l1 as [|x l1 IH]; simpl; [reflexivity|].
  destruct (f x); [discriminate | exact IH].
Qed.

Lemma find_timeout_below n (l : list Timeout) :
  Forall (fun t => t_id t < n) l ->
  find (fun t => Nat.eqb (t_id t) n) l = None.
Proof.
  induction 1 as [|x l Hx Hl IH]; simpl; [reflexivity|].
  destruct (Nat.eqb (t_id x) n) eqn:E; [|exact IH].
  apply Nat.eqb_eq in E. lia.
Qed.

Lemma find_interval_below n (l : list Interval) :
  Forall (fun i => i_id i < n) l ->
  find (fun i => Nat.eqb (i_id i) n) l = None.
Proof.
  induction 1 as [|x l Hx Hl IH]; simpl; [reflexivity|].
  destruct (Nat.eqb (i_id x) n) eqn:E; [|exact IH].
  apply Nat.eqb_eq in E. lia.
Qed.

Lemma find_timeout_cleared id (l : list Timeout) :
  find (fun t => Nat.eqb (t_id t) id)
    (filter (fun t => negb (Nat.eqb (t_id t) id)) l) = None.
Proof.
  induction l as [|x l IH]; simpl; [reflexivity|].
  destruct (Nat.eqb (t_id x) id) eqn:E; simpl; [exact IH|].
  now rewrite E.
Qed.

Lemma find_interval_cleared id (l : list Interval) :
  find (fun i => Nat.eqb (i_id i) id)
    (filter (fun i => negb (Nat.eqb (i_id i) id)) l) = None.
Proof.
  induction l as [|x l IH]; simpl; [reflexivity|].
  destruct (Nat.eqb (i_id x) id) eqn:E; simpl; [exact IH|].
  now rewrite E.
Qed.

Lemma find_filter_none {A} (f g : A -> bool) l :
  find f l = None -> find f (filter g l) = None.
Proof.
  induction l as [|x l IH]; simpl; [reflexivity|].
  destruct (f x) eqn:E; [discriminate|]. intros H.
  destruct (g x); simpl; [rewrite E|]; now apply IH.
Qed.

Lemma find_without_timeout f o l :
  find f l = None -> find f (without_timeout o l) = None.
Proof. destruct o; simpl; [apply find_filter_none | trivial]. Qed.

Lemma find_timeout_some_below n id t (l : list Timeout) :
  Forall (fun t => t_id t < n) l ->
  find (fun t => Nat.eqb (t_id t) id) l = Some t -> id < n.
Proof.
  intros Hl Hf. apply find_some in Hf. destruct Hf as [Hin E].
  apply Nat.eqb_eq in E. rewrite Forall_forall in Hl.
  specialize (Hl _ Hin). lia.
Qed.

End Timers.

(** C2.  In a listening phase, when the silence timer fires while the speech
    synthesiser reports that it is speaking, nothing is submitted: no request
    is sent and none becomes pending.  The fired timer is replaced by a new
    one that runs for the full [SILENCE_TIMEOUT_MS] and that the ref now
    holds.  Everything else stays as it was: the displayed state (the status
    with it), the other refs, the recognition objects and the countdown. *)
Theorem silence_timer_defers_while_speaking :
  forall s id t,
    ids_fresh s ->
    find_timeout id s = Some t ->
    t_cb t = CbSilence ->
    speechSynthesis_speaking s = true ->
    let s' := step (TimeoutFires id) s in
    let n := next_id (host s) in
    posted_of s' = posted_of s /\
    silenceTimeoutRef (refs s') = Some n /\
    find_timeout n s' =
      Some {| t_id := n; t_delay := SILENCE_TIMEOUT_MS; t_cb := CbSilence |} /\
    find_timeout id s' = None /\
    view s' = view s /\
    refs s' = refs (set_silenceTimeoutRef (Some n) s) /\
    recognizers (host s') = recognizers (host s) /\
    intervals (host s') = intervals (host s).
Proof.
  intros s id t Hfresh Hfind Hcb Hspeak s' n. subst s'.
  cbn [step]. rewrite Hfind, Hcb. cbn [run_callback].
  rewrite silenceTimeout_callback_speaking by exact Hspeak.
  rewrite resetSilenceTimer_flat.
  destruct Hfresh as (Ht & _).
  assert (Hid : id < n) by (eapply find_timeout_some_below; eassumption).
  unfold find_timeout. cbn.
  repeat split.
  - rewrite find_app_none.
    + cbn. now rewrite Nat.eqb_refl.
    + apply find_without_timeout, find_filter_none, find_timeout_below, Ht.
  - rewrite find_app_none.
    + cbn. fold n. destruct (Nat.eqb n id) eqn:E; [|reflexivity].
      apply Nat.eqb_eq in E. lia.
    + apply find_without_timeout, find_timeout_cleared.
Qed.

(** ** Self-healing of the capture *)

Section SelfHealing.

Lemma recognition_onend_restart c s a :
  shouldListenRef (refs s) = true ->
  isSubmittingRef (refs s) = false ->
  has_SR (host s) = true ->
  Store.get c (activations (host s)) = Some a ->
  let original := Store.get (recognition a) (recognizers (host s)) in
  let n := next_id (host s) in
  recognition_onend c s =
  rec_start n
    (set_recognitionRef (Some n)
       (configure n (handler_of onresult original) (handler_of onerror original)
          (handler_of onend original) (snd (new_SpeechRecognition s)))).
Proof.
  intros H1 H2 H3 H4. unfold recognition_onend.
  rewrite H1, H2, H3, H4. reflexivity.
Qed.

Lemma recognition_onend_intentional c s :
  shouldListenRef (refs s) = false \/ isSubmittingRef (refs s) = true ->
  recognition_onend c s = s.
Proof.
  intros [H|H]; unfold recognition_onend; rewrite H; [reflexivity|].
  now rewrite andb_false_r.
Qed.

(** Marking an object as ended does not change anybody's handlers. *)
Lemma handler_of_after_end proj r k l o0 :
  (forall st o, proj (set_rec_state st o) = proj o) ->
  Store.get k l = Some o0 ->
  handler_of proj (Store.get k (Store.update r (set_rec_state RecEnded) l)) =
  proj o0.
Proof.
  intros Hproj H. destruct (Nat.eq_dec k r) as [->|Hne].
  - rewrite get_update_same, H. cbn. apply Hproj.
  - rewrite get_update_other by exact Hne. now rewrite H.
Qed.

End SelfHealing.

(** ** Well-formed capture *)

Section CaptureWf.

Lemma get_installed_same n h1 h2 h3 l :
  Store.get n (installed n h1 h2 h3 l) =
  Some {| continuous := true; interimResults := true; lang := "en-US";
          onresult := h1; onerror := h2; onend := h3; rec_state := RecStarted |}.
Proof.
  unfold installed. now rewrite !get_update_same, get_put_same.
Qed.

Lemma get_installed_other n h1 h2 h3 l k :
  k <> n -> Store.get k (installed n h1 h2 h3 l) = Store.get k l.
Proof.
  intros Hne. unfold installed.
  now rewrite !get_update_other, get_put_other by exact Hne.
Qed.

Lemma wf_ext s s' : engine_of s' = engine_of s -> capture_wf s -> capture_wf s'.
Proof.
  unfold engine_of, capture_wf. intros E. inversion E as [[E1 E2]].
  now rewrite E1, E2.
Qed.

Lemma keeps_set_rec_state st : keeps_handlers (set_rec_state st).
Proof. intros o. repeat split. Qed.

Lemma keeps_aborted : keeps_handlers aborted.
Proof. intros o. unfold aborted. destruct (rec_state o); repeat split. Qed.

Lemma handlers_are_keeps f c o :
  keeps_handlers f -> handlers_are c o -> handlers_are c (f o).
Proof.
  intros Hf (H1 & H2 & H3). destruct (Hf o) as (K1 & K2 & K3).
  unfold handlers_are. now rewrite K1, K2, K3.
Qed.

Lemma handlers_are_keeps_inv f c o :
  keeps_handlers f -> handlers_are c (f o) -> handlers_are c o.
Proof.
  intros Hf (H1 & H2 & H3). destruct (Hf o) as (K1 & K2 & K3).
  unfold handlers_are. now rewrite <- K1, <- K2, <- K3.
Qed.

(** An update that keeps handlers shows every object with the handlers it
    had. *)
Lemma get_update_keeps r f l k o :
  keeps_handlers f ->
  Store.get k (Store.update r f l) = Some o ->
  exists o', Store.get k l = Some o' /\
             (forall c, handlers_are c o' <-> handlers_are c o) /\
             onend o' = onend o.
Proof.
  intros Hf H. destruct (Nat.eq_dec k r) as [->|Hne].
  - rewrite get_update_same in H. destruct (Store.get r l) as [o'|]; [|discriminate].
    inversion H; subst o. exists o'. split; [reflexivity|]. split.
    + intros c. split; [now apply handlers_are_keeps | now apply handlers_are_keeps_inv].
    + symmetry. apply Hf.
  - rewrite get_update_other in H by exact Hne. exists o.
    split; [exact H|]. split; [intros c; tauto | reflexivity].
Qed.

Lemma get_update_keeps_fwd r f l k o :
  keeps_handlers f ->
  Store.get k l = Some o ->
  exists o', Store.get k (Store.update r f l) = Some o' /\
             (forall c, handlers_are c o -> handlers_are c o').
Proof.
  intros Hf H. destruct (Nat.eq_dec k r) as [->|Hne].
  - rewrite get_update_same, H. exists (f o). split; [reflexivity|].
    intros c. now apply handlers_are_keeps.
  - rewrite get_update_other by exact Hne. exists o. auto.
Qed.

Lemma wf_update r f s :
  keeps_handlers f -> capture_wf s -> capture_wf (update_recognition r f s).
Proof.
  intros Hf H k o Hk.
  change (recognizers (host (update_recognition r f s)))
    with (Store.update r f (recognizers (host s))) in *.
  change (activations (host (update_recognition r f s)))
    with (activations (host s)).
  destruct (get_update_keeps _ _ _ _ _ Hf Hk) as (o' & Hk' & Hh & He).
  destruct (H k o' Hk') as (c & Ho' & a & o0 & Ha & Ho0 & Hh0).
  exists c. split; [now apply Hh|].
  destruct (get_update_keeps_fwd r f _ _ _ Hf Ho0) as (o0' & Ho0' & Hfw).
  exists a, o0'. repeat split; auto; now apply Hfw.
Qed.

Lemma wf_cleanupRecording s : capture_wf s -> capture_wf (cleanupRecording s).
Proof.
  intros H. rewrite cleanupRecording_flat. unfold with_aborted.
  destruct (recognitionRef (refs s)) as [r|].
  - apply (wf_ext (update_recognition r aborted s)); [reflexivity|].
    apply wf_update; [apply keeps_aborted | exact H].
  - eapply wf_ext; [|exact H]. reflexivity.
Qed.

Lemma wf_resetSilenceTimer s : capture_wf s -> capture_wf (resetSilenceTimer s).
Proof.
  intros H. rewrite resetSilenceTimer_flat. eapply wf_ext; [|exact H]. reflexivity.
Qed.

Lemma wf_doSubmit s : capture_wf s -> capture_wf (doSubmit s).
Proof.
  intros H. unfold doSubmit. destruct (isSubmittingRef (refs s)); [exact H|].
  destruct (falsy _); cbv zeta.
  - apply (wf_ext (cleanupRecording (setError msg_no_speech s))); [reflexivity|].
    apply wf_cleanupRecording. eapply wf_ext; [|exact H]. reflexivity.
  - apply (wf_ext (cleanupRecording (set_isSubmittingRef true s))); [reflexivity|].
    apply wf_cleanupRecording. eapply wf_ext; [|exact H]. reflexivity.
Qed.

Lemma wf_silenceTimeout_callback s :
  capture_wf s -> capture_wf (silenceTimeout_callback s).
Proof.
  intros H. unfold silenceTimeout_callback.
  destruct (speechSynthesis_speaking s); [now apply wf_resetSilenceTimer|].
  destruct (_ && _); [now apply wf_doSubmit | exact H].
Qed.

Lemma wf_countdown_callback s : capture_wf s -> capture_wf (countdown_callback s).
Proof.
  intros H. unfold countdown_callback. cbv zeta.
  destruct (_ <=? _)%Z; [|eapply wf_ext; [|exact H]; reflexivity].
  destruct (negb _); [|eapply wf_ext; [|exact H]; reflexivity].
  apply (wf_ext (doSubmit s)); [reflexivity | now apply wf_doSubmit].
Qed.

Lemma wf_recognition_onresult c e s :
  capture_wf s -> capture_wf (recognition_onresult c e s).
Proof.
  intros H. unfold recognition_onresult.
  destruct (Store.get c (activations (host s))) as [a|] eqn:Ea; [|exact H].
  destruct (for_results _ _ _ _) as [fin interim]. cbv zeta.
  apply wf_resetSilenceTimer.
  intros r o Hr.
  change (Store.get r (recognizers (host s)) = Some o) in Hr.
  destruct (H r o Hr) as (c' & Ho & a' & o0 & Ha' & Ho0 & Hh0).
  exists c'. split; [exact Ho|].
  destruct (Nat.eq_dec c' c) as [->|Hne].
  - rewrite Ea in Ha'. inversion Ha'; subst a'.
    exists {| finalTranscript := fin; recognition := recognition a |}, o0.
    split; [cbn; apply get_put_same|]. split; [exact Ho0 | exact Hh0].
  - exists a', o0. split; [cbn; now rewrite get_put_other|].
    split; [exact Ho0 | exact Hh0].
Qed.

Lemma wf_recognition_onerror err s :
  capture_wf s -> capture_wf (recognition_onerror err s).
Proof.
  intros H. unfold recognition_onerror. destruct (_ && _); [|exact H].
  eapply wf_ext; [|exact H]. reflexivity.
Qed.

Lemma engine_recognition_onend c s a :
  shouldListenRef (refs s) = true ->
  isSubmittingRef (refs s) = false ->
  has_SR (host s) = true ->
  Store.get c (activations (host s)) = Some a ->
  let original := Store.get (recognition a) (recognizers (host s)) in
  engine_of (recognition_onend c s) =
  (installed (next_id (host s)) (handler_of onresult original)
     (handler_of onerror original) (handler_of onend original)
     (recognizers (host s)),
   activations (host s)).
Proof.
  intros H1 H2 H3 H4. cbv zeta.
  now rewrite (recognition_onend_restart c s a) by assumption.
Qed.

Lemma engine_startListeningFn s :
  has_SR (host s) = true ->
  let n := next_id (host s) in
  engine_of (startListeningFn s) =
  (installed n (Some (S n)) (Some (S n)) (Some (S n))
     (recognizers (host (cleanupRecording s))),
   Store.put (S n) {| finalTranscript := ""; recognition := n |}
     (activations (host s))).
Proof.
  intros HSR. unfold startListeningFn. rewrite HSR. cbn [negb].
  rewrite cleanupRecording_flat. reflexivity.
Qed.

(** Adding a new object whose handlers belong to an activation that has its
    first object keeps the capture well formed. *)
Lemma wf_installed n c recs acts acts' :
  Forall (fun r => fst r < n) recs ->
  (forall r o, Store.get r recs = Some o -> wired recs acts o) ->
  (forall c' a, Store.get c' acts = Some a ->
                exists a', Store.get c' acts' = Some a' /\
                           recognition a' = recognition a) ->
  (exists a o0, Store.get c acts' = Some a /\
                Store.get (recognition a) (installed n (Some c) (Some c) (Some c) recs)
                  = Some o0 /\
                handlers_are c o0) ->
  forall r o,
    Store.get r (installed n (Some c) (Some c) (Some c) recs) = Some o ->
    wired (installed n (Some c) (Some c) (Some c) recs) acts' o.
Proof.
  intros Hbelow Hwf Hacts Hnew r o Hr.
  destruct (Nat.eq_dec r n) as [->|Hne].
  - rewrite get_installed_same in Hr. inversion Hr; subst o.
    exists c. split; [repeat split|]. exact Hnew.
  - rewrite get_installed_other in Hr by exact Hne.
    destruct (Hwf r o Hr) as (c' & Ho & a & o0 & Ha & Ho0 & Hh0).
    exists c'. split; [exact Ho|].
    destruct (Hacts c' a Ha) as (a' & Ha' & Hrec).
    exists a', o0. split; [exact Ha'|]. split; [|exact Hh0].
    rewrite Hrec. rewrite get_installed_other; [exact Ho0|].
    pose proof (get_below _ _ _ _ Hbelow Ho0). lia.
Qed.

Lemma wf_recognition_onend c s :
  ids_fresh s -> capture_wf s ->
  (exists r o, Store.get r (recognizers (host s)) = Some o /\ onend o = Some c) ->
  capture_wf (recognition_onend c s).
Proof.
  intros Hfresh H (r & o & Hr & Hend).
  destruct (H r o Hr) as (c0 & (_ & _ & Hend0) & a & o0 & Ha & Ho0 & Hh0).
  rewrite Hend in Hend0. inversion Hend0; subst c0.
  destruct (shouldListenRef (refs s)) eqn:E1;
    [|rewrite recognition_onend_intentional by (now left); exact H].
  destruct (isSubmittingRef (refs s)) eqn:E2;
    [rewrite recognition_onend_intentional by (now right); exact H|].
  destruct (has_SR (host s)) eqn:E3;
    [|unfold recognition_onend; rewrite E1, E2, E3; exact H].
  pose proof (engine_recognition_onend c s a E1 E2 E3 Ha) as E.
  cbv zeta in E. rewrite Ho0 in E. cbn [handler_of] in E.
  destruct Hh0 as (K1 & K2 & K3). rewrite K1, K2, K3 in E.
  unfold engine_of in E. inversion E as [[Er Ea]].
  intros r' o' Hr'. rewrite Er in Hr'. rewrite Er, Ea.
  assert (Hbelow : Forall (fun x => fst x < next_id (host s)) (recognizers (host s)))
    by apply Hfresh.
  refine (wf_installed (next_id (host s)) c (recognizers (host s))
            (activations (host s)) (activations (host s)) Hbelow H _ _
            r' o' Hr').
  - intros c2 a2 H2. now exists a2.
  - exists a, o0. split; [exact Ha|]. split; [|now repeat split].
    rewrite get_installed_other; [exact Ho0|].
    pose proof (get_below _ _ _ _ Hbelow Ho0). lia.
Qed.

Lemma wf_startListeningFn s :
  ids_fresh s -> capture_wf s -> capture_wf (startListeningFn s).
Proof.
  intros Hfresh H.
  destruct (has_SR (host s)) eqn:HSR;
    [|rewrite startListeningFn_unsupported by exact HSR;
      eapply wf_ext; [|exact H]; reflexivity].
  pose proof (engine_startListeningFn s HSR) as E. cbv zeta in E.
  unfold engine_of in E. inversion E as [[Er Ea]].
  pose proof (wf_cleanupRecording s H) as H1.
  pose proof (fresh_cleanupRecording s Hfresh) as F1.
  assert (Hacts : activations (host (cleanupRecording s)) = activations (host s))
    by now rewrite cleanupRecording_flat.
  assert (Hn : next_id (host (cleanupRecording s)) = next_id (host s))
    by apply next_id_cleanupRecording.
  assert (Hbelow : Forall (fun x => fst x < next_id (host s))
                     (recognizers (host (cleanupRecording s))))
    by (rewrite <- Hn; apply F1).
  assert (Habelow : Forall (fun x => fst x < next_id (host s)) (activations (host s)))
    by apply Hfresh.
  intros r' o' Hr'. rewrite Er in Hr'. rewrite Er, Ea.
  refine (wf_installed (next_id (host s)) (S (next_id (host s)))
            (recognizers (host (cleanupRecording s))) (activations (host s))
            _ Hbelow _ _ _ r' o' Hr').
  - intros r o Hr. specialize (H1 r o Hr). now rewrite Hacts in H1.
  - intros c2 a2 H2. exists a2. split; [|reflexivity].
    rewrite get_put_other; [exact H2|].
    pose proof (get_below _ _ _ _ Habelow H2). lia.
  - eexists _, _. split; [apply get_put_same|]. cbn [recognition].
    split; [apply get_installed_same | now repeat split].
Qed.

Lemma wf_resume_speak k s :
  ids_fresh s -> capture_wf s -> capture_wf (resume_speak k s).
Proof.
  intros F H. destruct k; cbn [resume_speak].
  - destruct (cancelled (host s)); [exact H | now apply wf_startListeningFn].
  - eapply wf_ext; [|exact H]. reflexivity.
  - now apply wf_startListeningFn.
Qed.

Lemma wf_speakQuestion text k s :
  ids_fresh s -> capture_wf s -> capture_wf (speakQuestion text k s).
Proof.
  intros F H. unfold speakQuestion. destruct (has_synth (host s)); cbn [negb].
  - eapply wf_ext; [|exact H]. reflexivity.
  - now apply wf_resume_speak.
Qed.

Lemma wf_resume_submit k reply s :
  ids_fresh s -> capture_wf s -> capture_wf (resume_submit k reply s).
Proof.
  intros F H. destruct reply as [data|message]; cbn [resume_submit].
  - destruct (truthy (final_report data)); [now apply wf_speakQuestion|].
    cbv zeta. apply wf_speakQuestion; [exact F|].
    eapply wf_ext; [|exact H]. reflexivity.
  - eapply wf_ext; [|exact H]. reflexivity.
Qed.

Lemma wf_run_callback cb s :
  ids_fresh s -> capture_wf s -> capture_wf (run_callback cb s).
Proof.
  intros F H. destruct cb; cbn [run_callback].
  - unfold init_after_delay. destruct (cancelled (host s)); [exact H|].
    apply wf_speakQuestion; [exact F|]. eapply wf_ext; [|exact H]. reflexivity.
  - now apply wf_silenceTimeout_callback.
  - unfold restart_callback. apply wf_startListeningFn; [exact F|].
    eapply wf_ext; [|exact H]. reflexivity.
Qed.

Lemma wf_step e s : ids_fresh s -> capture_wf s -> capture_wf (step e s).
Proof.
  intros F H. destruct e; cbn [step].
  - destruct (find_timeout id s); [|exact H].
    apply wf_run_callback; [now apply fresh_clearTimeout|].
    eapply wf_ext; [|exact H]. reflexivity.
  - destruct (find_interval id s); [|exact H]. now apply wf_countdown_callback.
  - destruct (Store.get r _) as [o|]; [|exact H].
    destruct (rec_state o), (onresult o); try exact H.
    now apply wf_recognition_onresult.
  - destruct (Store.get r _) as [o|]; [|exact H].
    destruct (rec_state o), (onerror o); try exact H;
      now apply wf_recognition_onerror.
  - destruct (Store.get r _) as [o|] eqn:Er; [|exact H].
    assert (Hw : capture_wf (update_recognition r (set_rec_state RecEnded) s))
      by (apply wf_update; [apply keeps_set_rec_state | exact H]).
    assert (Hf : ids_fresh (update_recognition r (set_rec_state RecEnded) s))
      by now apply fresh_update_recognition.
    destruct (rec_state o); try exact H;
      (destruct (onend o) as [c|] eqn:Ec; [|exact Hw];
       apply wf_recognition_onend; [exact Hf | exact Hw |];
       exists r, (set_rec_state RecEnded o); split; [|exact Ec];
       change (Store.get r (Store.update r (set_rec_state RecEnded)
                              (recognizers (host s))) =
               Some (set_rec_state RecEnded o));
       now rewrite get_update_same, Er).
  - eapply wf_ext; [|exact H]. reflexivity.
  - destruct (Store.get u _); [|exact H]. eapply wf_ext; [|exact H]. reflexivity.
  - destruct (Store.get u _) as [[text k]|]; [|exact H].
    apply wf_resume_speak.
    + revert F. unfold ids_fresh, ids_below. cbn. intuition idtac.
      now apply Forall_remove.
    + eapply wf_ext; [|exact H]. reflexivity.
  - destruct (Store.get p _) as [k|]; [|exact H].
    apply wf_resume_submit.
    + revert F. unfold ids_fresh, ids_below. cbn. intuition idtac.
      now apply Forall_remove.
    + eapply wf_ext; [|exact H]. reflexivity.
  - destruct (_ && _); [|exact H]. unfold handleDoneClick.
    destruct (negb _); [now apply wf_doSubmit | exact H].
  - destruct (mounted s); [|exact H]. unfold unmount.
    apply (wf_ext (cleanupRecording (set_cancelled true s))); [reflexivity|].
    apply wf_cleanupRecording. eapply wf_ext; [|exact H]. reflexivity.
Qed.

Lemma wf_mount p sr synth : capture_wf (mount p sr synth).
Proof. unfold mount. destruct sr; intros r o Hr; discriminate Hr. Qed.

(** Every state of every session has fresh identifiers and a well-formed
    capture. *)
Lemma sound_run es p sr synth :
  ids_fresh (run es (mount p sr synth)) /\ capture_wf (run es (mount p sr synth)).
Proof.
  apply (run_invariant (fun s => ids_fresh s /\ capture_wf s) (fun _ => True)).
  - intros e s _ [F H]. split; [now apply fresh_step | now apply wf_step].
  - now apply Forall_forall.
  - split; [apply fresh_mount | apply wf_mount].
Qed.

End CaptureWf.

(** ** Restarts are transparent *)

Section Transparency.

Lemma onend_restarts s r o :
  ids_fresh s ->
  capture_wf s ->
  has_SR (host s) = true ->
  Store.get r (recognizers (host s)) = Some o ->
  rec_state o = RecStarted \/ rec_state o = RecAborted ->
  shouldListenRef (refs s) = true ->
  isSubmittingRef (refs s) = false ->
  let s' := step (RecEnd r) s in
  let n := next_id (host s) in
  Store.get n (recognizers (host s')) =
    Some {| continuous := true; interimResults := true; lang := "en-US";
            onresult := onresult o; onerror := onerror o;
            onend := onend o; rec_state := RecStarted |} /\
  view s' = view s /\
  refs s' = refs (set_recognitionRef (Some n) s) /\
  activations (host s') = activations (host s) /\
  has_SR (host s') = has_SR (host s) /\
  ids_fresh s' /\
  capture_wf s'.
Proof.
  intros Hfresh Hwf HSR Hr Hst Hlisten Hflag s' n.
  destruct (Hwf r o Hr) as (c & (Hres & Herr & Hend) & a & o0 & Hc & Ho0 & Hh0).
  assert (Hstep : s' =
            recognition_onend c (update_recognition r (set_rec_state RecEnded) s)).
  { subst s'. cbn [step]. rewrite Hr, Hend.
    destruct Hst as [E|E]; rewrite E; reflexivity. }
  assert (Hwf' : capture_wf s') by (subst s'; apply wf_step; assumption).
  assert (Hfresh' : ids_fresh s') by (subst s'; apply fresh_step; assumption).
  pose proof (recognition_onend_restart c
                (update_recognition r (set_rec_state RecEnded) s) a
                Hlisten Hflag HSR Hc) as Hs'.
  cbv zeta in Hs'. rewrite <- Hstep in Hs'.
  split; [|split; [|split; [|split; [|split; [|split; assumption]]]];
           rewrite Hs'; reflexivity].
  rewrite Hs'.
  change (recognizers (host (update_recognition r (set_rec_state RecEnded) s)))
    with (Store.update r (set_rec_state RecEnded) (recognizers (host s))).
  rewrite !(handler_of_after_end _ _ _ _ o0) by (assumption || reflexivity).
  change (next_id (host (update_recognition r (set_rec_state RecEnded) s)))
    with n.
  destruct Hh0 as (K1 & K2 & K3). rewrite K1, K2, K3, Hres, Herr, Hend.
  unfold rec_start, configure, update_recognition, new_SpeechRecognition, fresh.
  cbn. rewrite get_update_same, get_update_same, get_put_same. reflexivity.
Qed.

Lemma recognition_onresult_keeps c event s :
  let s' := recognition_onresult c event s in
  recognitionRef (refs s') = recognitionRef (refs s) /\
  shouldListenRef (refs s') = shouldListenRef (refs s) /\
  isSubmittingRef (refs s') = isSubmittingRef (refs s) /\
  has_SR (host s') = has_SR (host s).
Proof.
  cbv zeta. unfold recognition_onresult.
  destruct (Store.get c (activations (host s))); [|repeat split].
  destruct (for_results _ _ _ _) as [fin interim]. cbv zeta.
  rewrite resetSilenceTimer_flat. repeat split.
Qed.

Lemma listening_fragment c fin s event :
  listening c fin s ->
  let s' := hear s (Fragment event) in
  listening c (fin ++ spec_finalized [event]) s' /\
  transcriptRef (refs s') = fin ++ spec_finalized [event] ++ spec_interim event.
Proof.
  intros (HSR & Hf & Hwf & Hl & Hs & (r & o & Hr & Ho & Hst & Hh) & (n0 & Ha) & Ht).
  cbv zeta. unfold hear. rewrite Hr.
  assert (E : step (RecResult r event) s = recognition_onresult c event s).
  { cbn [step]. destruct Hh as (Hres & _). now rewrite Ho, Hst, Hres. }
  assert (Hf' : ids_fresh (step (RecResult r event) s)) by now apply fresh_step.
  assert (Hwf' : capture_wf (step (RecResult r event) s)) by now apply wf_step.
  rewrite E in *.
  destruct (recognition_onresult_keeps c event s) as (K1 & K2 & K3 & K4).
  destruct (recognition_onresult_spec c event s _ Ha) as (T1 & T2 & T3).
  cbv zeta in K1, K2, K3, K4, T1, T2, T3. cbn [finalTranscript recognition] in *.
  split; [|now rewrite T2, append_assoc].
  split; [now rewrite K4|]. split; [exact Hf'|]. split; [exact Hwf'|].
  split; [now rewrite K2|]. split; [now rewrite K3|].
  split; [|split; [now exists n0 | now rewrite T2, T3]].
  exists r, o. rewrite K1, recognizers_recognition_onresult. auto.
Qed.

Lemma listening_stop c fin s :
  listening c fin s -> listening c fin (hear s EngineStop) /\
  transcriptRef (refs (hear s EngineStop)) = transcriptRef (refs s).
Proof.
  intros (HSR & Hf & Hwf & Hl & Hs & (r & o & Hr & Ho & Hst & Hh) & (n0 & Ha) & Ht).
  unfold hear. rewrite Hr.
  destruct (onend_restarts s r o Hf Hwf HSR Ho (or_introl Hst) Hl Hs)
    as (N1 & N2 & N3 & N4 & N5 & N6 & N7).
  cbv zeta in N1, N2, N3, N4, N5, N6, N7.
  split; [|now rewrite N3].
  split; [now rewrite N5|]. split; [exact N6|]. split; [exact N7|].
  rewrite N3, N2, N4.
  split; [exact Hl|]. split; [exact Hs|].
  split; [|split; [now exists n0 | exact Ht]].
  eexists _, _. split; [reflexivity|]. split; [exact N1|].
  split; [reflexivity|]. exact Hh.
Qed.

Lemma listening_run c hs : forall fin s,
  listening c fin s ->
  listening c (fin ++ spec_finalized (fragments hs)) (fold_left hear hs s).
Proof.
  induction hs as [|h hs IH]; intros fin s H.
  - cbn. unfold spec_finalized. cbn. now rewrite append_nil_r.
  - cbn [fold_left]. destruct h as [event|].
    + destruct (listening_fragment c fin s event H) as (H' & _).
      cbv zeta in H'. apply IH in H'.
      change (fragments (Fragment event :: hs)) with ([event] ++ fragments hs)%list.
      rewrite append_assoc in H'. now rewrite spec_finalized_app.
    + destruct (listening_stop c fin s H) as (H' & _).
      apply IH in H'. exact H'.
Qed.

Lemma listening_startListeningFn s :
  has_SR (host s) = true -> ids_fresh s -> capture_wf s ->
  listening (S (next_id (host s))) "" (startListeningFn s).
Proof.
  intros HSR Hf Hwf.
  destruct (startListeningFn_spec s HSR)
    as (S1 & S2 & S3 & _ & _ & _ & S7 & S8 & S9 & _).
  cbv zeta in S1, S2, S3, S7, S8, S9.
  split.
  { unfold startListeningFn. rewrite HSR. cbn [negb].
    rewrite cleanupRecording_flat. exact HSR. }
  split; [now apply fresh_startListeningFn|].
  split; [now apply wf_startListeningFn|].
  split; [exact S7|]. split; [exact S8|].
  split; [|split; [eexists; exact S3|]].
  - eexists _, _. split; [exact S1|]. split; [exact S2|]. now repeat split.
  - rewrite S9. unfold startListeningFn. rewrite HSR. cbn [negb].
    rewrite cleanupRecording_flat. reflexivity.
Qed.

(** Self-healing is transparent to the transcript: whatever the capture
    engine does during a listening phase, delivering results and stopping by
    itself in any order, after each delivery the running transcript is every
    finalized fragment delivered so far, each followed by one space,
    followed by the interim fragments of the latest delivery, as if the
    engine had never stopped. *)
Theorem restarts_are_transparent :
  forall s hs event,
    has_SR (host s) = true ->
    ids_fresh s ->
    capture_wf s ->
    let s' := fold_left hear (hs ++ [Fragment event])%list (startListeningFn s) in
    transcriptRef (refs s') =
      spec_finalized (fragments hs ++ [event])%list ++ spec_interim event /\
    transcript (view s') = transcriptRef (refs s').
Proof.
  intros s hs event HSR Hf Hwf. cbv zeta.
  rewrite fold_left_app. cbn [fold_left].
  pose proof (listening_run _ hs _ _ (listening_startListeningFn s HSR Hf Hwf)) as H.
  destruct (listening_fragment _ _ _ event H) as (H' & T).
  cbv zeta in H', T.
  destruct H' as (_ & _ & _ & _ & _ & _ & _ & Hshown).
  split; [|exact Hshown].
  rewrite T. cbn [append]. now rewrite spec_finalized_app, append_assoc.
Qed.

End Transparency.

(** X1.  In every state of every session of a browser that has a
    recognition engine, a listening phase that starts there shows after each
    delivery
    the finalized fragments delivered so far, each followed by one space,
    and the interim fragments of the latest delivery, however often the
    engine stopped by itself in between. *)
Corollary restarts_are_transparent_in_sessions :
  forall p synth es hs event,
    let s := run es (mount p true synth) in
    let s' := fold_left hear (hs ++ [Fragment event])%list (startListeningFn s) in
    transcriptRef (refs s') =
      spec_finalized (fragments hs ++ [event])%list ++ spec_interim event /\
    transcript (view s') = transcriptRef (refs s').
Proof.
  intros p synth es hs event s.
  destruct (sound_run es p true synth) as (Hf & Hwf).
  apply restarts_are_transparent; [|exact Hf|exact Hwf].
  pose proof (browser_run es (mount p true synth)) as H.
  rewrite browser_mount in H. exact (f_equal fst H).
Qed.

(** C4.  In a state with fresh identifiers and a well-formed capture (as
    every state of every session is), let the end event of a recognition
    object fire.  While the controller still wants input ([shouldListenRef]
    set, no submission in flight), a recognition object that did not exist
    before is constructed, configured like the one that ended and given the
    very result, error and end handlers of the one that ended; it is stored
    in [recognitionRef] and started; the displayed state, the transcript
    held by the ref and the finalized text kept by the handlers stay as they
    were, the capture is again well formed, and a result that the new
    object delivers gives the transcript that the same result would have
    given on the object that ended.  When the stop was
    intentional ([shouldListenRef] cleared or a submission in flight)
    nothing happens beyond the object being ended; [cleanupRecording] clears
    [shouldListenRef], so a stop that it causes is never followed by a
    restart. *)
Theorem unexpected_stop_restarts_capture :
  forall s r o,
    ids_fresh s ->
    capture_wf s ->
    has_SR (host s) = true ->
    Store.get r (recognizers (host s)) = Some o ->
    rec_state o = RecStarted \/ rec_state o = RecAborted ->
    let s' := step (RecEnd r) s in
    let n := next_id (host s) in
    (shouldListenRef (refs s) = true -> isSubmittingRef (refs s) = false ->
       Store.get n (recognizers (host s)) = None /\
       recognitionRef (refs s') = Some n /\
       Store.get n (recognizers (host s')) =
         Some {| continuous := true; interimResults := true; lang := "en-US";
                 onresult := onresult o; onerror := onerror o;
                 onend := onend o; rec_state := RecStarted |} /\
       view s' = view s /\
       transcriptRef (refs s') = transcriptRef (refs s) /\
       activations (host s') = activations (host s) /\
       capture_wf s' /\
       (rec_state o = RecStarted -> forall event,
          transcriptRef (refs (step (RecResult n event) s')) =
          transcriptRef (refs (step (RecResult r event) s)))) /\
    (shouldListenRef (refs s) = false \/ isSubmittingRef (refs s) = true ->
       s' = update_recognition r (set_rec_state RecEnded) s) /\
    (let s1 := step (RecEnd r) (cleanupRecording s) in
     recognitionRef (refs s1) = None /\
     next_id (host s1) = next_id (host s)).
Proof.
  intros s r o Hfresh Hwf HSR Hr Hst s' n.
  destruct (Hwf r o Hr) as (c & (Hres & Herr & Hend) & a & o0 & Hc & Ho0 & Hh0).
  assert (Hstep : forall s1,
             Store.get r (recognizers (host s1)) = Some o ->
             step (RecEnd r) s1 =
             recognition_onend c (update_recognition r (set_rec_state RecEnded) s1)).
  { intros s1 H1. cbn [step]. rewrite H1, Hend.
    destruct Hst as [E|E]; rewrite E; reflexivity. }
  split; [|split].
  - intros Hlisten Hflag.
    destruct (onend_restarts s r o Hfresh Hwf HSR Hr Hst Hlisten Hflag)
      as (Hnew & Hview & Hrefs & Hacts & _ & _ & Hwf').
    cbv zeta in Hnew, Hview, Hrefs, Hacts, Hwf'.
    change (step (RecEnd r) s) with s' in Hnew, Hview, Hrefs, Hacts, Hwf'.
    change (next_id (host s)) with n in Hnew, Hrefs.
    clear Hstep. clearbody s'.
    split; [destruct Hfresh as (_ & _ & Hrec & _); now apply get_fresh_none|].
    split; [now rewrite Hrefs|]. split; [exact Hnew|]. split; [exact Hview|].
    split; [now rewrite Hrefs|]. split; [exact Hacts|]. split; [exact Hwf'|].
    intros Hstarted event. cbn [step]. rewrite Hnew, Hr, Hstarted, Hres.
    cbn [rec_state onresult].
    assert (Hc' : Store.get c (activations (host s')) = Some a)
      by now rewrite Hacts.
    destruct (recognition_onresult_spec c event s a Hc) as (_ & T1 & _).
    destruct (recognition_onresult_spec c event s' a Hc') as (_ & T2 & _).
    cbv zeta in T1, T2. now rewrite T1, T2.
  - intros H. subst s'. rewrite (Hstep s Hr).
    now apply recognition_onend_intentional.
  - assert (Hoff : forall f c',
               recognition_onend c' (update_recognition r f (cleanupRecording s)) =
               update_recognition r f (cleanupRecording s)).
    { intros f c'. apply recognition_onend_intentional. left.
      change (shouldListenRef (refs (cleanupRecording s)) = false).
      now rewrite cleanupRecording_refs. }
    assert (Hkeep : forall f,
               recognitionRef (refs (update_recognition r f (cleanupRecording s))) = None /\
               next_id (host (update_recognition r f (cleanupRecording s))) =
                 next_id (host s)).
    { intros f. split.
      - change (recognitionRef (refs (cleanupRecording s)) = None).
        now rewrite cleanupRecording_refs.
      - change (next_id (host (cleanupRecording s)) = next_id (host s)).
        apply next_id_cleanupRecording. }
    assert (Hsame : recognitionRef (refs (cleanupRecording s)) = None /\
                    next_id (host (cleanupRecording s)) = next_id (host s)).
    { split; [now rewrite cleanupRecording_refs | apply next_id_cleanupRecording]. }
    cbn [step].
    destruct (Store.get r (recognizers (host (cleanupRecording s)))) as [o'|];
      [|exact Hsame].
    destruct (rec_state o'); try exact Hsame;
      (destruct (onend o'); [rewrite Hoff|]; apply Hkeep).
Qed.

(** ** The false start *)

(** Every caller of the submit operation tests the flag first: with a
    submission in flight the done button, the silence timer and the
    countdown leave the submit operation alone. *)
Lemma callers_check_the_flag s :
  isSubmittingRef (refs s) = true ->
  handleDoneClick s = s /\
  (speechSynthesis_speaking s = false -> silenceTimeout_callback s = s) /\
  countdown_callback s =
    setTimer (if (timer (view s) <=? 1)%Z then 0 else timer (view s) - 1)%Z s.
Proof.
  intros H. split; [|split].
  - unfold handleDoneClick. now rewrite H.
  - intros Hs. unfold silenceTimeout_callback. now rewrite Hs, H.
  - unfold countdown_callback. cbv zeta. rewrite H. cbn [negb].
    now destruct (_ <=? _)%Z.
Qed.

(** C6.  When the submit operation runs with no submission in flight and a
    transcript that consists of white space only (any sequence of the white
    space and line terminator characters of JavaScript, the empty one
    included), no request is sent and none becomes pending; capture is
    released; the turn (question, number, histories) is unchanged; and a
    timer of [RESTART_DELAY_MS] is pending whose firing, in a browser with a
    recognition engine, starts listening again for the same turn: a started
    recognition object, both timers armed, still no request sent.  While the
    component is mounted the no-speech message is displayed until the timer
    fires, and then the message is cleared, the status is recording and the
    countdown is back at its total. *)
Theorem false_start_restarts_listening :
  forall s,
    ids_fresh s ->
    isSubmittingRef (refs s) = false ->
    whitespace_only (transcriptRef (refs s)) ->
    let s1 := doSubmit s in
    let t := next_id (host s) in
    posted_of s1 = posted_of s /\
    (mounted s = true -> error (view s1) = msg_no_speech) /\
    turn_of s1 = turn_of s /\
    recognitionRef (refs s1) = None /\
    shouldListenRef (refs s1) = false /\
    find_timeout t s1 =
      Some {| t_id := t; t_delay := RESTART_DELAY_MS; t_cb := CbRestart |} /\
    (has_SR (host s) = true ->
     let s2 := step (TimeoutFires t) s1 in
     posted_of s2 = posted_of s /\
     turn_of s2 = turn_of s /\
     (mounted s = true ->
      error (view s2) = "" /\
      status (view s2) = recording /\
      timer (view s2) = MAX_RECORD_SECONDS) /\
     shouldListenRef (refs s2) = true /\
     isSubmittingRef (refs s2) = false /\
     (exists r o,
        recognitionRef (refs s2) = Some r /\
        Store.get r (recognizers (host s2)) = Some o /\
        rec_state o = RecStarted) /\
     (exists t2 i2,
        silenceTimeoutRef (refs s2) = Some t2 /\
        timerIntervalRef (refs s2) = Some i2)).
Proof.
  intros s Hfresh Hflag Hblank s1 t.
  assert (Hempty : trim (transcriptRef (refs s)) = "")
    by now apply trim_whitespace.
  assert (Hfind : find_timeout t s1 =
            Some {| t_id := t; t_delay := RESTART_DELAY_MS; t_cb := CbRestart |}).
  { subst s1. rewrite doSubmit_false_start by assumption.
    rewrite cleanupRecording_flat. unfold find_timeout. cbn.
    rewrite find_app_none.
    - cbn. fold t. now rewrite Nat.eqb_refl.
    - apply find_without_timeout, find_timeout_below. apply Hfresh. }
  assert (Hflat : s1 =
            snd (setTimeout CbRestart RESTART_DELAY_MS
                   (cleanupRecording (setError msg_no_speech s))))
    by now apply doSubmit_false_start.
  split; [now apply posted_doSubmit_false_start|].
  split; [intros _; rewrite Hflat; now rewrite cleanupRecording_flat|].
  split; [apply turn_doSubmit|].
  split; [rewrite Hflat; now rewrite cleanupRecording_flat|].
  split; [rewrite Hflat; now rewrite cleanupRecording_flat|].
  split; [exact Hfind|].
  clear Hflat.
  { intros HSR s2. subst s2. cbn [step]. rewrite Hfind. cbn [t_cb run_callback].
    unfold restart_callback.
    set (s' := setError "" (clearTimeout t s1)).
    assert (HSR' : has_SR (host s') = true).
    { subst s' s1. rewrite doSubmit_false_start by assumption.
      rewrite cleanupRecording_flat. exact HSR. }
    assert (Hposted : posted_of s' = posted_of s).
    { transitivity (posted_of s1); [reflexivity|].
      now apply posted_doSubmit_false_start. }
    assert (Hturn : turn_of s' = turn_of s).
    { transitivity (turn_of s1); [reflexivity | apply turn_doSubmit]. }
    destruct (startListeningFn_spec s' HSR')
      as (Hr & Ho & _ & Hsil & Hint & _ & Hl & Hf & _ & Hst & _ & Htm & Herr).
    rewrite posted_startListeningFn, turn_startListeningFn.
    split; [exact Hposted|]. split; [exact Hturn|].
    split; [intros _; exact (conj Herr (conj Hst Htm))|].
    split; [exact Hl|]. split; [exact Hf|]. split.
    + eexists _, _. split; [exact Hr|]. split; [exact Ho | reflexivity].
    + eexists _, _. split; [exact Hsil | exact Hint]. }
Qed.

(** C10.  On the false-start path, taken when the transcript consists of
    white space only (any sequence of the white space and line terminator
    characters of JavaScript, the empty one included), the in-flight flag is
    false after each of the three statements of the path, and the path
    changes nothing but the error message and what [cleanupRecording]
    releases: the recording indicator, the capture handle with its
    should-listen flag, the two timers; besides, the restart timer is
    scheduled.  The turn, the transcript, the status, the countdown, the
    requests sent and pending, the utterances and the completion log are as
    they were.  The two displayed fields that change are those React holds
    while the component is mounted. *)
Theorem false_start_keeps_flag_clear :
  forall s,
    isSubmittingRef (refs s) = false ->
    whitespace_only (transcriptRef (refs s)) ->
    let s_a := setError msg_no_speech s in
    let s_b := cleanupRecording s_a in
    let s_c := snd (setTimeout CbRestart RESTART_DELAY_MS s_b) in
    doSubmit s = s_c /\
    isSubmittingRef (refs s_a) = false /\
    isSubmittingRef (refs s_b) = false /\
    isSubmittingRef (refs s_c) = false /\
    props s_c = props s /\
    (mounted s = true ->
     view s_c = view (setIsRecording false (setError msg_no_speech s))) /\
    refs s_c =
      refs (set_silenceTimeoutRef None (set_timerIntervalRef None
             (set_recognitionRef None (set_shouldListenRef false s)))) /\
    turn_of s_c = turn_of s /\
    posted_of s_c = posted_of s /\
    spoken_of s_c = spoken_of s /\
    activations (host s_c) = activations (host s) /\
    transcript (view s_c) = transcript (view s) /\
    status (view s_c) = status (view s) /\
    timer (view s_c) = timer (view s).
Proof.
  intros s Hflag Hblank s_a s_b s_c.
  assert (Hempty : trim (transcriptRef (refs s)) = "")
    by now apply trim_whitespace.
  split; [now apply doSubmit_false_start|].
  subst s_c s_b s_a. rewrite cleanupRecording_flat. cbn.
  rewrite Hflag. repeat split.
Qed.

(** ** A submission and its reply *)

(** C7, as the code has it.  When the submit operation runs with no
    submission in flight and a transcript that does not consist of white
    space only, it stops capture and sends exactly one request in the same
    step.  The request carries the question held by the ref in that step
    and, as the answer, the transcript of that step without the white space
    around it: the transcript is the answer between two runs of white space,
    and the answer neither starts nor ends with white space.  The same
    values are kept in the constants of the awaiting code.  Whatever the
    state has become when the reply with the next question is delivered to
    that code, the pair appended to the two histories is exactly the
    submitted one, after the histories as they were when the request was
    sent. *)
Theorem submission_carries_the_stopped_turn :
  forall s,
    isSubmittingRef (refs s) = false ->
    ~ whitespace_only (transcriptRef (refs s)) ->
    let s1 := doSubmit s in
    let p := next_id (host s) in
    let answer := trim (transcriptRef (refs s)) in
    (exists pre post,
       whitespace_only pre /\ whitespace_only post /\
       transcriptRef (refs s) = pre ++ answer ++ post) /\
    ~ starts_with_space answer /\
    ~ ends_with_space answer /\
    requests (host s1) =
      (requests (host s) ++
       [{| session_id := sessionId (props s);
           current_question := currentQuestionRef (refs s);
           current_answer := answer;
           previous_questions := previousQuestionsRef (refs s);
           previous_answers := previousAnswersRef (refs s) |}])%list /\
    inflight (host s1) = (inflight (host s) ++ [(p, kont_of s)])%list /\
    k_q (kont_of s) = currentQuestionRef (refs s) /\
    k_answer (kont_of s) = answer /\
    recognitionRef (refs s1) = None /\
    shouldListenRef (refs s1) = false /\
    isSubmittingRef (refs s1) = true /\
    forall s' data,
      Store.get p (inflight (host s')) = Some (kont_of s) ->
      truthy (final_report data) = None ->
      let s2 := step (Settled p (Resolved data)) s' in
      previousQuestionsRef (refs s2) =
        (previousQuestionsRef (refs s) ++ [currentQuestionRef (refs s)])%list /\
      previousAnswersRef (refs s2) =
        (previousAnswersRef (refs s) ++ [answer])%list /\
      currentQuestionRef (refs s2) = next_question data.
Proof.
  intros s Hflag Hsaid s1 p answer.
  assert (Hanswer : trim (transcriptRef (refs s)) <> "")
    by (intros E; apply Hsaid, trim_whitespace, E).
  destruct (trim_spec (transcriptRef (refs s)))
    as (pre & post & Hpre & Hpost & Hs & Hstart & Hend).
  split; [exists pre, post; auto|].
  split; [exact Hstart|]. split; [exact Hend|].
  subst s1 answer.
  rewrite doSubmit_submits by assumption.
  rewrite cleanupRecording_flat. cbn.
  repeat split.
  all: cbn [step] in *.
  all: match goal with H : Store.get _ _ = Some _ |- _ => rewrite H end.
  all: match goal with
       | H : truthy (final_report ?d) = None |- _ =>
           pose proof (turn_resume_submit_next (kont_of s) d
                         (set_inflight (Store.remove p (inflight (host s'))) s') H) as E
       end.
  - now apply (f_equal turn_previousQuestions) in E.
  - now apply (f_equal turn_previousAnswers) in E.
  - now apply (f_equal turn_questionRef) in E.
Qed.

Section Rejection.

(** What a rejected submission leaves behind, whatever the state has
    become in the meantime. *)
Lemma resume_submit_rejected k message s :
  let s' := resume_submit k (Rejected message) s in
  error (view s') = or_default message msg_failed /\
  status (view s') = idle /\
  isSubmittingRef (refs s') = false /\
  turn_of s' = turn_of s /\
  posted_of s' = posted_of s /\
  spoken_of s' = spoken_of s /\
  transcriptRef (refs s') = transcriptRef (refs s).
Proof. cbn. repeat split. Qed.

Lemma msg_failed_not_empty : msg_failed <> "".
Proof. discriminate. Qed.

End Rejection.

(** C8.  When the service rejects a submission, the displayed error is the
    message of the rejection, or the stock message if it has none, and is not
    empty; the status is [idle]; the completion callback has not run; the
    turn (number, question, histories) is as it was when the request was
    sent; no request is pending any more; and the in-flight flag is cleared,
    so that a later run of the submit operation sends the same request once
    more, exactly once: while that one is pending a further run changes
    nothing. *)
Theorem rejected_submission_can_be_retried :
  forall s message,
    ids_fresh s ->
    isSubmittingRef (refs s) = false ->
    trim (transcriptRef (refs s)) <> "" ->
    let s1 := doSubmit s in
    let s2 := step (Settled (next_id (host s)) (Rejected message)) s1 in
    let s3 := doSubmit s2 in
    error (view s2) = or_default message msg_failed /\
    error (view s2) <> "" /\
    status (view s2) = idle /\
    completed (host s2) = completed (host s) /\
    turn_of s2 = turn_of s /\
    inflight (host s2) = inflight (host s) /\
    isSubmittingRef (refs s2) = false /\
    requests (host s3) = (requests (host s) ++ [request_of s; request_of s])%list /\
    inflight (host s3) = (inflight (host s) ++ [(next_id (host s2), kont_of s)])%list /\
    isSubmittingRef (refs s3) = true /\
    doSubmit s3 = s3.
Proof.
  intros s message Hfresh Hflag Hanswer s1 s2 s3.
  assert (Hin : Forall (fun q => fst q < next_id (host s)) (inflight (host s)))
    by apply Hfresh.
  assert (E1 : s1 = submitAnswer (request_of s) (kont_of s)
                      (setError "" (setStatus processing
                         (cleanupRecording (set_isSubmittingRef true s)))))
    by now apply doSubmit_submits.
  rewrite cleanupRecording_flat in E1. clearbody s1.
  assert (E2 : s2 = resume_submit (kont_of s) (Rejected message)
                      (set_inflight (inflight (host s)) s1)).
  { assert (Hget : Store.get (next_id (host s)) (inflight (host s1)) =
                     Some (kont_of s))
      by (rewrite E1; cbn; now apply get_app_last).
    assert (Hrem : Store.remove (next_id (host s)) (inflight (host s1)) =
                     inflight (host s))
      by (rewrite E1; cbn; now apply remove_app_last).
    subst s2. cbn [step]. now rewrite Hget, Hrem. }
  clearbody s2.
  assert (Hflag2 : isSubmittingRef (refs s2) = false) by now rewrite E2.
  assert (Hreq2 : request_of s2 = request_of s) by now rewrite E2, E1.
  assert (Hk2 : kont_of s2 = kont_of s) by now rewrite E2, E1.
  assert (Hanswer2 : trim (transcriptRef (refs s2)) <> "") by now rewrite E2, E1.
  assert (E3 : s3 = submitAnswer (request_of s2) (kont_of s2)
                      (setError "" (setStatus processing
                         (cleanupRecording (set_isSubmittingRef true s2)))))
    by now apply doSubmit_submits.
  rewrite cleanupRecording_flat, Hreq2, Hk2 in E3. clearbody s3.
  split; [now rewrite E2|].
  split; [rewrite E2; apply or_default_not_empty, msg_failed_not_empty|].
  split; [now rewrite E2|].
  split; [now rewrite E2, E1|].
  split; [now rewrite E2, E1|].
  split; [now rewrite E2|].
  split; [exact Hflag2|].
  split; [rewrite E3; cbn; rewrite E2; cbn; rewrite E1; cbn;
          now rewrite <- app_assoc|].
  split; [rewrite E3; cbn; now rewrite E2|].
  split; [now rewrite E3|].
  apply doSubmit_guarded. now rewrite E3.
Qed.

(** ** After a rejection *)

Section Quiescence.

Lemma update_not_started k (f : Recognition -> Recognition) l :
  (forall o, rec_state (f o) <> RecStarted) ->
  Forall (fun r => rec_state (snd r) <> RecStarted) l ->
  Forall (fun r => rec_state (snd r) <> RecStarted) (Store.update k f l).
Proof.
  intros Hf. induction 1 as [|[k' v'] l Hx Hl IH]; [constructor|].
  unfold Store.update; fold (@Store.update Recognition).
  destruct (Nat.eqb k k'); constructor; auto. apply Hf.
Qed.

Lemma aborted_not_started o : rec_state (aborted o) <> RecStarted.
Proof. unfold aborted. destruct (rec_state o) eqn:E; cbn; congruence. Qed.

Lemma quiescent_step e s :
  quiescent s ->
  quiescent (step e s) /\ requests (host (step e s)) = requests (host s).
Proof.
  intros H. pose proof H as (Hst & Hl & Ht & Hi & Hu & Hp & Hr).
  destruct e; cbn [step].
  - unfold find_timeout. rewrite Ht. cbn [find]. now split.
  - unfold find_interval. rewrite Hi. cbn [find]. now split.
  - destruct (Store.get r _) as [o|] eqn:E; [|now split].
    apply get_In in E. rewrite Forall_forall in Hr. specialize (Hr _ E).
    cbn [snd] in Hr. destruct (rec_state o); now split.
  - assert (K : quiescent (recognition_onerror err s) /\
                requests (host (recognition_onerror err s)) = requests (host s)).
    { unfold recognition_onerror. destruct (_ && _); [|now split].
      split; [|reflexivity]. repeat split; assumption. }
    destruct (Store.get r _) as [o|]; [|now split].
    destruct (rec_state o), (onerror o); try (now split); exact K.
  - destruct (Store.get r _) as [o|] eqn:E; [|now split].
    assert (K : quiescent (update_recognition r (set_rec_state RecEnded) s)).
    { repeat split; try assumption.
      apply update_not_started; [discriminate | exact Hr]. }
    assert (K' : forall c,
               recognition_onend c (update_recognition r (set_rec_state RecEnded) s) =
               update_recognition r (set_rec_state RecEnded) s).
    { intros c. apply recognition_onend_intentional. left. exact Hl. }
    destruct (rec_state o); try (now split);
      (destruct (onend o); [rewrite K'|]; (split; [exact K | reflexivity])).
  - split; [|reflexivity]. repeat split; assumption.
  - rewrite Hu. now split.
  - rewrite Hu. now split.
  - rewrite Hp. now split.
  - rewrite Hst. cbn [is_recording]. rewrite andb_false_r. now split.
  - destruct (mounted s); [|now split].
    unfold unmount. rewrite cleanupRecording_flat. split; [|reflexivity].
    repeat split; try assumption.
    + cbn. rewrite Ht. now destruct (silenceTimeoutRef (refs s)).
    + cbn. rewrite Hi. now destruct (timerIntervalRef (refs s)).
    + cbn. unfold with_aborted. destruct (recognitionRef (refs s)); [|exact Hr].
      apply update_not_started; [apply aborted_not_started | exact Hr].
Qed.

Lemma quiescent_run es : forall s,
  quiescent s ->
  quiescent (run es s) /\ requests (host (run es s)) = requests (host s).
Proof.
  induction es as [|e es IH]; intros s H; [now split|].
  rewrite run_cons. destruct (quiescent_step e s H) as (H1 & E1).
  destruct (IH _ H1) as (H2 & E2). split; [exact H2 | congruence].
Qed.

End Quiescence.

(** ** The ceiling of a listening phase

[phase i n s]: the countdown interval [i] has fired [n] times.  As long
as it is registered, it is the interval the ref holds, no submission is
in flight and the displayed counter has gone down by at least [n]. *)

Section Ceiling.

Variable i : nat.

Lemma phase_dead n s :
  i < next_id (host s) -> find_interval i s = None -> phase i n s.
Proof. intros H1 H2. split; [exact H1|]. intros Ha. now elim Ha. Qed.

(** A callback that leaves the countdown alone keeps the phase. *)
Lemma phase_ext n s s' :
  phase i n s ->
  next_id (host s) <= next_id (host s') ->
  intervals (host s') = intervals (host s) ->
  timerIntervalRef (refs s') = timerIntervalRef (refs s) ->
  (isSubmittingRef (refs s') = isSubmittingRef (refs s) \/
   isSubmittingRef (refs s') = false) ->
  timer (view s') = timer (view s) ->
  phase i n s'.
Proof.
  intros [Hlt Hp] Hn Hi Href Hflag Ht. split; [lia|].
  unfold alive, find_interval in *. rewrite Hi, Href, Ht. intros Ha.
  destruct (Hp Ha) as (H1 & H2 & H3). repeat split; try assumption.
  destruct Hflag as [E|E]; [now rewrite E | exact E].
Qed.

Lemma phase_weaken n m s : m <= n -> phase i n s -> phase i m s.
Proof.
  intros Hle [Hlt Hp]. split; [exact Hlt|]. intros Ha.
  destruct (Hp Ha) as (H1 & H2 & H3). repeat split; try assumption. lia.
Qed.

(** Releasing the interval held by the ref ends the phase. *)
Lemma released n s :
  phase i n s ->
  find (fun x => Nat.eqb (i_id x) i)
    (without_interval (timerIntervalRef (refs s)) (intervals (host s))) = None.
Proof.
  intros [_ Hp]. unfold alive, find_interval in Hp.
  destruct (find (fun x => Nat.eqb (i_id x) i) (intervals (host s))) eqn:E.
  - destruct Hp as (Href & _); [discriminate|]. rewrite Href. cbn.
    apply find_interval_cleared.
  - destruct (timerIntervalRef (refs s)); cbn; [|exact E].
    now apply find_filter_none.
Qed.

Lemma phase_cleanupRecording n s : phase i n s -> phase i n (cleanupRecording s).
Proof.
  intros H. apply phase_dead.
  - rewrite next_id_cleanupRecording. apply H.
  - unfold find_interval. rewrite cleanupRecording_flat. cbn.
    now apply (released n).
Qed.

Lemma phase_resetSilenceTimer n s : phase i n s -> phase i n (resetSilenceTimer s).
Proof.
  intros H. apply (phase_ext n s); try exact H;
    rewrite resetSilenceTimer_flat; cbn; auto.
Qed.

Lemma next_id_doSubmit s : next_id (host s) <= next_id (host (doSubmit s)).
Proof.
  unfold doSubmit. destruct (isSubmittingRef (refs s)); [lia|].
  destruct (falsy _); cbv zeta; rewrite cleanupRecording_flat; cbn; lia.
Qed.

(** A submission that passes the guard ends the phase. *)
Lemma ended_by_doSubmit n s :
  phase i n s ->
  isSubmittingRef (refs s) = false ->
  find_interval i (doSubmit s) = None.
Proof.
  intros H Hf. unfold doSubmit. rewrite Hf.
  destruct (falsy _); cbv zeta; unfold find_interval;
    rewrite cleanupRecording_flat; cbn; now apply (released n).
Qed.

Lemma phase_doSubmit n s : phase i n s -> phase i n (doSubmit s).
Proof.
  intros H. destruct (isSubmittingRef (refs s)) eqn:Hf.
  - now rewrite doSubmit_guarded.
  - apply phase_dead; [|now apply (ended_by_doSubmit n)].
    pose proof (next_id_doSubmit s). destruct H. lia.
Qed.

Lemma phase_silenceTimeout_callback n s :
  phase i n s -> phase i n (silenceTimeout_callback s).
Proof.
  intros H. unfold silenceTimeout_callback.
  destruct (speechSynthesis_speaking s); [now apply phase_resetSilenceTimer|].
  destruct (_ && _); [now apply phase_doSubmit | exact H].
Qed.

(** One tick: the counter goes down, or listening ends. *)
Lemma phase_countdown_callback n s :
  phase i n s -> phase i (S n) (countdown_callback s).
Proof.
  intros H. unfold countdown_callback. cbv zeta.
  destruct (timer (view s) <=? 1)%Z eqn:E.
  - destruct (isSubmittingRef (refs s)) eqn:Ef; cbn [negb].
    + split; [apply H|]. intros Ha. destruct H as [_ Hp].
      destruct (Hp Ha) as (_ & Hf & _). congruence.
    + apply phase_dead.
      * pose proof (next_id_doSubmit s). destruct H.
        change (i < next_id (host (doSubmit s))). lia.
      * change (find_interval i (doSubmit s) = None).
        now apply (ended_by_doSubmit n).
  - apply Z.leb_gt in E. destruct H as [Hlt Hp]. split; [exact Hlt|].
    intros Ha. destruct (Hp Ha) as (H1 & H2 & H3).
    repeat split; try assumption.
    change (timer (view s) - 1 <= MAX_RECORD_SECONDS - Z.of_nat (S n))%Z.
    rewrite Nat2Z.inj_succ. lia.
Qed.

Lemma phase_recognition_onresult c e n s :
  phase i n s -> phase i n (recognition_onresult c e s).
Proof.
  intros H. unfold recognition_onresult.
  destruct (Store.get c _); [|exact H].
  destruct (for_results _ _ _ _). cbv zeta.
  apply phase_resetSilenceTimer.
  apply (phase_ext n s); auto.
Qed.

Lemma phase_recognition_onerror err n s :
  phase i n s -> phase i n (recognition_onerror err s).
Proof.
  intros H. unfold recognition_onerror. destruct (_ && _); [|exact H].
  apply (phase_ext n s); auto.
Qed.

Lemma phase_recognition_onend c n s :
  phase i n s -> phase i n (recognition_onend c s).
Proof.
  intros H. unfold recognition_onend.
  destruct (_ && _); [|exact H].
  destruct (has_SR _); [|exact H].
  destruct (Store.get c _); [|exact H].
  apply (phase_ext n s); cbn; auto.
Qed.

(** A new listening phase releases the interval of the old one and
    registers one of its own under a new identifier. *)
Lemma phase_startListeningFn n s : phase i n s -> phase i n (startListeningFn s).
Proof.
  intros H. unfold startListeningFn.
  destruct (has_SR (host s)); cbn [negb].
  - pose proof (released n s H) as Hrel. destruct H as [Hlt _].
    rewrite cleanupRecording_flat. apply phase_dead.
    + cbn. lia.
    + unfold find_interval. cbn. rewrite find_app_none by exact Hrel.
      cbn -[Nat.eqb].
      match goal with
      | |- context [Nat.eqb ?a i] => destruct (Nat.eqb a i) eqn:E
      end; [|reflexivity].
      apply Nat.eqb_eq in E. lia.
  - apply (phase_ext n s); auto.
Qed.

Lemma phase_resume_speak k n s : phase i n s -> phase i n (resume_speak k s).
Proof.
  intros H. destruct k; cbn [resume_speak].
  - destruct (cancelled (host s)); [exact H | now apply phase_startListeningFn].
  - apply (phase_ext n s); auto.
  - now apply phase_startListeningFn.
Qed.

Lemma phase_speakQuestion text k n s :
  phase i n s -> phase i n (speakQuestion text k s).
Proof.
  intros H. unfold speakQuestion. destruct (has_synth (host s)); cbn [negb].
  - apply (phase_ext n s); cbn; auto.
  - now apply phase_resume_speak.
Qed.

Lemma phase_resume_submit k reply n s :
  phase i n s -> phase i n (resume_submit k reply s).
Proof.
  intros H. destruct reply as [data|message]; cbn [resume_submit].
  - destruct (truthy (final_report data)); [now apply phase_speakQuestion|].
    cbv zeta. apply phase_speakQuestion.
    apply (phase_ext n s); auto.
  - apply (phase_ext n s); auto.
Qed.

Lemma phase_run_callback cb n s : phase i n s -> phase i n (run_callback cb s).
Proof.
  intros H. destruct cb; cbn [run_callback].
  - unfold init_after_delay. destruct (cancelled (host s)); [exact H|].
    apply phase_speakQuestion. apply (phase_ext n s); auto.
  - now apply phase_silenceTimeout_callback.
  - unfold restart_callback. apply phase_startListeningFn.
    apply (phase_ext n s); auto.
Qed.

Lemma phase_step e n s : phase i n s -> phase i (fires i e + n) (step e s).
Proof.
  intros H. destruct e; cbn [step fires plus].
  - destruct (find_timeout id s); [|exact H].
    apply phase_run_callback. apply (phase_ext n s); auto.
  - destruct (find_interval id s) eqn:Ef.
    + apply (phase_weaken (S n)); [destruct (Nat.eqb id i); cbn; lia|].
      now apply phase_countdown_callback.
    + destruct (Nat.eqb id i) eqn:E; [|exact H].
      apply Nat.eqb_eq in E. subst id.
      apply phase_dead; [apply H | exact Ef].
  - destruct (Store.get r _) as [o|]; [|exact H].
    destruct (rec_state o), (onresult o); try exact H.
    now apply phase_recognition_onresult.
  - destruct (Store.get r _) as [o|]; [|exact H].
    destruct (rec_state o), (onerror o); try exact H;
      now apply phase_recognition_onerror.
  - destruct (Store.get r _) as [o|]; [|exact H].
    destruct (rec_state o); try exact H;
      (destruct (onend o); [apply phase_recognition_onend|];
       apply (phase_ext n s); auto).
  - apply (phase_ext n s); auto.
  - destruct (Store.get u _); [|exact H]. apply (phase_ext n s); auto.
  - destruct (Store.get u _) as [[text k]|]; [|exact H].
    apply phase_resume_speak. apply (phase_ext n s); auto.
  - destruct (Store.get p _) as [k|]; [|exact H].
    apply phase_resume_submit. apply (phase_ext n s); auto.
  - destruct (_ && _); [|exact H]. unfold handleDoneClick.
    destruct (negb _); [now apply phase_doSubmit | exact H].
  - destruct (mounted s); [|exact H]. unfold unmount. apply phase_cleanupRecording.
    apply (phase_ext n s); auto.
Qed.

Lemma phase_run es : forall n s,
  phase i n s -> phase i (count_fires i es + n) (run es s).
Proof.
  induction es as [|e es IH]; intros n s H; [exact H|].
  rewrite run_cons. cbn [count_fires].
  replace (fires i e + count_fires i es + n)
    with (count_fires i es + (fires i e + n)) by lia.
  apply IH. now apply phase_step.
Qed.

End Ceiling.

Section CeilingFires.

Lemma count_fires_app i es1 es2 :
  count_fires i (es1 ++ es2)%list = count_fires i es1 + count_fires i es2.
Proof. induction es1 as [|e es1 IH]; cbn; [reflexivity | rewrite IH; lia]. Qed.

(** Past its guard, [doSubmit] releases the capture and both timers. *)
Lemma doSubmit_releases s :
  isSubmittingRef (refs s) = false ->
  recognitionRef (refs (doSubmit s)) = None /\
  timerIntervalRef (refs (doSubmit s)) = None /\
  silenceTimeoutRef (refs (doSubmit s)) = None /\
  shouldListenRef (refs (doSubmit s)) = false.
Proof.
  intros Hf. unfold doSubmit. rewrite Hf.
  destruct (falsy _); cbv zeta; rewrite cleanupRecording_flat; cbn; auto.
Qed.

Lemma phase_started s :
  has_SR (host s) = true ->
  forall i, timerIntervalRef (refs (startListeningFn s)) = Some i ->
  phase i 0 (startListeningFn s).
Proof.
  intros HSR i Hi.
  destruct (startListeningFn_spec s HSR)
    as (_ & _ & _ & _ & Hint & Hn & _ & Hf & _ & _ & _ & Htm & _).
  rewrite Hint in Hi. inversion Hi; subst i. split.
  - rewrite Hn. lia.
  - intros _. repeat split; try assumption. rewrite Htm. cbn. lia.
Qed.

End CeilingFires.

(** C3.  Take the countdown interval [i] that [startListeningFn] registers,
    and any sequence of events whatsoever after it in which the interval
    fires one time less than [MAX_RECORD_SECONDS].  If the interval is then
    still registered, no submission is in flight, the displayed counter,
    which started at [MAX_RECORD_SECONDS], is down to 1 at most, and the
    next firing of the interval runs the submit operation past its guard,
    whatever the speech synthesiser reports at that moment ([b]) and however
    often the silence timer was deferred before: capture and both timers are
    released, the interval is gone, the counter shows zero, and a transcript
    that is not empty is sent to the service. *)
Theorem ceiling_timer_ends_listening :
  forall s es i b,
    has_SR (host s) = true ->
    timerIntervalRef (refs (startListeningFn s)) = Some i ->
    count_fires i es = Z.to_nat MAX_RECORD_SECONDS - 1 ->
    let s1 := run (es ++ [SynthSpeaking b])%list (startListeningFn s) in
    alive i s1 ->
    let s2 := step (IntervalFires i) s1 in
    synth_speaking (host s1) = b /\
    isSubmittingRef (refs s1) = false /\
    (timer (view s1) <= 1)%Z /\
    s2 = setTimer 0 (doSubmit s1) /\
    ~ alive i s2 /\
    recognitionRef (refs s2) = None /\
    timerIntervalRef (refs s2) = None /\
    silenceTimeoutRef (refs s2) = None /\
    shouldListenRef (refs s2) = false /\
    timer (view s2) = 0%Z /\
    (trim (transcriptRef (refs s1)) <> "" ->
     requests (host s2) = (requests (host s1) ++ [request_of s1])%list).
Proof.
  intros s es i b HSR Hi Hcount s1 Halive s2.
  pose proof (phase_run i (es ++ [SynthSpeaking b])%list 0 _ (phase_started s HSR i Hi))
    as Hphase.
  rewrite count_fires_app, Hcount in Hphase. cbn [count_fires fires] in Hphase.
  fold s1 in Hphase. destruct Hphase as [_ Hp].
  destruct (Hp Halive) as (Href & Hflag & Htimer).
  assert (Hle : (timer (view s1) <=? 1)%Z = true).
  { apply Z.leb_le. unfold MAX_RECORD_SECONDS in Htimer. lia. }
  assert (E : s2 = setTimer 0 (doSubmit s1)).
  { subst s2. cbn [step]. unfold alive in Halive.
    destruct (find_interval i s1); [|now elim Halive].
    unfold countdown_callback. cbv zeta. now rewrite Hle, Hflag. }
  destruct (doSubmit_releases s1 Hflag) as (R1 & R2 & R3 & R4).
  split.
  { subst s1. now rewrite run_app. }
  split; [exact Hflag|].
  split; [apply Z.leb_le; exact Hle|].
  split; [exact E|].
  rewrite E.
  split.
  { unfold alive. intros Hn. apply Hn.
    change (find_interval i (doSubmit s1) = None).
    apply (ended_by_doSubmit i (Z.to_nat MAX_RECORD_SECONDS - 1 + 0 + 0)); [|exact Hflag].
    split; [|intros _; repeat split; assumption].
    pose proof (phase_run i (es ++ [SynthSpeaking b])%list 0 _
                  (phase_started s HSR i Hi)) as [Hlt _].
    exact Hlt. }
  repeat split; try assumption.
  intros Hanswer. cbn.
  rewrite doSubmit_submits by assumption.
  rewrite cleanupRecording_flat. reflexivity.
Qed.

(** ** One submission at a time *)

Section SingleFlight.

Lemma single_flight_ext s s' :
  flight_of s' = flight_of s -> single_flight s -> single_flight s'.
Proof.
  unfold flight_of, single_flight. intros E. inversion E as [[E1 E2]].
  now rewrite E1, E2.
Qed.

Lemma flight_resetSilenceTimer s : flight_of (resetSilenceTimer s) = flight_of s.
Proof. rewrite resetSilenceTimer_flat. reflexivity. Qed.

Lemma flight_recognition_onresult c e s :
  flight_of (recognition_onresult c e s) = flight_of s.
Proof.
  unfold recognition_onresult.
  destruct (Store.get c _); [|reflexivity].
  destruct (for_results _ _ _ _). cbv zeta.
  now rewrite flight_resetSilenceTimer.
Qed.

Lemma flight_recognition_onerror err s :
  flight_of (recognition_onerror err s) = flight_of s.
Proof. unfold recognition_onerror. destruct (_ && _); reflexivity. Qed.

Lemma flight_recognition_onend c s :
  flight_of (recognition_onend c s) = flight_of s.
Proof.
  unfold recognition_onend.
  destruct (_ && _); [|reflexivity].
  destruct (has_SR _); [|reflexivity].
  destruct (Store.get c _); reflexivity.
Qed.

(** The check and the set of the flag sit in one synchronous step with the
    call to the service. *)
Lemma single_flight_doSubmit s : single_flight s -> single_flight (doSubmit s).
Proof.
  intros H. destruct (isSubmittingRef (refs s)) eqn:Hf.
  - now rewrite doSubmit_guarded.
  - destruct H as [H|[H _]]; [|congruence].
    destruct (string_dec (trim (transcriptRef (refs s))) "") as [He|He].
    + left. pose proof (posted_doSubmit_false_start s Hf He) as E.
      apply (f_equal snd) in E. cbn in E. now rewrite E.
    + right. rewrite doSubmit_submits by assumption.
      rewrite cleanupRecording_flat. cbn. rewrite H. split; reflexivity.
Qed.

Lemma single_flight_step e s :
  is_trigger e s -> single_flight s -> single_flight (step e s).
Proof.
  intros He H. destruct e; cbn [step is_trigger] in *; try contradiction.
  - destruct (find_timeout id s) as [t|]; [|exact H].
    rewrite He. cbn [run_callback]. unfold silenceTimeout_callback.
    destruct (speechSynthesis_speaking _).
    + eapply single_flight_ext; [apply flight_resetSilenceTimer|].
      eapply single_flight_ext; [|exact H]. reflexivity.
    + destruct (_ && _).
      * apply single_flight_doSubmit.
        eapply single_flight_ext; [|exact H]. reflexivity.
      * eapply single_flight_ext; [|exact H]. reflexivity.
  - destruct (find_interval id s); [|exact H].
    unfold countdown_callback. cbv zeta. destruct (_ <=? _)%Z.
    + destruct (negb _).
      * eapply single_flight_ext; [|apply single_flight_doSubmit, H]. reflexivity.
      * eapply single_flight_ext; [|exact H]. reflexivity.
    + eapply single_flight_ext; [|exact H]. reflexivity.
  - destruct (Store.get r _) as [o|]; [|exact H].
    destruct (rec_state o), (onresult o); try exact H.
    eapply single_flight_ext; [apply flight_recognition_onresult | exact H].
  - destruct (Store.get r _) as [o|]; [|exact H].
    destruct (rec_state o), (onerror o); try exact H;
      (eapply single_flight_ext; [apply flight_recognition_onerror | exact H]).
  - destruct (Store.get r _) as [o|]; [|exact H].
    destruct (rec_state o); try exact H;
      (destruct (onend o);
       [eapply single_flight_ext; [apply flight_recognition_onend|]|];
       (eapply single_flight_ext; [|exact H]); reflexivity).
  - eapply single_flight_ext; [|exact H]. reflexivity.
  - destruct (_ && _); [|exact H]. unfold handleDoneClick.
    destruct (negb _); [now apply single_flight_doSubmit | exact H].
Qed.

(** Under triggers alone, whatever their interleaving, at most one
    submission is in flight. *)
Lemma single_flight_under_triggers es : forall s,
  triggers es s -> single_flight s -> single_flight (run es s).
Proof.
  induction es as [|e es IH]; intros s Ht H; [exact H|].
  destruct Ht as [He Ht]. rewrite run_cons. apply IH; [exact Ht|].
  now apply single_flight_step.
Qed.

End SingleFlight.

(** * A session, step by step *)

(** C1, at the input where the code departs from it.  With a submission in
    flight and its flag set, the second restart timer of a double false
    start runs [startListeningFn], which clears the flag although the
    request is still pending; the next click then sends a second request for
    the same turn while the first is outstanding. *)
Theorem restart_timer_reopens_the_guard :
  let s1 := run first_answer example_listening in
  let s2 := step (TimeoutFires 8) s1 in
  let s3 := run second_answer s2 in
  (isSubmittingRef (refs s1) = true /\ map fst (inflight (host s1)) = [14]) /\
  (isSubmittingRef (refs s2) = false /\ map fst (inflight (host s2)) = [14]) /\
  map fst (inflight (host s3)) = [14; 20] /\
  map current_answer (requests (host s3)) = ["Hello"; "again"] /\
  map current_question (requests (host s3)) =
    [firstQuestion example_props; firstQuestion example_props] /\
  questionNumberRef (refs s3) = 1%Z /\
  ~ single_flight s3.
Proof.
  vm_compute. repeat split; try reflexivity.
  intros [H|[_ H]]; discriminate H.
Qed.

(** The component offers no retry signal.  In the example session, once the
    service has rejected the first answer the flag is clear and the answer
    is still held by the ref, yet whatever events follow, no request is sent
    and the status stays [idle]: the done button is not rendered, both
    timers are cleared and the recognition object is aborted. *)
Theorem rejection_leaves_no_retry_signal :
  forall es,
    let s := run es example_rejected in
    isSubmittingRef (refs example_rejected) = false /\
    trim (transcriptRef (refs example_rejected)) = "Hello" /\
    requests (host s) = requests (host example_rejected) /\
    length (requests (host s)) = 1 /\
    status (view s) = idle.
Proof.
  intros es s.
  assert (H : quiescent example_rejected)
    by (vm_compute; repeat split; repeat constructor; discriminate).
  destruct (quiescent_run es _ H) as ((Hst & _) & E). fold s in Hst, E.
  split; [vm_compute; reflexivity|]. split; [vm_compute; reflexivity|].
  split; [exact E|]. split; [rewrite E; vm_compute; reflexivity | exact Hst].
Qed.

(** C9, against the claim as it was written: a reply that reports a count of
    5 makes the turn number 6, beyond the total, with the session still
    running; and a reply with a final report ends the session after its
    first turn. *)
Lemma turn_number_exceeds_total :
  let s := run over_count example_listening in
  let s' := run early_report example_listening in
  (questionNumber (view s) = 6%Z /\
   ~ (questionNumber (view s) <= TOTAL_QUESTIONS)%Z /\
   completed (host s) = [] /\ status (view s) = speaking) /\
  (completed (host s') = ["report"] /\ questionNumber (view s') = 1%Z).
Proof.
  cbv zeta. split; [split; [|split; [|split]] | split];
    try (vm_compute; reflexivity).
  intros H. vm_compute in H. now apply H.
Qed.

(** C7, against the claim as it was written: the answer that is sent is not
    the transcript.  In the transcript every finalized fragment is followed
    by a space, and the submit operation trims the transcript before it
    sends it: after the candidate said Hello the transcript ends with a
    space and the answer sent does not. *)
Lemma submission_trims_the_transcript :
  let s := example_answered in
  let s1 := doSubmit s in
  isSubmittingRef (refs s) = false /\
  transcriptRef (refs s) = "Hello " /\
  map current_answer (requests (host s1)) = ["Hello"] /\
  map current_answer (requests (host s1)) <> [transcriptRef (refs s)].
Proof.
  cbv zeta. split; [reflexivity|]. split; [reflexivity|].
  split; [vm_compute; reflexivity | vm_compute; discriminate].
Qed.

(** * The theorems at work on the example session *)

Ltac fresh_by_computation := vm_compute; repeat constructor.

Lemma example_listening_fresh : ids_fresh example_listening.
Proof. fresh_by_computation. Defined.

Lemma example_answered_fresh : ids_fresh example_answered.
Proof. fresh_by_computation. Defined.

Lemma example_blank_fresh : ids_fresh example_blank.
Proof. fresh_by_computation. Defined.

Lemma example_listening_wf : capture_wf example_listening.
Proof.
  intros r o Hr. vm_compute in Hr.
  destruct r as [|[|[|[|r]]]]; try discriminate Hr.
  inversion Hr; subst o.
  exists 4. split; [repeat split|].
  exists {| finalTranscript := ""; recognition := 3 |},
         {| continuous := true; interimResults := true; lang := "en-US";
            onresult := Some 4; onerror := Some 4; onend := Some 4;
            rec_state := RecStarted |}.
  repeat split.
Defined.

Lemma silence_timer_defers_while_speaking_witness :
  let s := step (SynthSpeaking true) example_listening in
  let s' := step (TimeoutFires 5) s in
  (ids_fresh s /\
   find_timeout 5 s =
     Some {| t_id := 5; t_delay := SILENCE_TIMEOUT_MS; t_cb := CbSilence |} /\
   speechSynthesis_speaking s = true) /\
  posted_of s' = posted_of s /\
  silenceTimeoutRef (refs s') = Some 7 /\
  view s' = view s.
Proof.
  cbv zeta.
  assert (Hf : ids_fresh (step (SynthSpeaking true) example_listening))
    by fresh_by_computation.
  split; [split; [exact Hf | split; reflexivity]|].
  pose proof (silence_timer_defers_while_speaking
                (step (SynthSpeaking true) example_listening) 5
                {| t_id := 5; t_delay := SILENCE_TIMEOUT_MS; t_cb := CbSilence |}
                Hf eq_refl eq_refl eq_refl) as H.
  cbv zeta in H. destruct H as (H1 & H2 & _ & _ & H5 & _).
  split; [exact H1 | split; [exact H2 | exact H5]].
Defined.

Lemma ceiling_timer_ends_listening_witness :
  let s := mount example_props true true in
  let es := repeat (IntervalFires 5) 119 in
  let s1 := run (es ++ [SynthSpeaking true])%list (startListeningFn s) in
  let s2 := step (IntervalFires 5) s1 in
  (has_SR (host s) = true /\
   timerIntervalRef (refs (startListeningFn s)) = Some 5 /\
   count_fires 5 es = Z.to_nat MAX_RECORD_SECONDS - 1 /\
   alive 5 s1) /\
  s2 = setTimer 0 (doSubmit s1) /\
  ~ alive 5 s2 /\
  timer (view s2) = 0%Z.
Proof.
  cbv zeta.
  assert (Ha : alive 5 (run (repeat (IntervalFires 5) 119 ++ [SynthSpeaking true])%list
                          (startListeningFn (mount example_props true true))))
    by (vm_compute; discriminate).
  assert (Hc : count_fires 5 (repeat (IntervalFires 5) 119) =
               Z.to_nat MAX_RECORD_SECONDS - 1) by (vm_compute; reflexivity).
  split; [split; [reflexivity | split; [reflexivity | split; [exact Hc | exact Ha]]]|].
  pose proof (ceiling_timer_ends_listening (mount example_props true true)
                (repeat (IntervalFires 5) 119) 5 true eq_refl eq_refl Hc Ha) as H.
  cbv zeta in H. destruct H as (_ & _ & _ & H3 & H4 & _ & _ & _ & _ & H9 & _).
  split; [exact H3 | split; [exact H4 | exact H9]].
Defined.

Lemma unexpected_stop_restarts_capture_witness :
  let s := example_listening in
  let o := {| continuous := true; interimResults := true; lang := "en-US";
              onresult := Some 4; onerror := Some 4; onend := Some 4;
              rec_state := RecStarted |} in
  let s' := step (RecEnd 3) s in
  (ids_fresh s /\ capture_wf s /\ has_SR (host s) = true /\
   Store.get 3 (recognizers (host s)) = Some o /\
   shouldListenRef (refs s) = true /\ isSubmittingRef (refs s) = false) /\
  recognitionRef (refs s') = Some 7 /\
  Store.get 7 (recognizers (host s')) = Some o /\
  capture_wf s'.
Proof.
  cbv zeta.
  split; [split; [exact example_listening_fresh
                 | split; [exact example_listening_wf | repeat split]]|].
  pose proof (unexpected_stop_restarts_capture example_listening 3
                {| continuous := true; interimResults := true; lang := "en-US";
                   onresult := Some 4; onerror := Some 4; onend := Some 4;
                   rec_state := RecStarted |}
                example_listening_fresh example_listening_wf eq_refl eq_refl
                (or_introl eq_refl)) as H.
  cbv zeta in H. destruct H as (H1 & _).
  destruct (H1 eq_refl eq_refl) as (_ & H2 & H3 & _ & _ & _ & H7 & _).
  split; [exact H2 | split; [exact H3 | exact H7]].
Defined.

Lemma transcript_is_finalized_then_latest_interim_witness :
  let s := mount example_props true true in
  let interim text := {| resultIndex := 1;
                         results := [{| isFinal := true; alt_transcript := "I" |};
                                     {| isFinal := false; alt_transcript := text |}] |} in
  has_SR (host s) = true /\
  exists r,
    recognitionRef (refs (startListeningFn s)) = Some r /\
    transcriptRef
      (refs (run (map (RecResult r) [final_fragment "I"; interim "th"; interim "think"])
               (startListeningFn s))) = "I think".
Proof.
  cbv zeta. split; [reflexivity|].
  destruct (transcript_is_finalized_then_latest_interim
              (mount example_props true true)
              [final_fragment "I";
               {| resultIndex := 1;
                  results := [{| isFinal := true; alt_transcript := "I" |};
                              {| isFinal := false; alt_transcript := "th" |}] |}]
              {| resultIndex := 1;
                 results := [{| isFinal := true; alt_transcript := "I" |};
                             {| isFinal := false; alt_transcript := "think" |}] |}
              eq_refl) as (r & Hr & Ht & _).
  exists r. split; [exact Hr | exact Ht].
Defined.

Lemma false_start_restarts_listening_witness :
  let s := example_blank in
  let s1 := doSubmit s in
  let s2 := step (TimeoutFires 8) s1 in
  (ids_fresh s /\ isSubmittingRef (refs s) = false /\
   whitespace_only (transcriptRef (refs s)) /\
   transcriptRef (refs s) <> "" /\
   mounted s = true /\ has_SR (host s) = true) /\
  posted_of s1 = posted_of s /\
  error (view s1) = msg_no_speech /\
  status (view s2) = recording /\
  turn_of s2 = turn_of s /\
  posted_of s2 = posted_of s.
Proof.
  cbv zeta.
  assert (Hw : whitespace_only (transcriptRef (refs example_blank)))
    by (apply trim_whitespace; vm_compute; reflexivity).
  split.
  { split; [exact example_blank_fresh|]. split; [reflexivity|].
    split; [exact Hw|]. split; [vm_compute; discriminate|].
    split; reflexivity. }
  pose proof (false_start_restarts_listening example_blank
                example_blank_fresh eq_refl Hw) as H.
  cbv zeta in H. destruct H as (H1 & H2 & _ & _ & _ & _ & H7).
  destruct (H7 eq_refl) as (K1 & K2 & K3 & _).
  destruct (K3 eq_refl) as (_ & K4 & _).
  exact (conj H1 (conj (H2 eq_refl) (conj K4 (conj K2 K1)))).
Defined.

Lemma submission_carries_the_stopped_turn_witness :
  let s := example_padded in
  let s1 := doSubmit s in
  (isSubmittingRef (refs s) = false /\
   ~ whitespace_only (transcriptRef (refs s))) /\
  transcriptRef (refs s) =
    bytes [194; 160] ++ "Hello" ++ bytes [227; 128; 128] ++ " " /\
  map current_answer (requests (host s1)) = ["Hello"] /\
  map current_question (requests (host s1)) = [firstQuestion example_props].
Proof.
  cbv zeta.
  assert (Hne : ~ whitespace_only (transcriptRef (refs example_padded))).
  { intros H. apply trim_whitespace in H. vm_compute in H. discriminate H. }
  split; [split; [reflexivity | exact Hne]|].
  pose proof (submission_carries_the_stopped_turn example_padded eq_refl Hne) as H.
  cbv zeta in H. destruct H as (_ & _ & _ & H1 & _).
  rewrite H1. split; [reflexivity|]. split; [vm_compute; reflexivity | reflexivity].
Defined.


Lemma rejected_submission_can_be_retried_witness :
  let s := example_answered in
  let s2 := step (Settled 8 (Rejected None)) (doSubmit s) in
  (ids_fresh s /\ isSubmittingRef (refs s) = false /\
   trim (transcriptRef (refs s)) <> "") /\
  error (view s2) = msg_failed /\
  status (view s2) = idle /\
  turn_of s2 = turn_of s /\
  isSubmittingRef (refs s2) = false.
Proof.
  cbv zeta.
  assert (Hne : trim (transcriptRef (refs example_answered)) <> "")
    by (vm_compute; discriminate).
  split; [split; [exact example_answered_fresh | split; [reflexivity | exact Hne]]|].
  pose proof (rejected_submission_can_be_retried example_answered None
                example_answered_fresh eq_refl Hne) as H.
  cbv zeta in H. destruct H as (H1 & _ & H3 & _ & H5 & _ & H7 & _).
  exact (conj H1 (conj H3 (conj H5 H7))).
Defined.

Lemma turn_number_follows_service_witness :
  let es := (listening_started ++ in_range)%list in
  let s := run es (mount example_props true true) in
  let data := {| final_report := Some ""; next_question := "Why?";
                 question_count := 2 |} in
  let s' := resume_submit (kont_of example_answered) (Resolved data) s in
  (Forall count_in_range es /\
   Forall (fun e => carries_final_report e = false) es /\
   truthy (final_report data) = None /\
   mounted s = true /\ mounted s' = true /\
   (Z.abs (question_count data) < 2 ^ 52)%Z) /\
  (1 <= questionNumberRef (refs s) <= TOTAL_QUESTIONS)%Z /\
  questionNumber (view s) = questionNumberRef (refs s) /\
  completed (host s) = [] /\
  questionNumberRef (refs s') = 3%Z /\
  questionNumber (view s') = 3%Z.
Proof.
  cbv zeta.
  assert (H1 : Forall count_in_range (listening_started ++ in_range)%list).
  { repeat constructor. cbn. unfold TOTAL_QUESTIONS. lia. }
  assert (H2 : Forall (fun e => carries_final_report e = false)
                 (listening_started ++ in_range)%list) by (repeat constructor).
  split; [repeat split; try assumption; reflexivity|].
  destruct (turn_number_follows_service example_props true true
              (listening_started ++ in_range)%list) as (_ & K1 & K2 & K3).
  destruct (K2 H1) as [Ka Kb].
  destruct (K1 (kont_of example_answered)
              {| final_report := Some ""; next_question := "Why?";
                 question_count := 2 |} eq_refl) as (Kc & Kd & Ke).
  split; [exact Ka|]. split; [exact (Kb eq_refl)|]. split; [exact (K3 H2)|].
  split; [exact Kc | exact (Kd eq_refl)].
Defined.

Lemma false_start_keeps_flag_clear_witness :
  let s := example_blank in
  (isSubmittingRef (refs s) = false /\
   whitespace_only (transcriptRef (refs s)) /\
   transcriptRef (refs s) <> "" /\ mounted s = true) /\
  isSubmittingRef (refs (doSubmit s)) = false /\
  error (view (doSubmit s)) = msg_no_speech /\
  turn_of (doSubmit s) = turn_of s /\
  posted_of (doSubmit s) = posted_of s.
Proof.
  cbv zeta.
  assert (Hw : whitespace_only (transcriptRef (refs example_blank)))
    by (apply trim_whitespace; vm_compute; reflexivity).
  split.
  { split; [reflexivity|]. split; [exact Hw|].
    split; [vm_compute; discriminate | reflexivity]. }
  pose proof (false_start_keeps_flag_clear example_blank eq_refl Hw) as H.
  cbv zeta in H. destruct H as (E & _ & _ & H4 & _ & H6 & _ & H8 & H9 & _).
  rewrite E. split; [exact H4|]. split; [|exact (conj H8 H9)].
  rewrite (H6 eq_refl). reflexivity.
Defined.

(** * Sessions as a whole *)

(** ** Stores and lists *)

Section SmallStores.

Lemma get_single {V} k (v : V) : Store.get k [(k, v)] = Some v.
Proof. unfold Store.get. now rewrite Nat.eqb_refl. Qed.

Lemma remove_single {V} k (v : V) : Store.remove k [(k, v)] = [].
Proof. unfold Store.remove. now rewrite Nat.eqb_refl. Qed.

Lemma single_removed {V} k (v : V) l :
  length l = 1 -> Store.get k l = Some v -> Store.remove k l = [].
Proof.
  destruct l as [|[k' v'] [|y l]]; try discriminate. intros _.
  unfold Store.get, Store.remove. destruct (Nat.eqb k k'); [reflexivity | discriminate].
Qed.

Lemma get_not_nil {V} k (v : V) l : Store.get k l = Some v -> l <> [].
Proof. destruct l; [discriminate | congruence]. Qed.

Lemma length_zero_nil {A} (l : list A) : length l = 0 -> l = [].
Proof. destruct l; [reflexivity | discriminate]. Qed.

Lemma not_nil_length {A} (l : list A) : l <> [] -> 0 < length l.
Proof. destruct l; [congruence | simpl; lia]. Qed.

End SmallStores.

(** ** The display follows the refs *)

Section InStep.

Ltac in_step_tac :=
  unfold in_step in *; cbn;
  repeat match goal with H : _ /\ _ |- _ => destruct H end;
  repeat split; try assumption; try reflexivity; try (unfold MAX_RECORD_SECONDS in *; lia).

Lemma in_step_cleanupRecording s : in_step s -> in_step (cleanupRecording s).
Proof. intros H. rewrite cleanupRecording_flat. in_step_tac. Qed.

Lemma in_step_resetSilenceTimer s : in_step s -> in_step (resetSilenceTimer s).
Proof. intros H. rewrite resetSilenceTimer_flat. in_step_tac. Qed.

Lemma in_step_doSubmit s : in_step s -> in_step (doSubmit s).
Proof.
  intros H. unfold doSubmit. destruct (isSubmittingRef (refs s)); [exact H|].
  destruct (falsy _); cbv zeta.
  - assert (K : in_step (cleanupRecording (setError msg_no_speech s)))
      by (apply in_step_cleanupRecording; in_step_tac).
    revert K. generalize (cleanupRecording (setError msg_no_speech s)).
    intros s1 K. in_step_tac.
  - assert (K : in_step (cleanupRecording (set_isSubmittingRef true s)))
      by (apply in_step_cleanupRecording; in_step_tac).
    revert K. generalize (cleanupRecording (set_isSubmittingRef true s)).
    intros s1 K. in_step_tac.
Qed.

Lemma in_step_silenceTimeout_callback s :
  in_step s -> in_step (silenceTimeout_callback s).
Proof.
  intros H. unfold silenceTimeout_callback.
  destruct (speechSynthesis_speaking s); [now apply in_step_resetSilenceTimer|].
  destruct (_ && _); [now apply in_step_doSubmit | exact H].
Qed.

Lemma in_step_countdown_callback s : in_step s -> in_step (countdown_callback s).
Proof.
  intros H. unfold countdown_callback. cbv zeta.
  destruct (_ <=? _)%Z eqn:E.
  - assert (K : in_step (if negb (isSubmittingRef (refs s)) then doSubmit s else s))
      by (destruct (negb _); [now apply in_step_doSubmit | exact H]).
    revert K. generalize (if negb (isSubmittingRef (refs s)) then doSubmit s else s).
    intros s1 K. in_step_tac.
  - apply Z.leb_gt in E. in_step_tac.
Qed.

Lemma in_step_recognition_onresult c e s :
  in_step s -> in_step (recognition_onresult c e s).
Proof.
  intros H. unfold recognition_onresult.
  destruct (Store.get c _); [|exact H].
  destruct (for_results _ _ _ _) as [fin interim]. cbv zeta.
  apply in_step_resetSilenceTimer. in_step_tac.
Qed.

Lemma in_step_recognition_onerror err s :
  in_step s -> in_step (recognition_onerror err s).
Proof.
  intros H. unfold recognition_onerror. destruct (_ && _); [|exact H]. in_step_tac.
Qed.

Lemma in_step_recognition_onend c s :
  in_step s -> in_step (recognition_onend c s).
Proof.
  intros H. unfold recognition_onend.
  destruct (shouldListenRef (refs s)) eqn:E1; [|exact H].
  destruct (isSubmittingRef (refs s)); cbn [negb andb]; [exact H|].
  destruct (has_SR _); [|exact H].
  destruct (Store.get c _); [|exact H].
  in_step_tac; congruence.
Qed.

Lemma in_step_startListeningFn s : in_step s -> in_step (startListeningFn s).
Proof.
  intros H. unfold startListeningFn.
  destruct (has_SR (host s)); cbn [negb]; [|in_step_tac].
  rewrite cleanupRecording_flat. in_step_tac.
Qed.

Lemma in_step_resume_speak k s : in_step s -> in_step (resume_speak k s).
Proof.
  intros H. destruct k; cbn [resume_speak].
  - destruct (cancelled (host s)); [exact H | now apply in_step_startListeningFn].
  - in_step_tac.
  - now apply in_step_startListeningFn.
Qed.

Lemma in_step_speakQuestion text k s : in_step s -> in_step (speakQuestion text k s).
Proof.
  intros H. unfold speakQuestion. destruct (has_synth (host s)); cbn [negb].
  - in_step_tac.
  - now apply in_step_resume_speak.
Qed.

Lemma in_step_resume_submit k reply s : in_step s -> in_step (resume_submit k reply s).
Proof.
  intros H. destruct reply as [data|message]; cbn [resume_submit].
  - destruct (truthy (final_report data)); [now apply in_step_speakQuestion|].
    cbv zeta. apply in_step_speakQuestion. in_step_tac.
  - in_step_tac.
Qed.

Lemma in_step_run_callback cb s : in_step s -> in_step (run_callback cb s).
Proof.
  intros H. destruct cb; cbn [run_callback].
  - unfold init_after_delay. destruct (cancelled (host s)); [exact H|].
    apply in_step_speakQuestion. in_step_tac.
  - now apply in_step_silenceTimeout_callback.
  - unfold restart_callback. apply in_step_startListeningFn. in_step_tac.
Qed.

Lemma in_step_step e s : in_step s -> in_step (step e s).
Proof.
  intros H. destruct e; cbn [step].
  - destruct (find_timeout id s); [|exact H].
    apply in_step_run_callback. in_step_tac.
  - destruct (find_interval id s); [|exact H]. now apply in_step_countdown_callback.
  - destruct (Store.get r _) as [o|]; [|exact H].
    destruct (rec_state o), (onresult o); try exact H.
    now apply in_step_recognition_onresult.
  - destruct (Store.get r _) as [o|]; [|exact H].
    destruct (rec_state o), (onerror o); try exact H;
      now apply in_step_recognition_onerror.
  - destruct (Store.get r _) as [o|]; [|exact H].
    assert (K : in_step (update_recognition r (set_rec_state RecEnded) s))
      by in_step_tac.
    destruct (rec_state o); try exact H;
      (destruct (onend o); [now apply in_step_recognition_onend | exact K]).
  - in_step_tac.
  - destruct (Store.get u _); [|exact H]. in_step_tac.
  - destruct (Store.get u _) as [[text k]|]; [|exact H].
    apply in_step_resume_speak. in_step_tac.
  - destruct (Store.get p _) as [k|]; [|exact H].
    apply in_step_resume_submit. in_step_tac.
  - destruct (_ && _); [|exact H]. unfold handleDoneClick.
    destruct (negb _); [now apply in_step_doSubmit | exact H].
  - destruct (mounted s); [|exact H].
    unfold unmount. apply in_step_cleanupRecording. in_step_tac.
Qed.

Lemma in_step_mount p sr synth : in_step (mount p sr synth).
Proof. unfold mount. destruct sr; in_step_tac. Qed.

Lemma in_step_run es p sr synth : in_step (run es (mount p sr synth)).
Proof.
  apply (run_invariant in_step (fun _ => True)).
  - intros e s _ H. now apply in_step_step.
  - now apply Forall_forall.
  - apply in_step_mount.
Qed.

End InStep.

(** ** The timers are tracked *)

Section TimersTracked.

Lemma timers_tracked_timing s ts ivs sref iref :
  timing_of s = (ts, ivs, sref, iref) ->
  tracked ts ivs sref iref -> timers_tracked s.
Proof.
  unfold timing_of, timers_tracked. intros E. inversion E. trivial.
Qed.

Lemma filter_comm {A} (f g : A -> bool) l :
  filter f (filter g l) = filter g (filter f l).
Proof.
  induction l as [|x l IH]; [reflexivity|]. simpl.
  destruct (f x) eqn:Ef, (g x) eqn:Eg; simpl; rewrite ?Ef, ?Eg, IH; reflexivity.
Qed.

Lemma silence_timers_app l1 l2 :
  silence_timers (l1 ++ l2)%list = (silence_timers l1 ++ silence_timers l2)%list.
Proof. apply filter_app. Qed.

Lemma silence_timers_cleared ts ivs sref iref :
  tracked ts ivs sref iref ->
  silence_timers (without_timeout sref ts) = [] /\
  without_interval iref ivs = [].
Proof.
  intros [Hs Hi]. split.
  - destruct sref as [k|]; cbn [without_timeout].
    + unfold silence_timers in *. rewrite filter_comm.
      destruct Hs as [Hs|(id & Hid & Hs)]; rewrite Hs; [reflexivity|].
      inversion Hid; subst id. cbn. now rewrite Nat.eqb_refl.
    + destruct Hs as [Hs|(id & Hid & _)]; [exact Hs | discriminate Hid].
  - destruct iref as [k|]; cbn [without_interval].
    + destruct Hi as [Hi|(id & Hid & Hi)]; rewrite Hi; [reflexivity|].
      inversion Hid; subst id. cbn. now rewrite Nat.eqb_refl.
    + destruct Hi as [Hi|(id & Hid & _)]; [exact Hi | discriminate Hid].
Qed.

Lemma tracked_cleanup ts ivs sref iref :
  tracked ts ivs sref iref ->
  tracked (without_timeout sref ts) (without_interval iref ivs) None None.
Proof.
  intros H. destruct (silence_timers_cleared _ _ _ _ H) as (H1 & H2).
  split; left; assumption.
Qed.

Lemma tracked_listen ts ivs sref iref a b :
  tracked ts ivs sref iref ->
  tracked
    (without_timeout sref ts ++
     [{| t_id := a; t_delay := SILENCE_TIMEOUT_MS; t_cb := CbSilence |}])%list
    (without_interval iref ivs ++ [{| i_id := b; i_period := 1000 |}])%list
    (Some a) (Some b).
Proof.
  intros H. destruct (silence_timers_cleared _ _ _ _ H) as (H1 & H2).
  split; right.
  - exists a. split; [reflexivity|]. now rewrite silence_timers_app, H1.
  - exists b. split; [reflexivity|]. now rewrite H2.
Qed.

Lemma tracked_reset ts ivs sref iref a :
  tracked ts ivs sref iref ->
  tracked
    (without_timeout sref ts ++
     [{| t_id := a; t_delay := SILENCE_TIMEOUT_MS; t_cb := CbSilence |}])%list
    ivs (Some a) iref.
Proof.
  intros H. destruct (silence_timers_cleared _ _ _ _ H) as (H1 & _).
  split; [right | apply H].
  exists a. split; [reflexivity|]. now rewrite silence_timers_app, H1.
Qed.

Lemma tracked_other ts ivs sref iref id d cb :
  is_silence cb = false ->
  tracked ts ivs sref iref ->
  tracked (ts ++ [{| t_id := id; t_delay := d; t_cb := cb |}])%list ivs sref iref.
Proof.
  intros Hcb [Hs Hi]. split; [|exact Hi].
  rewrite silence_timers_app. unfold silence_timers at 2. cbn. rewrite Hcb.
  now rewrite app_nil_r.
Qed.

Lemma tracked_cleared ts ivs sref iref id :
  tracked ts ivs sref iref ->
  tracked (filter (fun t => negb (Nat.eqb (t_id t) id)) ts) ivs sref iref.
Proof.
  intros [Hs Hi]. split; [|exact Hi].
  unfold silence_timers in *. rewrite filter_comm.
  destruct Hs as [Hs|(k & Hk & Hs)]; rewrite Hs; [now left|].
  cbn. destruct (Nat.eqb k id); cbn; [now left | right; now exists k].
Qed.

Lemma timers_tracked_cleanupRecording s :
  timers_tracked s -> timers_tracked (cleanupRecording s).
Proof. intros H. rewrite cleanupRecording_flat. now apply tracked_cleanup. Qed.

Lemma timers_tracked_resetSilenceTimer s :
  timers_tracked s -> timers_tracked (resetSilenceTimer s).
Proof. intros H. rewrite resetSilenceTimer_flat. now apply tracked_reset. Qed.

Lemma timers_tracked_doSubmit s : timers_tracked s -> timers_tracked (doSubmit s).
Proof.
  intros H. unfold doSubmit. destruct (isSubmittingRef (refs s)); [exact H|].
  destruct (falsy _); cbv zeta; rewrite cleanupRecording_flat.
  - apply (tracked_other _ _ _ _ _ _ CbRestart eq_refl). now apply tracked_cleanup.
  - now apply tracked_cleanup.
Qed.

Lemma timers_tracked_silenceTimeout_callback s :
  timers_tracked s -> timers_tracked (silenceTimeout_callback s).
Proof.
  intros H. unfold silenceTimeout_callback.
  destruct (speechSynthesis_speaking s); [now apply timers_tracked_resetSilenceTimer|].
  destruct (_ && _); [now apply timers_tracked_doSubmit | exact H].
Qed.

Lemma timers_tracked_countdown_callback s :
  timers_tracked s -> timers_tracked (countdown_callback s).
Proof.
  intros H. unfold countdown_callback. cbv zeta.
  destruct (_ <=? _)%Z; [|exact H].
  destruct (negb _); [|exact H].
  change (timers_tracked (doSubmit s)). now apply timers_tracked_doSubmit.
Qed.

Lemma timers_tracked_recognition_onresult c e s :
  timers_tracked s -> timers_tracked (recognition_onresult c e s).
Proof.
  intros H. unfold recognition_onresult.
  destruct (Store.get c _); [|exact H].
  destruct (for_results _ _ _ _) as [fin interim]. cbv zeta.
  apply timers_tracked_resetSilenceTimer. exact H.
Qed.

Lemma timers_tracked_recognition_onerror err s :
  timers_tracked s -> timers_tracked (recognition_onerror err s).
Proof. intros H. unfold recognition_onerror. destruct (_ && _); exact H. Qed.

Lemma timers_tracked_recognition_onend c s :
  timers_tracked s -> timers_tracked (recognition_onend c s).
Proof.
  intros H. unfold recognition_onend.
  destruct (_ && _); [|exact H].
  destruct (has_SR _); [|exact H].
  destruct (Store.get c _); exact H.
Qed.

Lemma timing_startListeningFn s :
  has_SR (host s) = true ->
  let n := next_id (host s) in
  timing_of (startListeningFn s) =
  ((without_timeout (silenceTimeoutRef (refs s)) (timeouts (host s)) ++
    [{| t_id := S (S n); t_delay := SILENCE_TIMEOUT_MS; t_cb := CbSilence |}])%list,
   (without_interval (timerIntervalRef (refs s)) (intervals (host s)) ++
    [{| i_id := S (S (S n)); i_period := 1000 |}])%list,
   Some (S (S n)), Some (S (S (S n)))).
Proof.
  intros HSR. unfold startListeningFn. rewrite HSR. cbn [negb].
  rewrite cleanupRecording_flat. reflexivity.
Qed.

Lemma timers_tracked_startListeningFn s :
  timers_tracked s -> timers_tracked (startListeningFn s).
Proof.
  intros H. destruct (has_SR (host s)) eqn:HSR.
  - eapply timers_tracked_timing; [apply timing_startListeningFn, HSR|].
    now apply tracked_listen.
  - rewrite startListeningFn_unsupported by exact HSR. exact H.
Qed.

Lemma timers_tracked_resume_speak k s :
  timers_tracked s -> timers_tracked (resume_speak k s).
Proof.
  intros H. destruct k; cbn [resume_speak].
  - destruct (cancelled (host s)); [exact H | now apply timers_tracked_startListeningFn].
  - exact H.
  - now apply timers_tracked_startListeningFn.
Qed.

Lemma timers_tracked_speakQuestion text k s :
  timers_tracked s -> timers_tracked (speakQuestion text k s).
Proof.
  intros H. unfold speakQuestion. destruct (has_synth (host s)); cbn [negb].
  - exact H.
  - now apply timers_tracked_resume_speak.
Qed.

Lemma timers_tracked_resume_submit k reply s :
  timers_tracked s -> timers_tracked (resume_submit k reply s).
Proof.
  intros H. destruct reply as [data|message]; cbn [resume_submit]; [|exact H].
  destruct (truthy (final_report data)); [now apply timers_tracked_speakQuestion|].
  cbv zeta. apply timers_tracked_speakQuestion. exact H.
Qed.

Lemma timers_tracked_run_callback cb s :
  timers_tracked s -> timers_tracked (run_callback cb s).
Proof.
  intros H. destruct cb; cbn [run_callback].
  - unfold init_after_delay. destruct (cancelled (host s)); [exact H|].
    apply timers_tracked_speakQuestion. exact H.
  - now apply timers_tracked_silenceTimeout_callback.
  - unfold restart_callback. apply timers_tracked_startListeningFn. exact H.
Qed.

Lemma timers_tracked_step e s : timers_tracked s -> timers_tracked (step e s).
Proof.
  intros H. destruct e; cbn [step].
  - destruct (find_timeout id s); [|exact H].
    apply timers_tracked_run_callback. now apply tracked_cleared.
  - destruct (find_interval id s); [|exact H].
    now apply timers_tracked_countdown_callback.
  - destruct (Store.get r _) as [o|]; [|exact H].
    destruct (rec_state o), (onresult o); try exact H.
    now apply timers_tracked_recognition_onresult.
  - destruct (Store.get r _) as [o|]; [|exact H].
    destruct (rec_state o), (onerror o); try exact H;
      now apply timers_tracked_recognition_onerror.
  - destruct (Store.get r _) as [o|]; [|exact H].
    destruct (rec_state o); try exact H;
      (destruct (onend o); [apply timers_tracked_recognition_onend|]; exact H).
  - exact H.
  - destruct (Store.get u _); exact H.
  - destruct (Store.get u _) as [[text k]|]; [|exact H].
    apply timers_tracked_resume_speak. exact H.
  - destruct (Store.get p _) as [k|]; [|exact H].
    apply timers_tracked_resume_submit. exact H.
  - destruct (_ && _); [|exact H]. unfold handleDoneClick.
    destruct (negb _); [now apply timers_tracked_doSubmit | exact H].
  - destruct (mounted s); [|exact H].
    unfold unmount. apply timers_tracked_cleanupRecording. exact H.
Qed.

Lemma timers_tracked_mount p sr synth : timers_tracked (mount p sr synth).
Proof. unfold mount. destruct sr; split; now left. Qed.

Lemma timers_tracked_run es p sr synth : timers_tracked (run es (mount p sr synth)).
Proof.
  apply (run_invariant timers_tracked (fun _ => True)).
  - intros e s _ H. now apply timers_tracked_step.
  - now apply Forall_forall.
  - apply timers_tracked_mount.
Qed.

End TimersTracked.

(** ** The requests are well formed *)

Section RequestsOk.

Variable p : Props.

Lemma requests_ok_ext s s' :
  sending_of s' = sending_of s -> requests_ok p s -> requests_ok p s'.
Proof.
  unfold sending_of, requests_ok. intros E. inversion E as [[E1 E2 E3 E4 E5]].
  now rewrite E1, E2, E3, E4, E5.
Qed.

Lemma sending_cleanupRecording s : sending_of (cleanupRecording s) = sending_of s.
Proof. rewrite cleanupRecording_flat. reflexivity. Qed.

Lemma sending_resetSilenceTimer s : sending_of (resetSilenceTimer s) = sending_of s.
Proof. rewrite resetSilenceTimer_flat. reflexivity. Qed.

Lemma sending_startListeningFn s : sending_of (startListeningFn s) = sending_of s.
Proof.
  unfold startListeningFn. destruct (has_SR (host s)); cbn [negb]; [|reflexivity].
  rewrite cleanupRecording_flat. reflexivity.
Qed.

Lemma requests_ok_doSubmit s : requests_ok p s -> requests_ok p (doSubmit s).
Proof.
  intros H. destruct (isSubmittingRef (refs s)) eqn:Hflag;
    [now rewrite doSubmit_guarded|].
  destruct (falsy (trim (transcriptRef (refs s)))) eqn:Hanswer.
  - apply falsy_true in Hanswer.
    rewrite doSubmit_false_start by assumption.
    eapply requests_ok_ext; [|exact H].
    rewrite cleanupRecording_flat. reflexivity.
  - assert (Hne : trim (transcriptRef (refs s)) <> "")
      by (intros E; rewrite E in Hanswer; discriminate Hanswer).
    rewrite doSubmit_submits by assumption. rewrite cleanupRecording_flat.
    destruct H as (Hp & Hr & Hi & Hl).
    unfold requests_ok, submitAnswer. cbn.
    split; [exact Hp|]. split; [|split; [|exact Hl]].
    + apply Forall_app. split; [exact Hr|]. constructor; [|constructor].
      unfold request_ok, request_of. cbn. rewrite Hp. auto.
    + apply Forall_app. split; [exact Hi|]. constructor; [|constructor].
      exact Hl.
Qed.

Lemma requests_ok_silenceTimeout_callback s :
  requests_ok p s -> requests_ok p (silenceTimeout_callback s).
Proof.
  intros H. unfold silenceTimeout_callback.
  destruct (speechSynthesis_speaking s);
    [eapply requests_ok_ext; [apply sending_resetSilenceTimer | exact H]|].
  destruct (_ && _); [now apply requests_ok_doSubmit | exact H].
Qed.

Lemma requests_ok_countdown_callback s :
  requests_ok p s -> requests_ok p (countdown_callback s).
Proof.
  intros H. unfold countdown_callback. cbv zeta.
  destruct (_ <=? _)%Z; [|exact H].
  destruct (negb _); [|exact H].
  change (requests_ok p (doSubmit s)). now apply requests_ok_doSubmit.
Qed.

Lemma sending_recognition_onresult c e s :
  sending_of (recognition_onresult c e s) = sending_of s.
Proof.
  unfold recognition_onresult.
  destruct (Store.get c _); [|reflexivity].
  destruct (for_results _ _ _ _). cbv zeta.
  now rewrite sending_resetSilenceTimer.
Qed.

Lemma sending_recognition_onerror err s :
  sending_of (recognition_onerror err s) = sending_of s.
Proof. unfold recognition_onerror. destruct (_ && _); reflexivity. Qed.

Lemma sending_recognition_onend c s :
  sending_of (recognition_onend c s) = sending_of s.
Proof.
  unfold recognition_onend.
  destruct (_ && _); [|reflexivity].
  destruct (has_SR _); [|reflexivity].
  destruct (Store.get c _); reflexivity.
Qed.

Lemma sending_resume_speak k s : sending_of (resume_speak k s) = sending_of s.
Proof.
  destruct k; cbn [resume_speak].
  - destruct (cancelled (host s)); [reflexivity | apply sending_startListeningFn].
  - reflexivity.
  - apply sending_startListeningFn.
Qed.

Lemma sending_speakQuestion text k s :
  sending_of (speakQuestion text k s) = sending_of s.
Proof.
  unfold speakQuestion. destruct (has_synth (host s)); cbn [negb].
  - reflexivity.
  - apply sending_resume_speak.
Qed.

Lemma requests_ok_resume_submit k reply s :
  length (k_prevQ k) = length (k_prevA k) ->
  requests_ok p s -> requests_ok p (resume_submit k reply s).
Proof.
  intros Hk H. destruct reply as [data|message]; cbn [resume_submit].
  - destruct (truthy (final_report data));
      [eapply requests_ok_ext; [apply sending_speakQuestion | exact H]|].
    cbv zeta. eapply requests_ok_ext; [apply sending_speakQuestion|].
    destruct H as (Hp & Hr & Hi & Hl).
    repeat split; try assumption. cbn. rewrite !length_app, Hk. reflexivity.
  - eapply requests_ok_ext; [|exact H]. reflexivity.
Qed.

Lemma sending_run_callback cb s :
  requests_ok p s -> requests_ok p (run_callback cb s).
Proof.
  intros H. destruct cb; cbn [run_callback].
  - unfold init_after_delay. destruct (cancelled (host s)); [exact H|].
    eapply requests_ok_ext; [|exact H]. now rewrite sending_speakQuestion.
  - now apply requests_ok_silenceTimeout_callback.
  - unfold restart_callback. eapply requests_ok_ext; [|exact H].
    now rewrite sending_startListeningFn.
Qed.

Lemma requests_ok_step e s : requests_ok p s -> requests_ok p (step e s).
Proof.
  intros H. destruct e; cbn [step].
  - destruct (find_timeout id s); [|exact H].
    apply sending_run_callback. eapply requests_ok_ext; [|exact H]. reflexivity.
  - destruct (find_interval id s); [|exact H].
    now apply requests_ok_countdown_callback.
  - destruct (Store.get r _) as [o|]; [|exact H].
    destruct (rec_state o), (onresult o); try exact H.
    eapply requests_ok_ext; [apply sending_recognition_onresult | exact H].
  - destruct (Store.get r _) as [o|]; [|exact H].
    destruct (rec_state o), (onerror o); try exact H;
      (eapply requests_ok_ext; [apply sending_recognition_onerror | exact H]).
  - destruct (Store.get r _) as [o|]; [|exact H].
    destruct (rec_state o); try exact H;
      (destruct (onend o);
       [eapply requests_ok_ext; [apply sending_recognition_onend|]|];
       (eapply requests_ok_ext; [|exact H]); reflexivity).
  - eapply requests_ok_ext; [|exact H]. reflexivity.
  - destruct (Store.get u _); [|exact H].
    eapply requests_ok_ext; [|exact H]. reflexivity.
  - destruct (Store.get u _) as [[text k]|]; [|exact H].
    eapply requests_ok_ext; [|exact H]. now rewrite sending_resume_speak.
  - destruct (Store.get p0 _) as [k|] eqn:E; [|exact H].
    destruct H as (Hp & Hr & Hi & Hl).
    apply requests_ok_resume_submit.
    + apply get_In in E. rewrite Forall_forall in Hi. exact (Hi _ E).
    + repeat split; try assumption. cbn.
      now apply Forall_remove.
  - destruct (_ && _); [|exact H]. unfold handleDoneClick.
    destruct (negb _); [now apply requests_ok_doSubmit | exact H].
  - destruct (mounted s); [|exact H].
    unfold unmount. eapply requests_ok_ext; [|exact H].
    now rewrite sending_cleanupRecording.
Qed.

End RequestsOk.

Lemma requests_ok_mount p sr synth : requests_ok p (mount p sr synth).
Proof. unfold mount. destruct sr; repeat split; constructor. Qed.

Lemma requests_ok_run es p sr synth : requests_ok p (run es (mount p sr synth)).
Proof.
  apply (run_invariant (requests_ok p) (fun _ => True)).
  - intros e s _ H. now apply requests_ok_step.
  - now apply Forall_forall.
  - apply requests_ok_mount.
Qed.

(** ** The reports come from replies *)

Section Reported.

Lemma reported_spoken R s s' :
  spoken_of s' = spoken_of s -> reported R s -> reported R s'.
Proof.
  unfold spoken_of, reported. intros H. inversion H as [[H1 H2]].
  now rewrite H1, H2.
Qed.

Lemma reported_more R R' s : reported R s -> reported (R ++ R')%list s.
Proof.
  intros [H1 H2]. split.
  - eapply Forall_impl; [|exact H1]. intros r Hr. apply in_or_app. now left.
  - eapply Forall_impl; [|exact H2]. intros u Hu.
    eapply Forall_impl; [|exact Hu]. intros r Hr. apply in_or_app. now left.
Qed.

Lemma reported_resume_speak R k s :
  Forall (fun r => In r R) (report_of_kont k) ->
  reported R s -> reported R (resume_speak k s).
Proof.
  intros Hk H. destruct k; cbn [resume_speak].
  - destruct (cancelled (host s)); [exact H|].
    eapply reported_spoken; [apply spoken_startListeningFn | exact H].
  - destruct H as [H1 H2]. split; [|exact H2]. cbn.
    apply Forall_app. split; [exact H1 | exact Hk].
  - eapply reported_spoken; [apply spoken_startListeningFn | exact H].
Qed.

Lemma reported_speakQuestion R text k s :
  Forall (fun r => In r R) (report_of_kont k) ->
  reported R s -> reported R (speakQuestion text k s).
Proof.
  intros Hk H. unfold speakQuestion. destruct (has_synth (host s)); cbn [negb].
  - destruct H as [H1 H2]. split; [exact H1|]. cbn.
    apply Forall_app. split; [exact H2|]. constructor; [exact Hk | constructor].
  - now apply reported_resume_speak.
Qed.

Lemma reported_run_callback R cb s : reported R s -> reported R (run_callback cb s).
Proof.
  intros H. destruct cb; cbn [run_callback].
  - unfold init_after_delay. destruct (cancelled (host s)); [exact H|].
    apply reported_speakQuestion; [constructor|].
    eapply reported_spoken; [|exact H]. reflexivity.
  - eapply reported_spoken; [apply spoken_silenceTimeout_callback | exact H].
  - unfold restart_callback.
    eapply reported_spoken; [apply spoken_startListeningFn|].
    eapply reported_spoken; [|exact H]. reflexivity.
Qed.

Lemma reported_step R e s :
  reported R s -> reported (R ++ reports_of [e])%list (step e s).
Proof.
  intros H. destruct e; cbn [step];
    try (apply reported_more;
         first [ exact H
               | eapply reported_spoken; [|exact H]; reflexivity ]).
  - apply reported_more. destruct (find_timeout id s); [|exact H].
    apply reported_run_callback. eapply reported_spoken; [|exact H]. reflexivity.
  - apply reported_more. destruct (find_interval id s); [|exact H].
    eapply reported_spoken; [apply spoken_countdown_callback | exact H].
  - apply reported_more. destruct (Store.get r _) as [o|]; [|exact H].
    destruct (rec_state o), (onresult o); try exact H.
    eapply reported_spoken; [apply spoken_recognition_onresult | exact H].
  - apply reported_more. destruct (Store.get r _) as [o|]; [|exact H].
    destruct (rec_state o), (onerror o); try exact H;
      (eapply reported_spoken; [apply spoken_recognition_onerror | exact H]).
  - apply reported_more. destruct (Store.get r _) as [o|]; [|exact H].
    destruct (rec_state o); try exact H;
      (destruct (onend o);
       [eapply reported_spoken; [apply spoken_recognition_onend|]|];
       (eapply reported_spoken; [|exact H]); reflexivity).
  - apply reported_more. destruct (Store.get u _); [|exact H].
    eapply reported_spoken; [|exact H]. reflexivity.
  - apply reported_more. destruct (Store.get u _) as [[text k]|] eqn:E; [|exact H].
    destruct H as [H1 H2]. apply reported_resume_speak.
    + apply get_In in E. rewrite Forall_forall in H2. exact (H2 _ E).
    + split; [exact H1|]. cbn. now apply Forall_remove.
  - destruct (Store.get p _) as [k|]; [|apply reported_more; exact H].
    assert (K : reported R (set_inflight (Store.remove p (inflight (host s))) s))
      by (eapply reported_spoken; [|exact H]; reflexivity).
    revert K. generalize (set_inflight (Store.remove p (inflight (host s))) s).
    intros s1 K. destruct reply as [data|message]; cbn [resume_submit reports_of flat_map].
    + destruct (truthy (final_report data)) as [report|] eqn:Er.
      * apply truthy_some in Er. rewrite Er.
        apply reported_speakQuestion; [|now apply reported_more].
        constructor; [|constructor]. apply in_or_app. right. now left.
      * cbv zeta. apply reported_more.
        apply reported_speakQuestion; [constructor|].
        eapply reported_spoken; [|exact K]. reflexivity.
    + apply reported_more. eapply reported_spoken; [|exact K]. reflexivity.
  - apply reported_more. destruct (_ && _); [|exact H]. unfold handleDoneClick.
    destruct (negb _); [|exact H].
    eapply reported_spoken; [apply spoken_doSubmit | exact H].
  - apply reported_more. destruct (mounted s); [|exact H]. unfold unmount.
    eapply reported_spoken; [apply spoken_cleanupRecording|].
    eapply reported_spoken; [|exact H]. reflexivity.
Qed.

Lemma reports_of_app es1 es2 :
  reports_of (es1 ++ es2)%list = (reports_of es1 ++ reports_of es2)%list.
Proof. apply flat_map_app. Qed.

Lemma reported_run es : forall R s,
  reported R s -> reported (R ++ reports_of es)%list (run es s).
Proof.
  induction es as [|e es IH]; intros R s H.
  - cbn. now rewrite app_nil_r.
  - rewrite run_cons. change (e :: es) with ([e] ++ es)%list.
    rewrite reports_of_app, app_assoc. apply IH. now apply reported_step.
Qed.

Lemma reported_mount p sr synth : reported [] (mount p sr synth).
Proof. unfold mount. destruct sr; split; constructor. Qed.

End Reported.

(** ** The unsupported browser *)

Section Unsupported.

Ltac unsupported_tac :=
  unfold unsupported in *; cbn;
  repeat match goal with H : _ /\ _ |- _ => destruct H end;
  repeat split; try assumption; try reflexivity.

Lemma unsupported_startListeningFn s : unsupported s -> unsupported (startListeningFn s).
Proof.
  intros H. rewrite startListeningFn_unsupported by apply H. unsupported_tac.
Qed.

Lemma unsupported_resume_speak s : unsupported s -> unsupported (resume_speak KInit s).
Proof.
  intros H. cbn [resume_speak].
  destruct (cancelled (host s)); [exact H | now apply unsupported_startListeningFn].
Qed.

Lemma unsupported_step e s : unsupported s -> unsupported (step e s).
Proof.
  intros H.
  pose proof H as (HSR & Hsup & Hrec & Hr & Hl & Hrs & Hi & Hq & Hp & Hc & Ht & Hu).
  destruct e; cbn [step].
  - destruct (find_timeout id s) as [t|] eqn:E; [|exact H].
    unfold find_timeout in E. apply find_some in E. destruct E as [Hin _].
    rewrite Forall_forall in Ht. rewrite (Ht _ Hin). cbn [run_callback].
    assert (K : unsupported (clearTimeout id s)).
    { unsupported_tac. apply Forall_filter_keep. now apply Forall_forall. }
    revert K. generalize (clearTimeout id s). intros s1 K.
    unfold init_after_delay. destruct (cancelled (host s1)); [exact K|].
    unfold speakQuestion.
    change (has_synth (host (setStatus speaking s1))) with (has_synth (host s1)).
    destruct (has_synth (host s1)); cbn [negb].
    + unsupported_tac. apply Forall_app. split; [assumption|]. now repeat constructor.
    + apply unsupported_resume_speak. unsupported_tac.
  - unfold find_interval. rewrite Hi. exact H.
  - rewrite Hrs. exact H.
  - rewrite Hrs. exact H.
  - rewrite Hrs. exact H.
  - unsupported_tac.
  - destruct (Store.get u _); [|exact H]. unsupported_tac.
  - destruct (Store.get u _) as [[text k]|] eqn:E; [|exact H].
    apply get_In in E. rewrite Forall_forall in Hu. pose proof (Hu _ E) as Hk.
    cbn in Hk. subst k. apply unsupported_resume_speak.
    unsupported_tac. apply Forall_remove. assumption.
  - rewrite Hp. exact H.
  - rewrite Hsup, andb_false_r. exact H.
  - destruct (mounted s); [|exact H].
    unfold unmount. rewrite cleanupRecording_flat. unsupported_tac.
    + rewrite Hr. exact Hrs.
    + rewrite Hi. now destruct (timerIntervalRef (refs s)).
    + destruct (silenceTimeoutRef (refs s)); cbn;
        [apply Forall_filter_keep|]; assumption.
Qed.

Lemma unsupported_mount p synth : unsupported (mount p false synth).
Proof. unfold mount. cbn. unfold unsupported. cbn. repeat split; repeat constructor. Qed.

Lemma unsupported_run es p synth : unsupported (run es (mount p false synth)).
Proof.
  apply (run_invariant unsupported (fun _ => True)).
  - intros e s _ H. now apply unsupported_step.
  - now apply Forall_forall.
  - apply unsupported_mount.
Qed.

End Unsupported.

(** ** One turn at a time *)

Section Orderly.

Lemma orderly_ext s s' : order_of s' = order_of s -> orderly s -> orderly s'.
Proof.
  unfold order_of, orderly, tokens, quiet. intros E.
  inversion E as [[E1 E2 E3 E4 E5 E6 E7]].
  now rewrite E1, E2, E3, E4, E5, E6, E7.
Qed.

Lemma tokens_ext s s' : order_of s' = order_of s -> tokens s' = tokens s.
Proof.
  unfold order_of, tokens. intros E. inversion E as [[E1 E2 E3 E4 E5 E6 E7]].
  now rewrite E1, E2, E3.
Qed.

Lemma quiet_ext s s' : order_of s' = order_of s -> quiet s -> quiet s'.
Proof.
  unfold order_of, quiet. intros E. inversion E as [[E1 E2 E3 E4 E5 E6 E7]].
  now rewrite E5, E6, E7.
Qed.

Lemma init_timers_app l1 l2 :
  init_timers (l1 ++ l2)%list = (init_timers l1 ++ init_timers l2)%list.
Proof. apply filter_app. Qed.

Lemma init_timers_snoc l t :
  is_init (t_cb t) = false -> init_timers (l ++ [t])%list = init_timers l.
Proof.
  intros H. rewrite init_timers_app. unfold init_timers at 2. cbn. rewrite H.
  apply app_nil_r.
Qed.

Lemma init_timers_filter f ts :
  length (init_timers (filter f ts)) <= length (init_timers ts).
Proof.
  unfold init_timers. rewrite filter_comm.
  induction (filter (fun t => is_init (t_cb t)) ts) as [|x l IH]; simpl; [lia|].
  destruct (f x); simpl; lia.
Qed.

Lemma init_timers_without o ts :
  length (init_timers (without_timeout o ts)) <= length (init_timers ts).
Proof. destruct o; cbn [without_timeout]; [apply init_timers_filter | lia]. Qed.

Lemma no_restart_without o ts :
  Forall (fun t => is_restart (t_cb t) = false) ts ->
  Forall (fun t => is_restart (t_cb t) = false) (without_timeout o ts).
Proof. destruct o; cbn [without_timeout]; [apply Forall_filter_keep | trivial]. Qed.

(** Releasing the recording resources. *)
Lemma orderly_cleanupRecording s :
  timers_tracked s -> orderly s ->
  orderly (cleanupRecording s) /\
  tokens (cleanupRecording s) <= tokens s /\
  shouldListenRef (refs (cleanupRecording s)) = false /\
  intervals (host (cleanupRecording s)) = [] /\
  status (view (cleanupRecording s)) = status (view s).
Proof.
  intros Ht (H1 & H2 & H3 & H4).
  destruct (silence_timers_cleared _ _ _ _ Ht) as (_ & Hi).
  rewrite cleanupRecording_flat.
  pose proof (init_timers_without (silenceTimeoutRef (refs s)) (timeouts (host s)))
    as Hle.
  assert (Htok : tokens
                   (setIsRecording false
                      (set_silenceTimeoutRef None
                         (set_timerIntervalRef None
                            (set_recognitionRef None
                               (set_shouldListenRef false
                                  (set_timeouts
                                     (without_timeout (silenceTimeoutRef (refs s))
                                        (timeouts (host s)))
                                     (set_intervals
                                        (without_interval (timerIntervalRef (refs s))
                                           (intervals (host s)))
                                        (set_recognizers
                                           (with_aborted (recognitionRef (refs s))
                                              (recognizers (host s))) s)))))))) <=
                 tokens s)
    by (unfold tokens; cbn -[init_timers without_timeout]; lia).
  split; [|split; [exact Htok | split; [reflexivity | split; [exact Hi | reflexivity]]]].
  split; [lia|]. split; [|split].
  - intros E. assert (E' : tokens s = 1) by lia.
    destruct (H2 E') as (Q1 & Q2 & Q3). repeat split; [exact Q1 | exact Hi].
  - exact H3.
  - cbn -[init_timers without_timeout]. intros Hn. apply no_restart_without. apply H4.
    intros E. rewrite E in Hle. cbn in Hle.
    apply not_nil_length in Hn. lia.
Qed.

Lemma orderly_resetSilenceTimer s : orderly s -> orderly (resetSilenceTimer s).
Proof.
  intros (H1 & H2 & H3 & H4). rewrite resetSilenceTimer_flat.
  pose proof (init_timers_without (silenceTimeoutRef (refs s)) (timeouts (host s)))
    as Hle.
  unfold orderly, tokens, quiet in *. cbn -[init_timers without_timeout].
  rewrite init_timers_snoc by reflexivity.
  split; [lia|]. split; [|split].
  - intros E. apply H2. lia.
  - exact H3.
  - intros Hn. apply Forall_app. split; [|now repeat constructor].
    apply no_restart_without. apply H4. intros E. rewrite E in Hle. cbn in Hle.
    apply not_nil_length in Hn. lia.
Qed.

Lemma tokens_resetSilenceTimer s : tokens (resetSilenceTimer s) <= tokens s.
Proof.
  rewrite resetSilenceTimer_flat.
  pose proof (init_timers_without (silenceTimeoutRef (refs s)) (timeouts (host s))).
  unfold tokens. cbn -[init_timers without_timeout].
  rewrite init_timers_snoc by reflexivity. lia.
Qed.

Lemma tokens_zero s :
  tokens s = 0 ->
  init_timers (timeouts (host s)) = [] /\
  utterances (host s) = [] /\ inflight (host s) = [].
Proof.
  unfold tokens. intros H. repeat split; apply length_zero_nil; lia.
Qed.

(** The submit operation, called while nothing is awaited. *)
Lemma orderly_doSubmit s :
  timers_tracked s -> orderly s -> tokens s = 0 -> orderly (doSubmit s).
Proof.
  intros Ht H H0. destruct (orderly_cleanupRecording s Ht H) as (_ & _ & _ & Hi & _).
  destruct (tokens_zero s H0) as (Z1 & Z2 & Z3).
  pose proof (init_timers_without (silenceTimeoutRef (refs s)) (timeouts (host s)))
    as Hle.
  rewrite Z1 in Hle. cbn in Hle.
  assert (Z1' : init_timers (without_timeout (silenceTimeoutRef (refs s))
                               (timeouts (host s))) = [])
    by (apply length_zero_nil; lia).
  rewrite cleanupRecording_flat in Hi. cbn -[without_interval] in Hi.
  unfold doSubmit. destruct (isSubmittingRef (refs s)); [exact H|].
  destruct (falsy _); cbv zeta; rewrite cleanupRecording_flat.
  - unfold orderly, tokens, quiet. cbn -[init_timers without_timeout without_interval].
    rewrite init_timers_snoc by reflexivity. rewrite Z1', Z2, Z3. cbn.
    split; [lia|]. split; [intros E; discriminate E|].
    split; [intros E; now elim E | intros E; now elim E].
  - unfold orderly, tokens, quiet, submitAnswer.
    cbn -[init_timers without_timeout without_interval].
    rewrite Z1', Z2, Z3, Hi. cbn.
    split; [lia|]. split; [intros _; now repeat split|].
    split; [reflexivity | intros E; now elim E].
Qed.

Lemma orderly_startListeningFn s :
  orderly s -> tokens s = 0 -> orderly (startListeningFn s).
Proof.
  intros H H0. destruct (tokens_zero s H0) as (Z1 & Z2 & Z3).
  pose proof (init_timers_without (silenceTimeoutRef (refs s)) (timeouts (host s)))
    as Hle.
  rewrite Z1 in Hle. cbn in Hle.
  assert (Z1' : init_timers (without_timeout (silenceTimeoutRef (refs s))
                               (timeouts (host s))) = [])
    by (apply length_zero_nil; lia).
  destruct (has_SR (host s)) eqn:HSR.
  - assert (E : order_of (startListeningFn s) =
                ((without_timeout (silenceTimeoutRef (refs s)) (timeouts (host s)) ++
                  [{| t_id := S (S (next_id (host s)));
                      t_delay := SILENCE_TIMEOUT_MS; t_cb := CbSilence |}])%list,
                 utterances (host s), inflight (host s), false, recording, true,
                 (without_interval (timerIntervalRef (refs s)) (intervals (host s)) ++
                  [{| i_id := S (S (S (next_id (host s)))); i_period := 1000 |}])%list)).
    { unfold startListeningFn. rewrite HSR. cbn [negb].
      rewrite cleanupRecording_flat. reflexivity. }
    unfold order_of in E. inversion E as [[E1 E2 E3 E4 E5 E6 E7]].
    unfold orderly, tokens, quiet. rewrite E1, E2, E3, E4, E5, E6, E7.
    rewrite init_timers_snoc by reflexivity. rewrite Z1', Z2, Z3. cbn.
    split; [lia|]. split; [intros K; discriminate K|].
    split; [intros K; now elim K | intros K; now elim K].
  - rewrite startListeningFn_unsupported by exact HSR.
    eapply orderly_ext; [|exact H]. reflexivity.
Qed.

Lemma order_recognition_onerror err s :
  order_of (recognition_onerror err s) = order_of s.
Proof. unfold recognition_onerror. destruct (_ && _); reflexivity. Qed.

Lemma order_recognition_onend c s :
  order_of (recognition_onend c s) = order_of s.
Proof.
  unfold recognition_onend.
  destruct (_ && _); [|reflexivity].
  destruct (has_SR _); [|reflexivity].
  destruct (Store.get c _); reflexivity.
Qed.

Lemma orderly_recognition_onresult c e s :
  orderly s -> orderly (recognition_onresult c e s).
Proof.
  intros H. unfold recognition_onresult.
  destruct (Store.get c _); [|exact H].
  destruct (for_results _ _ _ _) as [fin interim]. cbv zeta.
  apply orderly_resetSilenceTimer. eapply orderly_ext; [|exact H]. reflexivity.
Qed.

Lemma orderly_resume_speak k s :
  orderly s -> tokens s = 0 -> orderly (resume_speak k s).
Proof.
  intros H H0. destruct k; cbn [resume_speak].
  - destruct (cancelled (host s)); [exact H | now apply orderly_startListeningFn].
  - destruct (tokens_zero s H0) as (Z1 & Z2 & Z3).
    destruct H as (H1 & H2 & H3 & H4).
    unfold orderly, tokens, quiet in *. cbn -[init_timers]. rewrite Z3 in *.
    split; [exact H1|]. split; [exact H2|].
    split; [intros E; now elim E | exact H4].
  - now apply orderly_startListeningFn.
Qed.

Lemma orderly_speakQuestion text k s :
  orderly s -> tokens s = 0 -> quiet s -> orderly (speakQuestion text k s).
Proof.
  intros H H0 Q. unfold speakQuestion. destruct (has_synth (host s)); cbn [negb].
  - destruct (tokens_zero s H0) as (Z1 & Z2 & Z3).
    unfold orderly, tokens, quiet in *. cbn -[init_timers]. rewrite Z1, Z2, Z3. cbn.
    split; [lia|]. split; [intros _; exact Q|].
    split; [intros E; now elim E | intros E; now elim E].
  - now apply orderly_resume_speak.
Qed.

Lemma orderly_resume_submit k reply s :
  orderly s -> tokens s = 0 -> quiet s -> orderly (resume_submit k reply s).
Proof.
  intros H H0 Q. destruct (tokens_zero s H0) as (Z1 & Z2 & Z3).
  destruct reply as [data|message]; cbn [resume_submit].
  - destruct (truthy (final_report data)); [now apply orderly_speakQuestion|].
    cbv zeta. apply orderly_speakQuestion.
    + destruct H as (H1 & H2 & H3 & H4).
      unfold orderly, tokens, quiet in *. cbn -[init_timers]. rewrite Z1, Z2, Z3 in *. cbn.
      split; [lia|]. split; [intros E; discriminate E|].
      split; [intros E; now elim E | intros E; now elim E].
    + exact H0.
    + destruct Q as (Q1 & Q2 & Q3). now repeat split.
  - destruct H as (H1 & H2 & H3 & H4).
    unfold orderly, tokens, quiet in *. cbn -[init_timers]. rewrite Z1, Z2, Z3 in *. cbn.
    split; [lia|]. split; [intros E; discriminate E|].
    split; [intros E; now elim E | intros E; now elim E].
Qed.

Lemma tokens_clearTimeout id s : tokens (clearTimeout id s) <= tokens s.
Proof.
  unfold tokens, clearTimeout. cbn -[init_timers].
  pose proof (init_timers_filter (fun t => negb (Nat.eqb (t_id t) id))
                (timeouts (host s))). lia.
Qed.

Lemma orderly_clearTimeout id s : orderly s -> orderly (clearTimeout id s).
Proof.
  intros (H1 & H2 & H3 & H4). pose proof (tokens_clearTimeout id s) as Hle.
  pose proof (init_timers_filter (fun t => negb (Nat.eqb (t_id t) id))
                (timeouts (host s))) as Hle'.
  split; [lia|]. split; [|split].
  - intros E. assert (E' : tokens s = 1) by lia. exact (H2 E').
  - exact H3.
  - cbn -[init_timers]. intros Hn. apply Forall_filter_keep. apply H4.
    intros E. rewrite E in Hle'. cbn in Hle'. apply not_nil_length in Hn. lia.
Qed.

(** The start-up pause that fires was the only thing awaited. *)
Lemma init_fired id t s :
  orderly s ->
  find_timeout id s = Some t -> t_cb t = CbInitDelay ->
  tokens (clearTimeout id s) = 0 /\ quiet (clearTimeout id s).
Proof.
  intros (H1 & H2 & H3 & H4) Hf Hcb.
  unfold find_timeout in Hf. apply find_some in Hf. destruct Hf as [Hin Hid].
  apply Nat.eqb_eq in Hid.
  assert (Hinit : In t (init_timers (timeouts (host s))))
    by (apply filter_In; split; [exact Hin | now rewrite Hcb]).
  unfold tokens in *.
  destruct (init_timers (timeouts (host s))) as [|t0 [|t1 l]] eqn:E;
    [now elim Hinit | | cbn in H1; lia].
  destruct Hinit as [->|[]].
  cbn in H1.
  assert (Zu : utterances (host s) = []) by (apply length_zero_nil; lia).
  assert (Zi : inflight (host s) = []) by (apply length_zero_nil; lia).
  assert (Q : quiet s) by (apply H2; rewrite Zu, Zi; reflexivity).
  split; [|exact Q].
  cbn -[init_timers]. rewrite Zu, Zi. unfold init_timers in *. rewrite filter_comm, E. cbn.
  now rewrite Hid, Nat.eqb_refl.
Qed.

Lemma not_quiet_no_tokens s :
  orderly s -> ~ quiet s -> tokens s = 0.
Proof. intros (H1 & H2 & _) Hq. destruct (tokens s) as [|[|n]]; [reflexivity | | lia]. now elim Hq; apply H2. Qed.

Lemma orderly_step e s :
  safe_event e s -> timers_tracked s -> orderly s -> orderly (step e s).
Proof.
  intros Hsafe Ht H. destruct e; cbn [step].
  - cbn [safe_event] in Hsafe.
    destruct (find_timeout id s) as [t|] eqn:Hf; [|exact H].
    pose proof (orderly_clearTimeout id s H) as H'.
    pose proof (tokens_clearTimeout id s) as Hle.
    assert (Ht' : timers_tracked (clearTimeout id s)) by now apply tracked_cleared.
    destruct (t_cb t) eqn:Hcb; cbn [run_callback].
    + destruct (init_fired id t s H Hf Hcb) as (T0 & Q).
      unfold init_after_delay. destruct (cancelled _); [exact H'|].
      apply orderly_speakQuestion.
      * destruct (tokens_zero _ T0) as (Z1 & Z2 & Z3).
        unfold orderly, tokens, quiet in *. cbn -[init_timers] in *. rewrite Z1, Z2, Z3. cbn.
        split; [lia|]. split; [intros E; discriminate E|].
        split; [intros E; now elim E | intros E; now elim E].
      * exact T0.
      * destruct Q as (Q1 & Q2 & Q3). now repeat split.
    + unfold silenceTimeout_callback.
      destruct (speechSynthesis_speaking _); [now apply orderly_resetSilenceTimer|].
      destruct (isSubmittingRef (refs (clearTimeout id s))); cbn [negb andb]; [exact H'|].
      destruct (shouldListenRef (refs (clearTimeout id s))) eqn:El; [|exact H'].
      apply orderly_doSubmit; [exact Ht' | exact H'|].
      apply not_quiet_no_tokens; [exact H'|]. intros (_ & Q2 & _). congruence.
    + destruct (Hsafe eq_refl) as (Zi & Zu).
      assert (Za : init_timers (timeouts (host s)) = []).
      { destruct (init_timers (timeouts (host s))) eqn:E; [reflexivity|].
        destruct H as (_ & _ & _ & H4).
        assert (Hn : init_timers (timeouts (host s)) <> []) by (rewrite E; discriminate).
        rewrite E in H4. specialize (H4 ltac:(discriminate)).
        unfold find_timeout in Hf. apply find_some in Hf. destruct Hf as [Hin _].
        rewrite Forall_forall in H4. specialize (H4 _ Hin). now rewrite Hcb in H4. }
      assert (T0 : tokens (clearTimeout id s) = 0).
      { unfold tokens in *. rewrite Za, Zi, Zu in Hle. cbn [length] in Hle. lia. }
      unfold restart_callback. apply orderly_startListeningFn.
      * eapply orderly_ext; [|exact H']. reflexivity.
      * exact T0.
  - destruct (find_interval id s) as [i|] eqn:Hf; [|exact H].
    assert (T0 : tokens s = 0).
    { apply not_quiet_no_tokens; [exact H|]. intros (_ & _ & Q3).
      unfold find_interval in Hf. now rewrite Q3 in Hf. }
    unfold countdown_callback. cbv zeta.
    destruct (_ <=? _)%Z; [|eapply orderly_ext; [|exact H]; reflexivity].
    destruct (negb _); [|eapply orderly_ext; [|exact H]; reflexivity].
    apply (orderly_ext (doSubmit s)); [reflexivity|]. now apply orderly_doSubmit.
  - destruct (Store.get r _) as [o|]; [|exact H].
    destruct (rec_state o), (onresult o); try exact H.
    now apply orderly_recognition_onresult.
  - destruct (Store.get r _) as [o|]; [|exact H].
    destruct (rec_state o), (onerror o); try exact H;
      (eapply orderly_ext; [apply order_recognition_onerror | exact H]).
  - destruct (Store.get r _) as [o|]; [|exact H].
    destruct (rec_state o); try exact H;
      (destruct (onend o);
       [eapply orderly_ext; [apply order_recognition_onend|]|];
       (eapply orderly_ext; [|exact H]); reflexivity).
  - eapply orderly_ext; [|exact H]. reflexivity.
  - destruct (Store.get u _); [|exact H].
    eapply orderly_ext; [|exact H]. reflexivity.
  - destruct (Store.get u _) as [[text k]|] eqn:E; [|exact H].
    pose proof H as (H1 & H2 & H3 & H4).
    assert (Hu : length (utterances (host s)) = 1).
    { apply get_not_nil, not_nil_length in E. unfold tokens in H1. lia. }
    assert (T1 : tokens s = 1) by (unfold tokens in *; lia).
    assert (Za : init_timers (timeouts (host s)) = [])
      by (apply length_zero_nil; unfold tokens in *; lia).
    assert (Zi : inflight (host s) = [])
      by (apply length_zero_nil; unfold tokens in *; lia).
    rewrite (single_removed _ _ _ Hu E).
    apply orderly_resume_speak.
    + unfold orderly, tokens, quiet in *. cbn -[init_timers]. rewrite Za, Zi in *. cbn.
      split; [lia|]. split; [intros K; discriminate K|].
      split; [intros K; now elim K | intros K; now elim K].
    + unfold tokens. cbn -[init_timers]. now rewrite Za, Zi.
  - destruct (Store.get p _) as [k|] eqn:E; [|exact H].
    pose proof H as (H1 & H2 & H3 & H4).
    assert (Hu : length (inflight (host s)) = 1).
    { apply get_not_nil, not_nil_length in E. unfold tokens in H1. lia. }
    assert (T1 : tokens s = 1) by (unfold tokens in *; lia).
    assert (Za : init_timers (timeouts (host s)) = [])
      by (apply length_zero_nil; unfold tokens in *; lia).
    assert (Zu : utterances (host s) = [])
      by (apply length_zero_nil; unfold tokens in *; lia).
    rewrite (single_removed _ _ _ Hu E).
    pose proof (H2 T1) as Q.
    apply orderly_resume_submit.
    + unfold orderly, tokens, quiet in *. cbn -[init_timers]. rewrite Za, Zu in *. cbn.
      split; [lia|]. split; [intros K; discriminate K|].
      split; [intros K; now elim K | intros K; now elim K].
    + unfold tokens. cbn -[init_timers]. now rewrite Za, Zu.
    + exact Q.
  - destruct (mounted s); cbn [andb]; [|exact H].
    destruct (speechSupported (view s)); cbn [andb]; [|exact H].
    destruct (is_recording (status (view s))) eqn:Er; [|exact H].
    unfold handleDoneClick. destruct (negb _); [|exact H].
    apply orderly_doSubmit; [exact Ht | exact H|].
    apply not_quiet_no_tokens; [exact H|]. intros (Q1 & _). congruence.
  - destruct (mounted s); [|exact H]. unfold unmount.
    assert (Ht' : timers_tracked (set_cancelled true s)) by exact Ht.
    assert (H' : orderly (set_cancelled true s))
      by (eapply orderly_ext; [|exact H]; reflexivity).
    apply (orderly_cleanupRecording _ Ht' H').
Qed.

Lemma orderly_mount p sr synth : orderly (mount p sr synth).
Proof.
  unfold mount. destruct sr; unfold orderly, tokens, quiet; cbn;
    (split; [lia|]; split; [intros _; now repeat split|];
     split; [intros E; now elim E | intros _; now repeat constructor]).
Qed.

Lemma orderly_run es : forall s,
  safe_restarts es s -> timers_tracked s -> orderly s -> orderly (run es s).
Proof.
  induction es as [|e es IH]; intros s Hs Ht H; [exact H|].
  destruct Hs as [He Hs]. rewrite run_cons. apply IH; [exact Hs | |].
  - now apply timers_tracked_step.
  - now apply orderly_step.
Qed.

Lemma orderly_single_flight s : orderly s -> single_flight s.
Proof.
  intros (H1 & _ & H3 & _). unfold single_flight, tokens in *.
  destruct (inflight (host s)) as [|x [|y l]] eqn:E.
  - now left.
  - right. split; [apply H3; discriminate | reflexivity].
  - cbn in H1. lia.
Qed.

End Orderly.

(** ** The histories hold what was sent *)

Section Histories.

Lemma history_ok_ext s s' :
  sending_of s' = sending_of s -> history_ok s -> history_ok s'.
Proof.
  unfold sending_of, history_ok. intros E. inversion E as [[E1 E2 E3 E4 E5]].
  now rewrite E2, E3, E4, E5.
Qed.

Lemma sent_pair_more reqs r qa : sent_pair reqs qa -> sent_pair (reqs ++ [r]) qa.
Proof.
  intros (r0 & H0 & H1 & H2). exists r0. split; [|now split].
  apply in_or_app. now left.
Qed.

Lemma pairs_sent_more reqs r qs answers :
  pairs_sent reqs qs answers -> pairs_sent (reqs ++ [r]) qs answers.
Proof.
  intros (Hl & H). split; [exact Hl|].
  eapply Forall_impl; [|exact H]. intros qa. apply sent_pair_more.
Qed.

Lemma combine_snoc {A B} (l1 : list A) (l2 : list B) x y :
  length l1 = length l2 ->
  combine (l1 ++ [x]) (l2 ++ [y]) = (combine l1 l2 ++ [(x, y)])%list.
Proof.
  revert l2. induction l1 as [|a l1 IH]; intros [|b l2] H; try discriminate H.
  - reflexivity.
  - cbn. f_equal. apply IH. now inversion H.
Qed.

Lemma pairs_sent_snoc reqs qs answers q a :
  pairs_sent reqs qs answers -> sent_pair reqs (q, a) ->
  pairs_sent reqs (qs ++ [q]) (answers ++ [a]).
Proof.
  intros (Hl & H) Hqa. split; [now rewrite !length_app, Hl|].
  rewrite combine_snoc by exact Hl. apply Forall_app. split; [exact H|].
  now repeat constructor.
Qed.

Lemma history_ok_doSubmit s : history_ok s -> history_ok (doSubmit s).
Proof.
  intros H. destruct (isSubmittingRef (refs s)) eqn:Hflag;
    [now rewrite doSubmit_guarded|].
  destruct (falsy (trim (transcriptRef (refs s)))) eqn:Hanswer.
  - apply falsy_true in Hanswer.
    rewrite doSubmit_false_start by assumption.
    eapply history_ok_ext; [|exact H].
    rewrite cleanupRecording_flat. reflexivity.
  - assert (Hne : trim (transcriptRef (refs s)) <> "")
      by (intros E; rewrite E in Hanswer; discriminate Hanswer).
    rewrite doSubmit_submits by assumption. rewrite cleanupRecording_flat.
    destruct H as (Hr & Hi & Hq).
    assert (Hnew : sent_pair (requests (host s) ++ [request_of s])
                     (currentQuestionRef (refs s), trim (transcriptRef (refs s)))).
    { exists (request_of s). split; [|now split].
      apply in_or_app. right. now left. }
    unfold history_ok, submitAnswer. cbn.
    split; [now apply pairs_sent_more|]. split.
    + apply Forall_app. split.
      * eapply Forall_impl; [|exact Hi]. cbn beta. intros k (K1 & K2).
        split; [now apply pairs_sent_more | now apply sent_pair_more].
      * constructor; [|constructor]. cbn.
        split; [now apply pairs_sent_more | exact Hnew].
    + apply Forall_app. split.
      * eapply Forall_impl; [|exact Hq]. cbn beta. intros r.
        apply pairs_sent_more.
      * constructor; [|constructor]. cbn. now apply pairs_sent_more.
Qed.

Lemma history_ok_silenceTimeout_callback s :
  history_ok s -> history_ok (silenceTimeout_callback s).
Proof.
  intros H. unfold silenceTimeout_callback.
  destruct (speechSynthesis_speaking s);
    [eapply history_ok_ext; [apply sending_resetSilenceTimer | exact H]|].
  destruct (_ && _); [now apply history_ok_doSubmit | exact H].
Qed.

Lemma history_ok_countdown_callback s :
  history_ok s -> history_ok (countdown_callback s).
Proof.
  intros H. unfold countdown_callback. cbv zeta.
  destruct (_ <=? _)%Z; [|exact H].
  destruct (negb _); [|exact H].
  change (history_ok (doSubmit s)). now apply history_ok_doSubmit.
Qed.

Lemma history_ok_resume_submit k reply s :
  pairs_sent (requests (host s)) (k_prevQ k) (k_prevA k) ->
  sent_pair (requests (host s)) (k_q k, k_answer k) ->
  history_ok s -> history_ok (resume_submit k reply s).
Proof.
  intros Hk Hqa H. destruct reply as [data|message]; cbn [resume_submit].
  - destruct (truthy (final_report data));
      [eapply history_ok_ext; [apply sending_speakQuestion | exact H]|].
    cbv zeta. eapply history_ok_ext; [apply sending_speakQuestion|].
    destruct H as (Hr & Hi & Hq).
    split; [|split; [exact Hi | exact Hq]].
    cbn. now apply pairs_sent_snoc.
  - eapply history_ok_ext; [|exact H]. reflexivity.
Qed.

Lemma history_ok_run_callback cb s :
  history_ok s -> history_ok (run_callback cb s).
Proof.
  intros H. destruct cb; cbn [run_callback].
  - unfold init_after_delay. destruct (cancelled (host s)); [exact H|].
    eapply history_ok_ext; [|exact H]. now rewrite sending_speakQuestion.
  - now apply history_ok_silenceTimeout_callback.
  - unfold restart_callback. eapply history_ok_ext; [|exact H].
    now rewrite sending_startListeningFn.
Qed.

Lemma history_ok_step e s : history_ok s -> history_ok (step e s).
Proof.
  intros H. destruct e; cbn [step].
  - destruct (find_timeout id s); [|exact H].
    apply history_ok_run_callback. eapply history_ok_ext; [|exact H]. reflexivity.
  - destruct (find_interval id s); [|exact H].
    now apply history_ok_countdown_callback.
  - destruct (Store.get r _) as [o|]; [|exact H].
    destruct (rec_state o), (onresult o); try exact H.
    eapply history_ok_ext; [apply sending_recognition_onresult | exact H].
  - destruct (Store.get r _) as [o|]; [|exact H].
    destruct (rec_state o), (onerror o); try exact H;
      (eapply history_ok_ext; [apply sending_recognition_onerror | exact H]).
  - destruct (Store.get r _) as [o|]; [|exact H].
    destruct (rec_state o); try exact H;
      (destruct (onend o);
       [eapply history_ok_ext; [apply sending_recognition_onend|]|];
       (eapply history_ok_ext; [|exact H]); reflexivity).
  - eapply history_ok_ext; [|exact H]. reflexivity.
  - destruct (Store.get u _); [|exact H].
    eapply history_ok_ext; [|exact H]. reflexivity.
  - destruct (Store.get u _) as [[text k]|]; [|exact H].
    eapply history_ok_ext; [|exact H]. now rewrite sending_resume_speak.
  - destruct (Store.get p _) as [k|] eqn:E; [|exact H].
    destruct H as (Hr & Hi & Hq).
    assert (Hk : pairs_sent (requests (host s)) (k_prevQ k) (k_prevA k) /\
                 sent_pair (requests (host s)) (k_q k, k_answer k)).
    { apply get_In in E. rewrite Forall_forall in Hi. exact (Hi _ E). }
    destruct Hk as (K1 & K2).
    apply history_ok_resume_submit; [exact K1 | exact K2 |].
    split; [exact Hr|]. split; [|exact Hq]. cbn.
    now apply Forall_remove.
  - destruct (_ && _); [|exact H]. unfold handleDoneClick.
    destruct (negb _); [now apply history_ok_doSubmit | exact H].
  - destruct (mounted s); [|exact H].
    unfold unmount. eapply history_ok_ext; [|exact H].
    now rewrite sending_cleanupRecording.
Qed.

End Histories.

Lemma history_ok_mount p sr synth : history_ok (mount p sr synth).
Proof.
  unfold mount. destruct sr; (split; [split; [reflexivity | constructor]|]);
    split; constructor.
Qed.

Lemma history_ok_run es p sr synth : history_ok (run es (mount p sr synth)).
Proof.
  apply (run_invariant history_ok (fun _ => True)).
  - intros e s _ H. now apply history_ok_step.
  - now apply Forall_forall.
  - apply history_ok_mount.
Qed.

(** ** Properties of every session *)

(** X2.  In every session in which a restart timer fires only when nothing
    is pending (no request in flight, no utterance queued), at most one
    submission is in flight at any time, and the flag is set while it is. *)
Theorem one_submission_in_flight :
  forall p sr synth es,
    safe_restarts es (mount p sr synth) ->
    single_flight (run es (mount p sr synth)).
Proof.
  intros p sr synth es H. apply orderly_single_flight.
  apply orderly_run; [exact H | apply timers_tracked_mount | apply orderly_mount].
Qed.

Lemma one_submission_in_flight_witness :
  safe_restarts false_start_then_answer (mount example_props true true) /\
  single_flight (run false_start_then_answer (mount example_props true true)) /\
  length (inflight (host (run false_start_then_answer
                            (mount example_props true true)))) = 1.
Proof.
  assert (H : safe_restarts false_start_then_answer (mount example_props true true)).
  { vm_compute. repeat split; try (intros E; discriminate E). }
  split; [exact H|]. split.
  - exact (one_submission_in_flight example_props true true false_start_then_answer H).
  - vm_compute. reflexivity.
Defined.

(** X3.  In every session, as long as the component is mounted, the
    displayed question, turn number and transcript are those that the refs
    hold. *)
Theorem display_follows_refs :
  forall p sr synth es,
    let s := run es (mount p sr synth) in
    mounted s = true ->
    currentQuestion (view s) = currentQuestionRef (refs s) /\
    questionNumber (view s) = questionNumberRef (refs s) /\
    transcript (view s) = transcriptRef (refs s).
Proof.
  intros p sr synth es s _.
  destruct (in_step_run es p sr synth) as (H1 & H2 & H3 & _).
  now repeat split.
Qed.

Lemma display_follows_refs_witness :
  let s := run (listening_started ++ in_range) (mount example_props true true) in
  mounted s = true /\
  currentQuestion (view s) = "Next?" /\
  currentQuestionRef (refs s) = "Next?" /\
  questionNumber (view s) = questionNumberRef (refs s) /\
  transcript (view s) = transcriptRef (refs s).
Proof.
  cbv zeta. split; [reflexivity|].
  destruct (display_follows_refs example_props true true
              (listening_started ++ in_range) eq_refl) as (H1 & H2 & H3).
  split; [vm_compute; reflexivity|]. split; [vm_compute; reflexivity|].
  exact (conj H2 H3).
Defined.

(** X4.  In every session [recognitionRef] holds a recognition object and
    [timerIntervalRef] a countdown exactly while the controller wants input,
    and as long as the component is mounted the recording indicator is
    shown exactly then. *)
Theorem recording_indicators_agree :
  forall p sr synth es,
    let s := run es (mount p sr synth) in
    (mounted s = true -> isRecording (view s) = shouldListenRef (refs s)) /\
    (recognitionRef (refs s) <> None <-> shouldListenRef (refs s) = true) /\
    (timerIntervalRef (refs s) <> None <-> shouldListenRef (refs s) = true).
Proof.
  intros p sr synth es s.
  destruct (in_step_run es p sr synth) as (_ & _ & _ & H4 & H5 & H6 & _).
  fold s in H4, H5, H6. split; [intros _; exact H4|].
  split.
  - destruct (recognitionRef (refs s)); cbn in H5; rewrite <- H5;
      split; congruence.
  - destruct (timerIntervalRef (refs s)); cbn in H6; rewrite <- H6;
      split; congruence.
Qed.

Lemma recording_indicators_agree_witness :
  let s := run listening_started (mount example_props true true) in
  mounted s = true /\
  isRecording (view s) = true /\
  shouldListenRef (refs s) = true /\
  recognitionRef (refs s) <> None /\
  timerIntervalRef (refs s) <> None.
Proof.
  cbv zeta.
  destruct (recording_indicators_agree example_props true true listening_started)
    as (H1 & H2 & H3).
  assert (Hl : shouldListenRef
                 (refs (run listening_started (mount example_props true true))) = true)
    by reflexivity.
  split; [reflexivity|]. split; [rewrite (H1 eq_refl); exact Hl|].
  split; [exact Hl|]. split; [apply H2; exact Hl | apply H3; exact Hl].
Defined.

(** X5.  In every session the displayed countdown stays between 0 and
    [MAX_RECORD_SECONDS]. *)
Theorem countdown_stays_in_range :
  forall p sr synth es,
    let s := run es (mount p sr synth) in
    (0 <= timer (view s) <= MAX_RECORD_SECONDS)%Z.
Proof.
  intros p sr synth es s.
  destruct (in_step_run es p sr synth) as (_ & _ & _ & _ & _ & _ & H7).
  exact H7.
Qed.

(** X6.  In every session at most one silence timer is pending, armed for
    [SILENCE_TIMEOUT_MS] and held by [silenceTimeoutRef], and at most one
    countdown interval is registered, with a period of one second and held
    by [timerIntervalRef]; so [cleanupRecording] leaves no silence timer
    pending and no countdown registered. *)
Theorem timers_are_tracked :
  forall p sr synth es,
    let s := run es (mount p sr synth) in
    (silence_timers (timeouts (host s)) = [] \/
     exists id, silenceTimeoutRef (refs s) = Some id /\
       silence_timers (timeouts (host s)) =
         [{| t_id := id; t_delay := SILENCE_TIMEOUT_MS; t_cb := CbSilence |}]) /\
    (intervals (host s) = [] \/
     exists id, timerIntervalRef (refs s) = Some id /\
       intervals (host s) = [{| i_id := id; i_period := 1000 |}]) /\
    silence_timers (timeouts (host (cleanupRecording s))) = [] /\
    intervals (host (cleanupRecording s)) = [].
Proof.
  intros p sr synth es s.
  pose proof (timers_tracked_run es p sr synth) as H. fold s in H.
  destruct (silence_timers_cleared _ _ _ _ H) as (C1 & C2).
  destruct H as [H1 H2].
  split; [exact H1|]. split; [exact H2|].
  rewrite cleanupRecording_flat. split; [exact C1 | exact C2].
Qed.

(** X7.  In every session every request sent to the service carries the
    session identifier of the props and an answer that is not empty, and
    its two histories have the same length, as those held by the refs
    have. *)
Theorem requests_are_well_formed :
  forall p sr synth es,
    let s := run es (mount p sr synth) in
    Forall (fun r => session_id r = sessionId p /\
                     current_answer r <> "" /\
                     length (previous_questions r) = length (previous_answers r))
      (requests (host s)) /\
    length (previousQuestionsRef (refs s)) = length (previousAnswersRef (refs s)).
Proof.
  intros p sr synth es s.
  destruct (requests_ok_run es p sr synth) as (_ & H2 & _ & H4).
  split; [exact H2 | exact H4].
Qed.

(** X8.  In every session every report handed to [onComplete] is the final
    report of a reply received from the service. *)
Theorem reports_come_from_replies :
  forall p sr synth es,
    Forall (fun r => In r (reports_of es))
      (completed (host (run es (mount p sr synth)))).
Proof.
  intros p sr synth es.
  destruct (reported_run es [] _ (reported_mount p sr synth)) as [H _].
  exact H.
Qed.

(** X9.  In a browser without a recognition engine the component shows
    itself as unsupported and stays inert whatever happens: nothing is
    recorded, no recognition object and no countdown exist, nothing is sent
    to the service and [onComplete] is never called. *)
Theorem unsupported_browser_is_inert :
  forall p synth es,
    let s := run es (mount p false synth) in
    speechSupported (view s) = false /\
    isRecording (view s) = false /\
    recognitionRef (refs s) = None /\
    recognizers (host s) = [] /\
    intervals (host s) = [] /\
    requests (host s) = [] /\
    completed (host s) = [].
Proof.
  intros p synth es s.
  destruct (unsupported_run es p synth)
    as (_ & H2 & H3 & H4 & _ & H6 & H7 & H8 & _ & H10 & _).
  now repeat split.
Qed.

(** ** Unmounting *)

Section Unmounting.

Lemma unmount_flat s :
  mounted s = true ->
  step Unmount s =
  setIsRecording false
    (set_silenceTimeoutRef None
       (set_timerIntervalRef None
          (set_recognitionRef None
             (set_shouldListenRef false
                (set_timeouts
                   (without_timeout (silenceTimeoutRef (refs s)) (timeouts (host s)))
                   (set_intervals
                      (without_interval (timerIntervalRef (refs s))
                         (intervals (host s)))
                      (set_recognizers
                         (with_aborted (recognitionRef (refs s))
                            (recognizers (host s)))
                         (set_cancelled true s)))))))).
Proof.
  intros H. cbn [step]. rewrite H. unfold unmount.
  now rewrite cleanupRecording_flat.
Qed.

(** A component that is no longer mounted has its flag set, and a second
    unmount does nothing. *)
Lemma unmounted_step s :
  mounted s = false -> cancelled (host s) = true /\ step Unmount s = s.
Proof.
  intros H. cbn [step]. rewrite H. split; [|reflexivity].
  unfold mounted in H. now destruct (cancelled (host s)).
Qed.

End Unmounting.

(** X10.  In every session, unmounting the mounted component releases every
    recording resource: the recognition object that [recognitionRef] held is
    aborted, the refs are cleared, no silence timer stays pending and no
    countdown registered.  What the mount effect still awaited is cancelled:
    when the start-up pause fires nothing is spoken, and when the first
    question has been spoken listening does not start, the refs and the
    browser being as they were but for the utterance that ended.  An end
    event that arrives afterwards restarts nothing. *)
Theorem unmount_releases_capture :
  forall p sr synth es,
    let s := run es (mount p sr synth) in
    mounted s = true ->
    let s' := step Unmount s in
    cancelled (host s') = true /\
    (recognitionRef (refs s') = None /\ timerIntervalRef (refs s') = None /\
     silenceTimeoutRef (refs s') = None /\ shouldListenRef (refs s') = false) /\
    (silence_timers (timeouts (host s')) = [] /\ intervals (host s') = []) /\
    (forall r o,
       recognitionRef (refs s) = Some r ->
       Store.get r (recognizers (host s)) = Some o ->
       Store.get r (recognizers (host s')) = Some (aborted o)) /\
    (forall id t,
       find_timeout id s' = Some t -> t_cb t = CbInitDelay ->
       step (TimeoutFires id) s' = clearTimeout id s') /\
    (forall u text,
       Store.get u (utterances (host s')) = Some (text, KInit) ->
       refs (step (UtteranceSettled u) s') = refs s' /\
       host (step (UtteranceSettled u) s') =
         host (set_utterances (Store.remove u (utterances (host s'))) s')) /\
    (forall r,
       recognitionRef (refs (step (RecEnd r) s')) = None /\
       recognizers (host (step (RecEnd r) s')) =
         Store.update r (set_rec_state RecEnded) (recognizers (host s')) \/
       step (RecEnd r) s' = s').
Proof.
  intros p sr synth es s Hm s'.
  pose proof (timers_tracked_run es p sr synth) as Ht. fold s in Ht.
  destruct (silence_timers_cleared _ _ _ _ Ht) as (C1 & C2).
  assert (E : s' = step Unmount s) by reflexivity.
  rewrite unmount_flat in E by exact Hm.
  assert (Hc : cancelled (host s') = true) by (rewrite E; reflexivity).
  assert (Hrefs : recognitionRef (refs s') = None /\ timerIntervalRef (refs s') = None /\
                  silenceTimeoutRef (refs s') = None /\ shouldListenRef (refs s') = false)
    by (rewrite E; now repeat split).
  assert (Hts : timeouts (host s') =
                without_timeout (silenceTimeoutRef (refs s)) (timeouts (host s)))
    by (rewrite E; reflexivity).
  assert (Hivs : intervals (host s') =
                 without_interval (timerIntervalRef (refs s)) (intervals (host s)))
    by (rewrite E; reflexivity).
  assert (Hrecs : recognizers (host s') =
                  with_aborted (recognitionRef (refs s)) (recognizers (host s)))
    by (rewrite E; reflexivity).
  clear E. clearbody s'.
  split; [exact Hc|]. split; [exact Hrefs|].
  split; [rewrite Hts, Hivs; split; [exact C1 | exact C2]|].
  split; [|split; [|split]].
  - intros r o Hr Ho. rewrite Hrecs, Hr. cbn [with_aborted].
    now rewrite get_update_same, Ho.
  - intros id t Hf Hcb. cbn [step]. rewrite Hf, Hcb. cbn [run_callback].
    unfold init_after_delay.
    change (cancelled (host (clearTimeout id s'))) with (cancelled (host s')).
    now rewrite Hc.
  - intros u text Hu. cbn [step]. rewrite Hu. cbn [resume_speak].
    change (cancelled (host (setIsSpeaking false
              (set_utterances (Store.remove u (utterances (host s'))) s'))))
      with (cancelled (host s')).
    rewrite Hc. split; reflexivity.
  - intros r. cbn [step].
    destruct (Store.get r _) as [o|]; [|now right].
    destruct Hrefs as (Hr & _ & _ & Hl).
    destruct (rec_state o); try (now right);
      (left; destruct (onend o);
       [rewrite recognition_onend_intentional by (now left)|];
       (split; [exact Hr | reflexivity])).
Qed.

Lemma unmount_releases_capture_witness :
  let es := (listening_started ++ [RecResult 3 (final_fragment "Hello")])%list in
  let s := run es (mount example_props true true) in
  let s' := step Unmount s in
  let o := {| continuous := true; interimResults := true; lang := "en-US";
              onresult := Some 4; onerror := Some 4; onend := Some 4;
              rec_state := RecStarted |} in
  (mounted s = true /\ recognitionRef (refs s) = Some 3 /\
   Store.get 3 (recognizers (host s)) = Some o) /\
  cancelled (host s') = true /\
  recognitionRef (refs s') = None /\
  shouldListenRef (refs s') = false /\
  intervals (host s') = [] /\
  Store.get 3 (recognizers (host s')) = Some (set_rec_state RecAborted o).
Proof.
  cbv zeta.
  assert (Hm : mounted (run (listening_started ++
                               [RecResult 3 (final_fragment "Hello")])%list
                          (mount example_props true true)) = true)
    by (vm_compute; reflexivity).
  assert (Hr : recognitionRef (refs (run (listening_started ++
                               [RecResult 3 (final_fragment "Hello")])%list
                          (mount example_props true true))) = Some 3)
    by (vm_compute; reflexivity).
  assert (Ho : Store.get 3 (recognizers (host (run (listening_started ++
                               [RecResult 3 (final_fragment "Hello")])%list
                          (mount example_props true true)))) =
               Some {| continuous := true; interimResults := true; lang := "en-US";
                       onresult := Some 4; onerror := Some 4; onend := Some 4;
                       rec_state := RecStarted |})
    by (vm_compute; reflexivity).
  split; [exact (conj Hm (conj Hr Ho))|].
  destruct (unmount_releases_capture example_props true true
              (listening_started ++ [RecResult 3 (final_fragment "Hello")])%list
              Hm)
    as (H1 & (H2 & _ & _ & H3) & (_ & H4) & H5 & _).
  split; [exact H1|]. split; [exact H2|]. split; [exact H3|].
  split; [exact H4|]. exact (H5 3 _ Hr Ho).
Defined.

(** X11.  Unmounting does not discard the reply to a request that is in
    flight.  In every session of a browser with a recognition engine, when
    the reply to an outstanding request arrives after the component was
    unmounted and carries a next question, the refs advance to that
    question; where there is no speech synthesiser listening starts at
    once, and where there is one the question is queued to be spoken and
    listening starts when it has been: in both cases a recognition object is
    started and [shouldListenRef] is set although the component is gone. *)
Theorem reply_after_unmount_is_applied :
  forall p synth es pid k data,
    let s := run es (mount p true synth) in
    Store.get pid (inflight (host s)) = Some k ->
    truthy (final_report data) = None ->
    let n := next_id (host s) in
    let s1 := step (Settled pid (Resolved data)) (step Unmount s) in
    let s2 := if synth then step (UtteranceSettled n) s1 else s1 in
    let r := if synth then S n else n in
    cancelled (host s1) = true /\
    currentQuestionRef (refs s1) = next_question data /\
    (synth = true ->
     Store.get n (utterances (host s1)) = Some (next_question data, KNext)) /\
    cancelled (host s2) = true /\
    shouldListenRef (refs s2) = true /\
    recognitionRef (refs s2) = Some r /\
    (exists o, Store.get r (recognizers (host s2)) = Some o /\
               rec_state o = RecStarted).
Proof.
  intros p synth es pid k data s Hget Hdata n s1 s2 r.
  assert (Hf : ids_fresh s) by (apply fresh_run, fresh_mount).
  assert (Hb : browser_of s = (true, synth))
    by (unfold s; rewrite browser_run; apply browser_mount).
  assert (HSR : has_SR (host s) = true) by exact (f_equal fst Hb).
  assert (Hsynth : has_synth (host s) = synth) by exact (f_equal snd Hb).
  clear Hb.
  set (s0 := step Unmount s) in *.
  assert (K0 : cancelled (host s0) = true /\ has_SR (host s0) = true /\
               has_synth (host s0) = synth /\ next_id (host s0) = n /\
               inflight (host s0) = inflight (host s) /\
               utterances (host s0) = utterances (host s) /\ ids_fresh s0).
  { assert (Hf0 : ids_fresh s0) by (unfold s0; now apply fresh_step).
    destruct (mounted s) eqn:Hm.
    - assert (E0 : s0 = step Unmount s) by reflexivity.
      rewrite unmount_flat in E0 by exact Hm.
      split; [now rewrite E0|]. split; [now rewrite E0|]. split; [now rewrite E0|].
      split; [now rewrite E0|]. split; [now rewrite E0|]. split; [now rewrite E0|].
      exact Hf0.
    - destruct (unmounted_step s Hm) as (Hc & E0). fold s0 in E0.
      rewrite E0. split; [exact Hc|]. split; [exact HSR|].
      split; [exact Hsynth|]. split; [reflexivity|]. split; [reflexivity|].
      split; [reflexivity | exact Hf]. }
  clearbody s0.
  destruct K0 as (Hc0 & HSR0 & Hsy0 & Hn0 & Hi0 & Hu0 & Hf0).
  set (s0' := set_isSubmittingRef false
                (set_transcriptRef ""
                   (setTranscript ""
                      (setQuestionNumber (js_add (question_count data) 1)
                         (setCurrentQuestion (next_question data)
                            (set_questionNumberRef (js_add (question_count data) 1)
                               (set_currentQuestionRef (next_question data)
                                  (set_previousAnswersRef
                                     (k_prevA k ++ [k_answer k])%list
                                     (set_previousQuestionsRef
                                        (k_prevQ k ++ [k_q k])%list
                                        (set_inflight
                                           (Store.remove pid (inflight (host s0)))
                                           s0)))))))))).
  assert (E1 : s1 = speakQuestion (next_question data) KNext (setStatus speaking s0')).
  { assert (Hget0 : Store.get pid (inflight (host s0)) = Some k)
      by now rewrite Hi0.
    unfold s1. cbn [step]. rewrite Hget0. cbn [resume_submit].
    rewrite Hdata. reflexivity. }
  clearbody s1.
  assert (Hus : Forall (fun u => fst u < n) (utterances (host s0)))
    by (rewrite <- Hn0; apply Hf0).
  destruct synth.
  - (* a synthesiser: the question is queued *)
    assert (E1' : s1 = set_utterances
                         (utterances (host s0) ++ [(n, (next_question data, KNext))])%list
                         (set_next_id (S n) (setStatus speaking s0'))).
    { rewrite E1. unfold speakQuestion.
      change (has_synth (host (setStatus speaking s0'))) with (has_synth (host s0)).
      rewrite Hsy0. cbn [negb]. unfold fresh.
      change (next_id (host (setStatus speaking s0'))) with (next_id (host s0)).
      rewrite Hn0. reflexivity. }
    clear E1.
    assert (Hg : Store.get n (utterances (host s1)) = Some (next_question data, KNext))
      by (rewrite E1'; cbn; now apply get_app_last).
    assert (E2 : s2 = startListeningFn
                        (setIsSpeaking false
                           (set_utterances (utterances (host s0))
                              (set_next_id (S n) (setStatus speaking s0'))))).
    { unfold s2. cbn [step]. rewrite Hg. cbn [resume_speak].
      rewrite E1'. cbn. now rewrite remove_app_last. }
    clearbody s2.
    split; [rewrite E1'; exact Hc0|]. split; [rewrite E1'; reflexivity|].
    split; [intros _; exact Hg|].
    match type of E2 with _ = startListeningFn ?x =>
      assert (HSRx : has_SR (host x) = true) by exact HSR0;
      destruct (startListeningFn_spec x HSRx)
        as (S1 & S2 & _ & _ & _ & _ & S7 & _);
      assert (Hcx : cancelled (host (startListeningFn x)) = true)
        by (unfold startListeningFn; rewrite HSRx; cbn [negb];
            rewrite cleanupRecording_flat; exact Hc0)
    end.
    cbv zeta in S1, S2, S7. rewrite <- E2 in S1, S2, S7, Hcx.
    split; [exact Hcx|]. split; [exact S7|]. split; [exact S1|].
    eexists; split; [exact S2 | reflexivity].
  - (* no synthesiser: listening starts at once *)
    assert (E1' : s1 = startListeningFn (setStatus speaking s0')).
    { rewrite E1. unfold speakQuestion.
      change (has_synth (host (setStatus speaking s0'))) with (has_synth (host s0)).
      rewrite Hsy0. reflexivity. }
    clear E1. unfold s2, r.
    assert (HSRx : has_SR (host (setStatus speaking s0')) = true) by exact HSR0.
    destruct (startListeningFn_spec _ HSRx)
      as (S1 & S2 & _ & _ & _ & _ & S7 & _).
    assert (Hcx : cancelled (host (startListeningFn (setStatus speaking s0'))) = true)
      by (unfold startListeningFn; rewrite HSRx; cbn [negb];
          rewrite cleanupRecording_flat; exact Hc0).
    assert (Hq : currentQuestionRef (refs (startListeningFn (setStatus speaking s0'))) =
                 next_question data)
      by (unfold startListeningFn; rewrite HSRx; cbn [negb];
          rewrite cleanupRecording_flat; reflexivity).
    cbv zeta in S1, S2, S7.
    change (next_id (host (setStatus speaking s0'))) with (next_id (host s0))
      in S1, S2.
    rewrite Hn0 in S1, S2. rewrite <- E1' in S1, S2, S7, Hcx, Hq.
    split; [exact Hcx|]. split; [exact Hq|]. split; [intros E; discriminate E|].
    split; [exact Hcx|]. split; [exact S7|]. split; [exact S1|].
    eexists; split; [exact S2 | reflexivity].
Qed.

Lemma reply_after_unmount_is_applied_witness :
  let es := (listening_started ++
             [RecResult 3 (final_fragment "Hello"); DoneClick])%list in
  let data := {| final_report := None; next_question := "Next?";
                 question_count := 1 |} in
  let s := run es (mount example_props true true) in
  let s2 := run [Unmount; Settled 8 (Resolved data); UtteranceSettled 9] s in
  Store.get 8 (inflight (host s)) =
    Some {| k_q := firstQuestion example_props; k_answer := "Hello";
            k_prevQ := []; k_prevA := [] |} /\
  cancelled (host s2) = true /\
  shouldListenRef (refs s2) = true /\
  recognitionRef (refs s2) = Some 10.
Proof.
  cbv zeta.
  assert (Hg : Store.get 8 (inflight (host (run (listening_started ++
                  [RecResult 3 (final_fragment "Hello"); DoneClick])%list
                  (mount example_props true true)))) =
               Some {| k_q := firstQuestion example_props; k_answer := "Hello";
                       k_prevQ := []; k_prevA := [] |})
    by (vm_compute; reflexivity).
  split; [exact Hg|].
  pose proof (reply_after_unmount_is_applied example_props true
                (listening_started ++
                 [RecResult 3 (final_fragment "Hello"); DoneClick])%list
                8 _ {| final_report := None; next_question := "Next?";
                       question_count := 1 |} Hg eq_refl) as H.
  cbv zeta in H. destruct H as (_ & _ & _ & H4 & H5 & H6 & _).
  split; [exact H4 | split; [exact H5 | exact H6]].
Defined.

(** ** A late end event *)

(** X12.  The end handler does not look at which object ended.  When the end
    event of an object that was aborted earlier arrives while listening is
    under way again with another object, a third object is constructed,
    started and stored in [recognitionRef]; the object that was listening
    stays started but is no longer held by any ref, so that
    [cleanupRecording] never aborts it. *)
Theorem late_end_event_orphans_capture :
  forall s r o r0 o0,
    ids_fresh s ->
    capture_wf s ->
    has_SR (host s) = true ->
    shouldListenRef (refs s) = true ->
    isSubmittingRef (refs s) = false ->
    recognitionRef (refs s) = Some r0 ->
    Store.get r0 (recognizers (host s)) = Some o0 ->
    rec_state o0 = RecStarted ->
    Store.get r (recognizers (host s)) = Some o ->
    rec_state o = RecAborted ->
    let n := next_id (host s) in
    let s' := step (RecEnd r) s in
    recognitionRef (refs s') = Some n /\
    n <> r0 /\
    (exists o', Store.get n (recognizers (host s')) = Some o' /\
                rec_state o' = RecStarted /\ onresult o' = onresult o) /\
    Store.get r0 (recognizers (host s')) = Some o0 /\
    Store.get r0 (recognizers (host (cleanupRecording s'))) = Some o0.
Proof.
  intros s r o r0 o0 Hf Hwf HSR Hl Hflag Href Hr0 Hst0 Hr Hst n s'.
  assert (Hne : r0 <> r) by (intros ->; rewrite Hr0 in Hr; congruence).
  assert (Hlt : r0 < n)
    by (destruct Hf as (_ & _ & Hrec & _); eapply get_below; [exact Hrec | exact Hr0]).
  destruct (Hwf r o Hr) as (c & (Hres & Herr & Hend) & a & o1 & Hc & Ho1 & Hh1).
  destruct (onend_restarts s r o Hf Hwf HSR Hr (or_intror Hst) Hl Hflag)
    as (N1 & _ & N3 & _).
  cbv zeta in N1, N3. fold s' n in N1, N3.
  assert (Hstep : s' = recognition_onend c
                         (update_recognition r (set_rec_state RecEnded) s))
    by (unfold s'; cbn [step]; now rewrite Hr, Hend, Hst).
  pose proof (engine_recognition_onend c
                (update_recognition r (set_rec_state RecEnded) s) a
                Hl Hflag HSR Hc) as E.
  cbv zeta in E. rewrite <- Hstep in E.
  unfold engine_of in E. apply (f_equal fst) in E. cbn [fst] in E.
  change (next_id (host (update_recognition r (set_rec_state RecEnded) s)))
    with n in E.
  change (recognizers (host (update_recognition r (set_rec_state RecEnded) s)))
    with (Store.update r (set_rec_state RecEnded) (recognizers (host s))) in E.
  assert (H0 : Store.get r0 (recognizers (host s')) = Some o0).
  { rewrite E, get_installed_other by lia.
    now rewrite get_update_other by exact Hne. }
  assert (Href' : recognitionRef (refs s') = Some n) by now rewrite N3.
  clearbody s'.
  split; [exact Href'|]. split; [lia|].
  split; [eexists; split; [exact N1 | split; reflexivity]|].
  split; [exact H0|].
  rewrite cleanupRecording_flat. cbn. rewrite Href'. cbn [with_aborted].
  rewrite get_update_other by lia. exact H0.
Qed.

Lemma late_end_event_orphans_capture_witness :
  let s := run restarted_twice (mount example_props true true) in
  let o := {| continuous := true; interimResults := true; lang := "en-US";
              onresult := Some 10; onerror := Some 10; onend := Some 10;
              rec_state := RecAborted |} in
  let o0 := {| continuous := true; interimResults := true; lang := "en-US";
               onresult := Some 14; onerror := Some 14; onend := Some 14;
               rec_state := RecStarted |} in
  let s' := step (RecEnd 9) s in
  (ids_fresh s /\ capture_wf s /\ has_SR (host s) = true /\
   shouldListenRef (refs s) = true /\ isSubmittingRef (refs s) = false /\
   recognitionRef (refs s) = Some 13 /\
   Store.get 13 (recognizers (host s)) = Some o0 /\
   Store.get 9 (recognizers (host s)) = Some o) /\
  recognitionRef (refs s') = Some 17 /\
  Store.get 13 (recognizers (host (cleanupRecording s'))) = Some o0.
Proof.
  cbv zeta.
  set (s := run restarted_twice (mount example_props true true)).
  assert (Hf : ids_fresh s) by (vm_compute; repeat constructor).
  pose proof (proj2 (sound_run restarted_twice example_props true true)) as Hwf.
  fold s in Hwf.
  assert (H1 : has_SR (host s) = true) by (vm_compute; reflexivity).
  assert (H2 : shouldListenRef (refs s) = true) by (vm_compute; reflexivity).
  assert (H3 : isSubmittingRef (refs s) = false) by (vm_compute; reflexivity).
  assert (H4 : recognitionRef (refs s) = Some 13) by (vm_compute; reflexivity).
  assert (H5 : Store.get 13 (recognizers (host s)) =
               Some {| continuous := true; interimResults := true; lang := "en-US";
                       onresult := Some 14; onerror := Some 14; onend := Some 14;
                       rec_state := RecStarted |})
    by (vm_compute; reflexivity).
  assert (H6 : Store.get 9 (recognizers (host s)) =
               Some {| continuous := true; interimResults := true; lang := "en-US";
                       onresult := Some 10; onerror := Some 10; onend := Some 10;
                       rec_state := RecAborted |})
    by (vm_compute; reflexivity).
  assert (H7 : next_id (host s) = 17) by (vm_compute; reflexivity).
  split; [exact (conj Hf (conj Hwf (conj H1 (conj H2 (conj H3 (conj H4 (conj H5 H6)))))))|].
  pose proof (late_end_event_orphans_capture s 9 _ 13 _ Hf Hwf H1 H2 H3 H4 H5
                eq_refl H6 eq_refl) as H.
  cbv zeta in H. rewrite H7 in H. destruct H as (K1 & _ & _ & _ & K5).
  split; [exact K1 | exact K5].
Defined.

(** ** The silence timer, rejections and the mount effect *)

(** X13.  When the silence timer fires while the synthesiser is not
    speaking, the controller wants input and no submission is in flight, the
    submit operation runs: a transcript that does not consist of white space
    only is sent to the service, trimmed, with the question and histories of
    the refs, and capture and both timers are released; a transcript of
    white space only is a false start, with nothing sent and a restart
    scheduled.  While the component is mounted the status shown is
    [processing] in the first case and the message shown is the no-speech
    message in the second.  With a submission in flight or [shouldListenRef]
    cleared the firing does nothing. *)
Theorem silence_timer_submits_when_quiet :
  forall s id t,
    find_timeout id s = Some t ->
    t_cb t = CbSilence ->
    speechSynthesis_speaking s = false ->
    let s' := step (TimeoutFires id) s in
    let live := negb (isSubmittingRef (refs s)) && shouldListenRef (refs s) in
    (live = true -> ~ whitespace_only (transcriptRef (refs s)) ->
       requests (host s') = (requests (host s) ++ [request_of s])%list /\
       inflight (host s') =
         (inflight (host s) ++ [(next_id (host s), kont_of s)])%list /\
       isSubmittingRef (refs s') = true /\
       (mounted s = true -> status (view s') = processing) /\
       recognitionRef (refs s') = None /\
       timerIntervalRef (refs s') = None /\
       silenceTimeoutRef (refs s') = None /\
       shouldListenRef (refs s') = false) /\
    (live = true -> whitespace_only (transcriptRef (refs s)) ->
       requests (host s') = requests (host s) /\
       inflight (host s') = inflight (host s) /\
       (mounted s = true -> error (view s') = msg_no_speech) /\
       isSubmittingRef (refs s') = false /\
       exists t', In t' (timeouts (host s')) /\ t_cb t' = CbRestart /\
                  t_delay t' = RESTART_DELAY_MS) /\
    (live = false -> s' = clearTimeout id s).
Proof.
  intros s id t Hf Hcb Hq s' live.
  assert (E : s' = if live then doSubmit (clearTimeout id s) else clearTimeout id s).
  { unfold s'. cbn [step]. rewrite Hf, Hcb. cbn [run_callback].
    unfold silenceTimeout_callback.
    change (speechSynthesis_speaking (clearTimeout id s))
      with (speechSynthesis_speaking s). now rewrite Hq. }
  clearbody s'. split; [|split].
  - intros Hl Hsaid. rewrite Hl in E.
    assert (Ha : trim (transcriptRef (refs (clearTimeout id s))) <> "")
      by (intros K; apply Hsaid, trim_whitespace, K).
    assert (Hflag : isSubmittingRef (refs (clearTimeout id s)) = false).
    { unfold live in Hl. cbn. destruct (isSubmittingRef (refs s)); [discriminate|reflexivity]. }
    rewrite doSubmit_submits in E by assumption.
    rewrite cleanupRecording_flat in E. rewrite E. cbn. now repeat split.
  - intros Hl Hblank. rewrite Hl in E.
    assert (Ha : trim (transcriptRef (refs (clearTimeout id s))) = "")
      by (apply trim_whitespace; exact Hblank).
    assert (Hflag : isSubmittingRef (refs (clearTimeout id s)) = false).
    { unfold live in Hl. cbn. destruct (isSubmittingRef (refs s)); [discriminate|reflexivity]. }
    rewrite doSubmit_false_start in E by assumption.
    rewrite cleanupRecording_flat in E. rewrite E. cbn.
    split; [reflexivity|]. split; [reflexivity|]. split; [reflexivity|].
    split; [exact Hflag|].
    eexists. split; [apply in_or_app; right; left; reflexivity|]. now split.
  - intros Hl. now rewrite Hl in E.
Qed.

Lemma silence_timer_submits_when_quiet_witness :
  let s := example_padded in
  let s' := step (TimeoutFires 7) s in
  let b := example_blank in
  let b' := step (TimeoutFires 7) b in
  (find_timeout 7 s =
     Some {| t_id := 7; t_delay := SILENCE_TIMEOUT_MS; t_cb := CbSilence |} /\
   speechSynthesis_speaking s = false /\
   negb (isSubmittingRef (refs s)) && shouldListenRef (refs s) = true /\
   ~ whitespace_only (transcriptRef (refs s)) /\ mounted s = true) /\
  (find_timeout 7 b =
     Some {| t_id := 7; t_delay := SILENCE_TIMEOUT_MS; t_cb := CbSilence |} /\
   speechSynthesis_speaking b = false /\
   negb (isSubmittingRef (refs b)) && shouldListenRef (refs b) = true /\
   whitespace_only (transcriptRef (refs b)) /\
   transcriptRef (refs b) <> "" /\ mounted b = true) /\
  map current_answer (requests (host s')) = ["Hello"] /\
  status (view s') = processing /\
  requests (host b') = [] /\
  error (view b') = msg_no_speech.
Proof.
  cbv zeta.
  assert (Hne : ~ whitespace_only (transcriptRef (refs example_padded))).
  { intros H. apply trim_whitespace in H. vm_compute in H. discriminate H. }
  assert (Hw : whitespace_only (transcriptRef (refs example_blank)))
    by (apply trim_whitespace; vm_compute; reflexivity).
  split; [split; [reflexivity | split; [reflexivity | split; [reflexivity |
            split; [exact Hne | reflexivity]]]]|].
  split; [split; [reflexivity | split; [reflexivity | split; [reflexivity |
            split; [exact Hw | split; [vm_compute; discriminate | reflexivity]]]]]|].
  pose proof (silence_timer_submits_when_quiet example_padded 7 _
                eq_refl eq_refl eq_refl) as H.
  cbv zeta in H. destruct H as (H1 & _ & _).
  destruct (H1 eq_refl Hne) as (K1 & _ & _ & K4 & _).
  pose proof (silence_timer_submits_when_quiet example_blank 7 _
                eq_refl eq_refl eq_refl) as H'.
  cbv zeta in H'. destruct H' as (_ & H2 & _).
  destruct (H2 eq_refl Hw) as (L1 & _ & L3 & _).
  split; [rewrite K1; vm_compute; reflexivity|].
  split; [exact (K4 eq_refl)|].
  split; [rewrite L1; reflexivity | exact (L3 eq_refl)].
Defined.

Section Stuck.

Lemma settled_rejected s n k message :
  inflight (host s) = [(n, k)] ->
  step (Settled n (Rejected message)) s =
  set_isSubmittingRef false
    (setStatus idle
       (setError (or_default message msg_failed) (set_inflight [] s))).
Proof.
  intros H. cbn [step]. rewrite H, get_single, remove_single. reflexivity.
Qed.

Lemma nothing_left s :
  sole_listener s ->
  isSubmittingRef (refs s) = false ->
  trim (transcriptRef (refs s)) <> "" ->
  forall message,
    let s2 := step (Settled (next_id (host s)) (Rejected message)) (doSubmit s) in
    quiescent s2 /\
    requests (host s2) = (requests (host s) ++ [request_of s])%list.
Proof.
  intros (Hu & Hi & Ht & Hiv & Hr) Hflag Ha message s2.
  set (s1 := doSubmit s) in *.
  assert (E1 : s1 = submitAnswer (request_of s) (kont_of s)
                      (setError "" (setStatus processing
                         (cleanupRecording (set_isSubmittingRef true s)))))
    by now apply doSubmit_submits.
  rewrite cleanupRecording_flat in E1. clearbody s1.
  assert (K1 : inflight (host s1) = [(next_id (host s), kont_of s)])
    by (rewrite E1; cbn; now rewrite Hi).
  assert (K2 : shouldListenRef (refs s1) = false) by now rewrite E1.
  assert (K3 : timeouts (host s1) = []) by (rewrite E1; cbn; exact Ht).
  assert (K4 : intervals (host s1) = []) by (rewrite E1; cbn; exact Hiv).
  assert (K5 : utterances (host s1) = []) by (rewrite E1; cbn; exact Hu).
  assert (K6 : Forall (fun r => rec_state (snd r) <> RecStarted)
                 (recognizers (host s1))) by (rewrite E1; cbn; exact Hr).
  assert (K7 : requests (host s1) = (requests (host s) ++ [request_of s])%list)
    by now rewrite E1.
  clear E1.
  assert (E2 : s2 = set_isSubmittingRef false
                      (setStatus idle
                         (setError (or_default message msg_failed)
                            (set_inflight [] s1))))
    by (unfold s2; exact (settled_rejected s1 _ _ message K1)).
  clearbody s2. rewrite E2. unfold quiescent.
  split; [|exact K7].
  split; [reflexivity|]. split; [exact K2|]. split; [exact K3|].
  split; [exact K4|]. split; [exact K5|]. split; [reflexivity | exact K6].
Qed.

End Stuck.

(** X14.  A failed submission is never retried.  When the answer is
    submitted from a state in which nothing is pending or active beyond
    what the refs hold, and the service rejects the request, then whatever
    events follow no further request is sent and the status stays [idle]:
    the done button is not rendered, both timers are cleared and capture is
    aborted. *)
Theorem failed_submission_is_never_retried :
  forall s message es,
    sole_listener s ->
    isSubmittingRef (refs s) = false ->
    trim (transcriptRef (refs s)) <> "" ->
    let s2 := step (Settled (next_id (host s)) (Rejected message)) (doSubmit s) in
    let s3 := run es s2 in
    requests (host s3) = (requests (host s) ++ [request_of s])%list /\
    inflight (host s3) = [] /\
    status (view s3) = idle /\
    shouldListenRef (refs s3) = false.
Proof.
  intros s message es Hs Hflag Ha s2 s3.
  destruct (nothing_left s Hs Hflag Ha message) as (Hq & Hreq). fold s2 in Hq, Hreq.
  destruct (quiescent_run es s2 Hq) as ((Q1 & Q2 & _ & _ & _ & Q6 & _) & E).
  fold s3 in Q1, Q2, Q6, E.
  split; [now rewrite E|]. now repeat split.
Qed.

Lemma failed_submission_is_never_retried_witness :
  let s := example_answered in
  let s3 := run [DoneClick; TimeoutFires 7; IntervalFires 6; RecEnd 3; DoneClick]
              (step (Settled 8 (Rejected None)) (doSubmit s)) in
  (sole_listener s /\ isSubmittingRef (refs s) = false /\
   trim (transcriptRef (refs s)) <> "") /\
  map current_answer (requests (host s3)) = ["Hello"] /\
  status (view s3) = idle.
Proof.
  cbv zeta.
  assert (Hs : sole_listener example_answered)
    by (vm_compute; repeat split; repeat constructor; discriminate).
  assert (Hne : trim (transcriptRef (refs example_answered)) <> "")
    by (vm_compute; discriminate).
  split; [split; [exact Hs | split; [reflexivity | exact Hne]]|].
  pose proof (failed_submission_is_never_retried example_answered None
                [DoneClick; TimeoutFires 7; IntervalFires 6; RecEnd 3; DoneClick]
                Hs eq_refl Hne) as H.
  cbv zeta in H. destruct H as (H1 & _ & H3 & _).
  split; [|exact H3].
  change (next_id (host example_answered)) with 8 in H1.
  rewrite H1. vm_compute. reflexivity.
Defined.

(** X15.  The mount effect.  Half a second after mounting, the component
    speaks the first question, and when the question has been spoken (at
    once in a browser without a synthesiser) it listens for the first
    answer: a started recognition object is held by [recognitionRef], the
    status is [recording], the transcript is empty, the countdown shows
    [MAX_RECORD_SECONDS], and the turn is the first question with number
    1. *)
Theorem first_turn_starts_after_the_question :
  forall p synth,
    let s0 := mount p true synth in
    let s1 := step (TimeoutFires 1) s0 in
    let s2 := if synth then step (UtteranceSettled 2) s1 else s1 in
    let r := if synth then 3 else 2 in
    timeouts (host s0) =
      [{| t_id := 1; t_delay := INIT_DELAY_MS; t_cb := CbInitDelay |}] /\
    recognizers (host s0) = [] /\
    (synth = true ->
     utterances (host s1) = [(2, (firstQuestion p, KInit))] /\
     status (view s1) = speaking /\ recognizers (host s1) = []) /\
    status (view s2) = recording /\
    isRecording (view s2) = true /\
    shouldListenRef (refs s2) = true /\
    recognitionRef (refs s2) = Some r /\
    (exists o, Store.get r (recognizers (host s2)) = Some o /\
               rec_state o = RecStarted) /\
    transcriptRef (refs s2) = "" /\
    timer (view s2) = MAX_RECORD_SECONDS /\
    currentQuestion (view s2) = firstQuestion p /\
    questionNumber (view s2) = 1%Z /\
    requests (host s2) = [].
Proof.
  intros p synth. destruct synth; cbv zeta; cbn;
    repeat split; try reflexivity; try discriminate;
    eexists; split; reflexivity.
Qed.

(** ** The histories *)

(** X16.  In every session the two histories pair every question with an
    answer that was sent for it: each pair of the histories held by the
    refs, and each pair of the histories that a request carried, is the
    question and the answer of a request that was sent. *)
Theorem histories_hold_what_was_sent :
  forall p sr synth es,
    let s := run es (mount p sr synth) in
    let sent qa :=
      exists r, In r (requests (host s)) /\
                current_question r = fst qa /\ current_answer r = snd qa in
    Forall sent (combine (previousQuestionsRef (refs s))
                   (previousAnswersRef (refs s))) /\
    Forall (fun r => Forall sent (combine (previous_questions r)
                                    (previous_answers r)))
      (requests (host s)).
Proof.
  intros p sr synth es s sent.
  destruct (history_ok_run es p sr synth) as ((_ & H1) & _ & H3).
  fold s in H1, H3. split; [exact H1|].
  eapply Forall_impl; [|exact H3]. cbn beta. now intros r (_ & Hr).
Qed.

(** * The resume uploader: file names *)

Section SplitFacts.

Lemma split_not_nil sep s : split sep s <> [].
Proof.
  destruct s as [|c r]; cbn; [discriminate|].
  destruct (Ascii.eqb c sep); [discriminate|].
  destruct (split sep r); discriminate.
Qed.

Lemma split_cons_sep sep r : split sep (String sep r) = EmptyString :: split sep r.
Proof. cbn. now rewrite Ascii.eqb_refl. Qed.

Lemma split_cons_other sep c r :
  Ascii.eqb c sep = false ->
  split sep (String c r) =
  String c (hd EmptyString (split sep r)) :: tl (split sep r).
Proof.
  intros E. cbn. rewrite E.
  destruct (split sep r) eqn:Es; [now apply split_not_nil in Es | reflexivity].
Qed.

(** A separator in the string separates the pieces of what precedes it from
    those of what follows it. *)
Lemma split_app_sep sep a b :
  split sep (a ++ String sep b) = (split sep a ++ split sep b)%list.
Proof.
  induction a as [|c r IH].
  - cbn [append]. rewrite split_cons_sep. reflexivity.
  - cbn [append]. destruct (Ascii.eqb c sep) eqn:E.
    + apply Ascii.eqb_eq in E. subst c. rewrite !split_cons_sep, IH. reflexivity.
    + rewrite !split_cons_other by exact E. rewrite IH.
      destruct (split sep r) eqn:Es; [now apply split_not_nil in Es | reflexivity].
Qed.

Lemma split_single sep s x : split sep s = [x] -> s = x.
Proof.
  revert x. induction s as [|c r IH]; intros x H.
  - cbn in H. now inversion H.
  - destruct (Ascii.eqb c sep) eqn:E.
    + apply Ascii.eqb_eq in E. subst c. rewrite split_cons_sep in H.
      inversion H as [[H1 H2]]. now apply split_not_nil in H2.
    + rewrite split_cons_other in H by exact E.
      destruct (split sep r) as [|h [|y ys]] eqn:Es; cbn in H; try discriminate H.
      * now apply split_not_nil in Es.
      * inversion H. now rewrite (IH h eq_refl).
Qed.

Lemma split_dotless s : dotless s = true -> split "." s = [s].
Proof.
  induction s as [|c r IH]; [reflexivity|]. cbn [dotless].
  destruct (Ascii.eqb c ".") eqn:E; cbn [negb andb]; [discriminate|].
  intros H. rewrite split_cons_other by exact E. now rewrite (IH H).
Qed.

Lemma pieces_dotless s : Forall (fun x => dotless x = true) (split "." s).
Proof.
  induction s as [|c r IH]; [now repeat constructor|].
  destruct (Ascii.eqb c ".") eqn:E.
  - apply Ascii.eqb_eq in E. subst c. rewrite split_cons_sep. now constructor.
  - rewrite split_cons_other by exact E.
    destruct (split "." r) as [|x xs] eqn:Es; [now apply split_not_nil in Es|].
    inversion IH; subst. constructor; [|assumption].
    cbn [hd dotless]. now rewrite E.
Qed.

Lemma pop_app l1 l2 : l2 <> [] -> pop (l1 ++ l2)%list = pop l2.
Proof.
  intros H. unfold pop. induction l1 as [|x l1 IH]; [reflexivity|].
  cbn [app]. destruct (l1 ++ l2)%list eqn:E.
  - apply app_eq_nil in E. destruct E as [_ E]. contradiction.
  - rewrite <- IH. reflexivity.
Qed.

(** What follows the last separator is the last piece. *)
Lemma pop_split_app pre e :
  dotless e = true -> pop (split "." (pre ++ String "." e)) = e.
Proof.
  intros He. rewrite split_app_sep, pop_app by apply split_not_nil.
  now rewrite (split_dotless e He).
Qed.

(** The last piece has no separator, and the string is that piece or ends
    with a separator followed by it. *)
Lemma pop_split_suffix s :
  dotless (pop (split "." s)) = true /\
  (s = pop (split "." s) \/ exists pre, s = pre ++ String "." (pop (split "." s))).
Proof.
  split.
  - pose proof (pieces_dotless s) as H. rewrite Forall_forall in H. apply H.
    unfold pop. destruct (split "." s) as [|x l] eqn:E;
      [now apply split_not_nil in E|].
    rewrite <- E. destruct (exists_last (split_not_nil "." s)) as (l' & a & ->).
    rewrite last_last. apply in_or_app. right. now left.
  - induction s as [|c r IH]; [now left|].
    destruct (Ascii.eqb c ".") eqn:E.
    + apply Ascii.eqb_eq in E. subst c. rewrite split_cons_sep.
      change (EmptyString :: split "." r) with ([EmptyString] ++ split "." r)%list.
      rewrite pop_app by apply split_not_nil. right.
      destruct IH as [IH|(pre & IH)].
      * exists "". cbn. now rewrite <- IH.
      * exists (String "." pre). cbn. now rewrite <- IH.
    + rewrite split_cons_other by exact E.
      destruct (split "." r) as [|x [|y ys]] eqn:Es.
      * now apply split_not_nil in Es.
      * left. apply split_single in Es. subst x. reflexivity.
      * unfold pop in *. cbn [hd tl] in *.
        change (last (String c x :: y :: ys) EmptyString)
          with (last (y :: ys) EmptyString).
        change (last (x :: y :: ys) EmptyString)
          with (last (y :: ys) EmptyString) in IH.
        destruct IH as [IH|(pre & IH)].
        -- right. (* the string is its last piece, yet there are two pieces *)
           exfalso.
           pose proof (pieces_dotless r) as D. rewrite Es in D.
           assert (Hd : dotless r = true).
           { rewrite IH at 1. rewrite Forall_forall in D. apply D.
             destruct (exists_last (l := y :: ys)) as (l' & a & Ha); [discriminate|].
             rewrite Ha, last_last. right. apply in_or_app. right. now left. }
           rewrite (split_dotless r Hd) in Es. discriminate Es.
        -- right. exists (String c pre). cbn [append]. now rewrite <- IH.
Qed.

Lemma includes_In l x : includes l x = true <-> In x l.
Proof.
  unfold includes. rewrite existsb_exists. split.
  - intros (y & Hy & E). apply String.eqb_eq in E. now subst.
  - intros H. exists x. split; [exact H | apply String.eqb_refl].
Qed.

End SplitFacts.

Section UploaderFacts.

Import ResumeUploader.

Lemma validateFile_spec f s :
  let ok := includes ["pdf"; "docx"; "doc"] (extension f) in
  validateFile f s =
  (ok, if ok then setError "" (setFile (Some f) s)
       else setFile None (setError msg_wrong_type s)).
Proof.
  cbv zeta. unfold validateFile.
  destruct (includes _ _); reflexivity.
Qed.

Lemma uploader_ok_validateFile f s :
  uploader_ok s -> uploader_ok (snd (validateFile f s)).
Proof.
  intros (H1 & H2 & H3 & H4 & H5 & H6). rewrite validateFile_spec. cbn [snd].
  destruct (includes _ _) eqn:E; unfold uploader_ok; cbn;
    (split; [|exact (conj H2 (conj H3 (conj H4 (conj H5 H6))))]).
  - intros f' Hf. inversion Hf; subst. exact E.
  - intros f' Hf. discriminate Hf.
Qed.

Lemma uploader_ok_step e s : uploader_ok s -> uploader_ok (step e s).
Proof.
  intros H. pose proof H as (H1 & H2 & H3 & H4 & H5 & H6).
  destruct e; cbn [step].
  - destruct selected; cbn [handleFileChange];
      [now apply uploader_ok_validateFile | exact H].
  - destruct type; exact H.
  - unfold handleDrop. destruct dropped; [|exact H].
    apply uploader_ok_validateFile. exact H.
  - unfold upload_enabled. destruct (parsed s) eqn:Ep; cbn [negb andb]; [exact H|].
    destruct (file s) as [f|] eqn:Ef; cbn [orb]; [|exact H].
    destruct (loading s) eqn:El; cbn [negb]; [exact H|].
    assert (Hp : pending s = []).
    { destruct (pending s) eqn:E; [reflexivity|]. exfalso.
      assert (K : false = true) by (apply H4; discriminate). discriminate K. }
    unfold handleUpload. rewrite Ef. unfold uploader_ok. cbn. rewrite Hp. cbn.
    rewrite Ef.
    split; [exact H1|].
    split; [apply Forall_app; split; [exact H2|];
            constructor; [exact (H1 f eq_refl) | constructor]|].
    split; [lia|]. split; [split; [discriminate | reflexivity]|].
    split; [intros K; congruence | rewrite Ep; exact H6].
  - destruct (Store.get p (pending s)) as [f|] eqn:E; [|exact H].
    assert (Hl : length (pending s) = 1).
    { apply get_not_nil, not_nil_length in E. lia. }
    assert (Hnp : parsed s = false).
    { destruct (parsed s); [|reflexivity]. rewrite H5 in E by reflexivity.
      discriminate E. }
    rewrite (single_removed _ _ _ Hl E).
    destruct reply as [data|message]; unfold uploader_ok; cbn.
    + split; [exact H1|]. split; [exact H2|]. split; [lia|].
      split; [split; [discriminate | intros K; now elim K]|].
      split; [reflexivity | split; [discriminate | reflexivity]].
    + split; [exact H1|]. split; [exact H2|]. split; [lia|].
      split; [split; [discriminate | intros K; now elim K]|].
      split; [reflexivity | exact H6].
  - destruct (parsed s); [|exact H]. unfold handleStart.
    destruct (fileRef s); exact H.
Qed.

Lemma uploader_ok_mount : uploader_ok mount.
Proof.
  unfold uploader_ok. cbn. split; [discriminate|]. split; [constructor|].
  split; [lia|]. split; [split; [discriminate | congruence]|].
  split; [reflexivity | split; [discriminate | congruence]].
Qed.

Lemma uploader_run_cons e es s : run (e :: es) s = run es (step e s).
Proof. reflexivity. Qed.

Lemma uploader_ok_run es : forall s, uploader_ok s -> uploader_ok (run es s).
Proof.
  induction es as [|e es IH]; intros s H; [exact H|].
  rewrite uploader_run_cons. apply IH. now apply uploader_ok_step.
Qed.

End UploaderFacts.

(** * The resume uploader: sessions *)

(** X17.  [validateFile] judges a file by what follows the last full stop of
    its name, or by the whole name if it has none, without regard to case:
    the file is accepted exactly when that is [pdf], [docx] or [doc].  An
    accepted file becomes the chosen file and the error is cleared; any
    other file clears the choice and shows the error. *)
Theorem validateFile_looks_at_last_extension :
  forall f s,
    let ok := fst (ResumeUploader.validateFile f s) in
    let s' := snd (ResumeUploader.validateFile f s) in
    (ok = true <->
     exists e,
       In (toLowerCase e) ["pdf"; "docx"; "doc"] /\
       dotless e = true /\
       (ResumeUploader.name f = e \/
        exists pre, ResumeUploader.name f = pre ++ String "." e)) /\
    (ok = true ->
     ResumeUploader.file s' = Some f /\ ResumeUploader.error s' = "") /\
    (ok = false ->
     ResumeUploader.file s' = None /\
     ResumeUploader.error s' = ResumeUploader.msg_wrong_type).
Proof.
  intros f s. cbv zeta. rewrite validateFile_spec. cbn [fst snd].
  split; [|split].
  - rewrite includes_In. unfold ResumeUploader.extension. split.
    + intros H. exists (pop (split "." (ResumeUploader.name f))).
      destruct (pop_split_suffix (ResumeUploader.name f)) as (D & S).
      split; [exact H | split; [exact D | exact S]].
    + intros (e & He & De & [Hn|(pre & Hn)]); rewrite Hn.
      * rewrite (split_dotless e De). exact He.
      * rewrite (pop_split_app pre e De). exact He.
  - intros H. rewrite H. now split.
  - intros H. rewrite H. now split.
Qed.

Section UploaderSessions.

Import ResumeUploader.

Lemma started_from_ref_step e s :
  uploader_ok s ->
  Forall (fun d => fileRef s = Some d) (started s) ->
  Forall (fun d => fileRef (step e s) = Some d) (started (step e s)).
Proof.
  intros (H1 & H2 & H3 & H4 & H5 & H6) H. destruct e; cbn [step].
  - destruct selected; cbn [handleFileChange]; [|exact H].
    rewrite validateFile_spec. cbn [snd]. destruct (includes _ _); exact H.
  - destruct type; exact H.
  - unfold handleDrop. destruct dropped; [|exact H].
    rewrite validateFile_spec. cbn [snd]. destruct (includes _ _); exact H.
  - destruct (upload_enabled s); [|exact H]. unfold handleUpload.
    destruct (file s); exact H.
  - destruct (Store.get p (pending s)) as [f|] eqn:E; [|exact H].
    destruct reply as [data|message]; cbn; [|exact H].
    assert (Hnp : parsed s = false).
    { destruct (parsed s); [|reflexivity]. rewrite H5 in E by reflexivity.
      discriminate E. }
    assert (Hr : fileRef s = None).
    { destruct (fileRef s) eqn:Er; [|reflexivity].
      assert (K : parsed s = true) by (apply H6; discriminate). congruence. }
    rewrite Hr in H. destruct (started s); [constructor|].
    inversion H; subst. discriminate.
  - destruct (parsed s); [|exact H]. unfold handleStart.
    destruct (fileRef s) as [d|] eqn:Er; [|rewrite Er; exact H]. cbn. rewrite Er.
    apply Forall_app. split; [exact H | now repeat constructor].
Qed.

Lemma ref_from_replies_step R e s :
  uploader_ok s ->
  (forall d, fileRef s = Some d -> In d R) ->
  forall d, fileRef (step e s) = Some d -> In d (R ++ uploads_resolved [e])%list.
Proof.
  intros (H1 & H2 & H3 & H4 & H5 & H6) H d.
  assert (K : fileRef s = Some d -> In d (R ++ uploads_resolved [e])%list).
  { intros Hd. apply in_or_app. left. now apply H. }
  destruct e; cbn [step].
  - destruct selected; cbn [handleFileChange]; [|exact K].
    rewrite validateFile_spec. cbn [snd]. destruct (includes _ _); exact K.
  - destruct type; exact K.
  - unfold handleDrop. destruct dropped; [|exact K].
    rewrite validateFile_spec. cbn [snd]. destruct (includes _ _); exact K.
  - destruct (upload_enabled s); [|exact K]. unfold handleUpload.
    destruct (file s); exact K.
  - destruct (Store.get p (pending s)); [|exact K].
    destruct reply as [data|message]; cbn.
    + intros Hd. inversion Hd; subst. apply in_or_app. right. now left.
    + intros Hd. apply in_or_app. left. now apply H.
  - destruct (parsed s); [|exact K]. unfold handleStart.
    destruct (fileRef s) eqn:Er; [|rewrite Er; exact K].
    cbn. rewrite Er. exact K.
Qed.

Lemma uploader_session es : forall R s,
  uploader_ok s ->
  Forall (fun d => fileRef s = Some d) (started s) ->
  (forall d, fileRef s = Some d -> In d R) ->
  uploader_ok (run es s) /\
  Forall (fun d => fileRef (run es s) = Some d) (started (run es s)) /\
  (forall d, fileRef (run es s) = Some d -> In d (R ++ uploads_resolved es)%list).
Proof.
  induction es as [|e es IH]; intros R s H1 H2 H3.
  - cbn. rewrite app_nil_r. auto.
  - rewrite uploader_run_cons. change (e :: es) with ([e] ++ es)%list.
    unfold uploads_resolved. rewrite flat_map_app, app_assoc.
    apply IH.
    + now apply uploader_ok_step.
    + now apply started_from_ref_step.
    + now apply ref_from_replies_step.
Qed.

(** Once the resume is parsed the uploader never sends anything again and
    never changes its data. *)
Lemma parsed_is_final_step e s :
  uploader_ok s -> parsed s = true ->
  parsed (step e s) = true /\ fileRef (step e s) = fileRef s /\
  sent (step e s) = sent s.
Proof.
  intros (H1 & H2 & H3 & H4 & H5 & H6) Hp.
  assert (K : parsed s = true /\ fileRef s = fileRef s /\ sent s = sent s)
    by now repeat split.
  destruct e; cbn [step].
  - destruct selected; cbn [handleFileChange]; [|exact K].
    rewrite validateFile_spec. cbn [snd]. destruct (includes _ _); exact K.
  - destruct type; exact K.
  - unfold handleDrop. destruct dropped; [|exact K].
    rewrite validateFile_spec. cbn [snd]. destruct (includes _ _); exact K.
  - unfold upload_enabled. rewrite Hp. cbn [negb andb].
    exact K.
  - rewrite (H5 Hp). exact K.
  - rewrite Hp. unfold handleStart.
    destruct (fileRef s) eqn:Er; [|rewrite Er; exact K].
    cbn. rewrite Er. now repeat split.
Qed.

End UploaderSessions.

(** X18.  In every session of the uploader at most one upload is awaited,
    [loading] is shown exactly while one is, and every file that was sent
    has the extension [pdf], [docx] or [doc]. *)
Theorem uploads_one_at_a_time :
  forall es,
    let s := ResumeUploader.run es ResumeUploader.mount in
    length (ResumeUploader.pending s) <= 1 /\
    (ResumeUploader.loading s = true <-> ResumeUploader.pending s <> []) /\
    Forall (fun f => In (ResumeUploader.extension f) ["pdf"; "docx"; "doc"])
      (ResumeUploader.sent s).
Proof.
  intros es s.
  destruct (uploader_ok_run es _ uploader_ok_mount) as (_ & H2 & H3 & H4 & _).
  fold s in H2, H3, H4. split; [exact H3|]. split; [exact H4|].
  eapply Forall_impl; [|exact H2]. intros f Hf. now apply includes_In.
Qed.

(** X19.  In every session of the uploader the interview is started only
    with data that the service returned: every call of [onUploadSuccess]
    carries the data held by [fileRef], which are the data of a resolved
    upload; before an upload has resolved the start button does nothing. *)
Theorem interview_starts_with_uploaded_data :
  forall es,
    let s := ResumeUploader.run es ResumeUploader.mount in
    Forall (fun d => ResumeUploader.fileRef s = Some d /\
                     In d (uploads_resolved es))
      (ResumeUploader.started s) /\
    (uploads_resolved es = [] -> ResumeUploader.started s = []).
Proof.
  intros es s.
  destruct (uploader_session es [] ResumeUploader.mount uploader_ok_mount)
    as (_ & H2 & H3); [constructor | discriminate|].
  fold s in H2, H3. cbn [app] in H3.
  assert (H : Forall (fun d => ResumeUploader.fileRef s = Some d /\
                               In d (uploads_resolved es))
                (ResumeUploader.started s)).
  { eapply Forall_impl; [|exact H2]. intros d Hd. split; [exact Hd | now apply H3]. }
  split; [exact H|]. intros E. rewrite E in H.
  destruct (ResumeUploader.started s) as [|d l]; [reflexivity|].
  inversion H as [|? ? [_ []] _].
Qed.

(** X20.  Once the resume is parsed, the uploader sends nothing more and
    keeps its data: a file chosen afterwards is shown but is never uploaded,
    and the interview starts with the data of the earlier upload. *)
Theorem parsed_resume_is_final :
  forall s es,
    uploader_ok s ->
    ResumeUploader.parsed s = true ->
    let s' := ResumeUploader.run es s in
    ResumeUploader.parsed s' = true /\
    ResumeUploader.fileRef s' = ResumeUploader.fileRef s /\
    ResumeUploader.sent s' = ResumeUploader.sent s.
Proof.
  intros s es. revert s. induction es as [|e es IH]; intros s Hok Hp; [now cbn|].
  cbv zeta. rewrite uploader_run_cons.
  destruct (parsed_is_final_step e s Hok Hp) as (K1 & K2 & K3).
  destruct (IH (ResumeUploader.step e s) (uploader_ok_step e s Hok) K1)
    as (J1 & J2 & J3).
  split; [exact J1|]. split; congruence.
Qed.

Lemma parsed_resume_is_final_witness :
  let data := {| ResumeUploader.session_id := "session-1";
                 ResumeUploader.first_question := "Tell me about yourself." |} in
  let other := {| ResumeUploader.name := "other.docx"; ResumeUploader.size := 10 |} in
  let s := ResumeUploader.run
             [ResumeUploader.UploadClick;
              ResumeUploader.UploadSettled 1 (ResumeUploader.Resolved data)]
             example_chosen in
  let s' := ResumeUploader.run
              [ResumeUploader.FileChange (Some other); ResumeUploader.UploadClick;
               ResumeUploader.StartClick] s in
  (uploader_ok s /\ ResumeUploader.parsed s = true) /\
  ResumeUploader.file s' = Some other /\
  ResumeUploader.sent s' = [example_resume] /\
  ResumeUploader.started s' = [data].
Proof.
  cbv zeta.
  set (data := {| ResumeUploader.session_id := "session-1";
                  ResumeUploader.first_question := "Tell me about yourself." |}).
  set (s := ResumeUploader.run
              [ResumeUploader.UploadClick;
               ResumeUploader.UploadSettled 1 (ResumeUploader.Resolved data)]
              example_chosen).
  assert (Hok : uploader_ok s).
  { apply uploader_ok_run. apply uploader_ok_step. apply uploader_ok_mount. }
  assert (Hp : ResumeUploader.parsed s = true) by reflexivity.
  split; [exact (conj Hok Hp)|].
  pose proof (parsed_resume_is_final s
                [ResumeUploader.FileChange
                   (Some {| ResumeUploader.name := "other.docx";
                            ResumeUploader.size := 10 |});
                 ResumeUploader.UploadClick; ResumeUploader.StartClick]
                Hok Hp) as H.
  cbv zeta in H. destruct H as (_ & _ & H3).
  split; [reflexivity|]. split; [rewrite H3; reflexivity | reflexivity].
Defined.

(** X21.  A failed upload can be tried again.  When the upload of the chosen
    file is rejected, the message of the rejection (or the stock message) is
    shown, [loading] is cleared and the file stays chosen, so that the
    upload button is enabled again and a click sends the same file once
    more. *)
Theorem failed_upload_can_be_retried :
  forall s f message,
    uploader_ok s ->
    ResumeUploader.file s = Some f ->
    ResumeUploader.upload_enabled s = true ->
    let p := ResumeUploader.next_id s in
    let s1 := ResumeUploader.step ResumeUploader.UploadClick s in
    let s2 := ResumeUploader.step
                (ResumeUploader.UploadSettled p (ResumeUploader.Rejected message)) s1 in
    let s3 := ResumeUploader.step ResumeUploader.UploadClick s2 in
    ResumeUploader.upload_enabled s1 = false /\
    ResumeUploader.error s2 = or_default message ResumeUploader.msg_upload_failed /\
    ResumeUploader.error s2 <> "" /\
    ResumeUploader.loading s2 = false /\
    ResumeUploader.parsed s2 = false /\
    ResumeUploader.file s2 = Some f /\
    ResumeUploader.upload_enabled s2 = true /\
    ResumeUploader.sent s3 = (ResumeUploader.sent s ++ [f; f])%list /\
    ResumeUploader.pending s3 = [(S p, f)].
Proof.
  intros s f message (H1 & H2 & H3 & H4 & H5 & H6) Hf He p s1 s2 s3.
  unfold ResumeUploader.upload_enabled in He. rewrite Hf in He. cbn [orb] in He.
  destruct (ResumeUploader.parsed s) eqn:Ep; [discriminate He|].
  destruct (ResumeUploader.loading s) eqn:El; [discriminate He|].
  assert (Hp : ResumeUploader.pending s = []).
  { destruct (ResumeUploader.pending s) eqn:E; [reflexivity|]. exfalso.
    assert (K : false = true) by (apply H4; discriminate). discriminate K. }
  assert (E1 : s1 = ResumeUploader.uploadResume f
                      (ResumeUploader.setError ""
                         (ResumeUploader.setLoading true s))).
  { unfold s1. cbn [ResumeUploader.step]. unfold ResumeUploader.upload_enabled.
    rewrite Hf, Ep, El. cbn [negb andb orb]. unfold ResumeUploader.handleUpload.
    now rewrite Hf. }
  clearbody s1.
  assert (E2 : s2 = ResumeUploader.setLoading false
                      (ResumeUploader.setError
                         (or_default message ResumeUploader.msg_upload_failed)
                         {| ResumeUploader.file := Some f;
                            ResumeUploader.loading := true;
                            ResumeUploader.error := "";
                            ResumeUploader.parsed := false;
                            ResumeUploader.dragActive := ResumeUploader.dragActive s;
                            ResumeUploader.fileRef := ResumeUploader.fileRef s;
                            ResumeUploader.next_id := S p;
                            ResumeUploader.pending := [];
                            ResumeUploader.sent := (ResumeUploader.sent s ++ [f])%list;
                            ResumeUploader.started := ResumeUploader.started s |})).
  { unfold s2. rewrite E1. cbn. rewrite Hp, Hf, Ep. cbn.
    unfold p. now rewrite get_single, remove_single. }
  clearbody s2. unfold s3. clear s3. subst s2 s1.
  unfold ResumeUploader.upload_enabled. cbn. rewrite ?Hf, ?Ep. cbn.
  split; [reflexivity|]. split; [reflexivity|].
  split; [apply or_default_not_empty; discriminate|].
  repeat split. now rewrite <- app_assoc.
Qed.

Lemma failed_upload_can_be_retried_witness :
  let s3 := ResumeUploader.run
              [ResumeUploader.UploadClick;
               ResumeUploader.UploadSettled 1 (ResumeUploader.Rejected None);
               ResumeUploader.UploadClick] example_chosen in
  (uploader_ok example_chosen /\
   ResumeUploader.file example_chosen = Some example_resume /\
   ResumeUploader.upload_enabled example_chosen = true) /\
  ResumeUploader.sent s3 = [example_resume; example_resume] /\
  ResumeUploader.pending s3 = [(2, example_resume)].
Proof.
  cbv zeta.
  assert (Hok : uploader_ok example_chosen)
    by (apply uploader_ok_step, uploader_ok_mount).
  split; [exact (conj Hok (conj eq_refl eq_refl))|].
  pose proof (failed_upload_can_be_retried example_chosen example_resume None
                Hok eq_refl eq_refl) as H.
  cbv zeta in H. destruct H as (_ & _ & _ & _ & _ & _ & _ & H8 & H9).
  split; [exact H8 | exact H9].
Defined.

(** * The first version of the session: its closures *)

(** The state, field by field. *)
Ltac legacy_state s :=
  destruct s as [pr [cq qn tr ir isp st ev er pq pa tm ss]
                   [rr ti si trf sub sl]
                   [sr syn mo nid tos ivs recs acts uts inf reqs comp]].

Section LegacyClosures.

Import Legacy.

Variable P : Env -> Prop.

Lemma closures_in_ext s s' :
  held_of s' = held_of s -> closures_in P s -> closures_in P s'.
Proof. unfold closures_in. now intros ->. Qed.

Lemma Forall_put_any {V} (Q : nat * V -> Prop) k v l :
  Q (k, v) -> Forall Q l -> Forall Q (Store.put k v l).
Proof.
  intros Hk. induction 1 as [|[k' v'] l Hx Hl IH].
  - now repeat constructor.
  - unfold Store.put; fold (@Store.put V).
    destruct (Nat.eqb k k'); constructor; auto.
Qed.

Lemma Forall_snoc {A} (Q : A -> Prop) l x :
  Forall Q l -> Q x -> Forall Q (l ++ [x]).
Proof. intros Hl Hx. apply Forall_app. split; [exact Hl | now repeat constructor]. Qed.

Lemma get_Forall {V} (Q : nat * V -> Prop) k v l :
  Forall Q l -> Store.get k l = Some v -> Q (k, v).
Proof.
  intros Hl Hg. rewrite Forall_forall in Hl. apply Hl. now apply get_In.
Qed.

Lemma find_Forall {A} (Q : A -> Prop) g l x :
  Forall Q l -> find g l = Some x -> Q x.
Proof.
  intros Hl Hf. rewrite Forall_forall in Hl. apply Hl.
  now apply find_some in Hf.
Qed.

Ltac closures_tac :=
  repeat match goal with
         | |- _ /\ _ => split
         | |- Forall _ (filter _ _) => apply Forall_filter_keep
         | |- Forall _ (_ ++ [_])%list => apply Forall_snoc
         | |- Forall _ (Store.put _ _ _) => apply Forall_put_any
         | |- Forall _ (Store.remove _ _) => apply Forall_remove
         end; try assumption.

Lemma closures_stopRecording s :
  closures_in P s -> closures_in P (stopRecording s).
Proof.
  legacy_state s. unfold closures_in. cbn.
  intros (H1 & H2 & H3 & H4 & H5 & H6).
  destruct rr, ti, si; cbn; closures_tac.
Qed.

Lemma props_stopRecording s : props (stopRecording s) = props s.
Proof. legacy_state s. destruct rr, ti, si; reflexivity. Qed.

Lemma closures_handleSubmit env s :
  P env -> closures_in P s -> closures_in P (handleSubmit env s).
Proof.
  intros He H. unfold handleSubmit.
  destruct (isSubmittingRef (refs s)); [exact H|].
  destruct (falsy (trim (transcriptRef (refs s)))).
  - revert H. legacy_state s. unfold closures_in. cbn.
    intros (H1 & H2 & H3 & H4 & H5 & H6). closures_tac.
  - revert H. legacy_state s. unfold closures_in. cbn.
    intros (H1 & H2 & H3 & H4 & H5 & H6).
    destruct rr, ti, si; cbn; closures_tac;
      try (exists env; split; [exact He | now repeat split]).
Qed.

Lemma props_handleSubmit env s : props (handleSubmit env s) = props s.
Proof.
  unfold handleSubmit. destruct (isSubmittingRef (refs s)); [reflexivity|].
  destruct (falsy (trim (transcriptRef (refs s)))).
  - reflexivity.
  - legacy_state s. destruct rr, ti, si; reflexivity.
Qed.

Lemma held_startListening env s :
  has_SR (host s) = true ->
  held_of (startListening env s) =
  (props s,
   (match silenceRef (refs s) with
    | Some t => filter (fun x => negb (Nat.eqb (t_id x) t)) (timeouts (host s))
    | None => timeouts (host s)
    end ++
    [{| t_id := S (S (next_id (host s))); t_delay := SILENCE_TIMEOUT_MS;
        t_cb := CbSilence env |}])%list,
   (intervals (host s) ++
    [{| i_id := S (S (S (next_id (host s)))); i_period := 1000;
        i_env := env |}])%list,
   Store.put (S (next_id (host s)))
     {| finalTranscript := ""; recognition := next_id (host s);
        closure := env |} (activations (host s)),
   utterances (host s), inflight (host s), requests (host s)).
Proof.
  intros H. legacy_state s. cbn in H. subst sr.
  destruct si; vm_compute; reflexivity.
Qed.

Lemma closures_startListening env s :
  P env -> closures_in P s -> closures_in P (startListening env s).
Proof.
  intros He H. destruct (has_SR (host s)) eqn:E.
  - unfold closures_in. rewrite (held_startListening env s E).
    destruct H as (H1 & H2 & H3 & H4 & H5 & H6).
    cbn [closures_held]. destruct (silenceRef (refs s)); closures_tac.
  - unfold startListening. rewrite E. cbn [negb].
    revert H. apply closures_in_ext. reflexivity.
Qed.

Lemma props_startListening env s : props (startListening env s) = props s.
Proof.
  legacy_state s. destruct sr, si; vm_compute; reflexivity.
Qed.

Lemma closures_resume_speak k s :
  kont_in P k -> closures_in P s -> closures_in P (resume_speak k s).
Proof.
  destruct k as [env|report]; cbn [resume_speak kont_in].
  - apply closures_startListening.
  - intros _. apply closures_in_ext. reflexivity.
Qed.

Lemma props_resume_speak k s : props (resume_speak k s) = props s.
Proof. destruct k; [apply props_startListening | reflexivity]. Qed.

Lemma closures_speakQuestion text k s :
  kont_in P k -> closures_in P s -> closures_in P (speakQuestion text k s).
Proof.
  intros Hk H. unfold speakQuestion. destruct (has_synth (host s)); cbn [negb].
  - revert H. legacy_state s. unfold closures_in. cbn.
    intros (H1 & H2 & H3 & H4 & H5 & H6). closures_tac.
  - now apply closures_resume_speak.
Qed.

Lemma props_speakQuestion text k s : props (speakQuestion text k s) = props s.
Proof.
  unfold speakQuestion. destruct (has_synth (host s)); cbn [negb].
  - reflexivity.
  - apply props_resume_speak.
Qed.

Lemma closures_resume_submit k reply s :
  P (k_env k) -> closures_in P s -> closures_in P (resume_submit k reply s).
Proof.
  intros Hk H. unfold resume_submit. destruct reply as [data|message].
  - destruct (truthy (final_report data)) as [report|].
    + apply closures_speakQuestion; [exact I|].
      revert H. apply closures_in_ext. reflexivity.
    + revert H. legacy_state s. unfold closures_in. cbn.
      intros (H1 & H2 & H3 & H4 & H5 & H6). closures_tac.
  - revert H. apply closures_in_ext. reflexivity.
Qed.

Lemma props_resume_submit k reply s : props (resume_submit k reply s) = props s.
Proof.
  unfold resume_submit. destruct reply as [data|message]; [|reflexivity].
  destruct (truthy (final_report data)); [|reflexivity].
  now rewrite props_speakQuestion.
Qed.

Lemma closures_run_callback cb s :
  callback_in P cb -> P (mount_env (props s)) ->
  closures_in P s -> closures_in P (run_callback cb s).
Proof.
  intros Hcb Hm H. destruct cb as [|env|env|env nextQ]; cbn [run_callback callback_in] in *.
  - unfold init_after_delay. apply closures_speakQuestion; [exact Hm|].
    revert H. apply closures_in_ext. reflexivity.
  - unfold silenceTimeout_callback.
    destruct (negb (falsy (trim (transcriptRef (refs s)))) &&
              negb (isSubmittingRef (refs s))); [|exact H].
    apply closures_handleSubmit; [exact Hcb|]. now apply closures_stopRecording.
  - now apply closures_startListening.
  - unfold next_callback. apply closures_speakQuestion; [exact Hcb|].
    revert H. apply closures_in_ext. reflexivity.
Qed.

Lemma props_run_callback cb s : props (run_callback cb s) = props s.
Proof.
  destruct cb as [|env|env|env nextQ]; cbn [run_callback].
  - unfold init_after_delay. now rewrite props_speakQuestion.
  - unfold silenceTimeout_callback.
    destruct (negb (falsy (trim (transcriptRef (refs s)))) &&
              negb (isSubmittingRef (refs s))); [|reflexivity].
    now rewrite props_handleSubmit, props_stopRecording.
  - apply props_startListening.
  - unfold next_callback. now rewrite props_speakQuestion.
Qed.

Lemma closures_countdown_callback env s :
  P env -> closures_in P s -> closures_in P (countdown_callback env s).
Proof.
  intros He H. unfold countdown_callback.
  destruct (timer (view s) <=? 1)%Z.
  - apply closures_in_ext with (s := handleSubmit env (stopRecording s));
      [reflexivity|].
    apply closures_handleSubmit; [exact He|]. now apply closures_stopRecording.
  - revert H. apply closures_in_ext. reflexivity.
Qed.

Lemma props_countdown_callback env s : props (countdown_callback env s) = props s.
Proof.
  unfold countdown_callback. destruct (timer (view s) <=? 1)%Z; [|reflexivity].
  change (props (handleSubmit env (stopRecording s)) = props s).
  now rewrite props_handleSubmit, props_stopRecording.
Qed.

Lemma closures_recognition_onresult c event s :
  closures_in P s -> closures_in P (recognition_onresult c event s).
Proof.
  intros H. unfold recognition_onresult.
  destruct (Store.get c (activations (host s))) as [a|] eqn:Ea; [|exact H].
  destruct (for_results _ _ _ _) as [fin interim].
  assert (Ha : P (closure a)).
  { destruct H as (_ & _ & H3 & _). exact (get_Forall _ _ _ _ H3 Ea). }
  clear Ea. revert H. legacy_state s. unfold closures_in. cbn.
  intros (H1 & H2 & H3 & H4 & H5 & H6).
  destruct si; cbn; closures_tac.
Qed.

Lemma props_recognition_onresult c event s :
  props (recognition_onresult c event s) = props s.
Proof.
  unfold recognition_onresult.
  destruct (Store.get c (activations (host s))) as [a|]; [|reflexivity].
  destruct (for_results _ _ _ _) as [fin interim].
  legacy_state s. cbn. destruct si; reflexivity.
Qed.

Lemma held_recognition_onerror err s :
  held_of (recognition_onerror err s) = held_of s.
Proof.
  unfold recognition_onerror.
  now destruct (negb (err =? "aborted") && negb (err =? "no-speech")).
Qed.

Lemma held_recognition_onend c s : held_of (recognition_onend c s) = held_of s.
Proof.
  unfold recognition_onend.
  destruct (shouldListenRef (refs s) && negb (isSubmittingRef (refs s)));
    [|reflexivity].
  now destruct (Store.get c (activations (host s))).
Qed.

Lemma closures_unmount s : closures_in P s -> closures_in P (unmount s).
Proof.
  legacy_state s. unfold closures_in. cbn.
  intros (H1 & H2 & H3 & H4 & H5 & H6).
  destruct rr, ti, si; cbn; closures_tac.
Qed.

Lemma props_unmount s : props (unmount s) = props s.
Proof. legacy_state s. destruct rr, ti, si; reflexivity. Qed.

Lemma props_step e s : props (step e s) = props s.
Proof.
  destruct e; cbn [step].
  - destruct (find_timeout id s); [|reflexivity]. now rewrite props_run_callback.
  - destruct (find_interval id s); [|reflexivity]. apply props_countdown_callback.
  - destruct (Store.get r (recognizers (host s))) as [o|]; [|reflexivity].
    destruct (is_live (rec_state o)), (onresult o); try reflexivity.
    apply props_recognition_onresult.
  - destruct (Store.get r (recognizers (host s))) as [o|]; [|reflexivity].
    destruct (is_live (rec_state o)), (onerror o); try reflexivity.
    exact (f_equal (fun x => fst (fst (fst (fst (fst (fst x))))))
             (held_recognition_onerror err s)).
  - destruct (Store.get r (recognizers (host s))) as [o|]; [|reflexivity].
    destruct (is_live (rec_state o)); [|reflexivity].
    destruct (onend o) as [c|]; [|reflexivity].
    exact (f_equal (fun x => fst (fst (fst (fst (fst (fst x))))))
             (held_recognition_onend c _)).
  - now destruct (Store.get u (utterances (host s))).
  - destruct (Store.get u (utterances (host s))) as [[text k]|]; [|reflexivity].
    now rewrite props_resume_speak.
  - destruct (Store.get p (inflight (host s))) as [k|]; [|reflexivity].
    now rewrite props_resume_submit.
  - destruct (mounted (host s) && speechSupported (view s) &&
              is_recording (status (view s))); [|reflexivity].
    unfold handleDoneClick. now rewrite props_handleSubmit, props_stopRecording.
  - destruct (mounted (host s)); [apply props_unmount | reflexivity].
Qed.

Lemma closures_step e s :
  (is_click e = true -> P (current_env s)) ->
  P (mount_env (props s)) ->
  closures_in P s -> closures_in P (step e s).
Proof.
  intros Hc Hm H. destruct e; cbn [step].
  - destruct (find_timeout id s) as [t|] eqn:Ef; [|exact H].
    assert (Ht : callback_in P (t_cb t)).
    { destruct H as (H1 & _). exact (find_Forall _ _ _ _ H1 Ef). }
    apply closures_run_callback; [exact Ht | exact Hm |].
    revert H. legacy_state s. unfold closures_in. cbn.
    intros (H1 & H2 & H3 & H4 & H5 & H6). closures_tac.
  - destruct (find_interval id s) as [i|] eqn:Ef; [|exact H].
    apply closures_countdown_callback; [|exact H].
    destruct H as (_ & H2 & _). exact (find_Forall _ _ _ _ H2 Ef).
  - destruct (Store.get r (recognizers (host s))) as [o|]; [|exact H].
    destruct (is_live (rec_state o)), (onresult o); try exact H.
    now apply closures_recognition_onresult.
  - destruct (Store.get r (recognizers (host s))) as [o|]; [|exact H].
    destruct (is_live (rec_state o)), (onerror o); try exact H.
    revert H. apply closures_in_ext. apply held_recognition_onerror.
  - destruct (Store.get r (recognizers (host s))) as [o|]; [|exact H].
    destruct (is_live (rec_state o)); [|exact H].
    destruct (onend o) as [c|].
    + apply closures_in_ext with (s := s); [|exact H].
      now rewrite held_recognition_onend.
    + revert H. apply closures_in_ext. reflexivity.
  - destruct (Store.get u (utterances (host s))); [|exact H].
    revert H. apply closures_in_ext. reflexivity.
  - destruct (Store.get u (utterances (host s))) as [[text k]|] eqn:Eu; [|exact H].
    assert (Hk : kont_in P k).
    { destruct H as (_ & _ & _ & H4 & _).
      exact (get_Forall _ _ _ _ H4 Eu). }
    apply closures_resume_speak; [exact Hk|].
    revert H. legacy_state s. unfold closures_in. cbn.
    intros (H1 & H2 & H3 & H4 & H5 & H6). closures_tac.
  - destruct (Store.get p (inflight (host s))) as [k|] eqn:Ek; [|exact H].
    assert (Hk : P (k_env k)).
    { destruct H as (_ & _ & _ & _ & H5 & _).
      exact (get_Forall _ _ _ _ H5 Ek). }
    apply closures_resume_submit; [exact Hk|].
    revert H. legacy_state s. unfold closures_in. cbn.
    intros (H1 & H2 & H3 & H4 & H5 & H6). closures_tac.
  - destruct (mounted (host s) && speechSupported (view s) &&
              is_recording (status (view s))); [|exact H].
    unfold handleDoneClick. apply closures_handleSubmit.
    + exact (Hc eq_refl).
    + now apply closures_stopRecording.
  - destruct (mounted (host s)); [now apply closures_unmount | exact H].
Qed.

End LegacyClosures.

Section LegacyAsked.

Import Legacy.

Lemma asked_stopRecording s :
  previousQuestions (view (stopRecording s)) = previousQuestions (view s).
Proof. legacy_state s. destruct rr, ti, si; reflexivity. Qed.

Lemma asked_handleSubmit env s :
  previousQuestions (view (handleSubmit env s)) = previousQuestions (view s).
Proof.
  unfold handleSubmit. destruct (isSubmittingRef (refs s)); [reflexivity|].
  destruct (falsy (trim (transcriptRef (refs s)))); [reflexivity|].
  legacy_state s. destruct rr, ti, si; reflexivity.
Qed.

Lemma asked_startListening env s :
  previousQuestions (view (startListening env s)) = previousQuestions (view s).
Proof. legacy_state s. destruct sr, si; vm_compute; reflexivity. Qed.

Lemma asked_resume_speak k s :
  previousQuestions (view (resume_speak k s)) = previousQuestions (view s).
Proof. destruct k; [apply asked_startListening | reflexivity]. Qed.

Lemma asked_speakQuestion text k s :
  previousQuestions (view (speakQuestion text k s)) = previousQuestions (view s).
Proof.
  unfold speakQuestion. destruct (has_synth (host s)); cbn [negb];
    [reflexivity | apply asked_resume_speak].
Qed.

Lemma asked_run_callback cb s :
  previousQuestions (view (run_callback cb s)) = previousQuestions (view s).
Proof.
  destruct cb as [|env|env|env nextQ]; cbn [run_callback].
  - unfold init_after_delay. now rewrite asked_speakQuestion.
  - unfold silenceTimeout_callback.
    destruct (negb (falsy (trim (transcriptRef (refs s)))) &&
              negb (isSubmittingRef (refs s))); [|reflexivity].
    now rewrite asked_handleSubmit, asked_stopRecording.
  - apply asked_startListening.
  - unfold next_callback. now rewrite asked_speakQuestion.
Qed.

Lemma asked_countdown_callback env s :
  previousQuestions (view (countdown_callback env s)) = previousQuestions (view s).
Proof.
  unfold countdown_callback. destruct (timer (view s) <=? 1)%Z; [|reflexivity].
  change (previousQuestions (view (handleSubmit env (stopRecording s))) =
          previousQuestions (view s)).
  now rewrite asked_handleSubmit, asked_stopRecording.
Qed.

Lemma asked_recognition_onresult c event s :
  previousQuestions (view (recognition_onresult c event s)) =
  previousQuestions (view s).
Proof.
  unfold recognition_onresult.
  destruct (Store.get c (activations (host s))) as [a|]; [|reflexivity].
  destruct (for_results _ _ _ _) as [fin interim].
  legacy_state s. cbn. destruct si; reflexivity.
Qed.

Lemma asked_recognition_onerror err s :
  previousQuestions (view (recognition_onerror err s)) = previousQuestions (view s).
Proof.
  unfold recognition_onerror.
  now destruct (negb (err =? "aborted") && negb (err =? "no-speech")).
Qed.

Lemma asked_recognition_onend c s :
  previousQuestions (view (recognition_onend c s)) = previousQuestions (view s).
Proof.
  unfold recognition_onend.
  destruct (shouldListenRef (refs s) && negb (isSubmittingRef (refs s)));
    [|reflexivity].
  now destruct (Store.get c (activations (host s))).
Qed.

Lemma asked_unmount s :
  previousQuestions (view (unmount s)) = previousQuestions (view s).
Proof. legacy_state s. destruct rr, ti, si; reflexivity. Qed.

Lemma asked_resume_submit (Q : string -> Prop) k reply s :
  Q (e_currentQuestion (k_env k)) ->
  Forall Q (previousQuestions (view s)) ->
  Forall Q (previousQuestions (view (resume_submit k reply s))).
Proof.
  intros Hk H. unfold resume_submit. destruct reply as [data|message]; [|exact H].
  destruct (truthy (final_report data)) as [report|].
  - now rewrite asked_speakQuestion.
  - cbn. apply Forall_app. split; [exact H | now repeat constructor].
Qed.

(** Only the reply to a request extends the questions asked, and by the
    question of the closure that sent the request. *)
Lemma asked_step (Q : string -> Prop) e s :
  Forall (fun k => Q (e_currentQuestion (k_env (snd k)))) (inflight (host s)) ->
  Forall Q (previousQuestions (view s)) ->
  Forall Q (previousQuestions (view (step e s))).
Proof.
  intros Hk H. destruct e; cbn [step].
  - destruct (find_timeout id s); [|exact H]. now rewrite asked_run_callback.
  - destruct (find_interval id s); [|exact H].
    now rewrite asked_countdown_callback.
  - destruct (Store.get r (recognizers (host s))) as [o|]; [|exact H].
    destruct (is_live (rec_state o)), (onresult o); try exact H.
    now rewrite asked_recognition_onresult.
  - destruct (Store.get r (recognizers (host s))) as [o|]; [|exact H].
    destruct (is_live (rec_state o)), (onerror o); try exact H.
    now rewrite asked_recognition_onerror.
  - destruct (Store.get r (recognizers (host s))) as [o|]; [|exact H].
    destruct (is_live (rec_state o)); [|exact H].
    destruct (onend o) as [c|]; [|exact H].
    now rewrite asked_recognition_onend.
  - now destruct (Store.get u (utterances (host s))).
  - destruct (Store.get u (utterances (host s))) as [[text k]|]; [|exact H].
    now rewrite asked_resume_speak.
  - destruct (Store.get p (inflight (host s))) as [k|] eqn:Ek; [|exact H].
    apply asked_resume_submit; [|exact H].
    exact (get_Forall _ _ _ _ Hk Ek).
  - destruct (mounted (host s) && speechSupported (view s) &&
              is_recording (status (view s))); [|exact H].
    unfold handleDoneClick. now rewrite asked_handleSubmit, asked_stopRecording.
  - destruct (mounted (host s)); [|exact H]. now rewrite asked_unmount.
Qed.

Lemma legacy_run_cons e es s : run (e :: es) s = run es (step e s).
Proof. reflexivity. Qed.

Lemma props_run es : forall s, props (run es s) = props s.
Proof.
  induction es as [|e es IH]; intros s; [reflexivity|].
  now rewrite legacy_run_cons, IH, props_step.
Qed.

Lemma closures_in_weaken (P Q : Env -> Prop) s :
  (forall env, P env -> Q env) -> closures_in P s -> closures_in Q s.
Proof.
  intros HPQ. unfold closures_in, held_of. cbn [closures_held].
  intros (H1 & H2 & H3 & H4 & H5 & H6).
  repeat split; try (eapply Forall_impl; [|eassumption]; cbn beta; intros x Hx; auto).
  - destruct (t_cb x); cbn in *; auto.
  - destruct (snd (snd x)); cbn in *; auto.
  - destruct Hx as (env & He & Hc). exists env. auto.
Qed.

Lemma stale_step p e s :
  is_click e = false -> stale p s -> stale p (step e s).
Proof.
  intros He (Hp & Hc & Hq). split; [|split].
  - now rewrite props_step.
  - apply closures_step; [rewrite He; discriminate | now rewrite Hp | exact Hc].
  - apply asked_step; [|exact Hq].
    destruct Hc as (_ & _ & _ & _ & H5 & _).
    eapply Forall_impl; [|exact H5]. cbn beta. now intros k <-.
Qed.

Lemma stale_mount p sr synth : stale p (mount p sr synth).
Proof.
  split; [|split].
  - now destruct sr.
  - unfold closures_in. destruct sr; cbn; repeat split; repeat constructor.
  - destruct sr; constructor.
Qed.

Lemma stale_run p es : forall s,
  forallb (fun e => negb (is_click e)) es = true -> stale p s -> stale p (run es s).
Proof.
  induction es as [|e es IH]; intros s Hes H; [exact H|].
  cbn [forallb] in Hes. apply andb_prop in Hes. destruct Hes as (He & Hes).
  rewrite legacy_run_cons. apply IH; [exact Hes|].
  apply stale_step; [|exact H]. now destruct (is_click e).
Qed.

(** The closures in use are the first and those of the clicks. *)
Lemma closures_run p es : forall L s,
  props s = p ->
  closures_in (fun env => env = mount_env p \/ In env L) s ->
  closures_in (fun env => env = mount_env p \/ In env (L ++ clicked es s)%list)
    (run es s).
Proof.
  induction es as [|e es IH]; intros L s Hp H.
  - cbn [clicked run fold_left]. now rewrite app_nil_r.
  - rewrite legacy_run_cons. cbn [clicked]. rewrite app_assoc.
    apply IH; [now rewrite props_step|].
    apply closures_step.
    + intros He. right. apply in_or_app. right.
      destruct e; try discriminate He. now left.
    + left. now rewrite Hp.
    + revert H. apply closures_in_weaken. intros env [E|E]; [now left|].
      right. apply in_or_app. now left.
Qed.

End LegacyAsked.

(** * The first version of the session: what it sends, and its unmounting *)

(** X22.  In the first version of the component a handler sends what its
    closure holds.  In every session in which the done button is never
    clicked, every request, whatever the turn, carries the first question
    and empty histories, and the questions recorded as asked are copies of
    the first question: the timers of every listening phase belong to the
    handlers of the first render. *)
Theorem timers_submit_the_first_question :
  forall p sr synth es,
    forallb (fun e => negb (is_click e)) es = true ->
    let s := Legacy.run es (Legacy.mount p sr synth) in
    Forall (fun r => session_id r = sessionId p /\
                     current_question r = firstQuestion p /\
                     previous_questions r = [] /\
                     previous_answers r = [])
      (Legacy.requests (Legacy.host s)) /\
    Forall (eq (firstQuestion p)) (Legacy.previousQuestions (Legacy.view s)).
Proof.
  intros p sr synth es Hes s.
  destruct (stale_run p es _ Hes (stale_mount p sr synth)) as (Hp & Hc & Hq).
  fold s in Hp, Hc, Hq. split; [|exact Hq].
  destruct Hc as (_ & _ & _ & _ & _ & H6). cbn beta in H6.
  eapply Forall_impl; [|exact H6]. cbn beta.
  intros r (env & <- & H1 & H2 & H3 & H4). rewrite Hp in H1. now repeat split.
Qed.

Lemma timers_submit_the_first_question_witness :
  let es := (two_silent_turns ++
             [Legacy.Settled 16 (Legacy.Resolved second_question)])%list in
  let s := Legacy.run es (Legacy.mount example_props true true) in
  forallb (fun e => negb (is_click e)) es = true /\
  Legacy.currentQuestion (Legacy.view s) = "Why this role?" /\
  map current_answer (Legacy.requests (Legacy.host s)) = ["Hello"; "World"] /\
  Forall (fun r => current_question r = firstQuestion example_props)
    (Legacy.requests (Legacy.host s)) /\
  Legacy.previousQuestions (Legacy.view s) =
    [firstQuestion example_props; firstQuestion example_props].
Proof.
  cbv zeta.
  assert (Hes : forallb (fun e => negb (is_click e))
                  (two_silent_turns ++
                   [Legacy.Settled 16 (Legacy.Resolved second_question)])%list
                = true) by reflexivity.
  split; [exact Hes|].
  pose proof (timers_submit_the_first_question example_props true true _ Hes)
    as H.
  cbv zeta in H. destruct H as (H & _).
  split; [vm_compute; reflexivity|]. split; [vm_compute; reflexivity|].
  split; [|vm_compute; reflexivity].
  eapply Forall_impl; [|exact H]. cbn beta. now intros r (_ & Hr & _).
Defined.

(** X23.  In the first version of the component every request carries the
    question and the histories of one render: the first, or one in which
    the done button was clicked.  A request sent by a timer never carries
    what has been displayed since. *)
Theorem requests_carry_a_rendered_closure :
  forall p sr synth es,
    let s0 := Legacy.mount p sr synth in
    Forall (fun r => exists env,
              (env = Legacy.mount_env p \/ In env (clicked es s0)) /\
              carries env (sessionId p) r)
      (Legacy.requests (Legacy.host (Legacy.run es s0))).
Proof.
  intros p sr synth es s0.
  assert (Hp : Legacy.props s0 = p) by (unfold s0; now destruct sr).
  assert (H0 : closures_in (fun env => env = Legacy.mount_env p \/ In env []) s0).
  { apply closures_in_weaken with (P := eq (Legacy.mount_env p)).
    - intros env <-. now left.
    - apply stale_mount. }
  pose proof (closures_run p es [] s0 Hp H0) as H. cbn [app] in H.
  destruct H as (_ & _ & _ & _ & _ & H6). cbn beta in H6.
  rewrite props_run, Hp in H6. exact H6.
Qed.

Section LegacyUnmount.

Import Legacy.

Lemma legacy_unmount_flat s :
  unmount s =
  {| props := props s; view := view s; refs := refs s;
     host := {| has_SR := has_SR (host s); has_synth := has_synth (host s);
                mounted := false; next_id := next_id (host s);
                timeouts :=
                  match silenceRef (refs s) with
                  | Some t => filter (fun x => negb (Nat.eqb (t_id x) t))
                                (timeouts (host s))
                  | None => timeouts (host s)
                  end;
                intervals :=
                  match timerRef (refs s) with
                  | Some i => filter (fun x => negb (Nat.eqb (i_id x) i))
                                (intervals (host s))
                  | None => intervals (host s)
                  end;
                recognizers :=
                  match recognitionRef (refs s) with
                  | Some r =>
                      Store.update r
                        (fun o => match rec_state o with
                                  | RecStarted => set_rec_state RecStopping o
                                  | _ => o
                                  end) (recognizers (host s))
                  | None => recognizers (host s)
                  end;
                activations := activations (host s);
                utterances := utterances (host s);
                inflight := inflight (host s);
                requests := requests (host s);
                completed := completed (host s) |} |}.
Proof. legacy_state s. destruct rr, ti, si; reflexivity. Qed.

End LegacyUnmount.

(** X24.  In the first version of the component unmounting does not end
    the listening.  The clean-up stops the recognition object and clears the
    timers that the refs hold, but leaves [shouldListenRef] set; so when the
    end event of the stopped object arrives, its end handler starts the
    object again: the component is listening as before, with the same
    object and handlers, although it is no longer on the page. *)
Theorem unmount_does_not_end_listening :
  forall s r c,
    Legacy.mounted (Legacy.host s) = true ->
    hearing r c s ->
    let s1 := Legacy.step Legacy.Unmount s in
    let s2 := Legacy.step (Legacy.RecEnd r) s1 in
    (exists o1, Store.get r (Legacy.recognizers (Legacy.host s1)) = Some o1 /\
                Legacy.rec_state o1 = Legacy.RecStopping) /\
    Legacy.intervals (Legacy.host s1) =
      match Legacy.timerRef (Legacy.refs s) with
      | Some i => filter (fun x => negb (Nat.eqb (Legacy.i_id x) i))
                    (Legacy.intervals (Legacy.host s))
      | None => Legacy.intervals (Legacy.host s)
      end /\
    Legacy.mounted (Legacy.host s2) = false /\
    hearing r c s2.
Proof.
  intros s r c Hm (Hr & Hl & Hs & (o & Ho & Hst & Hres & Hend) & (a & Ha & Hra))
         s1 s2.
  assert (E1 : s1 = Legacy.unmount s).
  { unfold s1. cbn [Legacy.step]. now rewrite Hm. }
  rewrite legacy_unmount_flat, Hr in E1.
  assert (G1 : Store.get r (Legacy.recognizers (Legacy.host s1)) =
               Some (Legacy.set_rec_state Legacy.RecStopping o)).
  { rewrite E1. cbn [Legacy.host Legacy.recognizers].
    rewrite get_update_same, Ho. cbn [option_map]. now rewrite Hst. }
  assert (R1 : Legacy.refs s1 = Legacy.refs s) by (rewrite E1; reflexivity).
  assert (A1 : Legacy.activations (Legacy.host s1) =
               Legacy.activations (Legacy.host s)) by (rewrite E1; reflexivity).
  assert (M1 : Legacy.mounted (Legacy.host s1) = false) by (rewrite E1; reflexivity).
  assert (I1 : Legacy.intervals (Legacy.host s1) =
               match Legacy.timerRef (Legacy.refs s) with
               | Some i => filter (fun x => negb (Nat.eqb (Legacy.i_id x) i))
                             (Legacy.intervals (Legacy.host s))
               | None => Legacy.intervals (Legacy.host s)
               end) by (rewrite E1; reflexivity).
  clearbody s1. clear E1.
  split; [eexists; split; [exact G1 | reflexivity]|]. split; [exact I1|].
  assert (E2 : s2 =
               Legacy.rec_start r
                 (Legacy.update_recognition r
                    (Legacy.set_rec_state Legacy.RecEnded) s1)).
  { unfold s2. cbn [Legacy.step]. rewrite G1.
    cbn [Legacy.rec_state Legacy.set_rec_state Legacy.is_live Legacy.onend].
    rewrite Hend. unfold Legacy.recognition_onend.
    change (Legacy.refs (Legacy.update_recognition r
              (Legacy.set_rec_state Legacy.RecEnded) s1))
      with (Legacy.refs s1).
    change (Legacy.activations (Legacy.host (Legacy.update_recognition r
              (Legacy.set_rec_state Legacy.RecEnded) s1)))
      with (Legacy.activations (Legacy.host s1)).
    rewrite R1, Hl, Hs, A1, Ha, Hra. reflexivity. }
  clearbody s2. rewrite E2. unfold hearing.
  change (Legacy.refs (Legacy.rec_start r
            (Legacy.update_recognition r
               (Legacy.set_rec_state Legacy.RecEnded) s1)))
    with (Legacy.refs s1).
  rewrite R1. split; [exact M1|].
  split; [exact Hr|]. split; [exact Hl|]. split; [exact Hs|]. split.
  - eexists. split.
    + unfold Legacy.rec_start, Legacy.update_recognition.
      cbn [Legacy.host Legacy.recognizers Legacy.set_recognizers Legacy.with_host].
      rewrite !get_update_same, G1. reflexivity.
    + cbn. now repeat split.
  - exists a. split; [|exact Hra].
    change (Store.get c (Legacy.activations (Legacy.host s1)) = Some a).
    now rewrite A1.
Qed.

Lemma unmount_does_not_end_listening_witness :
  let s2 := Legacy.step (Legacy.RecEnd 3)
              (Legacy.step Legacy.Unmount legacy_listening) in
  (Legacy.mounted (Legacy.host legacy_listening) = true /\
   hearing 3 4 legacy_listening) /\
  Legacy.mounted (Legacy.host s2) = false /\ hearing 3 4 s2.
Proof.
  cbv zeta.
  assert (Hm : Legacy.mounted (Legacy.host legacy_listening) = true)
    by reflexivity.
  assert (Hh : hearing 3 4 legacy_listening).
  { unfold hearing. split; [reflexivity|]. split; [reflexivity|].
    split; [reflexivity|]. split.
    - eexists. split; [vm_compute; reflexivity|]. now repeat split.
    - eexists. split; [vm_compute; reflexivity|]. reflexivity. }
  split; [exact (conj Hm Hh)|].
  pose proof (unmount_does_not_end_listening legacy_listening 3 4 Hm Hh) as H.
  cbv zeta in H. destruct H as (_ & _ & H3 & H4). exact (conj H3 H4).
Defined.

(** * The first version of the session: a second start *)

Section LegacyStart.

Import Legacy.

Lemma find_app_some {A} (f : A -> bool) l1 l2 x :
  find f l1 = Some x -> find f (l1 ++ l2)%list = Some x.
Proof.
  induction l1 as [|y l1 IH]; simpl; [discriminate|].
  destruct (f y); [trivial | exact IH].
Qed.

Lemma find_filter_some {A} (f g : A -> bool) l x :
  find f l = Some x -> g x = true -> find f (filter g l) = Some x.
Proof.
  induction l as [|y l IH]; simpl; [discriminate|].
  destruct (f y) eqn:E.
  - intros H Hg. inversion H; subst y. rewrite Hg. simpl. now rewrite E.
  - intros H Hg. destruct (g y); simpl; [rewrite E|]; now apply IH.
Qed.

(** [startListening] followed by [stopRecording], in the browser and in
    the refs. *)
Lemma start_then_stop env s :
  has_SR (host s) = true ->
  let n := next_id (host s) in
  let s2 := stopRecording (startListening env s) in
  recognitionRef (refs (startListening env s)) = Some n /\
  timerRef (refs (startListening env s)) = Some (S (S (S n))) /\
  recognitionRef (refs s2) = None /\
  timerRef (refs s2) = None /\
  recognizers (host s2) =
    Store.update n
      (fun o => match rec_state o with
                | RecStarted => set_rec_state RecStopping o
                | _ => o
                end)
      (Store.update n
         (fun o => match rec_state o with
                   | RecCreated | RecEnded => set_rec_state RecStarted o
                   | _ => o
                   end)
         (Store.update n
            (fun o => {| continuous := true; interimResults := true;
                         lang := "en-US"; onresult := Some (S n);
                         onerror := Some (S n); onend := Some (S n);
                         rec_state := rec_state o |})
            (Store.put n
               {| continuous := false; interimResults := false; lang := "";
                  onresult := None; onerror := None; onend := None;
                  rec_state := RecCreated |}
               (recognizers (host s))))) /\
  intervals (host s2) =
    filter (fun x => negb (Nat.eqb (i_id x) (S (S (S n)))))
      (intervals (host s) ++
       [{| i_id := S (S (S n)); i_period := 1000; i_env := env |}])%list.
Proof.
  intros H. legacy_state s. cbn in H. subst sr.
  destruct si; vm_compute; repeat split; reflexivity.
Qed.

End LegacyStart.

(** X25.  In the first version of the component [startListening] releases
    nothing.  When it runs while the component is already listening, the
    refs are overwritten with a new recognition object and a new countdown;
    the object and the countdown that they held stay started and
    registered, and [stopRecording], which stops only what the refs hold,
    does not reach them any more. *)
Theorem second_start_orphans_the_first :
  forall env s r c i iv,
    Legacy.has_SR (Legacy.host s) = true ->
    hearing r c s ->
    r < Legacy.next_id (Legacy.host s) ->
    Legacy.timerRef (Legacy.refs s) = Some i ->
    i < Legacy.next_id (Legacy.host s) ->
    Legacy.find_interval i s = Some iv ->
    let n := Legacy.next_id (Legacy.host s) in
    let s1 := Legacy.startListening env s in
    let s2 := Legacy.stopRecording s1 in
    Legacy.recognitionRef (Legacy.refs s1) = Some n /\
    Legacy.timerRef (Legacy.refs s1) = Some (S (S (S n))) /\
    Legacy.recognitionRef (Legacy.refs s2) = None /\
    Legacy.timerRef (Legacy.refs s2) = None /\
    (exists o, Store.get r (Legacy.recognizers (Legacy.host s2)) = Some o /\
               Legacy.rec_state o = Legacy.RecStarted /\
               Legacy.onend o = Some c) /\
    Legacy.find_interval i s2 = Some iv.
Proof.
  intros env s r c i iv Hsr (Hr & Hl & Hs & (o & Ho & Hst & Hres & Hend) & _)
         Hlt Hi Hilt Hiv n s1 s2.
  destruct (start_then_stop env s Hsr) as (E1 & E2 & E3 & E4 & E5 & E6).
  fold n s1 s2 in E1, E2, E3, E4, E5, E6.
  split; [exact E1|]. split; [exact E2|]. split; [exact E3|]. split; [exact E4|].
  assert (Hne : r <> n) by (unfold n; lia).
  split.
  - exists o. split; [|now split].
    rewrite E5. rewrite !get_update_other by exact Hne.
    now rewrite get_put_other by exact Hne.
  - unfold Legacy.find_interval. rewrite E6.
    apply find_filter_some.
    + apply find_app_some. exact Hiv.
    + unfold Legacy.find_interval in Hiv. apply find_some in Hiv.
      destruct Hiv as (_ & Hid). apply Nat.eqb_eq in Hid. rewrite Hid.
      apply negb_true_iff. apply Nat.eqb_neq. unfold n. lia.
Qed.

Lemma second_start_orphans_the_first_witness :
  let s0 := Legacy.run two_clicks (Legacy.mount example_props true true) in
  let s := Legacy.clearTimeout 8 s0 in
  let s2 := Legacy.stopRecording (Legacy.step (Legacy.TimeoutFires 8) s0) in
  (hearing 9 10 s /\ Legacy.timerRef (Legacy.refs s) = Some 12) /\
  Legacy.recognitionRef (Legacy.refs s2) = None /\
  (exists o, Store.get 9 (Legacy.recognizers (Legacy.host s2)) = Some o /\
             Legacy.rec_state o = Legacy.RecStarted /\
             Legacy.onend o = Some 10) /\
  Legacy.find_interval 12 s2 <> None.
Proof.
  cbv zeta.
  set (s0 := Legacy.run two_clicks (Legacy.mount example_props true true)).
  set (s := Legacy.clearTimeout 8 s0).
  assert (Hh : hearing 9 10 s).
  { unfold hearing. split; [reflexivity|]. split; [reflexivity|].
    split; [reflexivity|]. split.
    - eexists. split; [vm_compute; reflexivity|]. now repeat split.
    - eexists. split; [vm_compute; reflexivity|]. reflexivity. }
  assert (Hsr : Legacy.has_SR (Legacy.host s) = true) by reflexivity.
  assert (Hi : Legacy.timerRef (Legacy.refs s) = Some 12) by reflexivity.
  assert (Hn : Legacy.next_id (Legacy.host s) = 13) by reflexivity.
  assert (Hiv : Legacy.find_interval 12 s =
                Some {| Legacy.i_id := 12; Legacy.i_period := 1000;
                        Legacy.i_env := Legacy.mount_env example_props |})
    by (vm_compute; reflexivity).
  split; [exact (conj Hh Hi)|].
  assert (Hlt1 : 9 < Legacy.next_id (Legacy.host s)) by (rewrite Hn; lia).
  assert (Hlt2 : 12 < Legacy.next_id (Legacy.host s)) by (rewrite Hn; lia).
  pose proof (second_start_orphans_the_first
                (Legacy.mount_env example_props) s 9 10 12 _
                Hsr Hh Hlt1 Hi Hlt2 Hiv) as H.
  cbv zeta in H. destruct H as (_ & _ & H3 & _ & H5 & H6).
  assert (Es : Legacy.step (Legacy.TimeoutFires 8) s0 =
               Legacy.startListening (Legacy.mount_env example_props) s)
    by (vm_compute; reflexivity).
  rewrite Es. split; [exact H3|]. split; [exact H5|].
  rewrite H6. discriminate.
Defined.

(** * The application: from the upload to the report *)

Section AppFacts.

Lemma In_skipn {A} (x : A) n l : In x (skipn n l) -> In x l.
Proof.
  revert l. induction n as [|n IH]; intros l H; [exact H|].
  destruct l as [|y l]; [exact H|]. right. now apply IH.
Qed.

Lemma app_ok_more U R U' R' a :
  app_ok U R a -> app_ok (U ++ U')%list (R ++ R')%list a.
Proof.
  intros ((H1 & H2 & H3) & H4 & H5 & H6 & H7).
  split; [split; [exact H1 | split; [exact H2|]]|].
  { intros d Hd. apply in_or_app. left. now apply H3. }
  split; [exact H4|]. split; [|split; [|exact H7]].
  - intros Hp. destruct (H5 Hp) as (d & ss & K1 & K2 & K3 & K4 & K5 & K6).
    exists d, ss. split; [apply in_or_app; now left|].
    repeat (split; [assumption|]). now apply reported_more.
  - intros r Hr. apply in_or_app. left. now apply H6.
Qed.

Lemma fold_handleUploadSuccess calls : forall a,
  let a' := fold_left (fun a d => App.handleUploadSuccess d a) calls a in
  App.uploader a' = App.uploader a /\
  App.interviewSession a' = App.interviewSession a /\
  App.finalReport a' = App.finalReport a /\
  App.speechRecognition a' = App.speechRecognition a /\
  App.speechSynthesis a' = App.speechSynthesis a /\
  (calls = [] -> a' = a) /\
  (calls <> [] ->
   App.phase a' = App.interview /\
   exists d, In d calls /\
     App.sessionId a' = ResumeUploader.session_id d /\
     App.firstQuestion a' = ResumeUploader.first_question d).
Proof.
  induction calls as [|d calls IH]; intros a; cbv zeta.
  - cbn [fold_left]. do 5 (split; [reflexivity|]).
    split; [reflexivity|]. intros H. now destruct H.
  - cbn [fold_left].
    pose proof (IH (App.handleUploadSuccess d a)) as K. cbv zeta in K.
    destruct K as (K1 & K2 & K3 & K4 & K5 & K6 & K7).
    rewrite K1, K2, K3, K4, K5.
    repeat split; try reflexivity; try discriminate.
    + destruct calls as [|d' calls'].
      * now rewrite (K6 eq_refl).
      * now destruct (K7 ltac:(discriminate)) as (Kp & _).
    + destruct calls as [|d' calls'].
      * rewrite (K6 eq_refl). exists d. split; [now left | now split].
      * destruct (K7 ltac:(discriminate)) as (_ & d2 & Hd2 & E1 & E2).
        exists d2. split; [now right | now split].
Qed.

Lemma fold_handleInterviewComplete calls : forall a,
  let a' := fold_left (fun a r => App.handleInterviewComplete r a) calls a in
  App.uploader a' = App.uploader a /\
  App.interviewSession a' = App.interviewSession a /\
  App.sessionId a' = App.sessionId a /\
  App.firstQuestion a' = App.firstQuestion a /\
  App.speechRecognition a' = App.speechRecognition a /\
  App.speechSynthesis a' = App.speechSynthesis a /\
  (calls = [] -> a' = a) /\
  (calls <> [] ->
   App.phase a' = App.report /\
   exists r, In r calls /\ App.finalReport a' = Some r).
Proof.
  induction calls as [|r calls IH]; intros a; cbv zeta.
  - cbn [fold_left]. do 6 (split; [reflexivity|]).
    split; [reflexivity|]. intros H. now destruct H.
  - cbn [fold_left].
    pose proof (IH (App.handleInterviewComplete r a)) as K. cbv zeta in K.
    destruct K as (K1 & K2 & K3 & K4 & K5 & K6 & K7 & K8).
    rewrite K1, K2, K3, K4, K5, K6.
    repeat split; try reflexivity; try discriminate.
    + destruct calls as [|r' calls'].
      * now rewrite (K7 eq_refl).
      * now destruct (K8 ltac:(discriminate)) as (Kp & _).
    + destruct calls as [|r' calls'].
      * rewrite (K7 eq_refl). exists r. split; [now left | reflexivity].
      * destruct (K8 ltac:(discriminate)) as (_ & r2 & Hr2 & E1).
        exists r2. split; [now right | exact E1].
Qed.

Lemma app_ok_uploader U R e a :
  app_ok U R a ->
  app_ok (U ++ uploads_resolved [e])%list R (App.step (App.InUploader e) a).
Proof.
  intros H. pose proof H as ((H1 & H2 & H3) & H4 & H5 & H6 & H7).
  cbn [App.step]. destruct (App.phase a) eqn:Ep;
    try (rewrite <- (app_nil_r R); now apply app_ok_more).
  destruct (H4 eq_refl) as (Hs & Hf).
  set (u' := ResumeUploader.step e (App.uploader a)).
  set (calls := skipn (length (ResumeUploader.started (App.uploader a)))
                  (ResumeUploader.started u')).
  set (a0 := App.set_uploader u' a).
  assert (U1 : uploader_ok u') by exact (uploader_ok_step e _ H1).
  assert (U2 : Forall (fun d => ResumeUploader.fileRef u' = Some d)
                 (ResumeUploader.started u'))
    by exact (started_from_ref_step e _ H1 H2).
  assert (U3 : forall d, ResumeUploader.fileRef u' = Some d ->
                         In d (U ++ uploads_resolved [e])%list)
    by exact (ref_from_replies_step U e _ H1 H3).
  pose proof (fold_handleUploadSuccess calls a0) as K. cbv zeta in K.
  destruct K as (K1 & K2 & K3 & K4 & K5 & K6 & K7).
  set (a1 := fold_left (fun a d => App.handleUploadSuccess d a) calls a0) in *.
  destruct calls as [|d0 calls'] eqn:Ec.
  - rewrite (K6 eq_refl). unfold App.render. cbn [App.phase a0 App.set_uploader].
    rewrite Ep. split; [exact (conj U1 (conj U2 U3))|].
    split; [intros _; exact (conj Hs Hf)|].
    split; [intros Hn; now destruct Hn|].
    split.
    + intros r Hr. cbn in Hr. rewrite Hf in Hr. discriminate Hr.
    + change (App.phase a = App.report <-> App.finalReport a <> None).
      rewrite Ep. exact H7.
  - destruct (K7 ltac:(discriminate)) as (Kp & d & Hd & E1 & E2).
    unfold App.render. rewrite Kp.
    assert (Hin : In d (U ++ uploads_resolved [e])%list).
    { apply U3. rewrite Forall_forall in U2. apply U2.
      apply In_skipn with (n := length (ResumeUploader.started (App.uploader a))).
      fold calls. rewrite Ec. exact Hd. }
    split; [|split; [|split; [|split]]].
    + cbn [App.uploader App.set_interviewSession]. rewrite K1.
      exact (conj U1 (conj U2 U3)).
    + cbn [App.phase App.set_interviewSession]. rewrite Kp. discriminate.
    + intros _. exists d. eexists. split; [exact Hin|].
      cbn [App.sessionId App.firstQuestion App.interviewSession
           App.set_interviewSession].
      split; [exact E1|]. split; [exact E2|]. split; [reflexivity|].
      split; [apply requests_ok_mount|].
      apply (reported_more [] R). apply reported_mount.
    + intros r. cbn [App.finalReport App.set_interviewSession].
      rewrite K3. cbn. rewrite Hf. discriminate.
    + cbn [App.phase App.finalReport App.set_interviewSession].
      rewrite Kp, K3. cbn [App.finalReport a0 App.set_uploader]. rewrite Hf.
      split; [discriminate | intros Hn; now destruct Hn].
Qed.

Lemma app_ok_session U R e a :
  app_ok U R a ->
  app_ok U (R ++ reports_of [e])%list (App.step (App.InSession e) a).
Proof.
  intros H. pose proof H as ((H1 & H2 & H3) & H4 & H5 & H6 & H7).
  assert (Hsame : app_ok U (R ++ reports_of [e])%list a).
  { rewrite <- (app_nil_r U). now apply app_ok_more. }
  cbn [App.step]. destruct (App.interviewSession a) as [ss|] eqn:Es; [|exact Hsame].
  destruct (App.reaches (App.phase a) e); [|exact Hsame].
  assert (Hp : App.phase a <> App.upload).
  { intros Hp. destruct (H4 Hp) as (Hn & _). congruence. }
  destruct (H5 Hp) as (d & ss0 & D1 & D2 & D3 & D4 & D5 & D6).
  assert (ss0 = ss) by congruence. subst ss0.
  set (p := App.session_props (App.sessionId a) (App.firstQuestion a)) in *.
  set (ss' := App.step_session e ss).
  set (calls := skipn (length (completed (host ss))) (completed (host ss'))).
  set (R' := (R ++ reports_of [e])%list).
  assert (S1 : requests_ok p ss') by now apply requests_ok_step.
  assert (S2 : reported R' ss') by now apply reported_step.
  assert (S3 : forall r, In r calls -> In r R').
  { intros r Hr. destruct S2 as (S2 & _). rewrite Forall_forall in S2.
    apply S2. eapply In_skipn. exact Hr. }
  set (a0 := App.set_interviewSession (Some ss') a).
  pose proof (fold_handleInterviewComplete calls a0) as K. cbv zeta in K.
  destruct K as (K1 & K2 & K3 & K4 & K5 & K6 & K7 & K8).
  set (a1 := fold_left (fun a r => App.handleInterviewComplete r a) calls a0) in *.
  assert (Hold : forall r, App.finalReport a = Some r -> In r R').
  { intros r Hr. apply in_or_app. left. now apply H6. }
  destruct calls as [|r0 calls'] eqn:Ec.
  - rewrite (K7 eq_refl).
    assert (Er : App.render (App.phase a) a0 = a0).
    { unfold App.render. cbn [App.phase a0 App.set_interviewSession].
      now destruct (App.phase a). }
    rewrite Er. split; [exact (conj H1 (conj H2 H3))|].
    split; [intros Hu; now destruct (Hp Hu)|].
    split; [|split; [exact Hold | exact H7]].
    intros _. exists d, ss'.
    split; [exact D1|]. split; [exact D2|]. split; [exact D3|].
    split; [reflexivity|]. split; [exact S1 | exact S2].
  - destruct (K8 ltac:(discriminate)) as (Kp & r & Hr & E1).
    assert (Hrep : forall x, In x R' -> In x (R' ++ reports_of [Unmount])%list).
    { intros x Hx. apply in_or_app. now left. }
    assert (Hfin : forall x, App.finalReport a1 = Some x -> In x R').
    { intros x Hx. rewrite E1 in Hx. inversion Hx; subst x. now apply S3. }
    assert (Hsess : exists ss2,
               App.interviewSession (App.render (App.phase a) a1) = Some ss2 /\
               requests_ok p ss2 /\ reported R' ss2).
    { unfold App.render. rewrite Kp. destruct (App.phase a).
      - now destruct Hp.
      - cbn [App.interviewSession App.set_interviewSession]. rewrite K2.
        cbn [App.interviewSession a0 App.set_interviewSession option_map].
        eexists. split; [reflexivity|]. split.
        + now apply requests_ok_step.
        + pose proof (reported_step R' Unmount ss' S2) as S4.
          cbn in S4. now rewrite app_nil_r in S4.
      - rewrite K2. cbn [App.interviewSession a0 App.set_interviewSession].
        eexists. split; [reflexivity|]. now split. }
    destruct Hsess as (ss2 & Q1 & Q2 & Q3).
    assert (Hframe : App.phase (App.render (App.phase a) a1) = App.report /\
                     App.finalReport (App.render (App.phase a) a1) =
                       App.finalReport a1 /\
                     App.sessionId (App.render (App.phase a) a1) = App.sessionId a /\
                     App.firstQuestion (App.render (App.phase a) a1) =
                       App.firstQuestion a /\
                     App.uploader (App.render (App.phase a) a1) = App.uploader a).
    { unfold App.render. rewrite Kp.
      destruct (App.phase a); cbn; rewrite ?Kp, ?K1, ?K3, ?K4; now repeat split. }
    destruct Hframe as (F1 & F2 & F3 & F4 & F5).
    split; [rewrite F5; exact (conj H1 (conj H2 H3))|].
    split; [rewrite F1; discriminate|].
    split; [|split].
    + intros _. exists d, ss2. rewrite F3, F4.
      split; [exact D1|]. split; [exact D2|]. split; [exact D3|].
      split; [exact Q1|]. split; [exact Q2 | exact Q3].
    + rewrite F2. exact Hfin.
    + rewrite F1, F2, E1. split; [discriminate | reflexivity].
Qed.

Lemma app_ok_mount sr synth : app_ok [] [] (App.mount sr synth).
Proof.
  split; [split; [apply uploader_ok_mount | split; [constructor | discriminate]]|].
  split; [now split|]. split; [intros H; now destruct H|].
  split; [discriminate|]. split; [discriminate | intros H; now destruct H].
Qed.

Lemma app_run_cons e es a : App.run (e :: es) a = App.run es (App.step e a).
Proof. reflexivity. Qed.

Lemma app_ok_run es : forall U R a,
  app_ok U R a ->
  app_ok (U ++ uploads_resolved (uploader_events es))%list
         (R ++ reports_of (session_events es))%list (App.run es a).
Proof.
  induction es as [|e es IH]; intros U R a H.
  - cbn. now rewrite !app_nil_r.
  - rewrite app_run_cons. destruct e as [e'|e'].
    + change (uploader_events (App.InUploader e' :: es))
        with ([e'] ++ uploader_events es)%list.
      change (session_events (App.InUploader e' :: es)) with (session_events es).
      unfold uploads_resolved at 1. rewrite flat_map_app, app_assoc.
      apply IH. now apply app_ok_uploader.
    + change (session_events (App.InSession e' :: es))
        with ([e'] ++ session_events es)%list.
      change (uploader_events (App.InSession e' :: es)) with (uploader_events es).
      rewrite reports_of_app, app_assoc.
      apply IH. now apply app_ok_session.
Qed.

End AppFacts.

(** X26.  From the upload to the report.  In every session of the
    application the interview session exists exactly once the uploader has
    been left; it runs with the session identifier and the first question of
    data that an upload returned, and every request it has sent carries that
    identifier.  The report is shown exactly in the last phase, and it is
    the final report of a reply that the session received. *)
Theorem answers_go_to_the_uploaded_session :
  forall sr synth es,
    let a := App.run es (App.mount sr synth) in
    (App.phase a = App.upload <-> App.interviewSession a = None) /\
    (forall ss,
       App.interviewSession a = Some ss ->
       exists d,
         In d (uploads_resolved (uploader_events es)) /\
         props ss = {| sessionId := ResumeUploader.session_id d;
                       firstQuestion := ResumeUploader.first_question d |} /\
         Forall (fun r => session_id r = ResumeUploader.session_id d)
           (requests (host ss))) /\
    (App.phase a = App.report <-> App.finalReport a <> None) /\
    (forall r, App.finalReport a = Some r ->
               In r (reports_of (session_events es))).
Proof.
  intros sr synth es a.
  pose proof (app_ok_run es [] [] _ (app_ok_mount sr synth)) as H.
  cbn [app] in H. fold a in H.
  destruct H as (_ & H4 & H5 & H6 & H7).
  split; [|split; [|split; [exact H7 | exact H6]]].
  - split; [intros Hp; now destruct (H4 Hp)|].
    intros Hn. destruct (App.phase a) eqn:Ep; [reflexivity| |];
      destruct H5 as (d & ss & _ & _ & _ & Hs & _); congruence.
  - intros ss Hs.
    assert (Hp : App.phase a <> App.upload).
    { intros Hp. destruct (H4 Hp) as (Hn & _). congruence. }
    destruct (H5 Hp) as (d & ss0 & D1 & D2 & D3 & D4 & D5 & D6).
    assert (ss0 = ss) by congruence. subst ss0.
    exists d. split; [exact D1|].
    destruct D5 as (Q1 & Q2 & _). split.
    + rewrite Q1. unfold App.session_props. now rewrite D2, D3.
    + eapply Forall_impl; [|exact Q2]. intros r (Hr & _).
      rewrite Hr. cbn. exact D2.
Qed.
